(* ===== verification/_CoqProject ===== *)
-Q . S2P
Prelude.v
PyStr.v
PyValue.v
Json.v
JsonFacts.v
Crypto.v
Trust.v
Capability.v
World.v
FsFacts.v
RunRegistry.v
Evidence.v
Policy.v
Rules.v
ToolRegistry.v
Artifacts.v
Builtin.v
Commands.v
Vcs.v
Executor.v
Datetime.v
Waiver.v
Trace.v
Skills.v
SkillRunner.v
Pipeline.v
PipelineTrace.v
Mcp.v
Deploy.v
Gate.v
Render.v
Cli.v
Argparse.v
Main.v
Requests.v
Postgres.v
Gateway.v
Outbox.v
Delivery.v
