(* ===== verification/Prelude.v ===== *)
(** * A verification development of the SDLC control plane

    The control plane ([control-plane/src/sdlc/], Python) runs agents through a
    software life cycle.  An agent reaches tools only through one door: a policy
    decision (OPA), a capability token bound to a live run, an allowlist with JSON
    Schemas, and evidence of every call.  Around that door it keeps workflow
    artifacts (idea, specification, threat model, plan, task, review, security
    review), role skills that have a language model draft them, an orchestrator, a
    traceability report, waivers of findings and a pre-deployment gate.  OPA decides by
    the repository's own policies ([policies/], Rego).  Beside the control plane stands
    the application it is used on ([apps/], Go): a service of requests with an outbox
    of events behind an HTTP gateway, a publisher and a worker.

    ** How the code is modelled

    Pure code is in [res] (a value or an exception with Python's class hierarchy),
    stateful code in [ST], which keeps the state changes made before an exception.
    The state is [World]: the file system (with symbolic links), the runs, a count
    of the readings made from outside, and the log of calls to the outside.  What
    is outside - clock, UUIDs, OPA and GitHub over HTTP, processes, the model, the
    JSON Schema validator, zlib - is the class [Env] of [World.v]; a service may
    answer differently each time.  [Any] values are [value], dictionaries keep their
    insertion order, a [str] is its UTF-8 text (lone surrogates included, as WTF-8)
    and bytes are strings of 8-bit characters.

    ** Files, in order

    - [Prelude]: exceptions, [res], [ST], tactics and the hint databases;
      [PyStr], [PyValue]: strings, values, [str] and [repr];
      [Json], [JsonFacts]: [json.dumps] and [json.loads], their round trip;
      [Crypto]: SHA-256, HMAC, base64url, constant-time comparison;
      [Datetime]: [datetime.fromisoformat] and UTC formatting.
    - [Trust] ([trust.py]); [Capability] ([runner/capability.py]): tokens;
      [World], [FsFacts]: the world and its file system;
      [RunRegistry] ([runner/registry.py]): runs and capabilities, also as a labelled
      step relation with its invariant.
    - [Evidence] ([evidence/]): the content-addressed store, compression, records;
      [Policy] ([policy/]): the OPA client, and the class [PolicyEvaluator] against
      which the executor, the skills and the pipeline are proved;
      [ToolRegistry] ([tools/registry.py]); [Artifacts] ([artifacts/registry.py]).
    - [Builtin] ([tools/builtin.py]), [Commands] ([tools/commands.py]), [Vcs]
      ([tools/vcs.py]): the tools; [Executor] ([runner/executor.py]): one gated call.
    - [Waiver] ([waiver/enforcement.py]), [Trace] ([traceability.py]), [Skills]
      ([skills/], [llm/]), [SkillRunner] ([skills/runner.py]), [Pipeline]
      ([pipeline/orchestrator.py]); [PipelineTrace]: the pipeline composed with the skills
      and the trace.
    - [Rules] ([policies/*.rego]): the three policies, rule by rule; [Gate]: the
      policies composed with the client, the executor and the release verification.
    - [Mcp] ([mcp/] and the stdio loop of [cli.py]), [Deploy] ([deploy_verify/]),
      [Render] ([artifacts/render.py]), [Cli] ([cli.py]): the outer surfaces;
      [Argparse]: Python's [argparse] as far as it is used; [Main]: [build_parser] and
      [main] ([cli.py]), the whole program from its command line.
    - [Requests] ([apps/domain/internal/domain/]): the request service against the class
      [Store] of its stores; [Gateway] ([apps/gateway/server.go]): the HTTP handlers,
      and their composition with the service; [Outbox] ([apps/publisher/internal/outbox/] and
      [apps/worker/internal/consumer/]): the poller against the class [Broker], the
      handler against the class [Dedupe], with the gates in memory and over PostgreSQL as its
      instances; [Postgres] ([postgres.go] and the migration of the domain): the tables, and
      the second instances of [Store] and of [Confined], the class of stores whose answers
      about one subject depend on its requests alone; [Delivery]: the chain from the service
      to the worker ([apps/publisher/main.go], [apps/worker/main.go]).

    A definition has the name of what it models; a part of a function that the model
    names separately (a guard, a loop body) is listed with the lines it stands for.
    A class becomes a Module, or a Record with functions over it.

    ** What the theorems show

    - The door: a token is accepted only if it was signed with the registry's secret
      for a live run, the tool and the scope ([decode_token_sound], [check_valid_iff],
      [token_roundtrip], [issue_then_check], [finish_revokes]); output is returned
      only after every gate ([allowed_only_if_gated]), a refusal changes nothing but
      evidence ([refused_without_effect]), every call is evidence ([call_audited]);
      and the executor refines a specification with one constructor for each outcome
      ([execute_refines], against [executed]).  The policy client fails closed
      ([policy_fail_closed]).
    - The bridge: a request is an error or one gated call ([mcp_single_door],
      [mcp_output_authorised]), injection overrides nothing
      ([inject_capability_correct]), no input ends the loop
      ([serve_stdio_answers_all], [bridge_session]).
    - The tools: confinement of writes, commands and branches ([writer_confined],
      [only_allowlisted_commands], [branch_accepted_iff], [open_pr_ordered]) and
      round trips of the stores ([store_roundtrip], [capture_recoverable]).
    - The life cycle: which risks block ([evaluate_risk_correct], [waivers_lapse]),
      what a trace holds and that its search ends ([trace_selects_chain],
      [trace_complete_iff], [trace_terminates]), that the model is asked at most once, when, and what
      becomes of its answer ([model_consulted_only_if_gated],
      [allowed_artifact_validated]), the seven stages ([pipeline_stages],
      [security_review_verdict]), and, composing these, what the trace of a run
      holds: all its documents and every stage ([pipeline_trace]).
    - Release: only OPA's allow releases, the artifacts say what it said and the
      bundle commits to the candidate ([release_gated], [bundle_commits],
      [deploy_verify_exit_code]); documents of the contracts' shapes always render
      ([well_typed_renders]).
    - The policies: with OPA serving the repository's Rego ([OpaServes]), a release needs
      every point and a human approval ([release_only_if_ready]), a transition is one of the
      tables ([transition_only_if_legal]), no call writes to a path that shows a protected
      zone ([protected_zones_unwritten]), and no task is done without a review
      ([task_done_reviewed]).
    - The program: every command line that is written out, with values other than [--],
      is read back ([command_line_roundtrip]); the exit codes ([main_exit_code]); and, composing [main],
      the candidate, the client and the policies, [sdlc deploy-verify] exits with 0
      exactly for a release that is ready ([release_command]).
    - The application: the outbox tells of every request a walk through its life cycle
      ([outbox_tells_lifecycle]); through the gateway nobody but an operator learns of the
      requests of others, over the store in memory or the deployed PostgreSQL tables
      ([others_invisible], [user_answers_invisible]), or changes a status
      ([update_status_answer]), and both agree on valid requests ([create_answer]);
      batches publish in order ([batch_in_order]) and no event is applied twice, whatever
      answers of the database are lost ([applied_at_most_once]); and, composed, what the worker applies are creations
      of the outbox, once each ([worker_sees_created]).  Both stores keep the class
      [Store] ([memory_store], [postgres_store]).

    Where the code does less than its documentation says, a theorem states what it
    does ([decode_token_raises], [policy_raises], [token_of_another_run],
    [artifact_id_unconfined], [whole_tree_passes_checks], [same_person_waiver],
    [idea_overwritten], [superseded_bypasses_review], [protected_document_overwritten],
    [medium_without_risk_id_passes], [concurrent_updates_leave_lifecycle],
    [failed_apply_lost], [lost_mark_never_applied], [bad_identifier_is_internal] and others).

    ** Bounds and fuel

    Link resolution follows at most [MAX_LINKS] (40) links, as the kernel does.  The
    trace search has the number of artifacts as fuel, which [trace_terminates] shows
    to be enough; the decoder of JSON has a number of calls that the length of its
    input bounds ([loads_dumps_gen] shows it enough for encoded text); [self_and_parents] has the length of the path.
    Every other recursion is structural.  Python integers are unbounded ([Z]);
    [json.loads] refuses integers of more than 4300 digits, as the interpreter does.

    ** Not modelled

    - The texts of help and usage errors.  Some command lines are read differently by releases of
      Python 3.12 - an argument [--] or an option's value [--], clusters of short options,
      ambiguous abbreviations - and are left to an arbitrary function, [other_reading].
    - The reconfiguration of the standard streams; standard output is taken to be UTF-8.
    - The validator behind [env_iter_errors], OPA, git, GitHub, the model and
      processes: they are arbitrary, and theorems hold for each of their answers.
      A process may change the file system as it likes; its timeout is one of the
      exceptions it can raise.
    - The interpreter's recursion limit, permissions, path length limits, the [surrogateescape] of file names, other
      processes changing files between two steps; printing an integer of more than
      4300 digits; the message of a JSON decoding error; which exception is raised
      when the paths of schema errors cannot be compared.
    - The order in which CPython iterates over a set of paths is an arbitrary
      permutation, the parameter [set_order] of [Trace].
    - Of Rego, the evaluation engine: a policy is the list of its deny rules, and
      [time.parse_rfc3339_ns] is the parameter [parse_rfc3339_ns] of [Rules]; numbers are compared as they are
      written, which is OPA's comparison on integers, and the theorems have no floats.
    - Of the Go services, the PostgreSQL store of the publisher, NATS, OIDC, gRPC and the
      generated code; the verifier of tokens and the JSON decoders are parameters.
    - The editor plugin and the tests.

    ** Prelude

    This file holds the effects of the Python code (results, exceptions, state), and
    the generic notation, tactics, hints and lemmas every other file uses. *)

From stdpp Require Export base tactics list gmap strings sorting.
From Stdlib Require Export ZArith Lia.

(** * Exceptions

    The exception classes the control plane raises or catches, with Python's
    class hierarchy.  An exception carries the message (or the key) it was
    raised with. *)

Inductive exn_class :=
  | ValueError | JSONDecodeError | UnicodeEncodeError | UnicodeDecodeError
  | BinasciiError
  | RunUnknownError | SensitiveContentError | SkillError | CandidateError
  | LookupError | KeyError | IndexError | UnknownToolError | UnknownSkillError
  | TypeError | AttributeError | AssertionError
  | RuntimeError | LLMError | PipelineError | MCPError | RecursionError
  | OSError | FileNotFoundError | FileExistsError | IsADirectoryError | NotADirectoryError
  | TimeoutError | URLError | HTTPError (code : Z)
  | HTTPException
  | SubprocessError
  | OverflowError.

#[export] Instance exn_class_eq_dec : EqDecision exn_class.
Proof. solve_decision. Defined.

(** The direct base class, [None] for a direct subclass of [Exception]. *)
Definition exn_parent (c : exn_class) : option exn_class :=
  match c with
  | JSONDecodeError | UnicodeEncodeError | UnicodeDecodeError | BinasciiError
  | RunUnknownError | SensitiveContentError | SkillError | CandidateError => Some ValueError
  | KeyError | IndexError => Some LookupError
  | UnknownToolError | UnknownSkillError => Some KeyError
  | LLMError | PipelineError | MCPError | RecursionError => Some RuntimeError
  | FileNotFoundError | FileExistsError | IsADirectoryError | NotADirectoryError
  | TimeoutError | URLError => Some OSError
  | HTTPError _ => Some URLError
  | _ => None
  end.

(** [issubclass c d]; the hierarchy is three deep. *)
Definition issubclass (c d : exn_class) : bool :=
  let up o := (o : option exn_class) ≫= exn_parent in
  bool_decide (c = d)
  || bool_decide (exn_parent c = Some d)
  || bool_decide (up (exn_parent c) = Some d).

Record exn := Exn { exn_cls : exn_class; exn_msg : string }.

#[export] Instance exn_eq_dec : EqDecision exn.
Proof. solve_decision. Defined.

(** [except (C1, C2, ...)]: an exception is caught by the listed classes. *)
Definition caught_by (cs : list exn_class) (e : exn) : bool :=
  existsb (issubclass (exn_cls e)) cs.

(** * Results of pure code *)

Inductive res (A : Type) :=
  | Ok (a : A)
  | Raise (e : exn).
Arguments Ok {A} a.
Arguments Raise {A} e.

#[export] Instance res_eq_dec `{EqDecision A} : EqDecision (res A).
Proof. solve_decision. Defined.

#[export] Instance res_ret : MRet res := fun _ a => Ok a.
#[export] Instance res_bind : MBind res := fun _ _ f m =>
  match m with Ok a => f a | Raise e => Raise e end.
#[export] Instance res_fmap : FMap res := fun _ _ f m =>
  match m with Ok a => Ok (f a) | Raise e => Raise e end.

Definition raise {A} (c : exn_class) (msg : string) : res A := Raise (Exn c msg).

(** [try: m except cs: h] on pure code. *)
Definition try_except {A} (m : res A) (cs : list exn_class) (h : res A) : res A :=
  match m with
  | Ok a => Ok a
  | Raise e => if caught_by cs e then h else Raise e
  end.

Definition is_ok {A} (m : res A) : bool := match m with Ok _ => true | Raise _ => false end.

Fixpoint mapR {A B} (f : A → res B) (l : list A) : res (list B) :=
  match l with
  | [] => Ok []
  | x :: l => y ← f x; ys ← mapR f l; mret (y :: ys)
  end.

(** * Stateful code

    A Python statement sequence over a state [W] either finishes or raises;
    in both cases the state changes made so far persist. *)

Definition ST (W A : Type) : Type := W → res A * W.

#[export] Instance ST_ret W : MRet (ST W) := fun _ a w => (Ok a, w).
#[export] Instance ST_bind W : MBind (ST W) := fun _ _ f m w =>
  match m w with
  | (Ok a, w') => f a w'
  | (Raise e, w') => (Raise e, w')
  end.
#[export] Instance ST_fmap W : FMap (ST W) := fun _ _ f m w =>
  match m w with
  | (Ok a, w') => (Ok (f a), w')
  | (Raise e, w') => (Raise e, w')
  end.

Definition lift {W A} (m : res A) : ST W A := fun w => (m, w).
Definition raiseS {W A} (c : exn_class) (msg : string) : ST W A := lift (raise c msg).
Definition getS {W} : ST W W := fun w => (Ok w, w).
Definition putS {W} (w : W) : ST W unit := fun _ => (Ok tt, w).
Definition modifyS {W} (f : W → W) : ST W unit := fun w => (Ok tt, f w).

(** [try: m except cs: h]: the handler runs in the state [m] left. *)
Definition catch {W A} (m : ST W A) (cs : list exn_class) (h : exn → ST W A) : ST W A :=
  fun w => match m w with
           | (Ok a, w') => (Ok a, w')
           | (Raise e, w') => if caught_by cs e then h e w' else (Raise e, w')
           end.

(** [try: m except Exception: h]; every exception here derives from [Exception]. *)
Definition catch_all {W A} (m : ST W A) (h : exn → ST W A) : ST W A :=
  fun w => match m w with
           | (Ok a, w') => (Ok a, w')
           | (Raise e, w') => h e w'
           end.

(** Run code of a component in a larger state, through a lens. *)
Definition zoom {W V A} (get : W → V) (set : V → W → W) (m : ST V A) : ST W A :=
  fun w => let '(r, v) := m (get w) in (r, set v w).

(** * Generic lemmas *)

Lemma res_bind_Ok {A B} (m : res A) (f : A → res B) b :
  m ≫= f = Ok b ↔ ∃ a, m = Ok a ∧ f a = Ok b.
Proof.
  destruct m; simpl; split; [eauto | intros (x & Hx & ?); congruence | done | intros (?&?&?); done].
Qed.

Lemma res_bind_Raise {A B} (m : res A) (f : A → res B) e :
  m ≫= f = Raise e ↔ m = Raise e ∨ ∃ a, m = Ok a ∧ f a = Raise e.
Proof. destruct m; simpl; naive_solver. Qed.

Lemma ST_bind_eq {W A B} (m : ST W A) (f : A → ST W B) w :
  (m ≫= f) w = match m w with
               | (Ok a, w') => f a w'
               | (Raise e, w') => (Raise e, w')
               end.
Proof. done. Qed.

Lemma ST_ret_eq {W A} (a : A) (w : W) : mret (M := ST W) a w = (Ok a, w).
Proof. done. Qed.
Lemma getS_eq {W} (w : W) : getS w = (Ok w, w).
Proof. done. Qed.
Lemma modifyS_eq {W} (f : W → W) w : modifyS f w = (Ok tt, f w).
Proof. done. Qed.
Lemma lift_eq {W A} (m : res A) (w : W) : lift m w = (m, w).
Proof. done. Qed.
Lemma raiseS_eq {W A} c msg (w : W) : raiseS (A := A) c msg w = (raise c msg, w).
Proof. done. Qed.

Lemma ST_bind_Ok {W A B} (m : ST W A) (f : A → ST W B) w b w2 :
  (m ≫= f) w = (Ok b, w2) ↔ ∃ a w1, m w = (Ok a, w1) ∧ f a w1 = (Ok b, w2).
Proof.
  rewrite ST_bind_eq. destruct (m w) as [[a|e] w1]; split.
  - eauto.
  - intros (x & w' & Hx & ?). congruence.
  - done.
  - intros (?&?&?&?). done.
Qed.

Lemma mapR_Ok {A B} (f : A → res B) l ys :
  mapR f l = Ok ys ↔ Forall2 (λ x y, f x = Ok y) l ys.
Proof.
  revert ys. induction l as [|x l IH]; intros ys; simpl.
  - split; [intros Hy; simplify_eq; constructor | inversion 1; done].
  - rewrite res_bind_Ok. split.
    + intros (y & Hy & H). apply res_bind_Ok in H as (ys' & Hys & H').
      unfold mret, res_ret in H'. simplify_eq.
      constructor; [done | by apply IH].
    + inversion 1; subst. eexists. split; [done|].
      apply res_bind_Ok. eexists. split; [by apply IH | done].
Qed.

Lemma mapR_length {A B} (f : A → res B) l ys : mapR f l = Ok ys → length ys = length l.
Proof. rewrite mapR_Ok. intros H. symmetry. by eapply Forall2_length. Qed.

Lemma filter_every {A} (P : A → Prop) `{∀ x, Decision (P x)} (l : list A) : (∀ x, x ∈ l → P x) → filter P l = l.
Proof.
  induction l as [|x l IH]; intros Hl; [done|]. rewrite filter_cons_True by (apply Hl; set_solver).
  f_equal. apply IH. set_solver.
Qed.

Lemma mapR_pure {A B} (f : A → res B) (g : A → B) l :
  (∀ x, x ∈ l → f x = Ok (g x)) → mapR f l = Ok (g <$> l).
Proof.
  induction l as [|x l IH]; intros H; simpl; [done|].
  rewrite (H x) by set_solver. simpl. rewrite IH by set_solver. done.
Qed.

Lemma lift_Ok {W A} (m : res A) (w : W) a w' :
  lift m w = (Ok a, w') ↔ m = Ok a ∧ w' = w.
Proof. unfold lift. naive_solver. Qed.

Lemma zoom_eq {W V A} (g : W → V) (s : V → W → W) (m : ST V A) w :
  zoom g s m w = ((m (g w)).1, s (m (g w)).2 w).
Proof. unfold zoom. by destruct (m (g w)). Qed.

(** A decidable order with the same comparisons sorts to the same list. *)
Lemma merge_sort_id {A} (R : relation A) `{∀ x y, Decision (R x y)}
    `{!Transitive R, !Total R, !AntiSymm (=) R} l :
  Sorted R l → merge_sort R l = l.
Proof.
  intros Hl. apply (Sorted_unique R); [|done|apply merge_sort_Permutation].
  apply Sorted_merge_sort; apply _.
Qed.

(** * Association lists with string keys *)

(** Python's [d.get(k)] and [d[k] = v]: a new key goes last. *)
Fixpoint kget {A} (d : list (string * A)) (k : string) : option A :=
  match d with [] => None | (k', v) :: d => if bool_decide (k' = k) then Some v else kget d k end.
Fixpoint kset {A} (d : list (string * A)) (k : string) (v : A) : list (string * A) :=
  match d with
  | [] => [(k, v)]
  | (k', v') :: d => if bool_decide (k' = k) then (k', v) :: d else (k', v') :: kset d k v
  end.

Lemma kget_kset_ne {A} (d : list (string * A)) k k' v : k ≠ k' → kget (kset d k v) k' = kget d k'.
Proof.
  intros Hk. induction d as [|[k1 v1] d IH]; cbn [kset kget]; [by rewrite bool_decide_false|].
  case_bool_decide; cbn [kget]; [subst; by rewrite !bool_decide_false|]. case_bool_decide; auto.
Qed.
Lemma kget_kset {A} (d : list (string * A)) k v : kget (kset d k v) k = Some v.
Proof.
  induction d as [|[k1 v1] d IH]; cbn [kset kget]; [by rewrite bool_decide_true|].
  case_bool_decide; cbn [kget]; [by rewrite bool_decide_true|]. by rewrite bool_decide_false.
Qed.
Lemma kset_fresh {A} (m : list (string * A)) k v : k ∉ m.*1 → kset m k v = (m ++ [(k, v)])%list.
Proof.
  induction m as [|[k' v'] m IH]; intros Hk; [done|]. cbn in *.
  rewrite bool_decide_false by set_solver. f_equal. apply IH. set_solver.
Qed.

(** * Tactics *)

(** Decompose every hypothesis [x ← m; k = Ok _] and [(x ← m; k) w = (Ok _, _)]. *)
Ltac inv_bind :=
  repeat match goal with
    | H : mbind _ _ = Ok _ |- _ => apply res_bind_Ok in H as (?&?&?)
    | H : mbind _ _ _ = (Ok _, _) |- _ => apply ST_bind_Ok in H as (?&?&?&?)
    | H : mret ?x = Ok ?y |- _ => change (Ok x = Ok y) in H
    | H : mret ?x ?w = (Ok ?y, ?w') |- _ => change ((Ok x, w) = (Ok y, w')) in H
    | H : lift _ _ = (Ok _, _) |- _ => apply lift_Ok in H as [??]
    | H : raise _ _ = Ok _ |- _ => discriminate H
    | H : raiseS _ _ _ = (Ok _, _) |- _ => discriminate H
    end; simplify_eq/=.

(** Split the first [match]/[if] of a hypothesis, remembering the equation. *)
Ltac case_in H :=
  match type of H with
  | context [match ?x with _ => _ end] => destruct x eqn:?
  end.

Create HintDb py discriminated.
Create Rewrite HintDb py.
#[export] Hint Rewrite @ST_bind_eq @zoom_eq @ST_ret_eq @getS_eq @modifyS_eq @lift_eq @raiseS_eq : py.
#[export] Hint Resolve mapR_length : py.
