(* ===== verification/PyStr.v ===== *)
(** Python strings and bytes.

    A [str] is represented by the bytes of its generalised UTF-8 encoding (a
    lone surrogate is its three-byte form), a [bytes] object by its bytes; both
    are Rocq strings.  Byte-wise comparison of such encodings is comparison by
    code points, and prefix, suffix and substring tests agree with Python's,
    so those work on the representation; [len] and slices count code points. *)

From S2P Require Import Prelude.
From Stdlib Require Import Ascii Bool.

(** Documentation only: which of the two a string stands for. *)
Abbreviation pystr := string (only parsing).
Abbreviation bytes := string (only parsing).

Declare Scope pystr_scope.
Delimit Scope pystr_scope with pystr.
Notation "s ≟ t" := (bool_decide ((s : string) = t)) (at level 70, no associativity) : pystr_scope.
Open Scope pystr_scope.
#[local] Open Scope Z_scope.

(** * Characters *)

Definition byte_of (a : ascii) : Z := Z.of_N (N_of_ascii a).
Definition chr (b : Z) : ascii := ascii_of_N (Z.to_N b).
Definition str1 (b : Z) : string := String (chr b) "".

Fixpoint chars (s : string) : list ascii :=
  match s with "" => [] | String a s => a :: chars s end.
Fixpoint of_chars (l : list ascii) : string :=
  match l with [] => "" | a :: l => String a (of_chars l) end.

(** The double quote, the backslash and the line break. *)
Definition DQ : ascii := chr 34.
Definition BS : ascii := chr 92.
Definition LF : string := str1 10.

(** * Basic operations *)

Fixpoint startswith (s p : string) {struct p} : bool :=
  match p, s with
  | "", _ => true
  | String a p, String b s => bool_decide (a = b) && startswith s p
  | String _ _, "" => false
  end.

Fixpoint drop_str (n : nat) (s : string) : string :=
  match n, s with
  | O, _ => s
  | S n, String _ s => drop_str n s
  | S _, "" => ""
  end.
Fixpoint take_str (n : nat) (s : string) : string :=
  match n, s with
  | O, _ => ""
  | S n, String a s => String a (take_str n s)
  | S _, "" => ""
  end.

Definition endswith (s p : string) : bool := startswith (String.rev s) (String.rev p).

(** [sub in s] *)
Fixpoint contains (s sub : string) : bool :=
  startswith s sub || match s with "" => false | String _ s => contains s sub end.

(** [s.replace(c, t)] for a one-character [c]. *)
Fixpoint replace_char (s : string) (c : ascii) (t : string) : string :=
  match s with
  | "" => ""
  | String a s => (if bool_decide (a = c) then t else String a "") +:+ replace_char s c t
  end.

(** [s.split(c)] for a one-character separator: never empty. *)
Fixpoint split_char (c : ascii) (s : string) : list string :=
  match s with
  | "" => [""]
  | String a s =>
      if bool_decide (a = c) then "" :: split_char c s
      else match split_char c s with
           | [] => [String a ""]
           | w :: ws => String a w :: ws
           end
  end.

(** [sep.join(l)] *)
Fixpoint join (sep : string) (l : list string) : string :=
  match l with
  | [] => ""
  | [x] => x
  | x :: l => x +:+ sep +:+ join sep l
  end.

(** [s.rstrip(c)] for one character. *)
Fixpoint drop_while_chr (c : ascii) (s : string) : string :=
  match s with
  | String a s' => if bool_decide (a = c) then drop_while_chr c s' else s
  | "" => ""
  end.
Definition rstrip_char (c : ascii) (s : string) : string :=
  String.rev (drop_while_chr c (String.rev s)).

(** * Code points *)

Definition utf8_enc (cp : Z) : string :=
  if cp <? 128 then str1 cp
  else if cp <? 2048 then
    String (chr (192 + cp / 64)) (str1 (128 + cp mod 64))
  else if cp <? 65536 then
    String (chr (224 + cp / 4096)) (String (chr (128 + (cp / 64) mod 64)) (str1 (128 + cp mod 64)))
  else
    String (chr (240 + cp / 262144)) (String (chr (128 + (cp / 4096) mod 64))
      (String (chr (128 + (cp / 64) mod 64)) (str1 (128 + cp mod 64)))).

Fixpoint utf8_encode (cps : list Z) : string :=
  match cps with [] => "" | cp :: cps => utf8_enc cp +:+ utf8_encode cps end.

(** The code points of a representation; a byte that starts no sequence stands
    for itself, which a [str] never contains. *)
Fixpoint utf8_decode (s : string) : list Z :=
  match s with
  | "" => []
  | String a s1 =>
      let b := byte_of a in
      if b <? 192 then b :: utf8_decode s1
      else match s1 with
      | "" => [b]
      | String a1 s2 =>
          let b1 := byte_of a1 mod 64 in
          if b <? 224 then (b - 192) * 64 + b1 :: utf8_decode s2
          else match s2 with
          | "" => [b]
          | String a2 s3 =>
              let b2 := byte_of a2 mod 64 in
              if b <? 240 then (b - 224) * 4096 + b1 * 64 + b2 :: utf8_decode s3
              else match s3 with
              | "" => [b]
              | String a3 s4 =>
                  (b - 240) * 262144 + b1 * 4096 + b2 * 64 + byte_of a3 mod 64 :: utf8_decode s4
              end
          end
      end
  end.

Definition is_cp (cp : Z) : Prop := 0 ≤ cp < 1114112.
Definition is_surrogate (cp : Z) : bool := (55296 <=? cp) && (cp <? 57344).
(** A Unicode scalar value. *)
Definition is_scalar (cp : Z) : Prop := is_cp cp ∧ is_surrogate cp = false.

(** The [str] values: encodings of code point sequences; [ustr]: those with
    no lone surrogate. *)
Definition wf_str (s : string) : Prop := ∃ cps, Forall is_cp cps ∧ s = utf8_encode cps.
Definition ustr (s : string) : Prop := ∃ cps, Forall is_scalar cps ∧ s = utf8_encode cps.

Definition py_len (s : string) : nat := length (utf8_decode s).
(** [s[:n]] *)
Definition py_take (n : nat) (s : string) : string := utf8_encode (take n (utf8_decode s)).

(** [str.isspace] of one code point (also what [strip] removes). *)
Definition is_space (cp : Z) : bool :=
  ((9 <=? cp) && (cp <=? 13)) || ((28 <=? cp) && (cp <=? 32))
  || bool_decide (cp ∈ [133; 160; 5760; 8232; 8233; 8239; 8287; 12288])
  || ((8192 <=? cp) && (cp <=? 8202)).

Fixpoint drop_spaces (l : list Z) : list Z :=
  match l with cp :: l' => if is_space cp then drop_spaces l' else l | [] => [] end.
Definition strip_cps (l : list Z) : list Z := rev (drop_spaces (rev (drop_spaces l))).
(** [s.strip()] *)
Definition strip (s : string) : string := utf8_encode (strip_cps (utf8_decode s)).

(** Line boundaries of [str.splitlines]; ["\r\n"] is one boundary. *)
Definition is_linebreak (cp : Z) : bool :=
  bool_decide (cp ∈ [10; 11; 12; 13; 28; 29; 30; 133; 8232; 8233]).
Fixpoint splitlines_cps (cur : list Z) (l : list Z) : list (list Z) :=
  match l with
  | [] => match cur with [] => [] | _ => [rev cur] end
  | 13 :: 10 :: l => rev cur :: splitlines_cps [] l
  | cp :: l => if is_linebreak cp then rev cur :: splitlines_cps [] l
               else splitlines_cps (cp :: cur) l
  end.
Definition splitlines (s : string) : list string :=
  utf8_encode <$> splitlines_cps [] (utf8_decode s).

(** * Encoding to and decoding from bytes *)

(** [s.encode("utf-8")]: the representation itself, unless a surrogate. *)
Fixpoint has_surrogate (s : string) : bool :=
  match s with
  | String a ((String b _) as s') =>
      (bool_decide (byte_of a = 237) && (160 <=? byte_of b)) || has_surrogate s'
  | _ => false
  end.
Definition encode_utf8 (s : pystr) : res bytes :=
  if has_surrogate s then raise UnicodeEncodeError "surrogates not allowed" else Ok s.

(** [s.encode("ascii")] *)
Definition is_ascii (s : string) : bool := forallb (λ a, byte_of a <? 128) (chars s).
Definition encode_ascii (s : pystr) : res bytes :=
  if is_ascii s then Ok s else raise UnicodeEncodeError "ordinal not in range(128)".

Definition cont (lo hi : Z) (a : ascii) : bool := (lo <=? byte_of a) && (byte_of a <=? hi).

(** The range of the second byte after lead byte [b]. *)
Definition second_lo (b : Z) : Z := if b =? 224 then 160 else if b =? 240 then 144 else 128.
Definition second_hi (pass : bool) (b : Z) : Z :=
  if (b =? 237) && negb pass then 159 else if b =? 244 then 143 else 191.

(** Decoding with [errors="replace"]: each maximal ill-formed subpart becomes
    one U+FFFD.  The list pairs the decoded pieces with whether they are well
    formed; [pass] accepts surrogates (the error handler "surrogatepass"). *)
Fixpoint utf8_pieces (pass : bool) (s : string) : list (bool * string) :=
  match s with
  | "" => []
  | String a s1 =>
      let b := byte_of a in
      if b <? 128 then (true, String a "") :: utf8_pieces pass s1
      else if (b <? 194) || (245 <=? b) then (false, String a "") :: utf8_pieces pass s1
      else match s1 with
      | "" => [(false, String a "")]
      | String a1 s2 =>
          if negb (cont (second_lo b) (second_hi pass b) a1) then (false, String a "") :: utf8_pieces pass s1
          else if b <? 224 then (true, String a (String a1 "")) :: utf8_pieces pass s2
          else match s2 with
          | "" => [(false, String a (String a1 ""))]
          | String a2 s3 =>
              if negb (cont 128 191 a2) then (false, String a (String a1 "")) :: utf8_pieces pass s2
              else if b <? 240 then (true, String a (String a1 (String a2 ""))) :: utf8_pieces pass s3
              else match s3 with
              | "" => [(false, String a (String a1 (String a2 "")))]
              | String a3 s4 =>
                  if negb (cont 128 191 a3) then
                    (false, String a (String a1 (String a2 ""))) :: utf8_pieces pass s3
                  else (true, String a (String a1 (String a2 (String a3 "")))) :: utf8_pieces pass s4
              end
          end
      end
  end.

Definition replacement : string := utf8_enc 65533.
(** [b.decode("utf-8", errors="replace")] *)
Definition decode_replace (b : bytes) : pystr :=
  join "" ((λ p : bool * string, if p.1 then p.2 else replacement) <$> utf8_pieces false b).
(** [b.decode("utf-8")] *)
Definition decode_utf8 (b : bytes) : res pystr :=
  if forallb fst (utf8_pieces false b) then Ok b else raise UnicodeDecodeError "invalid utf-8".

(** * Numbers *)

Fixpoint dec_digits (fuel : nat) (n : Z) (acc : string) : string :=
  match fuel with
  | O => acc
  | S fuel =>
      let acc := String (chr (48 + n mod 10)) acc in
      if n <? 10 then acc else dec_digits fuel (n / 10) acc
  end.
(** [str(n)] of a natural number; the fuel is its bit length, which bounds its digits. *)
Definition dec_nat (n : Z) : string := dec_digits (S (Z.to_nat (Z.log2 n))) n "".
(** [str(n)] *)
Definition dec (n : Z) : string := if n <? 0 then "-" +:+ dec_nat (- n) else dec_nat n.

Fixpoint pad_left (k : nat) (c : ascii) (s : string) : string :=
  match k with O => s | S k => String c (pad_left k c s) end.
(** [f"{n:04d}"] and the like, for a natural number. *)
Definition zfill (w : nat) (n : Z) : string :=
  let s := dec_nat n in pad_left (w - String.length s) (chr 48) s.

(** [f"{s:<w}"] *)
Definition ljust (w : nat) (s : string) : string :=
  s +:+ of_chars (repeat (chr 32) (w - py_len s)).

Definition hex_digit (n : Z) : ascii := if n <? 10 then chr (48 + n) else chr (87 + n).
Definition hex_byte (b : Z) : string := String (hex_digit (b / 16)) (String (hex_digit (b mod 16)) "").
(** [b.hex()] of a list of byte values *)
Definition hex (l : list Z) : string := join "" (hex_byte <$> l).
(** Lower-case hexadecimal of [n] on [w] digits. *)
Fixpoint hex_pad (w : nat) (n : Z) : string :=
  match w with O => "" | S w => hex_pad w (n / 16) +:+ String (hex_digit (n mod 16)) "" end.

(** * Lemmas *)

Lemma app_str_cons a (s t : string) : String a s +:+ t = String a (s +:+ t).
Proof. done. Qed.
Lemma app_str_nil_l (t : string) : "" +:+ t = t.
Proof. done. Qed.
Lemma app_str_assoc (s t u : string) : (s +:+ t) +:+ u = s +:+ (t +:+ u).
Proof. induction s as [|a s IH]; [done|]. by rewrite !app_str_cons, IH. Qed.
Lemma app_str_nil_r (s : string) : s +:+ "" = s.
Proof. induction s as [|a s IH]; [done|]. by rewrite app_str_cons, IH. Qed.
Lemma length_app_str (s t : string) :
  String.length (s +:+ t) = (String.length s + String.length t)%nat.
Proof. induction s as [|a s IH]; [done|]. rewrite app_str_cons. cbn. by rewrite IH. Qed.
Create Rewrite HintDb pystr.
#[export] Hint Rewrite app_str_assoc app_str_cons app_str_nil_l app_str_nil_r length_app_str : pystr.

Lemma byte_of_range a : 0 ≤ byte_of a < 256.
Proof. unfold byte_of. pose proof (N_ascii_bounded a). lia. Qed.
Lemma byte_of_chr b : 0 ≤ b < 256 → byte_of (chr b) = b.
Proof. intros. unfold byte_of, chr. rewrite N_ascii_embedding; lia. Qed.
Lemma chr_byte_of a : chr (byte_of a) = a.
Proof. unfold byte_of, chr. by rewrite N2Z.id, ascii_N_embedding. Qed.
Lemma byte_of_inj a b : byte_of a = byte_of b → a = b.
Proof. intros H. by rewrite <-(chr_byte_of a), H, chr_byte_of. Qed.

Lemma chars_of_chars l : chars (of_chars l) = l.
Proof. induction l; simpl; congruence. Qed.
Lemma of_chars_chars s : of_chars (chars s) = s.
Proof. induction s; simpl; congruence. Qed.
Lemma chars_app s t : chars (s +:+ t) = (chars s ++ chars t)%list.
Proof. induction s as [|a s IH]; [done|]. rewrite app_str_cons. cbn. by rewrite IH. Qed.

Lemma startswith_spec s p : startswith s p = true ↔ ∃ t, s = p +:+ t.
Proof.
  revert s. induction p as [|a p IH]; intros s; simpl.
  - split; [intros _; by exists s|by destruct s].
  - destruct s as [|b s]; simpl.
    + split; [done|]. intros [t Ht]. by rewrite app_str_cons in Ht.
    + rewrite andb_true_iff, bool_decide_eq_true, IH. split.
      * intros [-> [t ->]]. by exists t.
      * intros [t Ht]. rewrite app_str_cons in Ht. simplify_eq. eauto.
Qed.

Lemma startswith_app p t : startswith (p +:+ t) p = true.
Proof. apply startswith_spec. eauto. Qed.
Lemma rev_app_str s t : String.rev (s +:+ t) = String.rev t +:+ String.rev s.
Proof.
  unfold String.rev. assert (H : ∀ s u, String.rev_app s u = String.rev_app s "" +:+ u).
  { clear. intros s. induction s as [|a s IH]; intros u; [done|]. cbn [String.rev_app].
    rewrite IH, (IH (String a "")), app_str_assoc. done. }
  assert (Happ : ∀ s u, String.rev_app (s +:+ t) u = String.rev_app t (String.rev_app s u)).
  { clear s. intros s. induction s as [|a s IH]; intros u; [done|]. cbn. apply IH. }
  by rewrite Happ, H.
Qed.
Lemma endswith_app s t : endswith (s +:+ t) t = true.
Proof. unfold endswith. rewrite rev_app_str. apply startswith_app. Qed.
Lemma join_snoc sep l x : l ≠ [] → join sep (l ++ [x]) = join sep l +:+ sep +:+ x.
Proof.
  induction l as [|y [|z l] IH]; intros Hl; [done|done|]. cbn [app].
  change (join sep (y :: z :: l)) with (y +:+ sep +:+ join sep (z :: l)).
  change (join sep (y :: z :: l ++ [x])%list) with (y +:+ sep +:+ join sep ((z :: l) ++ [x])).
  rewrite IH by done. by rewrite !app_str_assoc.
Qed.
(** Concatenation is injective on either side. *)
Lemma app_str_inj_l s t u : s +:+ t = s +:+ u → t = u.
Proof. induction s as [|a s IH]; [done|]. intros [= H]. by apply IH. Qed.
Lemma app_str_inj_r s t u : s +:+ u = t +:+ u → s = t.
Proof.
  intros H. apply (f_equal chars) in H. rewrite !chars_app in H. apply app_inv_tail in H.
  apply (f_equal of_chars) in H. by rewrite !of_chars_chars in H.
Qed.

Lemma contains_spec s sub : contains s sub = true ↔ ∃ a b, s = a +:+ (sub +:+ b).
Proof.
  induction s as [|c s IH]; cbn [contains]; rewrite orb_true_iff, startswith_spec.
  - split; [intros [[t ->]|?]; [by exists "", t|done]|].
    intros (a & b & Hab). left. exists b. destruct a; by autorewrite with pystr in Hab.
  - rewrite IH. split.
    + intros [[t Ht]|(a & b & ->)]; [by exists "", t|by exists (String c a), b].
    + intros (a & b & Hab). destruct a as [|c' a]; autorewrite with pystr in Hab; [eauto|].
      simplify_eq. eauto.
Qed.

(** [split_char] at the first separator. *)
Lemma split_char_app c s t :
  c ∉ chars s → split_char c (s +:+ String c t) = s :: split_char c t.
Proof.
  induction s as [|a s IH]; intros Hc; rewrite ?app_str_cons, ?app_str_nil_l; cbn.
  - by rewrite bool_decide_true by done.
  - rewrite bool_decide_false by (cbn in Hc; set_solver).
    rewrite IH; [done|cbn in Hc; set_solver].
Qed.
Lemma split_char_none c s : c ∉ chars s → split_char c s = [s].
Proof.
  induction s as [|a s IH]; intros Hc; cbn; [done|].
  rewrite bool_decide_false by (cbn in Hc; set_solver).
  rewrite IH; [done|cbn in Hc; set_solver].
Qed.
Lemma split_char_join c s : join (String c "") (split_char c s) = s.
Proof.
  induction s as [|a s IH]; [done|]. cbn [split_char]. case_bool_decide; subst.
  - destruct (split_char c s) as [|w ws] eqn:E; [|by rewrite <-IH].
    destruct s as [|b s]; simpl in E; [done|]. case_bool_decide; [done|].
    by destruct (split_char c s).
  - destruct (split_char c s) as [|w [|w' ws]]; simpl in *; by rewrite <-?IH.
Qed.

(** ** UTF-8 *)

Ltac Zbool := repeat match goal with
  | |- context [?x <? ?y] => destruct (Z.ltb_spec x y); try lia
  | |- context [?x <=? ?y] => destruct (Z.leb_spec x y); try lia
  | |- context [?x =? ?y] => destruct (Z.eqb_spec x y); try lia
  end.

Lemma utf8_decode_1 a s : byte_of a < 192 → utf8_decode (String a s) = byte_of a :: utf8_decode s.
Proof. intros. cbn [utf8_decode]. by Zbool. Qed.
Lemma utf8_decode_2 a b s : 192 ≤ byte_of a < 224 →
  utf8_decode (String a (String b s)) =
    (byte_of a - 192) * 64 + byte_of b mod 64 :: utf8_decode s.
Proof. intros. cbn [utf8_decode]. by Zbool. Qed.
Lemma utf8_decode_3 a b c s : 224 ≤ byte_of a < 240 →
  utf8_decode (String a (String b (String c s))) =
    (byte_of a - 224) * 4096 + byte_of b mod 64 * 64 + byte_of c mod 64 :: utf8_decode s.
Proof. intros. cbn [utf8_decode]. by Zbool. Qed.
Lemma utf8_decode_4 a b c d s : 240 ≤ byte_of a →
  utf8_decode (String a (String b (String c (String d s)))) =
    (byte_of a - 240) * 262144 + byte_of b mod 64 * 4096 + byte_of c mod 64 * 64
      + byte_of d mod 64 :: utf8_decode s.
Proof. intros. cbn [utf8_decode]. by Zbool. Qed.

(** The six-bit groups of a code point. *)
Lemma sextets cp : is_cp cp →
  0 ≤ cp mod 64 < 64 ∧ 0 ≤ (cp / 64) mod 64 < 64 ∧ 0 ≤ (cp / 4096) mod 64 < 64 ∧
  cp = cp / 64 * 64 + cp mod 64 ∧ cp / 64 = cp / 4096 * 64 + (cp / 64) mod 64 ∧
  cp / 4096 = cp / 262144 * 64 + (cp / 4096) mod 64.
Proof.
  unfold is_cp. intros.
  assert (Hm : ∀ x, 0 ≤ x mod 64 < 64) by (intros; apply Z.mod_pos_bound; lia).
  pose proof (Z.div_mod cp 64 ltac:(lia)).
  pose proof (Z.div_mod (cp / 64) 64 ltac:(lia)) as Hd1. rewrite Z.div_div in Hd1 by lia.
  pose proof (Z.div_mod (cp / 4096) 64 ltac:(lia)) as Hd2. rewrite Z.div_div in Hd2 by lia.
  change (64 * 64) with 4096 in *. change (4096 * 64) with 262144 in *.
  repeat split; try apply Hm; lia.
Qed.

Lemma cont_mod x : 0 ≤ x < 64 → byte_of (chr (128 + x)) mod 64 = x.
Proof.
  intros Hx. rewrite byte_of_chr by lia. replace (128 + x) with (x + 2 * 64) by lia.
  rewrite Z.mod_add by lia. by apply Z.mod_small.
Qed.

Lemma utf8_decode_enc cp s :
  is_cp cp → utf8_decode (utf8_enc cp +:+ s) = cp :: utf8_decode s.
Proof.
  intros H. pose proof (sextets cp H) as (?&?&?&?&?&?). unfold is_cp in H. unfold utf8_enc, str1.
  destruct (Z.ltb_spec cp 128); [|destruct (Z.ltb_spec cp 2048); [|destruct (Z.ltb_spec cp 65536)]];
    autorewrite with pystr.
  - rewrite utf8_decode_1; rewrite byte_of_chr by lia; [done|lia].
  - rewrite utf8_decode_2; rewrite byte_of_chr by lia; [rewrite cont_mod by done; f_equal|]; lia.
  - rewrite utf8_decode_3; rewrite byte_of_chr by lia; [rewrite !cont_mod by done; f_equal|]; lia.
  - rewrite utf8_decode_4; rewrite byte_of_chr by lia; [rewrite !cont_mod by done; f_equal|]; lia.
Qed.

Lemma utf8_decode_encode cps : Forall is_cp cps → utf8_decode (utf8_encode cps) = cps.
Proof.
  induction 1 as [|cp cps ? ? IH]; [done|]. cbn [utf8_encode].
  rewrite utf8_decode_enc by done. by f_equal.
Qed.

Lemma utf8_encode_app l k : utf8_encode (l ++ k) = utf8_encode l +:+ utf8_encode k.
Proof.
  induction l as [|c l IH]; [done|]. cbn [utf8_encode app]. by rewrite IH, app_str_assoc.
Qed.

Lemma wf_str_encode_decode s : wf_str s → utf8_encode (utf8_decode s) = s.
Proof. intros (cps & H & ->). by rewrite utf8_decode_encode. Qed.

Lemma scalar_cp cp : is_scalar cp → is_cp cp.
Proof. by intros []. Qed.
Lemma ustr_wf s : ustr s → wf_str s.
Proof.
  intros (cps & H & ->). exists cps. split; [|done]. by apply (Forall_impl _ _ _ H), scalar_cp.
Qed.
Lemma ustr_encode cps : Forall is_scalar cps → ustr (utf8_encode cps).
Proof. intros. by exists cps. Qed.
Lemma ustr_app s t : ustr s → ustr t → ustr (s +:+ t).
Proof.
  intros (l & Hl & ->) (k & Hk & ->). exists (l ++ k)%list. split; [by apply Forall_app|].
  by rewrite utf8_encode_app.
Qed.

Lemma is_ascii_ustr s : is_ascii s = true → ustr s.
Proof.
  unfold is_ascii. induction s as [|a s IH]; cbn; intros H; [by exists []|].
  apply andb_true_iff in H as [Ha Hs]. destruct (IH Hs) as (cps & Hc & Es).
  pose proof (byte_of_range a). exists (byte_of a :: cps). split.
  - constructor; [|done]. unfold is_scalar, is_cp, is_surrogate. split; [lia|].
    apply andb_false_iff. left. lia.
  - cbn. unfold utf8_enc. rewrite Ha. unfold str1. by rewrite chr_byte_of, Es.
Qed.
Lemma is_ascii_app s t : is_ascii (s +:+ t) = is_ascii s && is_ascii t.
Proof. unfold is_ascii. by rewrite chars_app, forallb_app. Qed.
Lemma encode_ascii_Ok s b : encode_ascii s = Ok b ↔ is_ascii s = true ∧ b = s.
Proof. unfold encode_ascii. destruct (is_ascii s); naive_solver. Qed.

Lemma has_surrogate_cons a s : byte_of a ≠ 237 → has_surrogate (String a s) = has_surrogate s.
Proof. intros Ha. destruct s; simpl; [done|]. by rewrite (bool_decide_false _ Ha). Qed.

Lemma has_surrogate_cons2 a b s :
  byte_of b < 160 → has_surrogate (String a (String b s)) = has_surrogate (String b s).
Proof.
  intros. cbn [has_surrogate]. assert ((160 <=? byte_of b) = false) as -> by lia.
  by rewrite andb_false_r.
Qed.

Lemma has_surrogate_enc cp s :
  is_scalar cp → has_surrogate (utf8_enc cp +:+ s) = has_surrogate s.
Proof.
  intros [H Hs]. pose proof (sextets cp H) as (?&?&?&?&?&?). unfold is_cp in H.
  unfold is_surrogate in Hs. apply andb_false_iff in Hs. unfold utf8_enc, str1.
  Zbool; autorewrite with pystr;
    [..|repeat (rewrite has_surrogate_cons by (rewrite byte_of_chr; lia)); done].
  - by rewrite has_surrogate_cons by (rewrite byte_of_chr; lia).
  - by rewrite !has_surrogate_cons by (rewrite byte_of_chr; lia).
  - destruct (decide (cp / 4096 = 13)) as [E|E].
    + rewrite has_surrogate_cons2 by (rewrite byte_of_chr; lia).
      by rewrite !has_surrogate_cons by (rewrite byte_of_chr; lia).
    + by rewrite !has_surrogate_cons by (rewrite byte_of_chr; lia).
Qed.

Lemma encode_utf8_ustr s : ustr s → encode_utf8 s = Ok s.
Proof.
  intros (cps & H & ->). unfold encode_utf8.
  assert (has_surrogate (utf8_encode cps) = false) as ->; [|done].
  induction H as [|cp cps ? ? IH]; [done|]. cbn [utf8_encode]. by rewrite has_surrogate_enc.
Qed.
Lemma encode_utf8_Ok s b : encode_utf8 s = Ok b → b = s.
Proof. unfold encode_utf8. destruct (has_surrogate s); naive_solver. Qed.

Lemma cont_byte x lo hi : lo ≤ x ≤ hi → 0 ≤ x < 256 → cont lo hi (chr x) = true.
Proof. intros ? ?. unfold cont. rewrite byte_of_chr by done. apply andb_true_iff; lia. Qed.

Lemma utf8_pieces_enc pass cp s :
  is_scalar cp → utf8_pieces pass (utf8_enc cp +:+ s) = (true, utf8_enc cp) :: utf8_pieces pass s.
Proof.
  intros [H Hs]. pose proof (sextets cp H) as (?&?&?&?&?&?). unfold is_cp in H.
  unfold is_surrogate in Hs. apply andb_false_iff in Hs. unfold utf8_enc, str1.
  destruct (Z.ltb_spec cp 128); [|destruct (Z.ltb_spec cp 2048); [|destruct (Z.ltb_spec cp 65536)]];
    autorewrite with pystr; cbn [utf8_pieces]; rewrite !byte_of_chr by lia.
  - by Zbool.
  - rewrite cont_byte by (unfold second_lo, second_hi; destruct pass; cbn [negb]; rewrite ?andb_true_r, ?andb_false_r; Zbool; lia). by Zbool.
  - rewrite (cont_byte (128 + cp mod 64) 128 191),
      (cont_byte _ (second_lo (224 + cp / 4096)) (second_hi pass (224 + cp / 4096)))
      by (unfold second_lo, second_hi; destruct pass; cbn [negb]; rewrite ?andb_true_r, ?andb_false_r; Zbool; lia). by Zbool.
  - rewrite (cont_byte (128 + cp mod 64) 128 191), (cont_byte (128 + (cp / 64) mod 64) 128 191),
      (cont_byte _ (second_lo (240 + cp / 262144)) (second_hi pass (240 + cp / 262144)))
      by (unfold second_lo, second_hi; destruct pass; cbn [negb]; rewrite ?andb_true_r, ?andb_false_r; Zbool; lia). by Zbool.
Qed.

Lemma utf8_pieces_encode pass cps :
  Forall is_scalar cps → utf8_pieces pass (utf8_encode cps) = (λ cp, (true, utf8_enc cp)) <$> cps.
Proof.
  induction 1 as [|cp cps ? ? IH]; [done|]. cbn [utf8_encode].
  rewrite utf8_pieces_enc by done. by rewrite IH.
Qed.

Lemma decode_utf8_ustr s : ustr s → decode_utf8 s = Ok s.
Proof.
  intros (cps & H & ->). unfold decode_utf8. rewrite utf8_pieces_encode by done.
  assert (forallb fst ((λ cp, (true, utf8_enc cp)) <$> cps) = true) as ->; [|done].
  clear H. by induction cps.
Qed.
Lemma decode_utf8_Ok b s : decode_utf8 b = Ok s → s = b.
Proof. unfold decode_utf8. destruct (forallb _ _); naive_solver. Qed.

(** ** Decoding with replacement never lengthens the text *)

Lemma take_str_all n s : (String.length s ≤ n)%nat → take_str n s = s.
Proof. revert n. induction s as [|a s IH]; intros [|n]; simpl; try lia; try done. intros. rewrite IH; [done|lia]. Qed.
Lemma utf8_pieces_units s :
  Forall (λ p : bool * string, p.1 = true → ∀ t, ∃ cp, utf8_decode (p.2 +:+ t) = cp :: utf8_decode t)
    (utf8_pieces false s) ∧ (length (utf8_pieces false s) ≤ String.length s)%nat.
Proof.
  enough (∀ n s, (String.length s ≤ n)%nat →
    Forall (λ p : bool * string, p.1 = true → ∀ t, ∃ cp, utf8_decode (p.2 +:+ t) = cp :: utf8_decode t)
    (utf8_pieces false s) ∧ (length (utf8_pieces false s) ≤ String.length s)%nat) by eauto.
  clear s. induction n as [|n IH]; intros s Hs; [destruct s; [split; [constructor|simpl; lia]|simpl in Hs; lia]|].
  destruct s as [|a s1]; [split; [constructor|simpl; lia]|]. cbn [utf8_pieces String.length] in *.
  assert (Hcons : ∀ b p t, (String.length t ≤ String.length s1)%nat →
    (b = true → ∀ t, ∃ cp, utf8_decode (p +:+ t) = cp :: utf8_decode t) →
    Forall (λ p : bool * string, p.1 = true → ∀ t, ∃ cp, utf8_decode (p.2 +:+ t) = cp :: utf8_decode t)
      ((b, p) :: utf8_pieces false t) ∧
    (length ((b, p) :: utf8_pieces false t) ≤ S (String.length s1))%nat).
  { intros b p t Ht Hp. destruct (IH t) as [Hf Hl]; [lia|]. split; [by constructor|simpl; lia]. }
  assert (Hone : ∀ p, Forall (λ p : bool * string, p.1 = true → ∀ t, ∃ cp, utf8_decode (p.2 +:+ t) = cp :: utf8_decode t)
      [(false, p)] ∧ (length [(false, p) : bool * string] ≤ S (String.length s1))%nat).
  { intros p. split; [by repeat constructor|simpl; lia]. }
  destruct (Z.ltb_spec (byte_of a) 128).
  { apply Hcons; [lia|]. intros _ t. eexists. apply (utf8_decode_1 a t). lia. }
  destruct ((byte_of a <? 194) || (245 <=? byte_of a)) eqn:Eb; [by apply Hcons|].
  apply orb_false_iff in Eb as [Eb1 Eb2].
  destruct s1 as [|a1 s2]; [apply Hone|]. cbn [String.length] in *.
  destruct (negb _); [by apply Hcons|].
  destruct (Z.ltb_spec (byte_of a) 224).
  { apply Hcons; [lia|]. intros _ t. eexists. apply (utf8_decode_2 a a1 t). lia. }
  destruct s2 as [|a2 s3]; [apply Hone|]. cbn [String.length] in *.
  destruct (negb _); [apply Hcons; [simpl; lia|done]|].
  destruct (Z.ltb_spec (byte_of a) 240).
  { apply Hcons; [lia|]. intros _ t. eexists. apply (utf8_decode_3 a a1 a2 t). lia. }
  destruct s3 as [|a3 s4]; [apply Hone|]. cbn [String.length] in *.
  destruct (negb _); [apply Hcons; [simpl; lia|done]|].
  apply Hcons; [lia|]. intros _ t. eexists. apply (utf8_decode_4 a a1 a2 a3 t). lia.
Qed.
Lemma py_len_decode_replace b : (py_len (decode_replace b) ≤ String.length b)%nat.
Proof.
  unfold decode_replace. destruct (utf8_pieces_units b) as [Hf Hl]. etransitivity; [|exact Hl]. clear Hl.
  induction Hf as [|[k p] l Hp Hf IH]; [done|]. rewrite fmap_cons.
  assert (∀ s (k : list string), join "" (s :: k) = s +:+ join "" k) as ->.
  { intros s [|t k']; simpl; [by rewrite app_str_nil_r|done]. }
  unfold py_len in *. destruct k; cbn [fst snd length] in Hp |- *.
  - destruct (Hp eq_refl (join "" ((λ p : bool * string, if p.1 then p.2 else replacement) <$> l))) as [cp ->].
    cbn [length]. lia.
  - unfold replacement at 1. rewrite utf8_decode_enc by (unfold is_cp; lia). cbn [length]. lia.
Qed.
