(* ===== verification/PyValue.v ===== *)
(** Python values of type [Any] as the control plane meets them (JSON data),
    dictionaries with their insertion order, and the built-in operations on
    them: truth, [get], indexing, iteration, [str] and [repr]. *)

From S2P Require Export Prelude PyStr.
From Stdlib Require Import SpecFloat Ascii Bool.
#[local] Open Scope Z_scope.

(** * Values *)

(** A [float] is an IEEE double; a dictionary is its items in insertion order. *)
#[warnings="-register-all"]
Inductive value :=
  | VNone
  | VBool (b : bool)
  | VInt (n : Z)
  | VFloat (f : spec_float)
  | VStr (s : pystr)
  | VList (l : list value)
  | VDict (d : list (string * value)).

(** [dict[str, Any]] / [Mapping[str, Any]] *)
Abbreviation dict := (list (string * value)).

Section value_ind.
  Context (P : value → Prop).
  Hypothesis HNone : P VNone.
  Hypothesis HBool : ∀ b, P (VBool b).
  Hypothesis HInt : ∀ n, P (VInt n).
  Hypothesis HFloat : ∀ f, P (VFloat f).
  Hypothesis HStr : ∀ s, P (VStr s).
  Hypothesis HList : ∀ l, Forall P l → P (VList l).
  Hypothesis HDict : ∀ d, Forall (λ kv, P kv.2) d → P (VDict d).

Fixpoint value_ind' (v : value) : P v :=
    match v with
    | VNone => HNone | VBool b => HBool b | VInt n => HInt n
    | VFloat f => HFloat f | VStr s => HStr s
    | VList l => HList l ((fix go l := match l return Forall P l with
        | [] => Forall_nil_2 _
        | v :: l => Forall_cons_2 _ _ _ (value_ind' v) (go l) end) l)
    | VDict d => HDict d ((fix go (d : dict) := match d return Forall (λ kv, P kv.2) d with
        | [] => Forall_nil_2 _
        | (k, v) :: d => Forall_cons_2 _ (k, v) _ (value_ind' v) (go d) end) d)
    end.
End value_ind.

#[export] Instance spec_float_eq_dec : EqDecision spec_float.
Proof. solve_decision. Defined.

#[export] Instance value_eq_dec : EqDecision value.
Proof.
  unfold EqDecision, Decision. fix go 1.
  intros [|b|n|f|s|l|d] [|b'|n'|f'|s'|k|e]; try (right; congruence); try (left; reflexivity).
  - destruct (decide (b = b')); [left|right]; congruence.
  - destruct (decide (n = n')); [left|right]; congruence.
  - destruct (decide (f = f')); [left|right]; congruence.
  - destruct (decide (s = s')); [left|right]; congruence.
  - enough ({l = k} + {l ≠ k}) as [?|?] by (by (left + right); congruence).
    all: revert k; revert l; fix IH 1; intros [|v l] [|w k]; try (by right); [by left|].
    destruct (go v w) as [->|Hn]; [|right; congruence].
    destruct (IH l k) as [->|Hn]; [by left|right; congruence].
  - enough ({d = e} + {d ≠ e}) as [?|?] by (by (left + right); congruence).
    all: revert e; revert d; fix IH 1; intros [|[a v] d] [|[b w] e]; try (by right); [by left|].
    destruct (decide (a = b)) as [->|Hn]; [|right; congruence].
    destruct (go v w) as [->|Hn]; [|right; congruence].
    destruct (IH d e) as [->|Hn]; [by left|right; congruence].
Defined.

(** * Floats *)

(** The double nearest to [± m * 10^e], the value of a decimal literal.  The
    early cut-offs avoid huge powers: beyond them the result is an infinity
    or a zero. *)
Definition float_of_decimal (neg : bool) (m e : Z) : spec_float :=
  match m with
  | Zpos p =>
      if 400 <? e then S754_infinity neg
      else if e <? - (400 + Z.log2 m) then S754_zero neg
      else if 0 <=? e then
        binary_normalize 53 1024 (if neg then - (m * 10 ^ e) else m * 10 ^ e) 0 neg
      else
        let '(q, e', l) := SFdiv_core_binary 53 1024 m 0 (10 ^ (- e)) 0 in
        binary_round_aux 53 1024 neg q e' l
  | _ => S754_zero neg
  end.

(** The number of decimal digits before the point of [a / b > 0] (at most 0
    for a value below 1): the [k] with [10^(k-1) <= a/b < 10^k]. *)
Definition decimal_exponent (a b : Z) : Z :=
  let k0 := (Z.log2 a - Z.log2 b) * 30103 / 100000 in
  let lt k := if 0 <=? k then a <? b * 10 ^ k else a * 10 ^ (- k) <? b in
  if lt (k0 - 1) then k0 - 1 else if lt k0 then k0
  else if lt (k0 + 1) then k0 + 1 else k0 + 2.

Fixpoint strip_zeros (fuel : nat) (d e : Z) : Z * Z :=
  match fuel with
  | O => (d, e)
  | S fuel => if d mod 10 =? 0 then strip_zeros fuel (d / 10) (e + 1) else (d, e)
  end.

(** The shortest decimal [d * 10^e] that reads back as the double [m * 2^e2]. *)
Fixpoint shortest (fuel n : nat) (f : spec_float) (a b k : Z) : Z * Z :=
  let e := k - Z.of_nat n in
  let '(x, y) := if 0 <=? e then (a, b * 10 ^ e) else (a * 10 ^ (- e), b) in
  let d := x / y in
  let ok c := bool_decide (float_of_decimal false c e = f) in
  let near := if 2 * (x - d * y) <=? y then d else d + 1 in
  let far := if 2 * (x - d * y) <=? y then d + 1 else d in
  if ok near then (near, e) else if ok far then (far, e)
  else match fuel with O => (d, e) | S fuel => shortest fuel (S n) f a b k end.

Definition repr_digits (ds : string) (decpt : Z) : string :=
  let n := Z.of_nat (String.length ds) in
  let zeros k := of_chars (repeat (chr 48) (Z.to_nat k)) in
  if (-4 <? decpt) && (decpt <=? 16) then
    if decpt <=? 0 then "0." +:+ zeros (- decpt) +:+ ds
    else if n <=? decpt then ds +:+ zeros (decpt - n) +:+ ".0"
    else take_str (Z.to_nat decpt) ds +:+ "." +:+ drop_str (Z.to_nat decpt) ds
  else
    let x := decpt - 1 in
    take_str 1 ds +:+ (if 1 <? n then "." +:+ drop_str 1 ds else "")
    +:+ "e" +:+ (if x <? 0 then "-" else "+") +:+ zfill 2 (Z.abs x).

(** [repr(f)] *)
Definition float_repr (f : spec_float) : string :=
  match f with
  | S754_nan => "nan"
  | S754_infinity s => if s then "-inf" else "inf"
  | S754_zero s => if s then "-0.0" else "0.0"
  | S754_finite s m e =>
      let '(a, b) := if 0 <=? e then (Zpos m * 2 ^ e, 1) else (Zpos m, 2 ^ (- e)) in
      let k := decimal_exponent a b in
      let '(d, x) := shortest 16 1 (S754_finite false m e) a b k in
      let '(d, x) := strip_zeros 20 d x in
      let ds := dec_nat d in
      (if s then "-" else "") +:+ repr_digits ds (Z.of_nat (String.length ds) + x)
  end.

(** * Dictionaries *)

Fixpoint dget (d : dict) (k : string) : option value :=
  match d with
  | [] => None
  | (k', v) :: d => if bool_decide (k' = k) then Some v else dget d k
  end.

(** [d[k] = v]: in place when the key is present, at the end otherwise. *)
Fixpoint dset (d : dict) (k : string) (v : value) : dict :=
  match d with
  | [] => [(k, v)]
  | (k', v') :: d => if bool_decide (k' = k) then (k', v) :: d else (k', v') :: dset d k v
  end.

Definition dhas (d : dict) (k : string) : bool := bool_decide (is_Some (dget d k)).
Definition dkeys (d : dict) : list string := d.*1.
(** [d.update(e)] *)
Definition dupdate (d e : dict) : dict := foldl (λ d kv, dset d kv.1 kv.2) d e.
(** [d.setdefault(k, v)], its effect on [d] *)
Definition dsetdefault (d : dict) (k : string) (v : value) : dict :=
  match dget d k with Some _ => d | None => dset d k v end.
(** [d.get(k, v)] on a dictionary *)
Definition dget_or (d : dict) (k : string) (v : value) : value :=
  default v (dget d k).
(** [d.get(k)] *)
Definition dget_none (d : dict) (k : string) : value := dget_or d k VNone.
(** [d[k]] on a dictionary *)
Definition ditem (d : dict) (k : string) : res value :=
  match dget d k with Some v => Ok v | None => raise KeyError k end.

(** A dictionary has distinct keys. *)
Definition wf_dict (d : dict) : Prop := NoDup (dkeys d).

Fixpoint wf_value (v : value) : Prop :=
  match v with
  | VList l => (fix go l := match l with [] => True | v :: l => wf_value v ∧ go l end) l
  | VDict d => wf_dict d ∧
      (fix go (d : dict) := match d with [] => True | (k, v) :: d => wf_value v ∧ go d end) d
  | _ => True
  end.

(** * Operations on [Any] *)

(** [bool(v)] *)
Definition truthy (v : value) : bool :=
  match v with
  | VNone => false
  | VBool b => b
  | VInt n => negb (n =? 0)
  | VFloat f => match f with S754_zero _ => false | _ => true end
  | VStr s => negb (bool_decide (s = ""))
  | VList l => match l with [] => false | _ => true end
  | VDict d => match d with [] => false | _ => true end
  end.

(** [isinstance(v, str)], and so on *)
Definition as_str (v : value) : option string := match v with VStr s => Some s | _ => None end.
Definition as_dict (v : value) : option dict := match v with VDict d => Some d | _ => None end.
Definition as_list (v : value) : option (list value) :=
  match v with VList l => Some l | _ => None end.
Definition as_bool (v : value) : option bool := match v with VBool b => Some b | _ => None end.

(** [v == "text"]: a string equals only a string. *)
Definition eq_str (v : value) (s : string) : bool :=
  match v with VStr t => bool_decide (t = s) | _ => false end.

(** [v.get(k, default)] when the type of [v] is not known *)
Definition vget (v : value) (k : string) (default : value) : res value :=
  match v with VDict d => Ok (dget_or d k default) | _ => raise AttributeError "get" end.
(** [v[k]] when the type of [v] is not known *)
Definition vitem (v : value) (k : string) : res value :=
  match v with VDict d => ditem d k | _ => raise TypeError "not subscriptable by a string" end.
(** [for x in v] *)
Definition viter (v : value) : res (list value) :=
  match v with
  | VList l => Ok l
  | VDict d => Ok (VStr <$> dkeys d)
  | VStr s => Ok ((λ cp, VStr (utf8_enc cp)) <$> utf8_decode s)
  | _ => raise TypeError "object is not iterable"
  end.
(** [dict(v)] of a value that is a mapping; the pairs form is not used. *)
Definition vdict (v : value) : res dict :=
  match v with
  | VDict d => Ok d
  | VList [] => Ok []
  | VStr s => if bool_decide (s = "") then Ok [] else raise ValueError "dictionary update sequence"
  | VList _ => raise TypeError "dictionary update sequence"
  | _ => raise TypeError "object is not iterable"
  end.

(** [v or default] *)
Definition vor (v default : value) : value := if truthy v then v else default.

(** ** [repr] and [str] *)

(** [str.isprintable] of one code point: controls, separators other than the
    space, surrogates, private use, format and special code points are not;
    an unassigned code point counts as printable. *)
Definition is_printable (cp : Z) : bool :=
  negb ((cp <? 32) || ((127 <=? cp) && (cp <=? 160)) || (cp =? 173)
    || (cp =? 5760) || ((8192 <=? cp) && (cp <=? 8207)) || ((8232 <=? cp) && (cp <=? 8239))
    || ((8287 <=? cp) && (cp <=? 8303)) || (cp =? 12288)
    || ((55296 <=? cp) && (cp <=? 63743)) || (cp =? 65279) || ((65520 <=? cp) && (cp <=? 65531))
    || (cp =? 65534) || (cp =? 65535) || (917504 <=? cp)).

Definition repr_char (quote cp : Z) : string :=
  if (cp =? quote) || (cp =? 92) then String BS (str1 cp)
  else if cp =? 10 then String BS "n" else if cp =? 13 then String BS "r"
  else if cp =? 9 then String BS "t"
  else if is_printable cp then utf8_enc cp
  else if cp <? 256 then String BS ("x" +:+ hex_pad 2 cp)
  else if cp <? 65536 then String BS ("u" +:+ hex_pad 4 cp)
  else String BS ("U" +:+ hex_pad 8 cp).

Definition repr_str (s : string) : string :=
  let cps := utf8_decode s in
  let quote := if bool_decide (39 ∈ cps) && negb (bool_decide (34 ∈ cps)) then 34 else 39 in
  str1 quote +:+ join "" (repr_char quote <$> cps) +:+ str1 quote.

Fixpoint repr (v : value) : string :=
  match v with
  | VNone => "None"
  | VBool b => if b then "True" else "False"
  | VInt n => dec n
  | VFloat f => float_repr f
  | VStr s => repr_str s
  | VList l => "[" +:+ join ", " (repr <$> l) +:+ "]"
  | VDict d => "{" +:+ join ", " ((λ kv, repr_str kv.1 +:+ ": " +:+ repr kv.2) <$> d) +:+ "}"
  end.

(** [str(v)] *)
Definition py_str (v : value) : string := match v with VStr s => s | _ => repr v end.

(** * Lemmas on dictionaries *)

Lemma ditem_Ok d k v : ditem d k = Ok v ↔ dget d k = Some v.
Proof. unfold ditem. destruct (dget d k); naive_solver. Qed.

Lemma dget_dset d k v : dget (dset d k v) k = Some v.
Proof.
  induction d as [|[k' v'] d IH]; simpl; [by rewrite bool_decide_true|].
  case_bool_decide; simpl; [by rewrite bool_decide_true|by rewrite bool_decide_false].
Qed.
Lemma dget_dset_ne d k k' v : k ≠ k' → dget (dset d k v) k' = dget d k'.
Proof.
  intros Hne. induction d as [|[k2 v2] d IH]; simpl; [by rewrite bool_decide_false|].
  case_bool_decide; simpl; [|by rewrite IH]. subst. by rewrite !bool_decide_false.
Qed.
Lemma dget_app d e k : dget (d ++ e) k = match dget d k with Some v => Some v | None => dget e k end.
Proof. induction d as [|[k' v'] d IH]; simpl; [done|]. by case_bool_decide. Qed.
Lemma dget_None d k : dget d k = None ↔ k ∉ dkeys d.
Proof.
  induction d as [|[k' v'] d IH]; simpl; [by split; [intros _; apply not_elem_of_nil|]|].
  case_bool_decide; [set_solver|]. rewrite IH. set_solver.
Qed.
Lemma dget_elem d k v : wf_dict d → dget d k = Some v ↔ (k, v) ∈ d.
Proof.
  unfold wf_dict. induction d as [|[k' v'] d IH]; intros Hd; simpl; [set_solver|].
  inversion Hd as [|? ? Hk Hd']; subst. case_bool_decide; subst.
  - rewrite elem_of_cons. split; [intros [= ->]; by left|].
    intros [[= ->]|Hin]; [done|]. exfalso. apply Hk. by apply (list_elem_of_fmap_2 fst) in Hin.
  - rewrite IH by done. rewrite elem_of_cons. naive_solver.
Qed.
Lemma dget_Permutation d e k : wf_dict d → d ≡ₚ e → dget d k = dget e k.
Proof.
  intros Hd Hp. assert (He : wf_dict e) by (unfold wf_dict, dkeys in *; by rewrite <-Hp).
  apply option_eq. intros v. rewrite !dget_elem by done. by rewrite Hp.
Qed.
Lemma dget_map (f : value → value) d k :
  dget ((λ kv : string * value, (kv.1, f kv.2)) <$> d) k = f <$> dget d k.
Proof. induction d as [|[k' v'] d IH]; simpl; [done|]. by case_bool_decide. Qed.
Lemma dset_fresh d k v : k ∉ dkeys d → dset d k v = (d ++ [(k, v)])%list.
Proof.
  induction d as [|[k' v'] d IH]; intros Hk; [done|]. cbn in *.
  rewrite bool_decide_false by set_solver. by rewrite IH by set_solver.
Qed.
Lemma dkeys_dset d k v : dkeys (dset d k v) = if dhas d k then dkeys d else (dkeys d ++ [k])%list.
Proof.
  unfold dhas. induction d as [|[k' v'] d IH]; simpl; [done|].
  destruct (decide (k' = k)) as [->|Hn].
  - rewrite !(bool_decide_true (k = k)) by done. by rewrite bool_decide_true by (by eexists).
  - rewrite !(bool_decide_false (k' = k)) by done. simpl. rewrite IH. by case_bool_decide.
Qed.
Lemma wf_dict_dset d k v : wf_dict d → wf_dict (dset d k v).
Proof.
  unfold wf_dict. intros Hd. rewrite dkeys_dset. unfold dhas. case_bool_decide as H; [done|].
  apply NoDup_app. split; [done|]. split; [|apply NoDup_singleton].
  assert (k ∉ dkeys d) by (apply dget_None; destruct (dget d k); [destruct H; eauto|done]).
  set_solver.
Qed.
Lemma dget_dupdate d e k :
  wf_dict e → dget (dupdate d e) k = match dget e k with Some v => Some v | None => dget d k end.
Proof.
  unfold dupdate, wf_dict. revert d. induction e as [|[k' v'] e IH]; intros d He; simpl; [done|].
  inversion He as [|? ? Hk He']; subst. rewrite IH by done. case_bool_decide; subst.
  - apply dget_None in Hk. rewrite Hk. apply dget_dset.
  - destruct (dget e k); [done|]. by apply dget_dset_ne.
Qed.
Lemma dget_dsetdefault_other d k k' v : k ≠ k' → dget (dsetdefault d k v) k' = dget d k'.
Proof. intros. unfold dsetdefault. destruct (dget d k); [done|]. by apply dget_dset_ne. Qed.
Lemma dget_dsetdefault d k v :
  dget (dsetdefault d k v) k = match dget d k with Some w => Some w | None => Some v end.
Proof. unfold dsetdefault. destruct (dget d k) eqn:E; [done|]. apply dget_dset. Qed.

Lemma eq_str_true v s : eq_str v s = true ↔ v = VStr s.
Proof. destruct v; simpl; rewrite ?bool_decide_eq_true; naive_solver. Qed.

Create Rewrite HintDb pydict.
#[export] Hint Rewrite dget_dset dget_app dget_map dget_dsetdefault : pydict.
#[export] Hint Rewrite dget_dset_ne dget_dsetdefault_other using done : pydict.
#[export] Hint Resolve wf_dict_dset : py.
