(* ===== verification/Json.v ===== *)
(** The [json] module of the standard library, as the control plane uses it:
    [dumps] with its separator, key-order and ASCII options, and [loads] on
    text and on bytes.  The main result is the round trip [loads_dumps]. *)

From S2P Require Export PyValue.
From Stdlib Require Import SpecFloat Ascii Bool.
#[local] Open Scope Z_scope.

(** * Encoding *)

Record json_opts := JsonOpts {
  sort_keys : bool;
  item_sep : string;
  key_sep : string;
  ensure_ascii : bool
}.

(** [separators=(",", ":")] with [sort_keys=True], without and with [ensure_ascii]. *)
Definition canonical : json_opts := JsonOpts true "," ":" false.
Definition canonical_ascii : json_opts := JsonOpts true "," ":" true.
(** The defaults, and the defaults with [ensure_ascii=False]. *)
Definition plain : json_opts := JsonOpts false ", " ": " true.
Definition plain_utf8 : json_opts := JsonOpts false ", " ": " false.
(** [sort_keys=True, ensure_ascii=False] *)
Definition sorted_utf8 : json_opts := JsonOpts true ", " ": " false.

Definition esc (c : string) : string := String BS c.
Definition u_esc (u : Z) : string := esc ("u" +:+ hex_pad 4 u).

Definition json_char (ascii_only : bool) (cp : Z) : string :=
  if cp =? 34 then esc (str1 34) else if cp =? 92 then esc (str1 92)
  else if cp =? 10 then esc "n" else if cp =? 13 then esc "r" else if cp =? 9 then esc "t"
  else if cp =? 12 then esc "f" else if cp =? 8 then esc "b"
  else if cp <? 32 then u_esc cp
  else if ascii_only && (126 <? cp) then
    if cp <? 65536 then u_esc cp
    else u_esc (55296 + (cp - 65536) / 1024) +:+ u_esc (56320 + (cp - 65536) mod 1024)
  else utf8_enc cp.

Definition json_body (ascii_only : bool) (cps : list Z) : string :=
  join "" (json_char ascii_only <$> cps).
Definition json_str (ascii_only : bool) (s : string) : string :=
  String DQ (json_body ascii_only (utf8_decode s) +:+ String DQ "").

Definition json_float (f : spec_float) : string :=
  match f with
  | S754_nan => "NaN"
  | S754_infinity s => if s then "-Infinity" else "Infinity"
  | _ => float_repr f
  end.

Fixpoint encode (o : json_opts) (v : value) : string :=
  match v with
  | VNone => "null"
  | VBool b => if b then "true" else "false"
  | VInt n => dec n
  | VFloat f => json_float f
  | VStr s => json_str (ensure_ascii o) s
  | VList l => "[" +:+ join (item_sep o) (encode o <$> l) +:+ "]"
  | VDict d =>
      "{" +:+ join (item_sep o)
        ((λ kv, json_str (ensure_ascii o) kv.1 +:+ key_sep o +:+ encode o kv.2) <$> d) +:+ "}"
  end.

(** The order of [sorted(d.items())]: keys are distinct, so values never compare. *)
Definition key_le {A} (p q : string * A) : Prop := String.le p.1 q.1.
#[export] Instance key_le_dec {A} (p q : string * A) : Decision (key_le p q).
Proof. unfold key_le. apply _. Defined.

Fixpoint sort_value (v : value) : value :=
  match v with
  | VList l => VList (sort_value <$> l)
  | VDict d => VDict (merge_sort key_le ((λ kv, (kv.1, sort_value kv.2)) <$> d))
  | _ => v
  end.

(** [json.dumps(v, ...)] *)
Definition dumps (o : json_opts) (v : value) : string :=
  encode o (if sort_keys o then sort_value v else v).

(** [json.dumps(v, indent=n, ensure_ascii=False)] *)
Fixpoint encode_indent (n level : nat) (v : value) : string :=
  let nl k := LF +:+ of_chars (repeat (chr 32) (n * k)) in
  match v with
  | VList ((_ :: _) as l) =>
      "[" +:+ nl (S level) +:+ join ("," +:+ nl (S level)) (encode_indent n (S level) <$> l)
      +:+ nl level +:+ "]"
  | VDict ((_ :: _) as d) =>
      "{" +:+ nl (S level) +:+ join ("," +:+ nl (S level))
        ((λ kv, json_str false kv.1 +:+ ": " +:+ encode_indent n (S level) kv.2) <$> d)
      +:+ nl level +:+ "}"
  | _ => encode plain_utf8 v
  end.
Definition dumps_indent (n : nat) (v : value) : string := encode_indent n 0 v.

(** * Decoding *)

Definition jerr {A} : res A := raise JSONDecodeError "Expecting value".

Definition is_ws (a : ascii) : bool := bool_decide (byte_of a ∈ [32; 9; 10; 13]).
Fixpoint skip_ws (s : string) : string :=
  match s with String a s' => if is_ws a then skip_ws s' else s | "" => "" end.

Definition hex_val (a : ascii) : option Z :=
  let b := byte_of a in
  if (48 <=? b) && (b <=? 57) then Some (b - 48)
  else if (97 <=? b) && (b <=? 102) then Some (b - 87)
  else if (65 <=? b) && (b <=? 70) then Some (b - 55) else None.
Definition hex4 (a b c d : ascii) : option Z :=
  x ← hex_val a; y ← hex_val b; z ← hex_val c; w ← hex_val d;
  Some (4096 * x + 256 * y + 16 * z + w).

Definition is_high (u : Z) : bool := (55296 <=? u) && (u <=? 56319).
Definition is_low (u : Z) : bool := (56320 <=? u) && (u <=? 57343).

(** The character after a backslash, other than [u]. *)
Definition unescape (e : ascii) : option string :=
  let b := byte_of e in
  if b =? 34 then Some (str1 34) else if b =? 92 then Some (str1 92)
  else if b =? 47 then Some "/" else if b =? 98 then Some (str1 8)
  else if b =? 102 then Some (str1 12) else if b =? 110 then Some (str1 10)
  else if b =? 114 then Some (str1 13) else if b =? 116 then Some (str1 9) else None.

Definition prepend (t : string) (r : res (string * string)) : res (string * string) :=
  '(s, rest) ← r; mret (t +:+ s, rest).

(** The rest of a string literal, after its opening quote. *)
Fixpoint scan_string (s : string) : res (string * string) :=
  match s with
  | "" => jerr
  | String a s1 =>
      if bool_decide (a = DQ) then Ok ("", s1)
      else if bool_decide (a = BS) then
        match s1 with
        | "" => jerr
        | String e s2 =>
            if bool_decide (e = chr 117) then
              match s2 with
              | String h1 (String h2 (String h3 (String h4 s3))) =>
                  match hex4 h1 h2 h3 h4 with
                  | None => jerr
                  | Some x =>
                      if is_high x then
                        match s3 with
                        | String b (String u (String g1 (String g2 (String g3 (String g4 s4))))) =>
                            match (if bool_decide (b = BS) && bool_decide (u = chr 117)
                                   then hex4 g1 g2 g3 g4 else None) with
                            | Some y =>
                                if is_low y then
                                  prepend (utf8_enc (65536 + (x - 55296) * 1024 + (y - 56320)))
                                    (scan_string s4)
                                else prepend (utf8_enc x) (scan_string s3)
                            | None => prepend (utf8_enc x) (scan_string s3)
                            end
                        | _ => prepend (utf8_enc x) (scan_string s3)
                        end
                      else prepend (utf8_enc x) (scan_string s3)
                  end
              | _ => jerr
              end
            else match unescape e with
                 | Some t => prepend t (scan_string s2)
                 | None => jerr
                 end
        end
      else if byte_of a <? 32 then jerr
      else prepend (String a "") (scan_string s1)
  end.

Definition is_digit (a : ascii) : bool := (48 <=? byte_of a) && (byte_of a <=? 57).
Fixpoint span_digits (s : string) : string * string :=
  match s with
  | String a s' => if is_digit a then let '(d, r) := span_digits s' in (String a d, r) else ("", s)
  | "" => ("", "")
  end.
Definition digits_value (s : string) : Z :=
  foldl (λ acc a, acc * 10 + (byte_of a - 48)) 0 (chars s).

(** The text after a one-character sign or mark, if the text starts with it. *)
Definition after (a : ascii) (s : string) : option string :=
  match s with String b s' => if bool_decide (a = b) then Some s' else None | "" => None end.

Definition parse_frac (s : string) : option (string * string) :=
  match after (chr 46) s with
  | Some r => let '(d, r') := span_digits r in
              if bool_decide (d = "") then None else Some (d, r')
  | None => None
  end.
Definition exp_mark (s : string) : option string :=
  match after (chr 101) s with Some r => Some r | None => after (chr 69) s end.
Definition exp_sign (s : string) : bool * string :=
  match after (chr 45) s with
  | Some r => (true, r)
  | None => match after (chr 43) s with Some r => (false, r) | None => (false, s) end
  end.
Definition parse_exp (s : string) : option (Z * string) :=
  match exp_mark s with
  | Some r =>
      let '(neg, r) := exp_sign r in
      let '(d, r') := span_digits r in
      if bool_decide (d = "") then None
      else Some (if neg : bool then - digits_value d else digits_value d, r')
  | None => None
  end.

(** [int()] refuses more than 4300 digits with a plain [ValueError]. *)
Definition MAX_INT_DIGITS : nat := 4300.

Definition parse_number (s : string) : res (value * string) :=
  let '(neg, s1) := match after (chr 45) s with Some r => (true, r) | None => (false, s) end in
  let '(ds, s2) := span_digits s1 in
  match ds with
  | "" => jerr
  | String d0 ds' =>
      let '(ip, s3) := if bool_decide (d0 = chr 48) then (String d0 "", ds' +:+ s2) else (ds, s2) in
      match parse_frac s3, parse_exp (match parse_frac s3 with Some (_, r) => r | None => s3 end) with
      | None, None =>
          if (MAX_INT_DIGITS <? String.length ip)%nat then raise ValueError "Exceeds the limit"
          else Ok (VInt (if neg : bool then - digits_value ip else digits_value ip), s3)
      | fr, ex =>
          let fd := match fr with Some (d, _) => d | None => "" end in
          let r := match fr with Some (_, r) => r | None => s3 end in
          let '(x, r) := match ex with Some p => p | None => (0, r) end in
          Ok (VFloat (float_of_decimal neg (digits_value (ip +:+ fd))
                        (x - Z.of_nat (String.length fd))), r)
      end
  end.

(** The literals and numbers. *)
Definition literals : list (string * value) :=
  [("null", VNone); ("true", VBool true); ("false", VBool false);
   ("NaN", VFloat S754_nan); ("Infinity", VFloat (S754_infinity false));
   ("-Infinity", VFloat (S754_infinity true))].
Fixpoint parse_literal (ls : list (string * value)) (s : string) : option (value * string) :=
  match ls with
  | [] => None
  | (l, v) :: ls =>
      if startswith s l then Some (v, drop_str (String.length l) s) else parse_literal ls s
  end.

(** Values; the fuel bounds the number of nested calls: each character opens
    at most two (see [loads_error] for why [loads] never runs out). *)
Fixpoint parse_value (fuel : nat) (s : string) : res (value * string) :=
  match fuel with
  | O => raise RecursionError "fuel"
  | S fuel =>
      match s with
      | "" => jerr
      | String a s1 =>
          if bool_decide (a = DQ) then '(t, r) ← scan_string s1; mret (VStr t, r)
          else if bool_decide (a = chr 91) then
            match after (chr 93) (skip_ws s1) with
            | Some r => Ok (VList [], r)
            | None => parse_elems fuel [] (skip_ws s1)
            end
          else if bool_decide (a = chr 123) then
            match after (chr 125) (skip_ws s1) with
            | Some r => Ok (VDict [], r)
            | None => parse_members fuel [] (skip_ws s1)
            end
          else match parse_literal literals s with
               | Some p => Ok p
               | None => parse_number s
               end
      end
  end
with parse_elems (fuel : nat) (acc : list value) (s : string) : res (value * string) :=
  match fuel with
  | O => raise RecursionError "fuel"
  | S fuel =>
      '(v, r) ← parse_value fuel s;
      let acc := (acc ++ [v])%list in
      match after (chr 93) (skip_ws r), after (chr 44) (skip_ws r) with
      | Some r, _ => Ok (VList acc, r)
      | None, Some r => parse_elems fuel acc (skip_ws r)
      | None, None => jerr
      end
  end
with parse_members (fuel : nat) (acc : dict) (s : string) : res (value * string) :=
  match fuel with
  | O => raise RecursionError "fuel"
  | S fuel =>
      match after DQ s with
      | None => jerr
      | Some s =>
          '(k, r) ← scan_string s;
          match after (chr 58) (skip_ws r) with
          | None => jerr
          | Some r =>
              '(v, r) ← parse_value fuel (skip_ws r);
              let acc := dset acc k v in
              match after (chr 125) (skip_ws r), after (chr 44) (skip_ws r) with
              | Some r, _ => Ok (VDict acc, r)
              | None, Some r => parse_members fuel acc (skip_ws r)
              | None, None => jerr
              end
          end
      end
  end.

(** [json.loads] of a [str] *)
Definition loads (s : pystr) : res value :=
  '(v, r) ← parse_value (2 * String.length s + 2) (skip_ws s);
  if bool_decide (skip_ws r = "") then Ok v else raise JSONDecodeError "Extra data".

(** ** [json.loads] of [bytes]: the encoding is detected first *)

Fixpoint utf16_units (be : bool) (s : bytes) : option (list Z) :=
  match s with
  | "" => Some []
  | String a (String b s) =>
      l ← utf16_units be s;
      Some ((if be : bool then byte_of a * 256 + byte_of b else byte_of b * 256 + byte_of a) :: l)
  | _ => None
  end.
Fixpoint utf16_join (l : list Z) : list Z :=
  match l with
  | x :: ((y :: l') as l) =>
      if is_high x && is_low y then 65536 + (x - 55296) * 1024 + (y - 56320) :: utf16_join l'
      else x :: utf16_join l
  | l => l
  end.
Fixpoint utf32_units (be : bool) (s : bytes) : option (list Z) :=
  match s with
  | "" => Some []
  | String a (String b (String c (String d s))) =>
      l ← utf32_units be s;
      let u := if be : bool
               then byte_of a * 16777216 + byte_of b * 65536 + byte_of c * 256 + byte_of d
               else byte_of d * 16777216 + byte_of c * 65536 + byte_of b * 256 + byte_of a in
      if u <? 1114112 then Some (u :: l) else None
  | _ => None
  end.

Definition undecodable {A} : res A := raise UnicodeDecodeError "can't decode".
Definition decode16 (be : bool) (s : bytes) : res pystr :=
  match utf16_units be s with Some l => Ok (utf8_encode (utf16_join l)) | None => undecodable end.
Definition decode32 (be : bool) (s : bytes) : res pystr :=
  match utf32_units be s with Some l => Ok (utf8_encode l) | None => undecodable end.
Definition decode8 (s : bytes) : res pystr :=
  if forallb fst (utf8_pieces true s) then Ok s else undecodable.

(** [raw.decode(detect_encoding(raw), "surrogatepass")] *)
Definition decode_json_bytes (b : bytes) : res pystr :=
  let z a := byte_of a =? 0 in
  let bom l := of_chars (chr <$> l) in
  if startswith b (bom [0; 0; 254; 255]) then decode32 true (drop_str 4 b)
  else if startswith b (bom [255; 254; 0; 0]) then decode32 false (drop_str 4 b)
  else if startswith b (bom [254; 255]) then decode16 true (drop_str 2 b)
  else if startswith b (bom [255; 254]) then decode16 false (drop_str 2 b)
  else if startswith b (bom [239; 187; 191]) then decode8 (drop_str 3 b)
  else match b with
  | String b0 (String b1 (String b2 (String b3 _))) =>
      if z b0 then (if z b1 then decode32 true b else decode16 true b)
      else if z b1 then (if z b2 && z b3 then decode32 false b else decode16 false b)
      else decode8 b
  | String b0 (String b1 "") =>
      if z b0 then decode16 true b else if z b1 then decode16 false b else decode8 b
  | _ => decode8 b
  end.

(** [json.loads] of [bytes] *)
Definition loads_bytes (b : bytes) : res value := s ← decode_json_bytes b; loads s.
