(* ===== verification/JsonFacts.v ===== *)
(** The round trip of the JSON encoder and decoder, and what it gives:
    canonical JSON determines the value it encodes. *)

From S2P Require Export Json.
From Stdlib Require Import SpecFloat Ascii Bool.
#[local] Open Scope Z_scope.

(** Decide a comparison of concrete characters. *)
Ltac chr_decide :=
  repeat match goal with
  | |- context [bool_decide (?a = ?b)] =>
      first [rewrite (bool_decide_true (a = b)) by reflexivity
            |rewrite (bool_decide_false (a = b)) by (intros Habs; vm_compute in Habs; discriminate Habs)]
  end.

(** * Integers *)

Definition all_digits (s : string) : Prop := Forall (λ a, is_digit a = true) (chars s).

Lemma digit_chr x : 0 ≤ x < 10 → is_digit (chr (48 + x)) = true.
Proof. intros. unfold is_digit. rewrite byte_of_chr by lia. apply andb_true_iff; lia. Qed.

Lemma digits_value_snoc s a : digits_value (s +:+ String a "") = digits_value s * 10 + (byte_of a - 48).
Proof. unfold digits_value. by rewrite chars_app, foldl_app. Qed.

Lemma dec_digits_spec fuel n acc :
  0 ≤ n < 10 ^ Z.of_nat fuel → (0 < fuel)%nat →
  ∃ ds, dec_digits fuel n acc = ds +:+ acc ∧ all_digits ds ∧ digits_value ds = n ∧
    (0 < String.length ds <= fuel)%nat ∧ (n < 10 → String.length ds = 1%nat) ∧
    (∀ b t, ds = String b t → byte_of b = 48 → n = 0) ∧
    (∀ k, (0 < k)%nat → n < 10 ^ Z.of_nat k → (String.length ds ≤ k)%nat).
Proof.
  revert n acc. induction fuel as [|fuel IH]; intros n acc Hn Hf; [lia|]. cbn [dec_digits].
  pose proof (Z.mod_pos_bound n 10 ltac:(lia)). pose proof (Z.div_mod n 10 ltac:(lia)).
  assert (Hd : all_digits (String (chr (48 + n mod 10)) ""))
    by (constructor; [by apply digit_chr|constructor]).
  destruct (Z.ltb_spec n 10).
  - exists (String (chr (48 + n mod 10)) ""). rewrite Z.mod_small in * by lia.
    repeat split; [done|unfold digits_value; simpl; rewrite byte_of_chr; lia|simpl; lia..| |].
    + intros b t [= <- <-]. rewrite byte_of_chr; lia.
    + intros; simpl; lia.
  - rewrite Nat2Z.inj_succ, Z.pow_succ_r in Hn by lia.
    assert (0 ≤ n / 10 < 10 ^ Z.of_nat fuel).
    { split; [apply Z.div_pos; lia|apply Z.div_lt_upper_bound; lia]. }
    destruct fuel as [|fuel']; [simpl in *; lia|].
    destruct (IH (n / 10) (String (chr (48 + n mod 10)) acc)) as (ds&->&Hds&Hv&Hl&_&Hz&Hk); [done|lia|].
    exists (ds +:+ String (chr (48 + n mod 10)) ""). autorewrite with pystr. simpl String.length.
    repeat split.
    + unfold all_digits. rewrite chars_app. by apply Forall_app.
    + rewrite digits_value_snoc, Hv, byte_of_chr by lia. lia.
    + lia.
    + lia.
    + lia.
    + intros b t E Hb. destruct ds as [|b' ds]; [simpl in Hl; lia|].
      rewrite app_str_cons in E. simplify_eq. specialize (Hz b ds eq_refl Hb). lia.
    + intros k Hk0 Hkn. destruct (decide (k = 1%nat)) as [->|]; [change (10 ^ Z.of_nat 1) with 10 in *; lia|].
      replace k with (S (k - 1)) in Hkn by lia. rewrite Nat2Z.inj_succ, Z.pow_succ_r in Hkn by lia.
      assert (n / 10 < 10 ^ Z.of_nat (k - 1)) by (apply Z.div_lt_upper_bound; lia).
      specialize (Hk (k - 1)%nat). lia.
Qed.

Lemma dec_nat_spec n :
  0 ≤ n → all_digits (dec_nat n) ∧ digits_value (dec_nat n) = n ∧
    (0 < String.length (dec_nat n))%nat ∧ (n < 10 → String.length (dec_nat n) = 1%nat) ∧
    (∀ b t, dec_nat n = String b t → byte_of b = 48 → n = 0) ∧
    (∀ k, (0 < k)%nat → n < 10 ^ Z.of_nat k → (String.length (dec_nat n) ≤ k)%nat).
Proof.
  intros Hn. unfold dec_nat.
  destruct (dec_digits_spec (S (Z.to_nat (Z.log2 n))) n "") as (ds&->&?&?&?&?&?&?); [|lia|].
  - split; [done|]. rewrite Nat2Z.inj_succ, Z2Nat.id by apply Z.log2_nonneg.
    destruct (decide (n = 0)) as [->|]; [simpl; lia|].
    pose proof (Z.log2_spec n ltac:(lia)).
    pose proof (Z.pow_le_mono_l 2 10 (Z.succ (Z.log2 n)) ltac:(lia)). lia.
  - rewrite app_str_nil_r. naive_solver lia.
Qed.

Lemma span_digits_app ds rest :
  all_digits ds → match rest with String a _ => is_digit a = false | "" => True end →
  span_digits (ds +:+ rest) = (ds, rest).
Proof.
  intros Hd Hr. induction ds as [|a ds IH].
  - rewrite app_str_nil_l. destruct rest as [|a rest]; [done|]. simpl. by rewrite Hr.
  - inversion Hd; subst. rewrite app_str_cons. cbn. rewrite H1. by rewrite IH.
Qed.

(** What may follow a number: nothing that would continue it. *)
Definition num_end (s : string) : Prop :=
  match s with String a _ => byte_of a ∈ [44; 93; 125; 32; 10] | "" => True end.

Lemma num_end_facts s : num_end s →
  match s with String a _ => is_digit a = false | "" => True end ∧
  parse_frac s = None ∧ parse_exp s = None.
Proof.
  destruct s as [|a s]; [done|]. unfold num_end, parse_frac, parse_exp, exp_mark, after, is_digit. intros H.
  assert (Hne : ∀ x, 0 ≤ x < 256 → x ∉ [44; 93; 125; 32; 10] → bool_decide (chr x = a) = false).
  { intros x Hx Hni. apply bool_decide_eq_false. intros <-. by rewrite byte_of_chr in H. }
  rewrite !Hne by (lia || set_solver).
  split; [|done]. apply andb_false_iff. rewrite !elem_of_cons, elem_of_nil in H. lia.
Qed.

Lemma parse_digits_nat n rest :
  0 ≤ n < 10 ^ Z.of_nat MAX_INT_DIGITS → num_end rest →
  ∃ d0 ds, dec_nat n = String d0 ds ∧ is_digit d0 = true ∧
    span_digits (dec_nat n +:+ rest) = (String d0 ds, rest) ∧
    (if bool_decide (d0 = chr 48) then (String d0 "", ds +:+ rest) else (String d0 ds, rest))
      = (dec_nat n, rest) ∧
    digits_value (dec_nat n) = n ∧ (MAX_INT_DIGITS <? String.length (dec_nat n))%nat = false.
Proof.
  intros [Hn Hmax] Hr. destruct (dec_nat_spec n Hn) as (Hd&Hv&Hl&H1&H0&Hk).
  destruct (dec_nat n) as [|d0 ds] eqn:E; [simpl in Hl; lia|].
  exists d0, ds. split; [done|]. split; [by inversion Hd|].
  split; [apply span_digits_app; [done|apply num_end_facts, Hr]|].
  split; [|split; [done|]].
  - case_bool_decide as Hz; [|done]. subst d0.
    assert (n = 0) by (eapply H0; [done|by rewrite byte_of_chr]). subst n.
    specialize (H1 ltac:(lia)). destruct ds; [done|simpl in H1; lia].
  - apply Nat.ltb_ge. apply Hk; [unfold MAX_INT_DIGITS; lia|done].
Qed.

Lemma after_ne a b s : a ≠ b → after a (String b s) = None.
Proof. intros. simpl. by rewrite bool_decide_false. Qed.
Lemma after_eq a s : after a (String a s) = Some s.
Proof. simpl. by rewrite bool_decide_true. Qed.

Lemma parse_number_dec n rest :
  Z.abs n < 10 ^ Z.of_nat MAX_INT_DIGITS → num_end rest →
  parse_number (dec n +:+ rest) = Ok (VInt n, rest).
Proof.
  intros Hn Hr. pose proof (num_end_facts _ Hr) as (_ & Hfr & Hex).
  unfold parse_number, dec. destruct (Z.ltb_spec n 0).
  - rewrite app_str_assoc. change ("-" +:+ ?s) with (String (chr 45) s). rewrite after_eq.
    destruct (parse_digits_nat (- n) rest) as (d0&ds&E&_&->&Hif&Hv&Hlen); [lia|done|].
    rewrite Hif, Hfr, Hex, Hlen, Hv. do 3 f_equal. lia.
  - destruct (parse_digits_nat n rest) as (d0&ds&E&Hd0&Hspan&Hif&Hv&Hlen); [lia|done|].
    rewrite E at 1. rewrite app_str_cons, after_ne.
    + rewrite Hspan, Hif, Hfr, Hex, Hlen, Hv. done.
    + intros <-. vm_compute in Hd0. discriminate.
Qed.

(** * Strings *)

Lemma prepend_prepend t u r : prepend t (prepend u r) = prepend (t +:+ u) r.
Proof. destruct r as [[s rest]|e]; [|done]. cbn. by rewrite app_str_assoc. Qed.

Lemma scan_raw a s :
  32 ≤ byte_of a → byte_of a ≠ 34 → byte_of a ≠ 92 →
  scan_string (String a s) = prepend (String a "") (scan_string s).
Proof.
  intros H1 H2 H3. cbn [scan_string].
  rewrite !bool_decide_false by (intros ->; vm_compute in H2, H3; done). by Zbool.
Qed.

Lemma scan_esc e t s :
  e ≠ chr 117 → unescape e = Some t →
  scan_string (String BS (String e s)) = prepend t (scan_string s).
Proof.
  intros He Ht. cbn [scan_string]. chr_decide. rewrite bool_decide_false by done. by rewrite Ht.
Qed.

Lemma hex_val_digit x : 0 ≤ x < 16 → hex_val (hex_digit x) = Some x.
Proof.
  intros. unfold hex_val, hex_digit. destruct (Z.ltb_spec x 10); rewrite !byte_of_chr by lia;
    Zbool; simpl; f_equal; lia.
Qed.

Lemma hex4_pad u s :
  0 ≤ u < 65536 →
  ∃ a b c d, hex_pad 4 u +:+ s = String a (String b (String c (String d s))) ∧
    hex4 a b c d = Some u.
Proof.
  intros Hu. cbn [hex_pad]. rewrite !app_str_assoc. do 4 eexists. split; [reflexivity|].
  unfold hex4. rewrite !hex_val_digit by (apply Z.mod_pos_bound; lia). cbn. f_equal.
  rewrite !Z.div_div by lia. change (16 * 16) with 256. change (16 * 256) with 4096.
  change (256 * 16) with 4096.
  pose proof (Z.div_mod u 16 ltac:(lia)).
  pose proof (Z.div_mod (u / 16) 16 ltac:(lia)) as H1. rewrite Z.div_div in H1 by lia.
  pose proof (Z.div_mod (u / 256) 16 ltac:(lia)) as H2. rewrite Z.div_div in H2 by lia.
  change (16 * 16) with 256 in *. change (256 * 16) with 4096 in *.
  assert (u / 4096 mod 16 = u / 4096).
  { apply Z.mod_small. split; [apply Z.div_pos; lia|apply Z.div_lt_upper_bound; lia]. }
  lia.
Qed.

Lemma scan_u x s :
  0 ≤ x < 65536 → is_high x = false →
  scan_string (u_esc x +:+ s) = prepend (utf8_enc x) (scan_string s).
Proof.
  intros Hx Hh. destruct (hex4_pad x s Hx) as (a&b&c&d&E&H4).
  unfold u_esc, esc. autorewrite with pystr. rewrite E.
  cbn [scan_string]. chr_decide. by rewrite H4, Hh.
Qed.

Lemma scan_u_pair x y s :
  is_high x = true → is_low y = true →
  scan_string (u_esc x +:+ u_esc y +:+ s)
  = prepend (utf8_enc (65536 + (x - 55296) * 1024 + (y - 56320))) (scan_string s).
Proof.
  unfold is_high, is_low. intros Hx Hy.
  destruct (hex4_pad y s) as (a'&b'&c'&d'&E'&H4'); [lia|].
  destruct (hex4_pad x (u_esc y +:+ s)) as (a&b&c&d&E&H4); [lia|].
  unfold u_esc at 1, esc. autorewrite with pystr. rewrite E.
  unfold u_esc, esc. autorewrite with pystr. rewrite E'.
  cbn [scan_string]. chr_decide. rewrite H4. cbv iota beta. unfold is_high, is_low. rewrite Hx. cbv iota. rewrite H4'. cbn [andb]. cbv iota beta. by rewrite Hy.
Qed.

Lemma scan_utf8 cp s :
  is_cp cp → 32 ≤ cp → cp ≠ 34 → cp ≠ 92 →
  scan_string (utf8_enc cp +:+ s) = prepend (utf8_enc cp) (scan_string s).
Proof.
  intros H ???. pose proof (sextets cp H) as (?&?&?&?&?&?). unfold is_cp in H. unfold utf8_enc, str1.
  destruct (Z.ltb_spec cp 128); [|destruct (Z.ltb_spec cp 2048); [|destruct (Z.ltb_spec cp 65536)]];
    autorewrite with pystr; rewrite !scan_raw by (rewrite byte_of_chr; lia);
    by rewrite ?prepend_prepend.
Qed.

Lemma scan_json_char ao cp s :
  is_scalar cp → scan_string (json_char ao cp +:+ s) = prepend (utf8_enc cp) (scan_string s).
Proof.
  intros [Hcp Hs]. unfold json_char, esc, str1.
  destruct (Z.eqb_spec cp 34) as [->|]; [by apply (scan_esc (chr 34))|].
  destruct (Z.eqb_spec cp 92) as [->|]; [by apply (scan_esc (chr 92))|].
  destruct (Z.eqb_spec cp 10) as [->|]; [by apply (scan_esc (chr 110))|].
  destruct (Z.eqb_spec cp 13) as [->|]; [by apply (scan_esc (chr 114))|].
  destruct (Z.eqb_spec cp 9) as [->|]; [by apply (scan_esc (chr 116))|].
  destruct (Z.eqb_spec cp 12) as [->|]; [by apply (scan_esc (chr 102))|].
  destruct (Z.eqb_spec cp 8) as [->|]; [by apply (scan_esc (chr 98))|].
  pose proof Hcp as Hcp'. unfold is_cp in Hcp'.
  unfold is_surrogate in Hs. apply andb_false_iff in Hs.
  destruct (Z.ltb_spec cp 32).
  { apply scan_u; [lia|]. unfold is_high. apply andb_false_iff; lia. }
  destruct (ao && (126 <? cp)) eqn:E; [|by apply scan_utf8].
  destruct (Z.ltb_spec cp 65536).
  { apply scan_u; [lia|]. unfold is_high. apply andb_false_iff; lia. }
  pose proof (Z.mod_pos_bound (cp - 65536) 1024 ltac:(lia)).
  pose proof (Z.div_mod (cp - 65536) 1024 ltac:(lia)).
  rewrite app_str_assoc, scan_u_pair by (unfold is_high, is_low; apply andb_true_iff; lia).
  do 2 f_equal. lia.
Qed.

Lemma scan_json_body ao cps rest :
  Forall is_scalar cps →
  scan_string (json_body ao cps +:+ String DQ rest) = Ok (utf8_encode cps, rest).
Proof.
  intros H. induction H as [|cp cps Hcp H IH].
  - cbn. by chr_decide.
  - assert (json_body ao (cp :: cps) = json_char ao cp +:+ json_body ao cps) as ->.
    { unfold json_body. destruct cps; cbn; [by rewrite app_str_nil_r|done]. }
    rewrite app_str_assoc, scan_json_char, IH by done. done.
Qed.

Lemma scan_json_str ao s rest :
  ustr s → scan_string (json_body ao (utf8_decode s) +:+ String DQ rest) = Ok (s, rest).
Proof.
  intros Hs. pose proof (ustr_wf s Hs) as Hw. destruct Hs as (cps & H & ->).
  rewrite utf8_decode_encode by (by apply (Forall_impl _ _ _ H), scalar_cp).
  by apply scan_json_body.
Qed.

(** * Values *)

(** The values that survive a round trip: no floats, integers within [int()]'s
    digit limit, text without lone surrogates, distinct keys. *)
#[warnings="-register-all"]
Inductive json_ok : value → Prop :=
  | ok_none : json_ok VNone
  | ok_bool b : json_ok (VBool b)
  | ok_int n : Z.abs n < 10 ^ Z.of_nat MAX_INT_DIGITS → json_ok (VInt n)
  | ok_str s : ustr s → json_ok (VStr s)
  | ok_list l : Forall json_ok l → json_ok (VList l)
  | ok_dict d : wf_dict d → Forall (λ kv, ustr kv.1 ∧ json_ok kv.2) d → json_ok (VDict d).

(** A sufficient test: ASCII text only. *)
Fixpoint json_okb (v : value) : bool :=
  match v with
  | VNone | VBool _ => true
  | VInt n => Z.abs n <? 10 ^ Z.of_nat MAX_INT_DIGITS
  | VFloat _ => false
  | VStr s => is_ascii s
  | VList l => forallb json_okb l
  | VDict d => bool_decide (wf_dict d) && forallb (λ kv, is_ascii kv.1 && json_okb kv.2) d
  end.
#[export] Instance wf_dict_dec d : Decision (wf_dict d).
Proof. unfold wf_dict. apply _. Defined.

Lemma json_okb_ok v : json_okb v = true → json_ok v.
Proof.
  induction v as [|b|n|f|s|l IH|d IH] using value_ind'; cbn [json_okb]; intros H;
    try (by constructor); try discriminate.
  - constructor. lia.
  - constructor. by apply is_ascii_ustr.
  - constructor. induction IH; constructor; simpl in H; apply andb_true_iff in H as []; auto.
  - apply andb_true_iff in H as [Hd H]. constructor; [by apply bool_decide_eq_true in Hd|].
    clear Hd. induction IH; constructor; simpl in H; apply andb_true_iff in H as [Hh Ht]; auto.
    apply andb_true_iff in Hh as []. split; [by apply is_ascii_ustr|auto].
Qed.

(** White space. *)
Definition ws_str (w : string) : Prop := Forall (λ a, is_ws a = true) (chars w).
Definition sep_ok (o : json_opts) : Prop :=
  (∃ w, item_sep o = String (chr 44) w ∧ ws_str w) ∧ (∃ w, key_sep o = String (chr 58) w ∧ ws_str w).
Lemma sep_ok_std o :
  item_sep o = "," ∨ item_sep o = ", " → key_sep o = ":" ∨ key_sep o = ": " → sep_ok o.
Proof.
  intros Hi Hk. split.
  - destruct Hi as [->| ->]; eexists; (split; [reflexivity|repeat constructor]).
  - destruct Hk as [->| ->]; eexists; (split; [reflexivity|repeat constructor]).
Qed.

Lemma skip_ws_app w s : ws_str w → skip_ws (w +:+ s) = skip_ws s.
Proof.
  induction w as [|a w IH]; intros H; [done|]. inversion H; subst. rewrite app_str_cons. cbn.
  by rewrite H2, IH.
Qed.

(** No value text starts with white space, a closing bracket or a comma. *)
Lemma num_head n : ∃ a t, dec n = String a t ∧ (is_digit a = true ∨ a = chr 45 ∧
  ∃ b t', t = String b t' ∧ is_digit b = true).
Proof.
  assert (Hh : ∀ m, 0 ≤ m → ∃ a t, dec_nat m = String a t ∧ is_digit a = true).
  { intros m Hm. destruct (dec_nat_spec m Hm) as (Hd&_&Hl&_).
    destruct (dec_nat m) as [|a t]; [simpl in Hl; lia|]. inversion Hd; subst. eauto. }
  unfold dec. destruct (Z.ltb_spec n 0).
  - destruct (Hh (- n)) as (a&t&->&Ha); [lia|]. exists (chr 45), (String a t). eauto 10.
  - destruct (Hh n) as (a&t&->&Ha); [done|]. eauto.
Qed.

Lemma digit_byte a : is_digit a = true → 48 ≤ byte_of a ≤ 57.
Proof. unfold is_digit. intros ?%andb_true_iff. lia. Qed.

Lemma encode_head o v : json_ok v →
  ∃ a t, encode o v = String a t ∧ is_ws a = false ∧ byte_of a ≠ 93 ∧ byte_of a ≠ 125.
Proof.
  intros H. destruct H as [|b|n|s|l|d]; try (by eexists _, _; split; [reflexivity|]).
  - by destruct b; eexists _, _; split.
  - cbn [encode]. destruct (num_head n) as (a&t&->&Ha). exists a, t. split; [done|].
    destruct Ha as [Ha%digit_byte|[-> _]]; [|by vm_compute].
    unfold is_ws. rewrite bool_decide_eq_false, !elem_of_cons, elem_of_nil. lia.
Qed.

Lemma skip_ws_encode o v rest :
  json_ok v → skip_ws (encode o v +:+ rest) = encode o v +:+ rest.
Proof.
  intros H. destruct (encode_head o v H) as (a&t&->&Ha&_). rewrite app_str_cons. cbn. by rewrite Ha.
Qed.

Lemma after_bracket o v rest : json_ok v → after (chr 93) (encode o v +:+ rest) = None.
Proof.
  intros H. destruct (encode_head o v H) as (a&t&->&_&Ha&_).
  rewrite app_str_cons. apply after_ne. intros <-. by vm_compute in Ha.
Qed.

Lemma literal_dec n rest : parse_literal literals (dec n +:+ rest) = None.
Proof.
  assert (Hs : ∀ a t l b, is_digit a = true → byte_of b > 57 →
    startswith (String a t) (String b l) = false).
  { intros a t l b Ha%digit_byte Hb. simpl. rewrite bool_decide_false; [done|]. intros ->. lia. }
  destruct (num_head n) as (a&t&->&[Ha|[-> (b&t'&->&Hb)]]); rewrite !app_str_cons.
  - cbn [parse_literal literals]. rewrite !Hs by (done || vm_compute; done).
    cbn [startswith]. rewrite bool_decide_false; [done|]. intros <-. by vm_compute in Ha.
  - cbn [parse_literal literals startswith]. chr_decide. cbn [andb].
    rewrite bool_decide_false; [done|]. intros <-. by vm_compute in Hb.
Qed.

Lemma join_cons2 sep x y l : join sep (x :: y :: l) = x +:+ sep +:+ join sep (y :: l).
Proof. done. Qed.

Lemma num_end_chr a s : byte_of a ∈ [44; 93; 125; 32; 10] → num_end (String a s).
Proof. done. Qed.

Section roundtrip.
  Context (o : json_opts) (Hsep : sep_ok o).

Definition parses (v : value) : Prop := ∀ fuel rest,
    json_ok v → num_end rest → (String.length (encode o v) ≤ fuel)%nat →
    parse_value fuel (encode o v +:+ rest) = Ok (v, rest).

Definition pair_text (kv : string * value) : string :=
    json_str (ensure_ascii o) kv.1 +:+ key_sep o +:+ encode o kv.2.

Lemma item_sep_end rest : num_end (item_sep o +:+ rest).
  Proof.
    destruct Hsep as [(w&->&_) _]. rewrite app_str_cons. apply num_end_chr.
    rewrite byte_of_chr by lia. set_solver.
  Qed.
Lemma item_sep_len : (1 ≤ String.length (item_sep o))%nat.
  Proof. destruct Hsep as [(w&->&_) _]. simpl. lia. Qed.
Lemma after_item_sep c rest : byte_of c ≠ 44 →
    after c (skip_ws (item_sep o +:+ rest)) = None ∧
    ∃ w, ws_str w ∧ after (chr 44) (skip_ws (item_sep o +:+ rest)) = Some (w +:+ rest).
  Proof.
    intros Hc. destruct Hsep as [(w&->&Hw) _]. rewrite app_str_cons.
    change (skip_ws (String (chr 44) ?s)) with (String (chr 44) s).
    split; [|exists w; split; [done|apply after_eq]].
    apply after_ne. intros ->. by rewrite byte_of_chr in Hc.
  Qed.

Lemma parse_elems_ok l : Forall parses l → ∀ fuel acc rest,
    l ≠ [] → Forall json_ok l →
    (String.length (join (item_sep o) (encode o <$> l)) < fuel)%nat →
    parse_elems fuel acc (join (item_sep o) (encode o <$> l) +:+ String (chr 93) rest)
    = Ok (VList (acc ++ l), rest).
  Proof.
    pose proof item_sep_len as Hlen.
    induction 1 as [|v l Hv Hl IH]; intros fuel acc rest Hne Hok Hf; [done|].
    destruct fuel as [|fuel]; [lia|]. inversion Hok; subst. cbn [parse_elems].
    destruct l as [|v2 l].
    - cbn [fmap list_fmap join] in Hf |- *.
      rewrite Hv; [|done|apply num_end_chr; set_solver|lia]. cbn [mbind res_bind].
      change (skip_ws (String (chr 93) rest)) with (String (chr 93) rest). by rewrite after_eq.
    - cbn [fmap list_fmap] in Hf |- *. rewrite join_cons2 in Hf |- *.
      rewrite !length_app_str in Hf. rewrite !app_str_assoc.
      rewrite Hv; [|done|apply item_sep_end|lia]. cbn [mbind res_bind].
      destruct (after_item_sep (chr 93)
        (join (item_sep o) (encode o v2 :: (encode o <$> l)) +:+ String (chr 93) rest))
        as (-> & w & Hw & ->); [by vm_compute|].
      rewrite skip_ws_app by done.
      assert (∃ t, join (item_sep o) (encode o v2 :: (encode o <$> l)) = encode o v2 +:+ t) as [t Ht].
      { destruct l; cbn; [exists ""; by rewrite app_str_nil_r|by eexists]. }
      rewrite Ht, app_str_assoc, skip_ws_encode, <-app_str_assoc, <-Ht by (by inversion H2).
      change (encode o v2 :: (encode o <$> l)) with (encode o <$> v2 :: l).
      rewrite IH; [by rewrite <-app_assoc|done|done|]. cbn [fmap list_fmap]. lia.
  Qed.

Lemma parse_members_ok d : Forall (λ kv, parses kv.2) d → ∀ fuel acc rest,
    d ≠ [] → Forall (λ kv, ustr kv.1 ∧ json_ok kv.2) d → NoDup (dkeys (acc ++ d)) →
    (String.length (join (item_sep o) (pair_text <$> d)) < fuel)%nat →
    parse_members fuel acc (join (item_sep o) (pair_text <$> d) +:+ String (chr 125) rest)
    = Ok (VDict (acc ++ d), rest).
  Proof.
    pose proof item_sep_len as Hlen.
    induction 1 as [|[k v] d Hv Hl IH]; intros fuel acc rest Hne Hok Hnd Hf; [done|].
    destruct fuel as [|fuel]; [lia|]. inversion Hok as [|? ? [Hk Hok1] Hok2]; subst.
    assert (Hstep : ∀ tail, num_end tail → (String.length (encode o v) ≤ fuel)%nat →
      parse_members (S fuel) acc (pair_text (k, v) +:+ tail) =
        match after (chr 125) (skip_ws tail), after (chr 44) (skip_ws tail) with
        | Some r, _ => Ok (VDict (acc ++ [(k, v)]), r)
        | None, Some r => parse_members fuel (acc ++ [(k, v)]) (skip_ws r)
        | None, None => jerr
        end).
    { intros tail Ht Hlf. cbn [parse_members]. unfold pair_text, json_str. cbn [fst snd].
      rewrite !app_str_cons, after_eq, !app_str_assoc, !app_str_cons, scan_json_str by done.
      cbn [mbind res_bind]. destruct Hsep as [_ (w & -> & Hw)].
      rewrite app_str_nil_l, app_str_cons.
      change (skip_ws (String (chr 58) ?s)) with (String (chr 58) s).
      rewrite after_eq, skip_ws_app, skip_ws_encode, Hv by done. cbn [mbind res_bind].
      rewrite dset_fresh; [done|].
      unfold dkeys in Hnd |- *. rewrite fmap_app, NoDup_app in Hnd. set_solver. }
    destruct d as [|[k2 v2] d].
    - cbn [fmap list_fmap join] in Hf |- *.
      rewrite Hstep; [|apply num_end_chr; set_solver|unfold pair_text in Hf; rewrite !length_app_str in Hf; simpl in Hf; lia].
      change (skip_ws (String (chr 125) rest)) with (String (chr 125) rest). by rewrite after_eq.
    - cbn [fmap list_fmap] in Hf |- *. rewrite join_cons2 in Hf |- *.
      rewrite !length_app_str in Hf. rewrite !app_str_assoc.
      rewrite Hstep; [|apply item_sep_end|unfold pair_text at 1 in Hf; rewrite !length_app_str in Hf; simpl in Hf; lia].
      destruct (after_item_sep (chr 125)
        (join (item_sep o) (pair_text (k2, v2) :: (pair_text <$> d)) +:+ String (chr 125) rest))
        as (-> & w & Hw & ->); [by vm_compute|].
      rewrite skip_ws_app by done.
      assert (∃ t, join (item_sep o) (pair_text (k2, v2) :: (pair_text <$> d)) = String DQ t) as [t Ht].
      { destruct d; cbn; unfold pair_text, json_str; rewrite ?app_str_cons; by eexists. }
      rewrite Ht. change (skip_ws (String DQ t +:+ ?s)) with (String DQ t +:+ s). rewrite <-Ht.
      change (pair_text (k2, v2) :: (pair_text <$> d)) with (pair_text <$> (k2, v2) :: d).
      rewrite IH; [by rewrite <-app_assoc|done|done|by rewrite <-app_assoc|].
      cbn [fmap list_fmap]. lia.
  Qed.
End roundtrip.

Lemma parse_encode o v : sep_ok o → parses o v.
Proof.
  intros Hsep. induction v as [|b|n|f|s|l IH|d IH] using value_ind';
    intros fuel rest Hok Hend Hf.
  - destruct fuel; [simpl in Hf; lia|]. cbn [encode]. rewrite !app_str_cons. vm_compute. reflexivity.
  - destruct fuel; [destruct b; simpl in Hf; lia|].
    destruct b; cbn [encode]; rewrite !app_str_cons; vm_compute; reflexivity.
  - inversion Hok; subst. destruct (encode_head o (VInt n) Hok) as (a&t&E&_).
    destruct (num_head n) as (a'&t'&E'&Ha).
    assert (Hne : ∀ c, byte_of c > 57 → a' ≠ c) by (intros c Hc ->;
      destruct Ha as [?%digit_byte|[-> _]]; [lia|by rewrite byte_of_chr in Hc by lia]).
    assert (a' ≠ DQ) by (intros ->; destruct Ha as [Ha|[Ha _]]; by vm_compute in Ha).
    cbn [encode] in *. destruct fuel as [|fuel]; [rewrite E' in Hf; simpl in Hf; lia|].
    pose proof (literal_dec n rest) as Hlit. pose proof (parse_number_dec n rest) as Hnum.
    rewrite E', app_str_cons in *. cbn [parse_value].
    rewrite !bool_decide_false by (done || by apply Hne). rewrite Hlit. by apply Hnum.
  - inversion Hok.
  - inversion Hok; subst. destruct fuel as [|fuel]; [simpl in Hf; lia|].
    cbn [encode]. unfold json_str. rewrite app_str_cons, app_str_assoc, app_str_cons, app_str_nil_l.
    cbn [parse_value]. rewrite (bool_decide_true (DQ = DQ)) by done.
    by rewrite scan_json_str.
  - inversion Hok as [| | | |? Hl|]; subst. cbn [encode] in *. rewrite !length_app_str in Hf.
    destruct fuel as [|fuel]; [simpl in Hf; lia|].
    rewrite !app_str_assoc, !app_str_cons, !app_str_nil_l. cbn [parse_value]. chr_decide.
    destruct l as [|v l]; [done|].
    assert (∃ t, join (item_sep o) (encode o <$> v :: l) = encode o v +:+ t) as [t Ht].
    { destruct l; cbn; [exists ""; by rewrite app_str_nil_r|by eexists]. }
    assert (Hv : json_ok v) by (by inversion Hl).
    rewrite Ht, !app_str_assoc, skip_ws_encode by done.
    rewrite after_bracket by done.
    rewrite <-app_str_assoc, <-Ht.
    apply (parse_elems_ok o Hsep (v :: l) IH fuel [] rest); [done..|]. cbn [String.length] in Hf. lia.
  - inversion Hok as [| | | | |? Hd Hl]; subst. cbn [encode] in *. rewrite !length_app_str in Hf.
    destruct fuel as [|fuel]; [simpl in Hf; lia|].
    rewrite !app_str_assoc, !app_str_cons, !app_str_nil_l. cbn [parse_value]. chr_decide.
    change (λ kv : string * value, json_str (ensure_ascii o) kv.1 +:+ _) with (pair_text o) in *.
    destruct d as [|[k v] d]; [done|].
    assert (∃ t, join (item_sep o) (pair_text o <$> (k, v) :: d) = String DQ t) as [t Ht].
    { destruct d; cbn; unfold pair_text, json_str; rewrite ?app_str_cons; by eexists. }
    rewrite Ht, app_str_cons. change (skip_ws (String DQ ?s)) with (String DQ s).
    rewrite after_ne by done. rewrite <-app_str_cons, <-Ht.
    apply (parse_members_ok o Hsep ((k, v) :: d) IH fuel [] rest); [done..|]. cbn [String.length] in Hf. lia.
Qed.

(** [json.loads (json.dumps v) = v] without key sorting. *)
Lemma loads_encode o v : sep_ok o → json_ok v → loads (encode o v) = Ok v.
Proof.
  intros Hsep Hok. unfold loads.
  pose proof (skip_ws_encode o v "" Hok) as Hws. rewrite app_str_nil_r in Hws. rewrite Hws.
  pose proof (parse_encode o v Hsep (2 * String.length (encode o v) + 2)%nat "" Hok) as Hp.
  rewrite app_str_nil_r in Hp. rewrite Hp; [done|done|lia].
Qed.

(** ** Sorted keys *)

#[export] Instance key_le_trans {A} : Transitive (key_le (A := A)).
Proof. intros p q r. unfold key_le. apply transitivity. Qed.
#[export] Instance key_le_total {A} : Total (key_le (A := A)).
Proof. intros p q. unfold key_le. apply String.le_total. Qed.

Lemma sort_value_ok v : json_ok v → json_ok (sort_value v).
Proof.
  induction v as [|b|n|f|s|l IH|d IH] using value_ind'; intros Hok; cbn [sort_value]; try done.
  - inversion Hok as [| | | |? Hl|]; subst. constructor. clear Hok.
    induction IH; cbn; [done|]. inversion Hl; subst. constructor; auto.
  - inversion Hok as [| | | | |? Hd Hl]; subst. clear Hok.
    pose proof (merge_sort_Permutation key_le
      ((λ kv : string * value, (kv.1, sort_value kv.2)) <$> d)) as Hp.
    assert (Hl' : Forall (λ kv : string * value, ustr kv.1 ∧ json_ok kv.2)
      ((λ kv : string * value, (kv.1, sort_value kv.2)) <$> d)).
    { clear Hd Hp. induction IH as [|[k v] d Hv _ IHd]; cbn; [done|].
      inversion Hl as [|? ? [? ?]]; subst. constructor; [split|]; auto. }
    constructor.
    + unfold wf_dict, dkeys in *. rewrite Hp, <-list_fmap_compose. done.
    + by rewrite Hp.
Qed.

(** The round trip of [dumps]: what is read back is the value, with the
    dictionaries in key order when the keys were sorted. *)
Lemma loads_dumps_gen o v :
  sep_ok o → json_ok v → loads (dumps o v) = Ok (if sort_keys o then sort_value v else v).
Proof.
  intros. unfold dumps. destruct (sort_keys o); [apply loads_encode, sort_value_ok|apply loads_encode]; done.
Qed.

Lemma sep_ok_canonical : sep_ok canonical ∧ sep_ok canonical_ascii ∧ sep_ok plain
  ∧ sep_ok plain_utf8 ∧ sep_ok sorted_utf8.
Proof. repeat split; apply sep_ok_std; cbn; auto. Qed.

(** Canonical JSON determines the value up to the order of its keys. *)
Lemma dumps_inj o v w :
  sort_keys o = true → sep_ok o → json_ok v → json_ok w → dumps o v = dumps o w → sort_value v = sort_value w.
Proof.
  intros Hs Hsep Hv Hw E. pose proof (loads_dumps_gen o v Hsep Hv) as H1.
  rewrite E, (loads_dumps_gen o w Hsep Hw), Hs in H1. congruence.
Qed.

(** [loads] on the bytes of ASCII text is [loads] on the text, when it starts
    with two non-null characters and no byte order mark. *)
Lemma loads_bytes_text a b s :
  ustr (String a (String b s)) → 0 < byte_of a < 128 → byte_of b ≠ 0 →
  loads_bytes (String a (String b s)) = loads (String a (String b s)).
Proof.
  intros Hu Ha Hb. unfold loads_bytes, decode_json_bytes. cbn [fmap list_fmap of_chars].
  assert (Hne : ∀ x t, 128 ≤ x < 256 ∨ x = 0 → startswith (String a (String b s)) (String (chr x) t) = false).
  { intros x t Hx. simpl. rewrite bool_decide_false; [done|]. intros <-. rewrite byte_of_chr in Ha; lia. }
  rewrite !Hne by lia.
  assert (H8 : decode8 (String a (String b s)) = Ok (String a (String b s))).
  { unfold decode8. destruct Hu as (cps & H & ->). rewrite utf8_pieces_encode by done.
    assert (forallb fst ((λ cp, (true, utf8_enc cp)) <$> cps) = true) as ->; [|done].
    clear. by induction cps. }
  assert ((byte_of a =? 0) = false) as Hza by lia. assert ((byte_of b =? 0) = false) as Hzb by lia.
  destruct s as [|c [|d s]]; rewrite ?Hza, ?Hzb; by rewrite H8.
Qed.

(** * Errors

    [loads] is total: it fails only with a [JSONDecodeError] or, for an
    over-long integer, a plain [ValueError]; its fuel always suffices. *)

Definition value_error (e : exn) : Prop := exn_cls e = ValueError ∨ exn_cls e = JSONDecodeError.
(** A parser step returns a strictly shorter rest, or one of those errors. *)
Definition consumes {A} (s : string) (m : res (A * string)) : Prop :=
  match m with
  | Ok (_, r) => (String.length r < String.length s)%nat
  | Raise e => value_error e
  end.

Lemma jerr_error {A} s : consumes s (jerr (A := A * string)).
Proof. by right. Qed.
Lemma skip_ws_length s : (String.length (skip_ws s) ≤ String.length s)%nat.
Proof. induction s as [|a s IH]; simpl; [done|]. destruct (is_ws a); simpl; lia. Qed.
Lemma after_length a s r : after a s = Some r → String.length s = S (String.length r).
Proof. destruct s; simpl; [done|]. case_bool_decide; naive_solver. Qed.
Lemma span_digits_length s :
  String.length s = (String.length (span_digits s).1 + String.length (span_digits s).2)%nat.
Proof.
  induction s as [|a s IH]; [done|]. simpl. destruct (is_digit a); [|done].
  destruct (span_digits s); simpl in *. lia.
Qed.
Lemma prepend_consumes t s s' m :
  consumes s m → (String.length s ≤ String.length s')%nat → consumes s' (prepend t m).
Proof. destruct m as [[u r]|e]; simpl; [lia|done]. Qed.

Lemma scan_string_consumes s : consumes s (scan_string s).
Proof.
  enough (∀ n s, (String.length s ≤ n)%nat → consumes s (scan_string s)) by eauto.
  clear s. induction n as [|n IH]; intros s Hs; [destruct s; [apply jerr_error|simpl in Hs; lia]|].
  destruct s as [|a s1]; [apply jerr_error|]. simpl in Hs. cbn [scan_string].
  repeat first
    [ apply jerr_error
    | match goal with
      | |- consumes ?z (prepend _ (scan_string ?k)) =>
          apply (prepend_consumes _ k); [apply IH; simpl in Hs |- *; lia|simpl; lia]
      | |- consumes _ (match ?x with _ => _ end) => destruct x
      | |- consumes _ (if ?x then _ else _) => destruct x
      end
    | simpl; lia ].
Qed.

Lemma parse_literal_consumes ls s p :
  Forall (λ l : string * value, l.1 ≠ "") ls → parse_literal ls s = Some p →
  (String.length p.2 < String.length s)%nat.
Proof.
  assert (Hd : ∀ n (t : string), (String.length (drop_str n t) = String.length t - n)%nat).
  { induction n as [|n IHn]; intros [|a t]; simpl; try lia. by rewrite IHn. }
  induction 1 as [|[l v] ls Hl _ IH]; simpl; [done|]. destruct (startswith s l) eqn:E; [|done].
  intros [= <-]. simpl. rewrite Hd. apply startswith_spec in E as [t ->].
  rewrite length_app_str. destruct l; simpl in *; [done|lia].
Qed.

Lemma parse_frac_length s d r : parse_frac s = Some (d, r) → (String.length r ≤ String.length s)%nat.
Proof.
  unfold parse_frac. destruct (after _ s) as [t|] eqn:E; [|done]. apply after_length in E.
  pose proof (span_digits_length t). destruct (span_digits t). case_bool_decide; [done|].
  intros [= <- <-]. simpl in *. lia.
Qed.
Lemma parse_exp_length s x r : parse_exp s = Some (x, r) → (String.length r ≤ String.length s)%nat.
Proof.
  assert (Hm : ∀ t u, exp_mark t = Some u → (String.length u ≤ String.length t)%nat).
  { unfold exp_mark. intros t u H. destruct (after (chr 101) t) eqn:E; simplify_eq.
    - apply after_length in E. lia.
    - apply after_length in H. lia. }
  assert (Hs : ∀ t, (String.length (exp_sign t).2 ≤ String.length t)%nat).
  { unfold exp_sign. intros t. destruct (after (chr 45) t) eqn:E; [apply after_length in E; simpl; lia|].
    destruct (after (chr 43) t) eqn:E'; [apply after_length in E'|]; simpl; lia. }
  unfold parse_exp. intros H. destruct (exp_mark s) as [t|] eqn:E; [|done]. apply Hm in E.
  specialize (Hs t). destruct (exp_sign t) as [neg u]. pose proof (span_digits_length u).
  destruct (span_digits u) as [d v]. case_bool_decide; [done|]. simplify_eq/=. lia.
Qed.

Lemma parse_number_consumes s : consumes s (parse_number s).
Proof.
  unfold parse_number.
  destruct (match after (chr 45) s with Some r => (true, r) | None => (false, s) end)
    as [neg s1] eqn:E1.
  assert (String.length s1 ≤ String.length s)%nat.
  { destruct (after (chr 45) s) eqn:E; simplify_eq; [apply after_length in E; lia|done]. }
  pose proof (span_digits_length s1) as Hsp. destruct (span_digits s1) as [[|d0 ds] s2]; [apply jerr_error|].
  simpl in Hsp.
  destruct (if bool_decide (d0 = chr 48) then (String d0 "", ds +:+ s2) else (String d0 ds, s2))
    as [ip s3] eqn:E3.
  assert (String.length s3 < String.length s)%nat.
  { case_bool_decide; simplify_eq; rewrite ?length_app_str; lia. }
  destruct (parse_frac s3) as [[fd r]|] eqn:Ef.
  - apply parse_frac_length in Ef. destruct (parse_exp r) as [[x r']|] eqn:Ee; simpl; [|lia].
    apply parse_exp_length in Ee. lia.
  - destruct (parse_exp s3) as [[x r']|] eqn:Ee; simpl; [apply parse_exp_length in Ee; lia|].
    destruct (_ <? _)%nat; [by left|simpl; lia].
Qed.

Lemma literals_nonempty : Forall (λ l : string * value, l.1 ≠ "") literals.
Proof. by repeat constructor. Qed.

Lemma parse_consumes fuel :
  (∀ s, (2 * String.length s + 1 ≤ fuel)%nat → consumes s (parse_value fuel s)) ∧
  (∀ acc s, (2 * String.length s + 2 ≤ fuel)%nat → consumes s (parse_elems fuel acc s)) ∧
  (∀ acc s, (2 * String.length s + 2 ≤ fuel)%nat → consumes s (parse_members fuel acc s)).
Proof.
  assert (Hweak : ∀ A s s' (m : res (A * string)),
    consumes s m → (String.length s ≤ String.length s')%nat → consumes s' m).
  { intros A s s' [[v r]|e]; simpl; [lia|done]. }
  induction fuel as [|fuel (IHv & IHe & IHm)]; [split_and!; intros; lia|]. split_and!.
  - intros [|a s] Hf; [apply jerr_error|]. cbn [parse_value]. simpl in Hf.
    pose proof (skip_ws_length s) as Hws.
    case_bool_decide.
    { pose proof (scan_string_consumes s) as Hs. destruct (scan_string s) as [[t r]|e]; simpl in *; [lia|done]. }
    case_bool_decide.
    { destruct (after _ _) as [r|] eqn:E; [apply after_length in E; simpl; lia|].
      eapply Hweak; [apply IHe|simpl]; lia. }
    case_bool_decide.
    { destruct (after _ _) as [r|] eqn:E; [apply after_length in E; simpl; lia|].
      eapply Hweak; [apply IHm|simpl]; lia. }
    destruct (parse_literal literals (String a s)) as [[v r]|] eqn:E; [|apply parse_number_consumes].
    apply parse_literal_consumes in E; [done|apply literals_nonempty].
  - intros acc s Hf. cbn [parse_elems]. pose proof (IHv s) as Hv.
    destruct (parse_value fuel s) as [[v r]|e]; simpl; [|apply Hv; lia].
    simpl in Hv. pose proof (skip_ws_length r) as Hws.
    destruct (after (chr 93) _) as [r'|] eqn:E; [apply after_length in E; simpl; lia|].
    destruct (after (chr 44) _) as [r'|] eqn:E'; [|apply jerr_error].
    apply after_length in E'. pose proof (skip_ws_length r').
    eapply Hweak; [apply IHe|]; lia.
  - intros acc s Hf. cbn [parse_members].
    destruct (after DQ s) as [s1|] eqn:E1; [|apply jerr_error]. apply after_length in E1.
    pose proof (scan_string_consumes s1) as Hs.
    destruct (scan_string s1) as [[k r]|e]; simpl in *; [|done]. pose proof (skip_ws_length r).
    destruct (after (chr 58) _) as [r1|] eqn:E2; [|apply jerr_error]. apply after_length in E2.
    pose proof (skip_ws_length r1). pose proof (IHv (skip_ws r1)) as Hv.
    destruct (parse_value fuel _) as [[v r2]|e]; simpl in *; [|apply Hv; lia].
    pose proof (skip_ws_length r2).
    destruct (after (chr 125) _) as [r3|] eqn:E; [apply after_length in E; simpl; lia|].
    destruct (after (chr 44) _) as [r3|] eqn:E'; [|apply jerr_error].
    apply after_length in E'. pose proof (skip_ws_length r3).
    eapply Hweak; [apply IHm|]; lia.
Qed.

Lemma loads_error s e : loads s = Raise e → value_error e.
Proof.
  unfold loads. intros [H|([v r] & _ & H)]%res_bind_Raise.
  - destruct (parse_consumes (2 * String.length s + 2)) as (Hv & _).
    pose proof (skip_ws_length s). specialize (Hv (skip_ws s) ltac:(lia)). by rewrite H in Hv.
  - case_bool_decide; [done|]. unfold raise in H. simplify_eq. by right.
Qed.

Lemma loads_bytes_error b e : loads_bytes b = Raise e → caught_by [ValueError] e = true.
Proof.
  assert (Hc : ∀ e, value_error e → caught_by [ValueError] e = true)
    by (intros [c m] [E|E]; simpl in E; subst; done).
  assert (Hd : ∀ b e, decode_json_bytes b = Raise e → exn_cls e = UnicodeDecodeError).
  { intros b' e'. unfold decode_json_bytes, decode8, decode16, decode32, undecodable, raise.
    intros H. repeat case_in H; by simplify_eq. }
  unfold loads_bytes. intros [H|(s & _ & H)]%res_bind_Raise; [|by eapply Hc, loads_error].
  apply Hd in H. destruct e as [c m]. simpl in H. by subst.
Qed.

(** * The text of a value is encodable *)

Lemma ustr_join sep l : ustr sep → Forall ustr l → ustr (join sep l).
Proof.
  intros Hs H. induction H as [|x l Hx H IH]; [by exists []|].
  destruct l as [|y l]; [done|]. rewrite join_cons2. by repeat apply ustr_app.
Qed.
Lemma ustr_ascii s : is_ascii s = true → ustr s.
Proof. apply is_ascii_ustr. Qed.
Lemma is_ascii_hex_pad w n : is_ascii (hex_pad w n) = true.
Proof.
  revert n. induction w as [|w IH]; intros n; [done|]. cbn [hex_pad]. rewrite is_ascii_app, IH.
  unfold is_ascii. cbn. pose proof (hex_val_digit (n mod 16)) as Hv.
  pose proof (Z.mod_pos_bound n 16 ltac:(lia)). specialize (Hv ltac:(lia)).
  unfold hex_val in Hv. unfold hex_digit in *. rewrite andb_true_r.
  destruct (Z.ltb_spec (n mod 16) 10); rewrite byte_of_chr by lia; lia.
Qed.

Lemma ustr_json_char ao cp : is_scalar cp → ustr (json_char ao cp).
Proof.
  intros Hcp.
  assert (Hu : ∀ x, ustr (u_esc x)).
  { intros x. apply ustr_ascii. unfold u_esc, esc. change (is_ascii (String BS "" +:+ ("u" +:+ hex_pad 4 x)) = true).
    by rewrite !is_ascii_app, is_ascii_hex_pad. }
  unfold json_char. repeat match goal with |- ustr (if ?b then _ else _) => destruct b end;
    try (by apply ustr_ascii); try apply Hu; try (by apply ustr_app).
  exists [cp]. split; [by constructor|]. cbn. by rewrite app_str_nil_r.
Qed.
Lemma ustr_json_str ao s : ustr s → ustr (json_str ao s).
Proof.
  intros Hs. pose proof (ustr_wf s Hs) as Hw. destruct Hs as (cps & H & ->). unfold json_str.
  rewrite utf8_decode_encode by (by apply (Forall_impl _ _ _ H), scalar_cp).
  change (String DQ ?t) with (String DQ "" +:+ t). apply ustr_app; [by apply ustr_ascii|].
  apply ustr_app; [|by apply ustr_ascii]. apply ustr_join; [by apply ustr_ascii|].
  apply Forall_fmap. by apply (Forall_impl _ _ _ H), ustr_json_char.
Qed.
Lemma is_ascii_dec n : is_ascii (dec n) = true.
Proof.
  assert (Hd : ∀ m, 0 ≤ m → is_ascii (dec_nat m) = true).
  { intros m Hm. destruct (dec_nat_spec m Hm) as (Hd&_). unfold is_ascii, all_digits in *.
    apply Is_true_true, forallb_True. apply (Forall_impl _ _ _ Hd).
    intros a Ha%digit_byte. apply Is_true_true. lia. }
  unfold dec. destruct (Z.ltb_spec n 0); [|by apply Hd].
  rewrite is_ascii_app, Hd by lia. done.
Qed.

Definition ustr_seps (o : json_opts) : Prop := ustr (item_sep o) ∧ ustr (key_sep o).
Lemma ustr_encode_value o v : ustr_seps o → json_ok v → ustr (encode o v).
Proof.
  intros [Hi Hk]. induction v as [|b|n|f|s|l IH|d IH] using value_ind'; intros Hok; cbn [encode].
  - by apply ustr_ascii.
  - destruct b; by apply ustr_ascii.
  - apply ustr_ascii, is_ascii_dec.
  - inversion Hok.
  - inversion Hok; subst. by apply ustr_json_str.
  - inversion Hok as [| | | |? Hl|]; subst. repeat apply ustr_app; try by apply ustr_ascii.
    apply ustr_join; [done|]. apply Forall_fmap. clear Hok.
    induction IH; inversion Hl; subst; constructor; simpl; auto.
  - inversion Hok as [| | | | |? _ Hl]; subst. repeat apply ustr_app; try by apply ustr_ascii.
    apply ustr_join; [done|]. apply Forall_fmap. clear Hok.
    induction IH as [|[k v] d Hv _ IHd]; inversion Hl as [|? ? [Hk' Hv']]; subst; constructor; simpl; [|auto].
    repeat apply ustr_app; [by apply ustr_json_str|done|auto].
Qed.
Lemma ustr_dumps o v : ustr_seps o → json_ok v → ustr (dumps o v).
Proof.
  intros. unfold dumps. destruct (sort_keys o); apply ustr_encode_value; auto using sort_value_ok.
Qed.
Lemma ustr_seps_std : ustr_seps canonical ∧ ustr_seps canonical_ascii ∧ ustr_seps plain
  ∧ ustr_seps plain_utf8 ∧ ustr_seps sorted_utf8.
Proof. by repeat split; apply ustr_ascii. Qed.

(** Reading a field of a sorted dictionary. *)
Lemma dget_sort_value d k :
  wf_dict d →
  dget (merge_sort key_le ((λ kv : string * value, (kv.1, sort_value kv.2)) <$> d)) k
  = sort_value <$> dget d k.
Proof.
  intros Hd. rewrite <-dget_map. symmetry. apply dget_Permutation.
  - unfold wf_dict, dkeys in *. by rewrite <-list_fmap_compose.
  - symmetry. apply merge_sort_Permutation.
Qed.

(** ** ASCII output *)

Lemma is_ascii_join sep l : is_ascii sep = true → Forall (λ s, is_ascii s = true) l → is_ascii (join sep l) = true.
Proof.
  intros Hs H. induction H as [|x l Hx H IH]; [done|]. destruct l as [|y l]; [done|].
  by rewrite join_cons2, !is_ascii_app, Hx, Hs.
Qed.
Lemma is_ascii_u_esc x : is_ascii (u_esc x) = true.
Proof.
  unfold u_esc, esc. change (is_ascii (String BS "" +:+ ("u" +:+ hex_pad 4 x)) = true).
  by rewrite !is_ascii_app, is_ascii_hex_pad.
Qed.
Lemma is_ascii_json_char cp : is_ascii (json_char true cp) = true.
Proof.
  unfold json_char. repeat match goal with |- is_ascii (if ?b then _ else _) = true => destruct b eqn:? end;
    try done; rewrite ?is_ascii_app, ?is_ascii_u_esc; try done.
  cbn [andb] in *. unfold utf8_enc. rewrite (proj2 (Z.ltb_lt cp 128)) by lia.
  unfold is_ascii, str1. cbn [chars forallb]. rewrite byte_of_chr by lia. lia.
Qed.
Lemma is_ascii_json_str s : is_ascii (json_str true s) = true.
Proof.
  unfold json_str, json_body. change (String DQ ?t) with (String DQ "" +:+ t). rewrite !is_ascii_app.
  rewrite is_ascii_join; [done|done|]. apply Forall_fmap, Forall_true. intros cp. apply is_ascii_json_char.
Qed.
Lemma is_ascii_dec_nat n : is_ascii (dec_nat n) = true.
Proof.
  unfold dec_nat. generalize (S (Z.to_nat (Z.log2 n))). intros fuel.
  enough (∀ acc, is_ascii acc = true → is_ascii (dec_digits fuel n acc) = true) by auto.
  revert n. induction fuel as [|fuel IH]; intros n acc Ha; [done|]. cbn [dec_digits].
  assert (is_ascii (String (chr (48 + n mod 10)) acc) = true).
  { unfold is_ascii in *. cbn [chars forallb]. pose proof (Z.mod_pos_bound n 10 ltac:(lia)).
    rewrite byte_of_chr by lia. rewrite Ha. lia. }
  destruct (n <? 10); auto.
Qed.
Lemma is_ascii_take n s : is_ascii s = true → is_ascii (take_str n s) = true.
Proof.
  unfold is_ascii. revert n. induction s as [|a s IH]; intros [|n]; simpl; [done..|].
  rewrite !andb_true_iff. intros [? ?]. auto.
Qed.
Lemma is_ascii_drop n s : is_ascii s = true → is_ascii (drop_str n s) = true.
Proof.
  unfold is_ascii. revert n. induction s as [|a s IH]; intros [|n]; simpl; [done..|].
  rewrite !andb_true_iff. intros [? ?]. auto.
Qed.
Lemma is_ascii_repeat k n : is_ascii (of_chars (repeat (chr 48) k)) = true ∧
  is_ascii (pad_left k (chr 48) (dec_nat n)) = true.
Proof.
  induction k as [|k [IH1 IH2]]; [split; [done|apply is_ascii_dec_nat]|]. simpl. unfold is_ascii in *. simpl.
  by rewrite IH1, IH2.
Qed.
Lemma is_ascii_float_repr f : is_ascii (float_repr f) = true.
Proof.
  assert (Hd : ∀ ds k, is_ascii ds = true → is_ascii (repr_digits ds k) = true).
  { intros ds k Hds. unfold repr_digits. repeat case_match; rewrite ?is_ascii_app, ?Hds;
      unfold zfill; rewrite ?(proj1 (is_ascii_repeat _ 0)), ?(proj2 (is_ascii_repeat _ _));
      rewrite ?is_ascii_take, ?is_ascii_app, ?is_ascii_drop by done; done. }
  unfold float_repr. destruct f as [[]|[]| |s m e]; try done.
  repeat case_match; rewrite ?is_ascii_app, Hd by apply is_ascii_dec_nat; done.
Qed.
Lemma is_ascii_encode o v :
  ensure_ascii o = true → is_ascii (item_sep o) = true → is_ascii (key_sep o) = true →
  is_ascii (encode o v) = true.
Proof.
  intros He Hi Hk. induction v as [|b|n|f|s|l IH|d IH] using value_ind'; cbn [encode].
  - done.
  - by destruct b.
  - apply is_ascii_dec.
  - unfold json_float. destruct f as [| []| |]; try done; apply is_ascii_float_repr.
  - rewrite He. apply is_ascii_json_str.
  - rewrite !is_ascii_app, is_ascii_join; [done|done|]. by apply Forall_fmap.
  - rewrite !is_ascii_app, is_ascii_join; [done|done|]. apply Forall_fmap. apply (Forall_impl _ _ _ IH).
    intros [k v] Hv. simpl in *. by rewrite He, !is_ascii_app, is_ascii_json_str, Hk, Hv.
Qed.
Lemma is_ascii_dumps o v :
  ensure_ascii o = true → is_ascii (item_sep o) = true → is_ascii (key_sep o) = true →
  is_ascii (dumps o v) = true.
Proof. intros. unfold dumps. by apply is_ascii_encode. Qed.
(** Encoding ASCII-only JSON never fails. *)
Lemma encode_ascii_dumps o v :
  ensure_ascii o = true → is_ascii (item_sep o) = true → is_ascii (key_sep o) = true →
  encode_utf8 (dumps o v) = Ok (dumps o v).
Proof. intros. by apply encode_utf8_ustr, is_ascii_ustr, is_ascii_dumps. Qed.

(** ** No control characters in the output *)

Definition no_ctrl (s : string) : bool := forallb (λ a, 32 <=? byte_of a) (chars s).
Lemma no_ctrl_app s t : no_ctrl (s +:+ t) = no_ctrl s && no_ctrl t.
Proof. unfold no_ctrl. by rewrite chars_app, forallb_app. Qed.
Lemma no_ctrl_join sep l : no_ctrl sep = true → Forall (λ s, no_ctrl s = true) l → no_ctrl (join sep l) = true.
Proof.
  intros Hs H. induction H as [|x l Hx H IH]; [done|]. destruct l as [|y l]; [done|].
  by rewrite join_cons2, !no_ctrl_app, Hx, Hs.
Qed.
Lemma no_ctrl_hex_pad w n : no_ctrl (hex_pad w n) = true.
Proof.
  revert n. induction w as [|w IH]; intros n; [done|]. cbn [hex_pad]. rewrite no_ctrl_app, IH.
  unfold no_ctrl. cbn. pose proof (Z.mod_pos_bound n 16 ltac:(lia)). unfold hex_digit.
  destruct (Z.ltb_spec (n mod 16) 10); rewrite byte_of_chr by lia; lia.
Qed.
Lemma no_ctrl_u_esc x : no_ctrl (u_esc x) = true.
Proof.
  unfold u_esc, esc. change (no_ctrl (String BS "" +:+ ("u" +:+ hex_pad 4 x)) = true).
  by rewrite !no_ctrl_app, no_ctrl_hex_pad.
Qed.
Lemma no_ctrl_utf8_enc cp : is_cp cp → 32 ≤ cp → no_ctrl (utf8_enc cp) = true.
Proof.
  intros H Hc. pose proof (sextets cp H) as (?&?&?&?&?&?). unfold is_cp in H. unfold utf8_enc, str1, no_ctrl.
  destruct (Z.ltb_spec cp 128); [|destruct (Z.ltb_spec cp 2048); [|destruct (Z.ltb_spec cp 65536)]];
    cbn [chars forallb]; rewrite !byte_of_chr by lia; lia.
Qed.
Lemma no_ctrl_json_char ao cp : is_scalar cp → no_ctrl (json_char ao cp) = true.
Proof.
  intros [Hcp _]. unfold json_char.
  repeat match goal with |- no_ctrl (if ?b then _ else _) = true => destruct b eqn:? end;
    try done; rewrite ?no_ctrl_app, ?no_ctrl_u_esc; try done.
  apply no_ctrl_utf8_enc; [done|]. lia.
Qed.
Lemma no_ctrl_json_str ao s : ustr s → no_ctrl (json_str ao s) = true.
Proof.
  intros Hs. pose proof (ustr_wf s Hs) as Hw. destruct Hs as (cps & H & ->). unfold json_str, json_body.
  rewrite utf8_decode_encode by (by apply (Forall_impl _ _ _ H), scalar_cp).
  change (String DQ ?t) with (String DQ "" +:+ t). rewrite !no_ctrl_app, no_ctrl_join; [done|done|].
  apply Forall_fmap. by apply (Forall_impl _ _ _ H), no_ctrl_json_char.
Qed.
Lemma no_ctrl_dec n : no_ctrl (dec n) = true.
Proof.
  assert (Hd : ∀ m, no_ctrl (dec_nat m) = true).
  { intros m. unfold dec_nat. generalize (S (Z.to_nat (Z.log2 m))). intros fuel.
    enough (∀ acc, no_ctrl acc = true → no_ctrl (dec_digits fuel m acc) = true) by auto.
    revert m. induction fuel as [|fuel IH]; intros m acc Ha; [done|]. cbn [dec_digits].
    assert (no_ctrl (String (chr (48 + m mod 10)) acc) = true).
    { unfold no_ctrl in *. cbn [chars forallb]. pose proof (Z.mod_pos_bound m 10 ltac:(lia)).
      rewrite byte_of_chr by lia. rewrite Ha. lia. }
    destruct (m <? 10); auto. }
  unfold dec. destruct (n <? 0); [|done]. by rewrite no_ctrl_app, Hd.
Qed.
Lemma no_ctrl_encode o v :
  no_ctrl (item_sep o) = true → no_ctrl (key_sep o) = true → json_ok v → no_ctrl (encode o v) = true.
Proof.
  intros Hi Hk. induction v as [|b|n|f|s|l IH|d IH] using value_ind'; intros Hok; cbn [encode].
  - done.
  - by destruct b.
  - apply no_ctrl_dec.
  - inversion Hok.
  - inversion Hok. by apply no_ctrl_json_str.
  - inversion Hok as [| | | |? Hl|]; subst. rewrite !no_ctrl_app, no_ctrl_join; [done|done|].
    apply Forall_fmap. clear Hok. induction IH; inversion Hl; subst; constructor; [simpl; auto|auto].
  - inversion Hok as [| | | | |? _ Hl]; subst. rewrite !no_ctrl_app, no_ctrl_join; [done|done|].
    apply Forall_fmap. clear Hok. induction IH as [|[k v] d Hv _ IHd]; inversion Hl as [|? ? [? ?]]; subst; constructor; [|auto].
    simpl in *. by rewrite !no_ctrl_app, no_ctrl_json_str, Hk, Hv.
Qed.
Lemma no_ctrl_dumps o v :
  no_ctrl (item_sep o) = true → no_ctrl (key_sep o) = true → json_ok v → no_ctrl (dumps o v) = true.
Proof. intros. unfold dumps. destruct (sort_keys o); apply no_ctrl_encode; auto using sort_value_ok. Qed.

(** * [str] of a JSON value *)

Lemma ustr_enc cp : is_scalar cp → ustr (utf8_enc cp).
Proof. intros. exists [cp]. split; [by constructor|]. cbn. by rewrite app_str_nil_r. Qed.

Lemma ustr_bs s : is_ascii s = true → ustr (String BS s).
Proof. intros H. apply ustr_ascii. unfold is_ascii in *. by rewrite <-H. Qed.

Lemma ustr_repr_char quote cp : quote ∈ [34; 39] → is_scalar cp → ustr (repr_char quote cp).
Proof.
  intros Hq Hcp. unfold repr_char.
  destruct (Z.eqb_spec cp quote) as [->|]; cbn [orb].
  { apply ustr_bs. set_unfold. by destruct Hq as [->|[->|[]]]. }
  repeat match goal with |- ustr (if ?b then _ else _) => destruct b eqn:?H end;
    try (by apply ustr_ascii); try (by apply ustr_enc).
  - assert (cp = 92) as -> by lia. by apply ustr_ascii.
  - apply ustr_bs. by rewrite is_ascii_app, is_ascii_hex_pad.
  - apply ustr_bs. by rewrite is_ascii_app, is_ascii_hex_pad.
  - apply ustr_bs. by rewrite is_ascii_app, is_ascii_hex_pad.
Qed.

Lemma ustr_repr_str s : ustr s → ustr (repr_str s).
Proof.
  intros (cps & H & ->). unfold repr_str.
  rewrite utf8_decode_encode by (by apply (Forall_impl _ _ _ H), scalar_cp).
  assert (∀ q, q ∈ [34; 39] → ustr (str1 q +:+ join "" (repr_char q <$> cps) +:+ str1 q)) as Hall.
  { intros q Hq. assert (ustr (str1 q)) by (apply ustr_ascii; set_unfold; by destruct Hq as [->|[->|[]]]).
    repeat apply ustr_app; try done. apply ustr_join; [by apply ustr_ascii|].
    apply Forall_fmap. eapply Forall_impl; [exact H|]. intros cp. by apply ustr_repr_char. }
  cbv zeta. apply Hall. case_match; set_solver.
Qed.

Lemma ustr_py_str v : json_ok v → ustr (py_str v).
Proof.
  assert (ustr ", ") as Hs by (by apply ustr_ascii).
  assert (json_ok v → ustr (repr v)) as Hr.
  { induction v as [|b|n|f|s|l IH|d IH] using value_ind'; intros Hok; inversion Hok; subst; cbn [repr].
    - by apply ustr_ascii.
    - destruct b; by apply ustr_ascii.
    - apply ustr_ascii, is_ascii_dec.
    - by apply ustr_repr_str.
    - apply ustr_app; [by apply ustr_ascii|]. apply ustr_app; [|by apply ustr_ascii]. apply ustr_join; [done|].
      apply Forall_fmap. rewrite Forall_forall in *. intros x Hx. by apply IH, H0.
    - apply ustr_app; [by apply ustr_ascii|]. apply ustr_app; [|by apply ustr_ascii]. apply ustr_join; [done|].
      apply Forall_fmap. rewrite Forall_forall in *. intros [k x] Hx. destruct (H1 _ Hx) as [Hk Hv].
      apply ustr_app; [by apply ustr_repr_str|]. apply ustr_app; [by apply ustr_ascii|]. by apply (IH _ Hx). }
  destruct v; try exact Hr. inversion 1. done.
Qed.
