(* ===== verification/Crypto.v ===== *)
(** [hashlib.sha256], [hmac] and [base64] of the standard library, executable:
    digests are computed, not assumed.  The base64 codec is shown to round
    trip; the hash is validated on published test vectors. *)

From S2P Require Export Prelude PyStr.
From Stdlib Require Import Ascii Bool.
#[local] Open Scope Z_scope.

Definition bytes_of (s : bytes) : list Z := byte_of <$> chars s.
Definition to_bytes (l : list Z) : bytes := of_chars (chr <$> l).

(** * SHA-256 *)

(** The integer cube root: the [n] bits of the result, from the highest. *)
Fixpoint cube_root (n : nat) (x r : Z) : Z :=
  match n with
  | O => r
  | S n =>
      let r' := r + Z.shiftl 1 (Z.of_nat n) in
      cube_root n x (if r' * r' * r' <=? x then r' else r)
  end.
Definition is_prime (n : Z) : bool :=
  (2 <=? n) && forallb (λ d, negb (n mod Z.of_nat d =? 0)) (seq 2 (Z.to_nat (Z.sqrt n) - 1)).
Definition primes64 : list Z := filter (λ n, is_prime n = true) (Z.of_nat <$> seq 2 310).
(** The round constants: the first 32 bits of the fractional parts of the cube
    roots of the first 64 primes. *)
Definition K256 : list Z :=
  Eval vm_compute in (λ p, Z.land (cube_root 40 (Z.shiftl p 96) 0) 0xffffffff) <$> primes64.
(** The initial state: the same of the square roots of the first 8 primes. *)
Definition H256 : list Z :=
  Eval vm_compute in (λ p, Z.land (Z.sqrt (Z.shiftl p 64)) 0xffffffff) <$> take 8 primes64.

Definition w32 (x : Z) : Z := Z.land x 0xffffffff.
Definition rotr (n x : Z) : Z := w32 (Z.lor (Z.shiftr x n) (Z.shiftl x (32 - n))).
Definition xor3 (a b c : Z) : Z := Z.lxor a (Z.lxor b c).

(** One round on the working variables [a..h] with key and message word. *)
Definition sha_round (st : list Z) (kw : Z) : list Z :=
  match st with
  | [a; b; c; d; e; f; g; h] =>
      let s1 := xor3 (rotr 6 e) (rotr 11 e) (rotr 25 e) in
      let ch := Z.lxor (Z.land e f) (Z.land (Z.lxor e 0xffffffff) g) in
      let t1 := h + s1 + ch + kw in
      let s0 := xor3 (rotr 2 a) (rotr 13 a) (rotr 22 a) in
      let maj := xor3 (Z.land a b) (Z.land a c) (Z.land b c) in
      [w32 (t1 + s0 + maj); a; b; c; w32 (d + t1); e; f; g]
  | _ => st
  end.

(** The rounds over the keys, with the window of the next sixteen message words. *)
Fixpoint sha_rounds (ks : list Z) (win : list Z) (st : list Z) : list Z :=
  match ks with
  | [] => st
  | k :: ks =>
      let w i := nth i win 0 in
      let s0 := xor3 (rotr 7 (w 1%nat)) (rotr 18 (w 1%nat)) (Z.shiftr (w 1%nat) 3) in
      let s1 := xor3 (rotr 17 (w 14%nat)) (rotr 19 (w 14%nat)) (Z.shiftr (w 14%nat) 10) in
      sha_rounds ks (tail win ++ [w32 (w 0%nat + s0 + w 9%nat + s1)]) (sha_round st (k + w 0%nat))
  end.
Definition sha_block (st win : list Z) : list Z :=
  zip_with (λ x y, w32 (x + y)) st (sha_rounds K256 win st).

Fixpoint words (l : list Z) : list Z :=
  match l with
  | a :: b :: c :: d :: l => a * 16777216 + b * 65536 + c * 256 + d :: words l
  | _ => []
  end.
Fixpoint be_bytes (n : nat) (x : Z) : list Z :=
  match n with O => [] | S n => be_bytes n (x / 256) ++ [x mod 256] end.
Definition sha_pad (l : list Z) : list Z :=
  let n := Z.of_nat (length l) in
  l ++ [128] ++ repeat 0 (Z.to_nat ((55 - n) mod 64)) ++ be_bytes 8 (8 * n).

(** The blocks are consumed sixteen words at a time; the fuel is their number. *)
Fixpoint sha_blocks (fuel : nat) (ws st : list Z) : list Z :=
  match fuel with
  | O => st
  | S fuel => sha_blocks fuel (drop 16 ws) (sha_block st (take 16 ws))
  end.
Definition sha256_raw (l : list Z) : list Z :=
  let ws := words (sha_pad l) in
  mjoin (be_bytes 4 <$> sha_blocks (length ws / 16) ws H256).

(** [hashlib.sha256(b).hexdigest()] *)
Definition sha256_hex (b : bytes) : string := hex (sha256_raw (bytes_of b)).

(** * HMAC *)

(** [hmac.new(key, msg, sha256).digest()] *)
Definition hmac_sha256 (key msg : bytes) : bytes :=
  let k := bytes_of key in
  let k := if (64 <? length k)%nat then sha256_raw k else k in
  let k := k ++ repeat 0 (64 - length k) in
  let inner := sha256_raw ((Z.lxor 0x36 <$> k) ++ bytes_of msg) in
  to_bytes (sha256_raw ((Z.lxor 0x5c <$> k) ++ inner)).

(** * Base64, URL-safe alphabet *)

Definition b64_char (x : Z) : ascii :=
  if x <? 26 then chr (65 + x) else if x <? 52 then chr (71 + x)
  else if x <? 62 then chr (x - 4) else if x =? 62 then chr 45 else chr 95.
Fixpoint b64_encode (l : list Z) : list ascii :=
  match l with
  | a :: b :: c :: l =>
      b64_char (a / 4) :: b64_char (a mod 4 * 16 + b / 16)
      :: b64_char (b mod 16 * 4 + c / 64) :: b64_char (c mod 64) :: b64_encode l
  | [a; b] => [b64_char (a / 4); b64_char (a mod 4 * 16 + b / 16); b64_char (b mod 16 * 4); chr 61]
  | [a] => [b64_char (a / 4); b64_char (a mod 4 * 16); chr 61; chr 61]
  | [] => []
  end.
(** [base64.urlsafe_b64encode(b)] *)
Definition urlsafe_b64encode (b : bytes) : bytes := of_chars (b64_encode (bytes_of b)).

(** The decoder accepts both alphabets: [-_] are translated to [+/] first. *)
Definition b64_val (a : ascii) : option Z :=
  let b := byte_of a in
  if (65 <=? b) && (b <=? 90) then Some (b - 65)
  else if (97 <=? b) && (b <=? 122) then Some (b - 71)
  else if (48 <=? b) && (b <=? 57) then Some (b + 4)
  else if (b =? 43) || (b =? 45) then Some 62
  else if (b =? 47) || (b =? 95) then Some 63 else None.

(** [binascii.a2b_base64], not strict: other characters are skipped; a full
    pad ends the data.  [q] counts the characters of the current group, [left]
    holds its pending bits. *)
Fixpoint a2b (q pads left : Z) (s : list ascii) : res (list Z) :=
  match s with
  | [] => if q =? 0 then Ok [] else raise BinasciiError "Incorrect padding"
  | a :: s =>
      if bool_decide (a = chr 61) then
        if 2 <=? q then
          if 4 <=? q + (pads + 1) then Ok [] else a2b q (pads + 1) left s
        else a2b q pads left s
      else match b64_val a with
      | None => a2b q pads left s
      | Some x =>
          if q =? 0 then a2b 1 0 x s
          else if q =? 1 then cons (left * 4 + x / 16) <$> a2b 2 0 (x mod 16) s
          else if q =? 2 then cons (left * 16 + x / 4) <$> a2b 3 0 (x mod 4) s
          else cons (left * 64 + x) <$> a2b 0 0 0 s
      end
  end.
(** [base64.urlsafe_b64decode(s)] of a [str] *)
Definition urlsafe_b64decode (s : pystr) : res bytes :=
  if is_ascii s then to_bytes <$> a2b 0 0 0 (chars s)
  else raise ValueError "string argument should contain only ASCII characters".

(** * Lemmas *)

Lemma bytes_of_to_bytes l : Forall (λ b, 0 ≤ b < 256) l → bytes_of (to_bytes l) = l.
Proof.
  intros H. unfold bytes_of, to_bytes. rewrite chars_of_chars, <-list_fmap_compose.
  induction H as [|b l Hb H IH]; cbn; [done|]. by rewrite byte_of_chr, IH.
Qed.
Lemma to_bytes_bytes_of s : to_bytes (bytes_of s) = s.
Proof.
  unfold bytes_of, to_bytes. rewrite <-list_fmap_compose.
  induction s as [|a s IH]; cbn; [done|]. by rewrite IH, chr_byte_of.
Qed.
Lemma bytes_of_range s : Forall (λ b, 0 ≤ b < 256) (bytes_of s).
Proof. unfold bytes_of. apply Forall_fmap, Forall_true. intros a. apply byte_of_range. Qed.

(** ** Test vectors *)

Example sha256_abc :
  sha256_hex "abc" = "ba7816bf8f01cfea414140de5dae2223b00361a396177a9cb410ff61f20015ad".
Proof. vm_compute. reflexivity. Qed.
Example sha256_two_blocks :
  sha256_hex "abcdbcdecdefdefgefghfghighijhijkijkljklmklmnlmnomnopnopq"
  = "248d6a61d20638b8e5c026930c3e6039a33ce45964ff2167f6ecedd419db06c1".
Proof. vm_compute. reflexivity. Qed.
Example hmac_rfc4231_2 :
  hex (bytes_of (hmac_sha256 "Jefe" "what do ya want for nothing?"))
  = "5bdcc146bf60754e6a042426089575c75a003f089d2739839dec58b964ec3843".
Proof. vm_compute. reflexivity. Qed.

(** ** Digest shape *)

Lemma w32_range x : 0 ≤ w32 x < 4294967296.
Proof.
  unfold w32. change 0xffffffff with (Z.ones 32). rewrite Z.land_ones by lia.
  apply Z.mod_pos_bound. lia.
Qed.
Lemma length_be_bytes n x : length (be_bytes n x) = n.
Proof. revert x. induction n; intros x; simpl; [done|]. rewrite length_app, IHn. simpl. lia. Qed.
Lemma be_bytes_range n x : Forall (λ b, 0 ≤ b < 256) (be_bytes n x).
Proof.
  revert x. induction n as [|n IH]; intros x; simpl; [constructor|].
  apply Forall_app. split; [done|]. repeat constructor; apply Z.mod_pos_bound; lia.
Qed.
Lemma length_sha_round st kw : length st = 8%nat → length (sha_round st kw) = 8%nat.
Proof. by do 9 (destruct st as [|? st]; try done). Qed.
Lemma length_sha_rounds ks win st : length st = 8%nat → length (sha_rounds ks win st) = 8%nat.
Proof.
  revert win st. induction ks as [|k ks IH]; intros win st H; [done|]. by apply IH, length_sha_round.
Qed.
Lemma length_sha_blocks fuel ws st : length st = 8%nat → length (sha_blocks fuel ws st) = 8%nat.
Proof.
  revert ws st. induction fuel as [|fuel IH]; intros ws st H; [done|]. cbn [sha_blocks].
  apply IH. unfold sha_block. by rewrite length_zip_with, length_sha_rounds, H.
Qed.
Lemma length_mjoin_be n (l : list Z) : length (mjoin (be_bytes n <$> l)) = (n * length l)%nat.
Proof.
  induction l as [|x l IH]; [simpl; lia|]. rewrite fmap_cons.
  change (mjoin (be_bytes n x :: ?k)) with (be_bytes n x ++ mjoin k).
  rewrite length_app, length_be_bytes, IH. simpl. lia.
Qed.
Lemma sha256_raw_shape l :
  length (sha256_raw l) = 32%nat ∧ Forall (λ b, 0 ≤ b < 256) (sha256_raw l).
Proof.
  unfold sha256_raw. cbv zeta. split.
  - by rewrite length_mjoin_be, length_sha_blocks.
  - apply Forall_join, Forall_fmap, Forall_true. intros x. apply be_bytes_range.
Qed.

Definition is_hex (a : ascii) : bool :=
  is_ascii (String a "") && (((48 <=? byte_of a) && (byte_of a <=? 57)) || ((97 <=? byte_of a) && (byte_of a <=? 102))).
Lemma hex_digit_ok x : 0 ≤ x < 16 → is_hex (hex_digit x) = true.
Proof.
  intros. unfold is_hex, is_ascii, hex_digit. cbn [chars forallb].
  destruct (Z.ltb_spec x 10); rewrite byte_of_chr by lia;
    rewrite ?andb_true_iff, ?orb_true_iff, ?andb_true_iff; lia.
Qed.
Lemma hex_shape l : Forall (λ b, 0 ≤ b < 256) l →
  String.length (hex l) = (2 * length l)%nat ∧ forallb is_hex (chars (hex l)) = true.
Proof.
  unfold hex. assert (Hj : ∀ s (k : list string), join "" (s :: k) = s +:+ join "" k).
  { intros s [|t k]; simpl; [by rewrite app_str_nil_r|done]. }
  induction 1 as [|b l Hb H [IHl IHd]]; [done|]. cbn [fmap list_fmap]. rewrite Hj.
  rewrite length_app_str, chars_app, forallb_app, IHl, IHd. unfold hex_byte. split; [simpl; lia|].
  cbn [chars forallb].
  rewrite !hex_digit_ok; [done|apply Z.mod_pos_bound; lia|].
  split; [apply Z.div_pos; lia|apply Z.div_lt_upper_bound; lia].
Qed.
(** A digest matches [^[a-f0-9]{64}$]. *)
Lemma sha256_hex_shape b :
  String.length (sha256_hex b) = 64%nat ∧ forallb is_hex (chars (sha256_hex b)) = true.
Proof.
  pose proof (sha256_raw_shape (bytes_of b)) as [Hl Hr].
  destruct (hex_shape _ Hr) as [H1 H2]. unfold sha256_hex. by rewrite H1, Hl.
Qed.

Lemma ustr_sha256_hex b : ustr (sha256_hex b).
Proof.
  apply is_ascii_ustr. destruct (sha256_hex_shape b) as [_ H]. unfold is_ascii.
  rewrite forallb_forall in *. intros a Ha%H. unfold is_hex in Ha. lia.
Qed.

(** ** Base64 round trip *)

Lemma list_3_ind {A} (P : list A → Prop) :
  P [] → (∀ a, P [a]) → (∀ a b, P [a; b]) → (∀ a b c l, P l → P (a :: b :: c :: l)) → ∀ l, P l.
Proof.
  intros H0 H1 H2 H3. fix IH 1. intros [|a [|b [|c l]]]; [done|apply H1|apply H2|apply H3, IH].
Qed.

(** The encoding without its padding. *)
Fixpoint b64_data (l : list Z) : list ascii :=
  match l with
  | a :: b :: c :: l =>
      b64_char (a / 4) :: b64_char (a mod 4 * 16 + b / 16)
      :: b64_char (b mod 16 * 4 + c / 64) :: b64_char (c mod 64) :: b64_data l
  | [a; b] => [b64_char (a / 4); b64_char (a mod 4 * 16 + b / 16); b64_char (b mod 16 * 4)]
  | [a] => [b64_char (a / 4); b64_char (a mod 4 * 16)]
  | [] => []
  end.
Definition pad_count (n : nat) : nat := Z.to_nat ((- Z.of_nat n) mod 4).

Lemma b64_char_facts x : 0 ≤ x < 64 →
  b64_char x ≠ chr 61 ∧ b64_val (b64_char x) = Some x ∧ b64_char x ≠ chr 46 ∧
  (byte_of (b64_char x) <? 128) = true.
Proof.
  intros Hx.
  assert (Hall : forallb (λ x, negb (bool_decide (b64_char x = chr 61)) &&
    bool_decide (b64_val (b64_char x) = Some x) && negb (bool_decide (b64_char x = chr 46)) &&
    (byte_of (b64_char x) <? 128)) (seqZ 0 64) = true) by by vm_compute.
  rewrite forallb_forall in Hall. specialize (Hall x).
  rewrite <-list_elem_of_In, elem_of_seqZ in Hall. specialize (Hall ltac:(lia)).
  rewrite !andb_true_iff, !negb_true_iff, !bool_decide_eq_false, bool_decide_eq_true in Hall.
  naive_solver.
Qed.

Lemma sextet_range a b c :
  0 ≤ a < 256 → 0 ≤ b < 256 → 0 ≤ c < 256 →
  (0 ≤ a / 4 < 64 ∧ 0 ≤ a mod 4 < 4 ∧ a = a / 4 * 4 + a mod 4) ∧
  (0 ≤ b / 16 < 16 ∧ 0 ≤ b mod 16 < 16 ∧ b = b / 16 * 16 + b mod 16) ∧
  (0 ≤ c / 64 < 4 ∧ 0 ≤ c mod 64 < 64 ∧ c = c / 64 * 64 + c mod 64).
Proof.
  intros. pose proof (Z.div_mod a 4). pose proof (Z.div_mod b 16). pose proof (Z.div_mod c 64).
  pose proof (Z.mod_pos_bound a 4). pose proof (Z.mod_pos_bound b 16).
  pose proof (Z.mod_pos_bound c 64). lia.
Qed.

Lemma div_mod_unique_add n q r : 0 ≤ r < n → (q * n + r) / n = q ∧ (q * n + r) mod n = r.
Proof.
  intros. rewrite Z.add_comm. rewrite Z.div_add, Z.mod_add by lia.
  rewrite Z.div_small, Z.mod_small by lia. lia.
Qed.

Lemma a2b_char q pads left x s : 0 ≤ x < 64 →
  a2b q pads left (b64_char x :: s) =
    (if q =? 0 then a2b 1 0 x s
     else if q =? 1 then cons (left * 4 + x / 16) <$> a2b 2 0 (x mod 16) s
     else if q =? 2 then cons (left * 16 + x / 4) <$> a2b 3 0 (x mod 4) s
     else cons (left * 64 + x) <$> a2b 0 0 0 s).
Proof.
  intros Hx. destruct (b64_char_facts x Hx) as (H1 & H2 & _). cbn [a2b].
  by rewrite bool_decide_false, H2.
Qed.

Lemma length_b64_data3 a b c l : length (b64_data (a :: b :: c :: l)) = (4 + length (b64_data l))%nat.
Proof. done. Qed.
Lemma pad_count_4 n : pad_count (4 + n) = pad_count n.
Proof.
  unfold pad_count. f_equal. rewrite Nat2Z.inj_add.
  replace (- (Z.of_nat 4 + Z.of_nat n)) with (- Z.of_nat n + -1 * 4) by lia. by rewrite Z.mod_add.
Qed.

(** A group complete up to its padding. *)
Ltac a2b_end := match goal with
  | |- context [a2b ?q ?p 0 ?s] => change (a2b q p 0 s) with (Ok (A := list Z) [])
  end.

Lemma a2b_data l : Forall (λ b, 0 ≤ b < 256) l →
  a2b 0 0 0 (b64_data l ++ repeat (chr 61) (pad_count (length (b64_data l)))) = Ok l.
Proof.
  induction l as [|a|a b|a b c l IH] using list_3_ind; intros H.
  - done.
  - inversion H; subst. destruct (sextet_range a 0 0) as [? _]; [lia..|].
    cbn [b64_data app]. rewrite !a2b_char by lia. cbn [Z.eqb].
    destruct (div_mod_unique_add 16 (a mod 4) 0) as [Hd Hm]; [lia|].
    rewrite Z.add_0_r in Hd, Hm. rewrite Hd, Hm.
    a2b_end.
    cbn. do 2 f_equal. lia.
  - inversion H as [|? ? ? H']; inversion H'; subst. destruct (sextet_range a b 0) as (?&?&_); [lia..|].
    cbn [b64_data app]. rewrite !a2b_char by lia. cbn [Z.eqb].
    destruct (div_mod_unique_add 16 (a mod 4) (b / 16)) as [-> ->]; [lia|].
    destruct (div_mod_unique_add 4 (b mod 16) 0) as [Hd Hm]; [lia|].
    rewrite Z.add_0_r in Hd, Hm. cbn [Z.eqb Pos.eqb]. rewrite Hd, Hm.
    a2b_end.
    cbn. do 2 f_equal; [|f_equal]; lia.
  - inversion H as [|? ? Ha H']; inversion H' as [|? ? Hb H'']; inversion H'' as [|? ? Hc Hl]; subst.
    destruct (sextet_range a b c) as (?&?&?); [lia..|].
    rewrite length_b64_data3, pad_count_4. cbn [b64_data app]. rewrite !a2b_char by lia. cbn [Z.eqb].
    destruct (div_mod_unique_add 16 (a mod 4) (b / 16)) as [-> ->]; [lia|].
    destruct (div_mod_unique_add 4 (b mod 16) (c / 64)) as [-> ->]; [lia|].
    rewrite IH by done. cbn. do 2 f_equal; [|f_equal; [|f_equal]]; lia.
Qed.

Lemma b64_encode_data l :
  b64_encode l = b64_data l ++ repeat (chr 61) (pad_count (length (b64_data l))).
Proof.
  induction l as [|a|a b|a b c l IH] using list_3_ind; [done..|].
  rewrite length_b64_data3, pad_count_4. cbn [b64_encode b64_data app]. by rewrite IH.
Qed.

Lemma b64_data_chars l : Forall (λ b, 0 ≤ b < 256) l →
  Forall (λ a, a ≠ chr 61 ∧ a ≠ chr 46 ∧ (byte_of a <? 128) = true) (b64_data l).
Proof.
  assert (Hc : ∀ x, 0 ≤ x < 64 →
    b64_char x ≠ chr 61 ∧ b64_char x ≠ chr 46 ∧ (byte_of (b64_char x) <? 128) = true).
  { intros x Hx. destruct (b64_char_facts x Hx) as (?&_&?&?). done. }
  induction l as [|a|a b|a b c l IH] using list_3_ind; intros H; cbn [b64_data].
  - constructor.
  - inversion H; subst. destruct (sextet_range a 0 0) as [? _]; [lia..|].
    repeat constructor; apply Hc; lia.
  - inversion H as [|? ? ? H']; inversion H'; subst. destruct (sextet_range a b 0) as (?&?&_); [lia..|].
    repeat constructor; apply Hc; lia.
  - inversion H as [|? ? Ha H']; inversion H' as [|? ? Hb H'']; inversion H'' as [|? ? Hc' Hl]; subst.
    destruct (sextet_range a b c) as (?&?&?); [lia..|].
    do 4 (constructor; [apply Hc; lia|]). by apply IH.
Qed.

Lemma hmac_sha256_length key msg : String.length (hmac_sha256 key msg) = 32%nat.
Proof.
  unfold hmac_sha256, to_bytes.
  assert (∀ l, String.length (of_chars l) = length l) as Hl by (induction l; simpl; congruence).
  rewrite Hl, length_fmap. apply sha256_raw_shape.
Qed.
