(* ===== verification/Trust.v ===== *)
(** [sdlc/trust.py]: the trust-tier model for inputs. *)

From S2P Require Export Prelude PyStr.

Inductive TrustTier := TRUSTED | UNTRUSTED | SENSITIVE.

#[export] Instance TrustTier_eq_dec : EqDecision TrustTier.
Proof. solve_decision. Defined.

(** [tier.value] *)
Definition tier_value (tier : TrustTier) : string :=
  match tier with
  | TRUSTED => "trusted"
  | UNTRUSTED => "untrusted"
  | SENSITIVE => "sensitive"
  end.

Definition _TRUSTED_SOURCES : gset string :=
  list_to_set ["approved_artifact"; "policy"; "schema"; "pinned_template"].
Definition _SENSITIVE_SOURCES : gset string :=
  list_to_set ["secret"; "credential"; "pii"; "production_config"].

Definition can_use_as_instruction (tier : TrustTier) : bool := bool_decide (tier = TRUSTED).

Definition classify_source (source : string) : TrustTier :=
  if bool_decide (source ∈ _TRUSTED_SOURCES) then TRUSTED
  else if bool_decide (source ∈ _SENSITIVE_SOURCES) then SENSITIVE
  else UNTRUSTED.

(** A source is sensitive exactly when it is listed as such. *)
Lemma classify_sensitive source :
  classify_source source = SENSITIVE ↔ source ∈ _SENSITIVE_SOURCES.
Proof.
  assert (Hdisj : ∀ s, s ∈ _TRUSTED_SOURCES → s ∉ _SENSITIVE_SOURCES).
  { intros s. unfold _TRUSTED_SOURCES, _SENSITIVE_SOURCES. set_unfold. naive_solver. }
  unfold classify_source. repeat case_bool_decide; naive_solver.
Qed.

(** Only an input of a trusted source is an instruction: an unknown source
    never is. *)
Lemma instruction_source source :
  can_use_as_instruction (classify_source source) = true ↔ source ∈ _TRUSTED_SOURCES.
Proof.
  unfold can_use_as_instruction, classify_source. rewrite bool_decide_eq_true.
  repeat case_bool_decide; naive_solver.
Qed.
