(* ===== verification/Capability.v ===== *)
(** [sdlc/runner/capability.py]: scoped, HMAC-signed capability tokens. *)

From S2P Require Export JsonFacts Crypto.
From Stdlib Require Import Ascii Bool.
#[local] Open Scope Z_scope.

Definition TOKEN_VERSION : string := "v1".

Definition CAPABILITY_VALID : string := "CAPABILITY_VALID".
Definition REASON_MALFORMED_TOKEN : string := "MALFORMED_TOKEN".
Definition REASON_SIGNATURE_INVALID : string := "SIGNATURE_INVALID".
Definition REASON_RUN_UNKNOWN : string := "RUN_UNKNOWN".
Definition REASON_RUN_FINISHED : string := "RUN_FINISHED".
Definition REASON_CAPABILITY_EXPIRED : string := "CAPABILITY_EXPIRED".
Definition REASON_TOOL_MISMATCH : string := "TOOL_NOT_ALLOWED".
Definition REASON_SCOPE_MISMATCH : string := "SCOPE_MISMATCH".

Record Capability := mkCapability {
  cap_run_id : string;
  cap_tool : string;
  cap_scope : string;
  cap_expires_at : Z
}.

Record CapabilityCheck := mkCapabilityCheck {
  chk_valid : bool;
  chk_reason : string;
  chk_run_id : option string;
  chk_tool : option string;
  chk_scope : option string
}.

Record DecodeResult := mkDecodeResult {
  dec_capability : option Capability;
  dec_error : option string
}.

(** [base64.urlsafe_b64encode(data).rstrip(b"=").decode("ascii")] *)
Definition _b64encode (data : bytes) : pystr := rstrip_char (chr 61) (urlsafe_b64encode data).

Definition _b64decode (text : pystr) : res bytes :=
  let padding := of_chars (repeat (chr 61) (pad_count (py_len text))) in
  urlsafe_b64decode (text +:+ padding).

Definition _sign (secret : bytes) (signing_input : pystr) : res pystr :=
  raw ← encode_ascii signing_input;
  mret (_b64encode (hmac_sha256 secret raw)).

Definition token_payload (capability : Capability) : dict :=
  [("run_id", VStr (cap_run_id capability)); ("tool", VStr (cap_tool capability));
   ("scope", VStr (cap_scope capability)); ("exp", VInt (cap_expires_at capability))].

Definition issue_token (secret : bytes) (capability : Capability) : res pystr :=
  raw ← encode_utf8 (dumps canonical_ascii (VDict (token_payload capability)));
  let encoded := _b64encode raw in
  let signing_input := TOKEN_VERSION +:+ "." +:+ encoded in
  signature ← _sign secret signing_input;
  mret (signing_input +:+ "." +:+ signature).

(** [hmac.compare_digest] on two [str]: both must be ASCII. *)
Definition compare_digest (a b : pystr) : res bool :=
  if is_ascii a && is_ascii b then Ok (a ≟ b)
  else raise TypeError "comparing strings with non-ASCII characters is not supported".

(** The payload check of [decode_token]: the four claims, with their types. *)
Definition decode_claims (decoded : value) : DecodeResult :=
  match decoded with
  | VDict d =>
      match dget_none d "run_id", dget_none d "tool", dget_none d "scope", dget_none d "exp" with
      | VStr run_id, VStr tool, VStr scope, VInt exp =>
          mkDecodeResult (Some (mkCapability run_id tool scope exp)) None
      | _, _, _, _ => mkDecodeResult None (Some REASON_MALFORMED_TOKEN)
      end
  | _ => mkDecodeResult None (Some REASON_MALFORMED_TOKEN)
  end.

Definition decode_token (secret : bytes) (token : pystr) : res DecodeResult :=
  match split_char (chr 46) token with
  | [version; encoded; signature] =>
      if negb (version ≟ TOKEN_VERSION) || (encoded ≟ "") || (signature ≟ "") then
        Ok (mkDecodeResult None (Some REASON_MALFORMED_TOKEN))
      else
        let signing_input := TOKEN_VERSION +:+ "." +:+ encoded in
        expected ← _sign secret signing_input;
        same ← compare_digest expected signature;
        if negb same then Ok (mkDecodeResult None (Some REASON_SIGNATURE_INVALID))
        else match (raw ← _b64decode encoded; loads_bytes raw) with
        | Ok decoded => Ok (decode_claims decoded)
        | Raise e =>
            if caught_by [ValueError; JSONDecodeError] e then
              Ok (mkDecodeResult None (Some REASON_MALFORMED_TOKEN))
            else Raise e
        end
  | _ => Ok (mkDecodeResult None (Some REASON_MALFORMED_TOKEN))
  end.

(** * Helper lemmas *)

Lemma urlsafe_b64encode_data b :
  urlsafe_b64encode b =
    of_chars (b64_data (bytes_of b) ++ repeat (chr 61) (pad_count (length (b64_data (bytes_of b))))).
Proof. unfold urlsafe_b64encode. by rewrite b64_encode_data. Qed.

Lemma rev_of_chars l : String.rev (of_chars l) = of_chars (rev l).
Proof.
  unfold String.rev. assert (∀ l t, String.rev_app (of_chars l) t = of_chars (rev l) +:+ t) as H.
  { clear l. induction l as [|a l IH]; intros t; [done|]. cbn. rewrite IH.
    assert (∀ k u, of_chars (k ++ u) = of_chars k +:+ of_chars u) as Happ.
    { clear. induction k as [|b k IHk]; intros u; [done|]. cbn. by rewrite IHk. }
    by rewrite Happ, app_str_assoc. }
  by rewrite H, app_str_nil_r.
Qed.

Lemma rstrip_char_pad c l n :
  Forall (λ a, a ≠ c) l → rstrip_char c (of_chars (l ++ repeat c n)) = of_chars l.
Proof.
  intros Hl. unfold rstrip_char. rewrite rev_of_chars, rev_app_distr.
  assert (rev (repeat c n) = repeat c n) as ->.
  { clear. induction n as [|n IH]; [done|]. cbn. by rewrite IH, <-repeat_cons. }
  assert (drop_while_chr c (of_chars (repeat c n ++ rev l)) = of_chars (rev l)) as ->.
  { induction n as [|n IH]; cbn.
    - assert (Forall (λ a, a ≠ c) (rev l)) as Hr by (by apply Forall_rev).
      destruct (rev l) as [|a k]; [done|]. inversion Hr; subst. cbn. by rewrite bool_decide_false.
    - by rewrite bool_decide_true. }
  by rewrite rev_of_chars, rev_involutive.
Qed.

Lemma _b64encode_data data : _b64encode data = of_chars (b64_data (bytes_of data)).
Proof.
  unfold _b64encode. rewrite urlsafe_b64encode_data. apply rstrip_char_pad.
  pose proof (b64_data_chars _ (bytes_of_range data)) as H.
  by apply (Forall_impl _ _ _ H); intros a (?&_).
Qed.

Lemma _b64encode_ascii data : is_ascii (_b64encode data) = true ∧ chr 46 ∉ chars (_b64encode data).
Proof.
  rewrite _b64encode_data, chars_of_chars. unfold is_ascii. rewrite chars_of_chars.
  pose proof (b64_data_chars _ (bytes_of_range data)) as H. split.
  - apply Is_true_true, forallb_True, (Forall_impl _ _ _ H). intros a (_&_&?). by apply Is_true_true.
  - intros Hin. rewrite Forall_forall in H. by destruct (H _ Hin) as (_&?&_).
Qed.

Lemma py_len_ascii s : is_ascii s = true → py_len s = String.length s.
Proof.
  unfold py_len, is_ascii. induction s as [|a s IH]; [done|]. cbn [chars forallb]. intros [Ha Hs]%andb_true_iff.
  rewrite utf8_decode_1 by lia. simpl. by rewrite IH.
Qed.
Lemma length_of_chars l : String.length (of_chars l) = length l.
Proof. induction l; simpl; congruence. Qed.
Lemma of_chars_app l k : of_chars (l ++ k) = of_chars l +:+ of_chars k.
Proof. induction l as [|a l IH]; [done|]. cbn. by rewrite IH. Qed.

Lemma _b64_roundtrip data : _b64decode (_b64encode data) = Ok data.
Proof.
  destruct (_b64encode_ascii data) as [Ha _]. unfold _b64decode.
  rewrite (py_len_ascii _ Ha). rewrite _b64encode_data in *.
  rewrite length_of_chars, <-of_chars_app. unfold urlsafe_b64decode.
  assert (is_ascii (of_chars (b64_data (bytes_of data) ++
    repeat (chr 61) (pad_count (length (b64_data (bytes_of data)))))) = true) as ->.
  { rewrite of_chars_app, is_ascii_app, Ha. unfold is_ascii. rewrite chars_of_chars.
    by induction (pad_count _). }
  rewrite chars_of_chars, a2b_data by apply bytes_of_range. cbn. by rewrite to_bytes_bytes_of.
Qed.

Lemma _sign_ok secret s : is_ascii s = true → _sign secret s = Ok (_b64encode (hmac_sha256 secret s)).
Proof. intros H. unfold _sign, encode_ascii. by rewrite H. Qed.

Lemma is_ascii_no_dot_split s t u : chr 46 ∉ chars s → chr 46 ∉ chars t → chr 46 ∉ chars u →
  split_char (chr 46) (s +:+ String (chr 46) (t +:+ String (chr 46) u)) = [s; t; u].
Proof.
  intros Hs Ht Hu. rewrite split_char_app by done. rewrite split_char_app by done.
  by rewrite split_char_none.
Qed.

(** The capabilities whose claims survive the JSON encoding. *)
Definition cap_ok (c : Capability) : Prop :=
  ustr (cap_run_id c) ∧ ustr (cap_tool c) ∧ ustr (cap_scope c) ∧
  Z.abs (cap_expires_at c) < 10 ^ Z.of_nat MAX_INT_DIGITS.

Definition signing_input (payload : pystr) : pystr := TOKEN_VERSION +:+ "." +:+ payload.
(** The token that carries [payload] under [secret]. *)
Definition token_of (secret : bytes) (payload : pystr) : pystr :=
  signing_input payload +:+ "." +:+ _b64encode (hmac_sha256 secret (signing_input payload)).

Lemma token_payload_ok c : cap_ok c → json_ok (VDict (token_payload c)).
Proof.
  intros (?&?&?&?). constructor.
  - unfold wf_dict, dkeys. cbn. by apply (bool_decide_unpack _).
  - repeat constructor; simpl; try done; by apply is_ascii_ustr.
Qed.

Lemma token_payload_sorted c :
  sort_value (VDict (token_payload c)) =
    VDict [("exp", VInt (cap_expires_at c)); ("run_id", VStr (cap_run_id c));
           ("scope", VStr (cap_scope c)); ("tool", VStr (cap_tool c))].
Proof. reflexivity. Qed.

Lemma issue_token_of secret c :
  cap_ok c →
  issue_token secret c = Ok (token_of secret (_b64encode (dumps canonical_ascii (VDict (token_payload c))))).
Proof.
  intros Hc. unfold issue_token.
  rewrite encode_utf8_ustr by (apply ustr_dumps; [apply ustr_seps_std | by apply token_payload_ok]).
  cbn [mbind res_bind]. rewrite _sign_ok; [done|].
  rewrite !is_ascii_app. by destruct (_b64encode_ascii (dumps canonical_ascii (VDict (token_payload c)))) as [-> _].
Qed.

Lemma is_ascii_token_of secret data : is_ascii (token_of secret (_b64encode data)) = true.
Proof.
  unfold token_of, signing_input. rewrite !is_ascii_app.
  by destruct (_b64encode_ascii data) as [-> _], (_b64encode_ascii (hmac_sha256 secret
    (TOKEN_VERSION +:+ "." +:+ _b64encode data))) as [-> _].
Qed.

(** What [decode_token] does with a token it has split, when payload and
    signature are ASCII. *)
Lemma decode_token_parts secret token payload signature :
  split_char (chr 46) token = [TOKEN_VERSION; payload; signature] →
  payload ≠ "" → signature ≠ "" → is_ascii payload = true → is_ascii signature = true →
  decode_token secret token =
    if _b64encode (hmac_sha256 secret (signing_input payload)) ≟ signature then
      match raw ← _b64decode payload; loads_bytes raw with
      | Ok decoded => Ok (decode_claims decoded)
      | Raise e =>
          if caught_by [ValueError; JSONDecodeError] e then
            Ok (mkDecodeResult None (Some REASON_MALFORMED_TOKEN))
          else Raise e
      end
    else Ok (mkDecodeResult None (Some REASON_SIGNATURE_INVALID)).
Proof.
  intros Hs Hp Hg Hap Hag. unfold decode_token. rewrite Hs.
  rewrite !(bool_decide_false (_ = "")), bool_decide_true by done. cbn [negb orb].
  rewrite _sign_ok by (by rewrite !is_ascii_app, Hap).
  cbn [mbind res_bind]. unfold compare_digest.
  rewrite (proj1 (_b64encode_ascii _)), Hag. cbn [andb mbind res_bind].
  unfold signing_input. by case_bool_decide.
Qed.

Lemma split_token payload signature :
  chr 46 ∉ chars payload → chr 46 ∉ chars signature →
  split_char (chr 46) (signing_input payload +:+ "." +:+ signature) = [TOKEN_VERSION; payload; signature].
Proof.
  intros. unfold signing_input. rewrite !app_str_assoc.
  change ("." +:+ ?s) with (String (chr 46) s). apply is_ascii_no_dot_split; [|done..].
  by apply (bool_decide_unpack _).
Qed.

Lemma _b64encode_nonempty data : data ≠ "" → _b64encode data ≠ "".
Proof.
  intros Hd E. pose proof (_b64_roundtrip data) as H. rewrite E in H.
  assert (_b64decode "" = Ok "") as H0 by (by vm_compute). congruence.
Qed.

(** A token that carries some bytes under the right secret reaches the decoder. *)
Lemma decode_token_of secret data :
  data ≠ "" →
  decode_token secret (token_of secret (_b64encode data)) =
    match loads_bytes data with
    | Ok decoded => Ok (decode_claims decoded)
    | Raise e => if caught_by [ValueError; JSONDecodeError] e
                 then Ok (mkDecodeResult None (Some REASON_MALFORMED_TOKEN)) else Raise e
    end.
Proof.
  intros Hd.
  assert (Hmac : ∀ s, hmac_sha256 secret s ≠ "").
  { intros s E. pose proof (hmac_sha256_length secret s) as H. by rewrite E in H. }
  rewrite (decode_token_parts _ _ (_b64encode data)
    (_b64encode (hmac_sha256 secret (signing_input (_b64encode data))))).
  - rewrite bool_decide_true by done. by rewrite _b64_roundtrip.
  - apply split_token; apply _b64encode_ascii.
  - by apply _b64encode_nonempty.
  - by apply _b64encode_nonempty.
  - apply _b64encode_ascii.
  - apply _b64encode_ascii.
Qed.

Lemma decode_issued secret c :
  cap_ok c →
  ∃ token, issue_token secret c = Ok token ∧ is_ascii token = true ∧
    decode_token secret token = Ok (mkDecodeResult (Some c) None).
Proof.
  intros Hc. eexists. split; [by apply issue_token_of|]. split; [apply is_ascii_token_of|].
  pose proof (token_payload_ok c Hc) as Hok.
  assert (∃ s, dumps canonical_ascii (VDict (token_payload c)) = String (chr 123) (String DQ s)
    ∧ ustr (String (chr 123) (String DQ s))) as (s & Hs & Hu).
  { pose proof (ustr_dumps canonical_ascii _ (proj1 (proj2 ustr_seps_std)) Hok) as Hu.
    unfold dumps in *. cbn [sort_keys canonical_ascii] in *. rewrite token_payload_sorted in *.
    eexists. split; [reflexivity|]. exact Hu. }
  rewrite Hs, decode_token_of, loads_bytes_text by (done || vm_compute; done).
  rewrite <-Hs, loads_dumps_gen by (done || apply sep_ok_canonical).
  cbn [sort_keys canonical_ascii]. rewrite token_payload_sorted. by destruct c.
Qed.

Lemma decode_claims_Some v c err :
  decode_claims v = mkDecodeResult (Some c) err →
  err = None ∧ ∃ d, v = VDict d ∧ dget d "run_id" = Some (VStr (cap_run_id c)) ∧
    dget d "tool" = Some (VStr (cap_tool c)) ∧ dget d "scope" = Some (VStr (cap_scope c)) ∧
    dget d "exp" = Some (VInt (cap_expires_at c)).
Proof.
  unfold decode_claims, dget_none, dget_or. intros H. repeat case_in H; simplify_eq/=.
  split; [done|]. eexists. split; [reflexivity|].
  by repeat match goal with H : default VNone ?o = _ |- _ => destruct o; simplify_eq/= end.
Qed.

Lemma decode_claims_error v :
  (∃ c, decode_claims v = mkDecodeResult (Some c) None) ∨
  decode_claims v = mkDecodeResult None (Some REASON_MALFORMED_TOKEN).
Proof. unfold decode_claims. repeat (case_match; try by right). left. eauto. Qed.

Lemma _b64decode_error t e : is_ascii t = true → _b64decode t = Raise e → caught_by [ValueError] e = true.
Proof.
  intros Ha. unfold _b64decode, urlsafe_b64decode. rewrite is_ascii_app, Ha.
  assert (is_ascii (of_chars (repeat (chr 61) (pad_count (py_len t)))) = true) as ->.
  { unfold is_ascii. rewrite chars_of_chars. by induction (pad_count _). }
  cbn [andb]. intros H.
  assert (∀ l q p x e, a2b q p x l = Raise e → exn_cls e = BinasciiError) as Hb.
  { clear. induction l as [|a l IH]; intros q p x e H; cbn [a2b] in H.
    - repeat case_in H; unfold raise in H; by simplify_eq/=.
    - repeat case_in H; try (by apply IH in H); try done; unfold raise in *; simplify_eq/=; try done.
      all: match type of H with fmap _ ?m = _ => destruct m eqn:E; simplify_eq/=; by apply IH in E end. }
  destruct (a2b _ _ _ _) eqn:E; simplify_eq/=. apply Hb in E. destruct e as [[] m]; by simplify_eq/=.
Qed.

Lemma decode_payload_error t e :
  is_ascii t = true → (raw ← _b64decode t; loads_bytes raw) = Raise e →
  caught_by [ValueError; JSONDecodeError] e = true.
Proof.
  intros Ha [H|(raw & _ & H)]%res_bind_Raise.
  - apply _b64decode_error in H; [|done]. unfold caught_by in *. cbn [existsb] in *.
    destruct (issubclass _ _); done.
  - apply loads_bytes_error in H. unfold caught_by in *. cbn [existsb] in *.
    destruct (issubclass _ _); done.
Qed.

Lemma split_signing token payload signature :
  split_char (chr 46) token = [TOKEN_VERSION; payload; signature] →
  token = signing_input payload +:+ "." +:+ signature.
Proof.
  intros H. pose proof (split_char_join (chr 46) token) as Hj. rewrite H in Hj. rewrite <-Hj.
  unfold signing_input. by rewrite !app_str_assoc.
Qed.

(** The two ways through [decode_token]: it stops before the signature is
    computed, or it runs on the three parts. *)
Lemma decode_token_cases secret token :
  (∃ payload signature, split_char (chr 46) token = [TOKEN_VERSION; payload; signature] ∧
     payload ≠ "" ∧ signature ≠ "") ∨
  decode_token secret token = Ok (mkDecodeResult None (Some REASON_MALFORMED_TOKEN)).
Proof.
  unfold decode_token. destruct (split_char _ token) as [|v [|p [|g [|? ?]]]]; try by right.
  destruct (negb (v ≟ TOKEN_VERSION) || (p ≟ "") || (g ≟ "")) eqn:E; [by right|left].
  apply orb_false_iff in E as [[Ev Ep]%orb_false_iff Eg].
  apply negb_false_iff, bool_decide_eq_true in Ev. apply bool_decide_eq_false in Ep, Eg. subst. eauto.
Qed.

Lemma decode_token_non_ascii secret token payload signature :
  split_char (chr 46) token = [TOKEN_VERSION; payload; signature] →
  payload ≠ "" → signature ≠ "" → is_ascii payload && is_ascii signature = false →
  ∃ e, decode_token secret token = Raise e.
Proof.
  intros Hs Hp Hg Ha. unfold decode_token. rewrite Hs, !(bool_decide_false (_ = "")), bool_decide_true by done.
  unfold _sign, encode_ascii, compare_digest. rewrite !is_ascii_app.
  destruct (is_ascii payload); [|by eexists]. simpl in Ha. rewrite Ha. cbn [mbind res_bind negb orb].
  change (is_ascii TOKEN_VERSION && (is_ascii "." && true)) with true. cbn iota.
  cbn [mbind res_bind mret res_ret]. rewrite andb_false_r. by eexists.
Qed.

(** What an accepted token is. *)
Lemma decode_token_capability secret token c err :
  decode_token secret token = Ok (mkDecodeResult (Some c) err) →
  err = None ∧ ∃ payload raw d,
    token = TOKEN_VERSION +:+ "." +:+ payload +:+ "." +:+
      _b64encode (hmac_sha256 secret (TOKEN_VERSION +:+ "." +:+ payload)) ∧
    _b64decode payload = Ok raw ∧ loads_bytes raw = Ok (VDict d) ∧
    dget d "run_id" = Some (VStr (cap_run_id c)) ∧ dget d "tool" = Some (VStr (cap_tool c)) ∧
    dget d "scope" = Some (VStr (cap_scope c)) ∧ dget d "exp" = Some (VInt (cap_expires_at c)).
Proof.
  destruct (decode_token_cases secret token) as [(p & g & Hs & Hp & Hg)| ->]; [|done].
  destruct (is_ascii p && is_ascii g) eqn:Ha.
  2: { by destruct (decode_token_non_ascii secret _ _ _ Hs Hp Hg Ha) as [e ->]. }
  apply andb_true_iff in Ha as [Hap Hag]. rewrite (decode_token_parts _ _ _ _ Hs Hp Hg Hap Hag).
  case_bool_decide as Hmac; [|done]. intros H.
  destruct (raw ← _b64decode p; loads_bytes raw) as [v|e] eqn:E; [|by case_in H].
  simplify_eq/=. apply decode_claims_Some in H as (-> & d & -> & ?&?&?&?).
  apply res_bind_Ok in E as (raw & ? & ?). split; [done|]. exists p, raw, d. split; [|done].
  rewrite (split_signing _ _ _ Hs). unfold signing_input. by rewrite !app_str_assoc.
Qed.

(** * Properties *)

(** C7: a token is decoded, under the secret it was issued with, to exactly the
    capability it was issued for; issuing never fails, and the token is ASCII. *)
Theorem token_roundtrip secret c :
  ustr (cap_run_id c) → ustr (cap_tool c) → ustr (cap_scope c) →
  Z.abs (cap_expires_at c) < 10 ^ 4300 →
  ∃ token, issue_token secret c = Ok token ∧ is_ascii token = true ∧
    decode_token secret token = Ok (mkDecodeResult (Some c) None).
Proof. intros. by apply decode_issued. Qed.

Lemma token_roundtrip_witness :
  ∃ token, issue_token "key" (mkCapability "RUN-1" "vcs.diff" "read" 1700000300) = Ok token ∧
    is_ascii token = true ∧
    decode_token "key" token = Ok (mkDecodeResult (Some (mkCapability "RUN-1" "vcs.diff" "read" 1700000300)) None).
Proof.
  apply token_roundtrip; try (by apply is_ascii_ustr); apply Z.ltb_lt; vm_compute; reflexivity.
Defined.

(** C6: authenticity.  A decoded capability comes with no error, and its token
    has the form [v1.payload.signature] where the signature is the HMAC-SHA256
    of [v1.payload] under the registry's secret and the payload is the base64
    of a JSON object that carries the capability's four claims.  So no token
    with another signature is ever decoded. *)
Theorem decode_token_sound secret token c err :
  decode_token secret token = Ok (mkDecodeResult (Some c) err) →
  err = None ∧ ∃ payload raw d,
    token = TOKEN_VERSION +:+ "." +:+ payload +:+ "." +:+
      _b64encode (hmac_sha256 secret (TOKEN_VERSION +:+ "." +:+ payload)) ∧
    _b64decode payload = Ok raw ∧ loads_bytes raw = Ok (VDict d) ∧
    dget d "run_id" = Some (VStr (cap_run_id c)) ∧ dget d "tool" = Some (VStr (cap_tool c)) ∧
    dget d "scope" = Some (VStr (cap_scope c)) ∧ dget d "exp" = Some (VInt (cap_expires_at c)).
Proof. apply decode_token_capability. Qed.

Lemma decode_token_sound_witness :
  ∃ payload raw d, _b64decode payload = Ok raw ∧ loads_bytes raw = Ok (VDict d) ∧
    dget d "run_id" = Some (VStr "R").
Proof.
  destruct (decode_token_sound "key"
    "v1.eyJleHAiOjksInJ1bl9pZCI6IlIiLCJzY29wZSI6InMiLCJ0b29sIjoidCJ9.TjWhVf_hkI9AZRCtmGGA2Iftl4YgsCItZ6EXohCiSmg"
    (mkCapability "R" "t" "s" 9) None) as (_ & p & raw & d & _ & ? & ? & ? & _).
  - vm_compute. reflexivity.
  - by exists p, raw, d.
Defined.

(** C30: fail-closed decoding.  On an ASCII token the decoder always answers, with
    a capability or with one of the two reason codes; the only tokens on which
    it raises are those of the form [v1.payload.signature] with both parts
    non-empty and a non-ASCII character in one of them. *)
Theorem decode_token_raises secret token :
  (is_ok (decode_token secret token) = false ↔
    ∃ payload signature, split_char (chr 46) token = [TOKEN_VERSION; payload; signature] ∧
      payload ≠ "" ∧ signature ≠ "" ∧ is_ascii (payload +:+ signature) = false) ∧
  ∀ r, decode_token secret token = Ok r →
    (∃ c, r = mkDecodeResult (Some c) None) ∨
    r = mkDecodeResult None (Some REASON_MALFORMED_TOKEN) ∨
    r = mkDecodeResult None (Some REASON_SIGNATURE_INVALID).
Proof.
  destruct (decode_token_cases secret token) as [(p & g & Hs & Hp & Hg)|Hm].
  2: { rewrite Hm. split; [|intros r [= <-]; auto]. split; [done|].
    intros (p & g & Hs & Hp & Hg & Ha). rewrite is_ascii_app in Ha.
    destruct (decode_token_non_ascii secret _ _ _ Hs Hp Hg Ha) as [e He]. congruence. }
  destruct (is_ascii (p +:+ g)) eqn:Ha; rewrite is_ascii_app in Ha.
  - apply andb_true_iff in Ha as [Hap Hag]. rewrite (decode_token_parts _ _ _ _ Hs Hp Hg Hap Hag).
    assert (Hno : ¬ ∃ p g, split_char (chr 46) token = [TOKEN_VERSION; p; g] ∧ p ≠ "" ∧ g ≠ "" ∧
      is_ascii (p +:+ g) = false).
    { intros (p' & g' & Hs' & _ & _ & Ha'). rewrite Hs in Hs'. simplify_eq.
      by rewrite is_ascii_app, Hap, Hag in Ha'. }
    case_bool_decide; [|split; [split; [done|by intros ?]|intros ? [= <-]; auto]].
    destruct (raw ← _b64decode p; loads_bytes raw) as [v|e] eqn:E.
    + split; [split; [done|by intros ?]|]. intros r [= <-].
      destruct (decode_claims_error v) as [[c ->]| ->]; eauto.
    + rewrite (decode_payload_error _ _ Hap E). split; [split; [done|by intros ?]|intros ? [= <-]; auto].
  - destruct (decode_token_non_ascii secret _ _ _ Hs Hp Hg Ha) as [e ->]. split; [|done].
    split; [|done]. intros _. exists p, g. by rewrite is_ascii_app, Ha.
Qed.
