(* ===== verification/World.v ===== *)
(** The world the control plane runs in: a POSIX file system with symbolic
    links, a clock, a source of UUIDs, and the services it calls (HTTP,
    processes, the language model, JSON Schema), which are the parameters of
    the whole development ([Env]). *)

From S2P Require Export PyValue.
#[local] Open Scope Z_scope.

(** * File system

    An absolute path is its list of components; [[]] is the root directory.  A
    path may still hold [".."], which only resolution removes. *)

Abbreviation path := (list string) (only parsing).

Inductive node :=
  | File (content : bytes)
  | Dir
  | Link (absolute : bool) (target : path).

#[export] Instance node_eq_dec : EqDecision node.
Proof. solve_decision. Defined.

Abbreviation Fs := (gmap path node) (only parsing).

(** ** [pathlib] on text *)

Definition is_absolute (s : pystr) : bool := startswith s "/".
(** The components of a path, without empty ones and ["."]. *)
Definition path_parts (s : pystr) : path :=
  filter (λ c, c ≠ "" ∧ c ≠ ".") (split_char (chr 47) s).
(** [root / s] *)
Definition path_join (root : path) (s : pystr) : path :=
  if is_absolute s then path_parts s else (root ++ path_parts s)%list.
(** [str(path)] and [path.as_posix()] of an absolute path *)
Definition path_str (p : path) : pystr := "/" +:+ join "/" p.
Definition parent (p : path) : path := removelast p.
(** [target == root or root in target.parents] *)
Definition inside (root target : path) : bool := bool_decide (root `prefix_of` target).
(** A path the operating system accepts: no NUL, encodable. *)
Definition path_ok (p : path) : bool :=
  forallb (λ c, negb (existsb (λ a, byte_of a =? 0) (chars c)) && negb (has_surrogate c)) p.
(** [path.stem] *)
Definition stem (name : string) : string :=
  match rev (split_char (chr 46) name) with
  | _ :: (b :: bs) as ws =>
      let s := join "." (rev (b :: bs)) in
      if (s ≟ "") || endswith name "." then name else s
  | _ => name
  end.

(** ** Resolution *)

(** How many links resolution follows before it reports a loop. *)
Definition MAX_LINKS : nat := 40.

Definition node_at (fs : Fs) (p : path) : option node :=
  match p with [] => Some Dir | _ => fs !! p end.

(** [os.path.realpath]: missing components are kept as they are. *)
Fixpoint realpath (fuel : nat) (fs : Fs) : path → path → option path :=
  fix go (acc rest : path) :=
    match rest with
    | [] => Some acc
    | c :: rest =>
        if c ≟ ".." then go (removelast acc) rest
        else match node_at fs (acc ++ [c]) with
             | Some (Link absolute target) =>
                 match fuel with
                 | O => None
                 | S fuel => realpath fuel fs (if absolute then [] else acc) (target ++ rest)
                 end
             | _ => go (acc ++ [c]) rest
             end
    end%list.

(** Resolution by the kernel: every directory on the way must exist. *)
Fixpoint walk (fuel : nat) (fs : Fs) : path → path → res path :=
  fix go (acc rest : path) :=
    match rest with
    | [] => Ok acc
    | c :: rest =>
        match node_at fs acc with
        | Some Dir =>
            if c ≟ ".." then go (removelast acc) rest
            else match node_at fs (acc ++ [c]) with
                 | Some (Link absolute target) =>
                     match fuel with
                     | O => raise OSError "Too many levels of symbolic links"
                     | S fuel => walk fuel fs (if absolute then [] else acc) (target ++ rest)
                     end
                 | _ => go (acc ++ [c]) rest
                 end
        | Some _ => raise NotADirectoryError "Not a directory"
        | None => raise FileNotFoundError "No such file or directory"
        end
    end%list.

Definition check_path (p : path) : res unit :=
  if path_ok p then Ok tt else raise ValueError "embedded null byte".

Definition fs_locate (fs : Fs) (p : path) : res path := _ ← check_path p; walk MAX_LINKS fs [] p.
Definition fs_stat (fs : Fs) (p : path) : res node :=
  q ← fs_locate fs p;
  match node_at fs q with Some n => Ok n | None => raise FileNotFoundError (path_str p) end.

Definition is_file (fs : Fs) (p : path) : bool :=
  match fs_stat fs p with Ok (File _) => true | _ => false end.
Definition is_dir (fs : Fs) (p : path) : bool :=
  match fs_stat fs p with Ok Dir => true | _ => false end.
Definition read_bytes (fs : Fs) (p : path) : res bytes :=
  n ← fs_stat fs p;
  match n with File b => Ok b | _ => raise IsADirectoryError (path_str p) end.

(** [path.resolve()] *)
Definition resolve (fs : Fs) (p : path) : res path :=
  _ ← check_path p;
  match realpath MAX_LINKS fs [] p with
  | Some q => Ok q
  | None => raise RuntimeError "Symlink loop"
  end.

(** [path.write_bytes(data)] *)
Definition write_bytes (p : path) (data : bytes) : ST Fs unit := fun fs =>
  match fs_locate fs p with
  | Ok q =>
      match node_at fs q, node_at fs (parent q) with
      | Some Dir, _ => (raise IsADirectoryError (path_str p), fs)
      | _, Some Dir => (Ok tt, <[q := File data]> fs)
      | _, Some _ => (raise NotADirectoryError (path_str p), fs)
      | _, None => (raise FileNotFoundError (path_str p), fs)
      end
  | Raise e => (Raise e, fs)
  end.

(** [os.mkdir(dir / name)] where [dir] exists. *)
Definition os_mkdir (dir : path) (name : string) : ST Fs unit := fun fs =>
  match fs_locate fs dir with
  | Ok q =>
      match node_at fs q, node_at fs (q ++ [name])%list with
      | Some Dir, None => (Ok tt, <[(q ++ [name])%list := Dir]> fs)
      | Some Dir, Some _ => (raise FileExistsError name, fs)
      | Some _, _ => (raise NotADirectoryError name, fs)
      | None, _ => (raise FileNotFoundError name, fs)
      end
  | Raise e => (Raise e, fs)
  end.

(** [path.mkdir(parents=True, exist_ok=True)], from the reversed path. *)
Fixpoint mkdir_rev (rp : path) : ST Fs unit := fun fs =>
  if is_dir fs (rev rp) then (Ok tt, fs)
  else match rp with
  | [] => (Ok tt, fs)
  | name :: rp' =>
      match mkdir_rev rp' fs with
      | (Ok _, fs') =>
          if is_dir fs' (rev rp) then (Ok tt, fs') else os_mkdir (rev rp') name fs'
      | (Raise e, fs') => (Raise e, fs')
      end
  end.
Definition mkdir_parents (p : path) : ST Fs unit := mkdir_rev (rev p).

(** The names in a directory, in no particular order (callers sort). *)
Definition children (fs : Fs) (p : path) : list string :=
  match fs_locate fs p with
  | Ok q => omap (λ k : path, match rev k with
      | name :: k' => if bool_decide (rev k' = q) then Some name else None
      | [] => None
      end) (elements (dom fs))
  | Raise _ => []
  end.

(** * Services *)

Record HttpRequest := mkHttpRequest {
  http_url : string;
  http_method : string;
  http_headers : list (string * string);
  http_body : option bytes
}.

Record Completed := mkCompleted {
  proc_returncode : Z;
  proc_stdout : option pystr;
  proc_stderr : option pystr
}.

Record LLMRequest := mkLLMRequest {
  llm_role : string;
  llm_system_prompt : string;
  llm_context : dict
}.

Record LLMResponse := mkLLMResponse {
  llm_text : pystr;
  llm_model : string
}.

(** What is outside the program.  A service may answer differently each time it
    is called: its first argument is the number of readings made so far. *)
Class Env := {
  env_clock : nat → Z;  (** [int(time.time())] *)
  env_utcnow : nat → Z;  (** [datetime.now(UTC)], in microseconds since 1970 *)
  env_uuid : nat → string;  (** [uuid4().hex] *)
  env_http : nat → HttpRequest → res bytes;  (** [urlopen(request).read()] *)
  env_run : nat → list pystr → path → Fs → res Completed * Fs;  (** [subprocess.run] *)
  env_llm : nat → LLMRequest → res LLMResponse;  (** [adapter.complete(request)] *)
  (** [Draft202012Validator(schema, registry).iter_errors(instance)]: the path
      and the message of every error. *)
  env_iter_errors : list (value * value) → value → value → res (list (list value * string));
  env_zlib : bytes → bytes;  (** [zlib.compress(data, level=9)] *)
  env_cwd : path;
  env_module_file : path;  (** [Path(__file__)] of the artifact registry *)
  env_environ : string → option pystr;
  env_urandom : bytes
}.

(** * State *)

Record Run := mkRun {
  run_run_id : string;
  run_actor : dict;
  run_created_at : Z;
  run_finished : bool
}.

(** What the program did outside its own state, latest first. *)
Inductive event :=
  | EvHttp (request : HttpRequest)
  | EvRun (argv : list pystr) (cwd : path)
  | EvLlm (request : LLMRequest).

Record World := mkWorld {
  w_fs : Fs;
  w_runs : gmap string Run;
  w_tick : nat;
  w_log : list event
}.

Definition set_fs (fs : Fs) (w : World) : World := mkWorld fs (w_runs w) (w_tick w) (w_log w).
Definition set_runs (r : gmap string Run) (w : World) : World := mkWorld (w_fs w) r (w_tick w) (w_log w).
Definition set_tick (n : nat) (w : World) : World := mkWorld (w_fs w) (w_runs w) n (w_log w).
Definition log (e : event) (w : World) : World := mkWorld (w_fs w) (w_runs w) (w_tick w) (e :: w_log w).

Definition onFs {A} (m : ST Fs A) : ST World A := zoom w_fs set_fs m.
Definition askFs {A} (f : Fs → A) : ST World A := fun w => (Ok (f (w_fs w)), w).
Definition liftFs {A} (f : Fs → res A) : ST World A := fun w => (f (w_fs w), w).

Section services.
  Context `{Env}.

Definition reading {A} (f : nat → A) : ST World A :=
    fun w => (Ok (f (w_tick w)), set_tick (S (w_tick w)) w).
Definition now_seconds : ST World Z := reading env_clock.
Definition uuid_hex : ST World string := reading env_uuid.
Definition http (r : HttpRequest) : ST World bytes := fun w =>
    (env_http (w_tick w) r, log (EvHttp r) (set_tick (S (w_tick w)) w)).
Definition run_process (argv : list pystr) (cwd : path) : ST World Completed := fun w =>
    let '(r, fs) := env_run (w_tick w) argv cwd (w_fs w) in
    (r, log (EvRun argv cwd) (set_fs fs (set_tick (S (w_tick w)) w))).
Definition llm_complete (r : LLMRequest) : ST World LLMResponse := fun w =>
    (env_llm (w_tick w) r, log (EvLlm r) (set_tick (S (w_tick w)) w)).
End services.

(** * Concrete environments

    Services that answer the same each time: HTTP gives [answer], processes
    succeed and change nothing, the model answers [text], every instance is
    valid.  Examples are evaluated in them. *)

Definition const_env (answer : res bytes) (text : res LLMResponse) : Env := {|
  env_clock _ := 1700000000;
  env_utcnow _ := 1700000000123456;
  env_uuid _ := "00000000000000000000000000000001";
  env_http _ _ := answer;
  env_run _ _ _ fs := (Ok (mkCompleted 0 None None), fs);
  env_llm _ _ := text;
  env_iter_errors _ _ _ := Ok [];
  env_zlib data := data;
  env_cwd := ["work"];
  env_module_file := ["repo"; "sdlc"; "registry.py"];
  env_environ _ := None;
  env_urandom := "0123456789abcdef0123456789abcdef"
|}.
Definition idle_env : Env := const_env (raise URLError "connection refused") (raise LLMError "no model").

Definition quoted (s : string) : string := String DQ s +:+ String DQ "".
(** OPA answers [{"result": true}]. *)
Definition allow_env : Env :=
  const_env (Ok ("{" +:+ quoted "result" +:+ ": true}")) (raise LLMError "no model").

Definition empty_world : World := mkWorld ∅ ∅ 0 [].
