(* ===== verification/FsFacts.v ===== *)
(** Facts on the file system of [World]: resolution, and what writing and
    creating directories change and preserve. *)

From S2P Require Export World.
#[local] Open Scope Z_scope.

(** * Paths as text *)

Lemma is_absolute_name c : chr 47 ∉ chars c → is_absolute c = false.
Proof.
  intros Hns. unfold is_absolute. destruct (startswith c "/") eqn:E; [|done].
  apply startswith_spec in E as [t ->]. exfalso. apply Hns. rewrite chars_app. cbn. set_solver.
Qed.

(** A file name is one component of a path. *)
Lemma path_join_name root c :
  chr 47 ∉ chars c → c ≠ "" → c ≠ "." → path_join root c = (root ++ [c])%list.
Proof.
  intros Hns ? ?. unfold path_join, path_parts. rewrite is_absolute_name by done.
  by rewrite split_char_none, filter_cons_True, filter_nil by done.
Qed.

(** * Equations *)

Lemma walk_nil fuel fs acc : walk fuel fs acc [] = Ok acc.
Proof. by destruct fuel. Qed.
Lemma walk_cons fuel fs acc c rest :
  walk fuel fs acc (c :: rest) =
    match node_at fs acc with
    | Some Dir =>
        if c ≟ ".." then walk fuel fs (removelast acc) rest
        else match node_at fs (acc ++ [c]) with
             | Some (Link absolute target) =>
                 match fuel with
                 | O => raise OSError "Too many levels of symbolic links"
                 | S fuel => walk fuel fs (if absolute then [] else acc) (target ++ rest)
                 end
             | _ => walk fuel fs (acc ++ [c]) rest
             end
    | Some _ => raise NotADirectoryError "Not a directory"
    | None => raise FileNotFoundError "No such file or directory"
    end%list.
Proof. by destruct fuel. Qed.
Lemma realpath_nil fuel fs acc : realpath fuel fs acc [] = Some acc.
Proof. by destruct fuel. Qed.
Lemma realpath_cons fuel fs acc c rest :
  realpath fuel fs acc (c :: rest) =
    if c ≟ ".." then realpath fuel fs (removelast acc) rest
    else match node_at fs (acc ++ [c])%list with
         | Some (Link absolute target) =>
             match fuel with
             | O => None
             | S fuel => realpath fuel fs (if absolute then [] else acc) (target ++ rest)
             end
         | _ => realpath fuel fs (acc ++ [c])%list rest
         end.
Proof. by destruct fuel. Qed.

(** Induction on a resolution: on the links left, then on the components. *)
Lemma resolution_ind (P : nat → path → path → Prop) :
  (∀ fuel acc, P fuel acc []) →
  (∀ fuel acc c rest,
     (∀ acc', P fuel acc' rest) →
     (∀ fuel' acc' target, fuel = S fuel' → P fuel' acc' (target ++ rest)%list) →
     P fuel acc (c :: rest)) →
  ∀ fuel acc rest, P fuel acc rest.
Proof.
  intros Hnil Hcons. induction fuel as [|fuel IH]; intros acc rest; revert acc;
    induction rest as [|c rest IHr]; intros acc; auto; apply Hcons; auto.
  - done.
  - intros ? ? ? [= <-]. apply IH.
Qed.

(** * Growing a file system

    [grows fs fs']: [fs'] has the nodes of [fs], and more directories.  Only
    that happens when parents are created. *)

Definition grows (fs fs' : Fs) : Prop :=
  ∀ k, fs' !! k = fs !! k ∨ (fs !! k = None ∧ fs' !! k = Some Dir).

#[export] Instance grows_refl : Reflexive grows.
Proof. intros fs k. by left. Qed.
#[export] Instance grows_trans : Transitive grows.
Proof. intros a b c Hab Hbc k. destruct (Hab k) as [?|[]], (Hbc k) as [?|[]]; [left|right..]; split_and?; congruence. Qed.

Lemma grows_at fs fs' k n : grows fs fs' → node_at fs k = Some n → node_at fs' k = Some n.
Proof. intros H. destruct k as [|c k]; [done|]. simpl. destruct (H (c :: k)) as [->|[-> _]]; done. Qed.

Lemma grows_link fs fs' k a t :
  grows fs fs' → node_at fs' k = Some (Link a t) ↔ node_at fs k = Some (Link a t).
Proof. intros H. destruct k as [|c k]; [done|]. simpl. destruct (H (c :: k)) as [->|[-> ->]]; done. Qed.

(** A resolution that succeeds is not changed by changes that keep the
    directories and the links it may meet. *)
Lemma walk_stable fs fs' fuel acc rest q :
  (∀ k, node_at fs k = Some Dir → node_at fs' k = Some Dir) →
  (∀ k a t, node_at fs' k = Some (Link a t) ↔ node_at fs k = Some (Link a t)) →
  walk fuel fs acc rest = Ok q → walk fuel fs' acc rest = Ok q.
Proof.
  intros Hd Hl. revert fuel acc rest. apply (resolution_ind (λ fuel acc rest, _ → _)).
  { intros fuel acc. by rewrite !walk_nil. }
  intros fuel acc c rest IH IHl. rewrite !walk_cons.
  destruct (node_at fs acc) as [[]|] eqn:Ea; try done. rewrite (Hd _ Ea).
  case_bool_decide; [apply IH|].
  destruct (node_at fs (acc ++ [c])%list) as [[b| |a t]|] eqn:E.
  3: { apply Hl in E. rewrite E. destruct fuel; [done|]. by apply IHl. }
  all: destruct (node_at fs' (acc ++ [c])%list) as [[b'| |a t]|] eqn:E';
    try (apply IH); apply Hl in E'; congruence.
Qed.

Lemma walk_grows fs fs' fuel acc rest q :
  grows fs fs' → walk fuel fs acc rest = Ok q → walk fuel fs' acc rest = Ok q.
Proof.
  intros H. apply walk_stable; [by intros; eapply grows_at|by intros; apply grows_link].
Qed.

Lemma fs_locate_Ok fs p q : fs_locate fs p = Ok q ↔ path_ok p = true ∧ walk MAX_LINKS fs [] p = Ok q.
Proof. unfold fs_locate, check_path. destruct (path_ok p); simpl; naive_solver. Qed.

Lemma grows_locate fs fs' p q : grows fs fs' → fs_locate fs p = Ok q → fs_locate fs' p = Ok q.
Proof. intros Hg. rewrite !fs_locate_Ok. intros [? ?]. split; [done|]. by eapply walk_grows. Qed.

Lemma fs_stat_Ok fs p n : fs_stat fs p = Ok n ↔ ∃ q, fs_locate fs p = Ok q ∧ node_at fs q = Some n.
Proof.
  unfold fs_stat. rewrite res_bind_Ok. split; intros (q & Hq & H); exists q; (split; [done|]).
  - destruct (node_at fs q); by simplify_eq/=.
  - by rewrite H.
Qed.

Lemma grows_stat fs fs' p n : grows fs fs' → fs_stat fs p = Ok n → fs_stat fs' p = Ok n.
Proof.
  intros Hg. rewrite !fs_stat_Ok. intros (q & ? & ?). exists q.
  split; [by eapply grows_locate|by eapply grows_at].
Qed.

Lemma is_dir_stat fs p : is_dir fs p = true ↔ fs_stat fs p = Ok Dir.
Proof. unfold is_dir. destruct (fs_stat fs p) as [[]|]; naive_solver. Qed.
Lemma read_bytes_Ok fs p b : read_bytes fs p = Ok b ↔ fs_stat fs p = Ok (File b).
Proof.
  unfold read_bytes. rewrite res_bind_Ok. split; [|eauto].
  intros ([| |] & ? & ?); by simplify_eq/=.
Qed.
Lemma is_file_read fs p : is_file fs p = true ↔ ∃ b, read_bytes fs p = Ok b.
Proof.
  setoid_rewrite read_bytes_Ok. unfold is_file. destruct (fs_stat fs p) as [[]|]; naive_solver.
Qed.
Lemma grows_read fs fs' p b : grows fs fs' → read_bytes fs p = Ok b → read_bytes fs' p = Ok b.
Proof. rewrite !read_bytes_Ok. apply grows_stat. Qed.

(** * Directories *)

Lemma os_mkdir_grows dir name fs r fs' : os_mkdir dir name fs = (r, fs') → grows fs fs'.
Proof.
  unfold os_mkdir. intros H. repeat case_in H; simplify_eq; try reflexivity.
  intros k. destruct (decide (k = (a ++ [name])%list)) as [->|Hk]; [|left; by rewrite lookup_insert_ne].
  right. rewrite lookup_insert_eq. split; [|done]. by destruct a.
Qed.

Lemma mkdir_rev_grows rp fs r fs' : mkdir_rev rp fs = (r, fs') → grows fs fs'.
Proof.
  revert fs r fs'. induction rp as [|name rp IH]; intros fs r fs' H; cbn [mkdir_rev] in H.
  - by destruct (is_dir _ _); simplify_eq.
  - destruct (is_dir fs _); [by simplify_eq|].
    destruct (mkdir_rev rp fs) as [[u|e] fs1] eqn:E; [|simplify_eq; by eapply IH].
    transitivity fs1; [by eapply IH|].
    destruct (is_dir fs1 _); [by simplify_eq|by eapply os_mkdir_grows].
Qed.

Lemma mkdir_parents_grows p fs r fs' : mkdir_parents p fs = (r, fs') → grows fs fs'.
Proof. apply mkdir_rev_grows. Qed.

(** * Writing a file *)

Lemma write_bytes_cases p data fs :
  (∃ e, write_bytes p data fs = (Raise e, fs)) ∨
  (∃ q, fs_locate fs p = Ok q ∧ node_at fs q ≠ Some Dir ∧ node_at fs (parent q) = Some Dir ∧
     write_bytes p data fs = (Ok tt, <[q := File data]> fs)).
Proof.
  unfold write_bytes. destruct (fs_locate fs p) as [q|e] eqn:E; [|left; eauto].
  destruct (node_at fs q) as [[]|] eqn:En, (node_at fs (parent q)) as [[]|] eqn:Ep;
    first [by left; eexists | right; exists q; naive_solver].
Qed.

(** * Well-formed file systems: what contains a node is a directory. *)

Definition fs_wf (fs : Fs) : Prop :=
  ∀ k, is_Some (node_at fs k) → node_at fs (parent k) = Some Dir.

Lemma parent_snoc (p : path) c : parent (p ++ [c])%list = p.
Proof. unfold parent. by rewrite removelast_last. Qed.

(** Resolution ends at a node that is not a link. *)
Lemma walk_no_link fs fuel acc rest q :
  fs_wf fs → (∀ a t, node_at fs acc ≠ Some (Link a t)) →
  walk fuel fs acc rest = Ok q → ∀ a t, node_at fs q ≠ Some (Link a t).
Proof.
  intros Hwf. revert fuel acc rest.
  apply (resolution_ind (λ fuel acc rest, (∀ a t, node_at fs acc ≠ Some (Link a t)) →
    walk fuel fs acc rest = Ok q → ∀ a t, node_at fs q ≠ Some (Link a t))).
  { intros fuel acc Hacc. rewrite walk_nil. by intros [= <-]. }
  intros fuel acc c rest IH IHl Hacc. rewrite walk_cons.
  destruct (node_at fs acc) as [[]|] eqn:Ea; try done.
  case_bool_decide; [apply IH; intros a t Hx|].
  { pose proof (Hwf acc) as Hp. rewrite Ea in Hp. unfold parent in Hp. rewrite Hp in Hx by eauto. done. }
  destruct (node_at fs (acc ++ [c])%list) as [[b| |a t]|] eqn:E; try (apply IH; intros; congruence).
  destruct fuel; [done|]. apply IHl; [done|]. destruct a; intros; [done|congruence].
Qed.

Lemma locate_no_link fs p q a t : fs_wf fs → fs_locate fs p = Ok q → node_at fs q ≠ Some (Link a t).
Proof. intros Hwf [_ H]%fs_locate_Ok. revert a t. by eapply (walk_no_link _ _ []). Qed.

(** Writing a regular file keeps every resolution that succeeded. *)
Lemma node_at_insert fs q n k :
  q ≠ [] → node_at (<[q := n]> fs) k = if decide (k = q) then Some n else node_at fs k.
Proof.
  intros Hq. destruct k as [|c k]; [by rewrite decide_False by congruence|]. cbn [node_at].
  destruct (decide (c :: k = q)) as [<-|]; [by rewrite lookup_insert_eq|by rewrite lookup_insert_ne].
Qed.

Lemma locate_insert_file fs q data p r :
  node_at fs q ≠ Some Dir → (∀ a t, node_at fs q ≠ Some (Link a t)) →
  fs_locate fs p = Ok r → fs_locate (<[q := File data]> fs) p = Ok r.
Proof.
  intros Hd Hl. rewrite !fs_locate_Ok. intros [? H]. split; [done|].
  assert (q ≠ []) as Hq by (by intros ->).
  eapply walk_stable; [..|done]; intros; rewrite node_at_insert by done; case_decide; subst; naive_solver.
Qed.

(** A file that was written is read back, and the files at other places are
    untouched. *)
Lemma write_read p data fs fs' :
  fs_wf fs → write_bytes p data fs = (Ok tt, fs') → read_bytes fs' p = Ok data.
Proof.
  intros Hwf H. destruct (write_bytes_cases p data fs) as [[e E]|(q & Hq & Hd & _ & E)]; rewrite E in H; [done|].
  simplify_eq. apply read_bytes_Ok, fs_stat_Ok. exists q. assert (q ≠ []) by (by intros ->).
  rewrite node_at_insert, decide_True by done. split; [|done].
  apply locate_insert_file; [done| |done]. intros a t. by eapply locate_no_link.
Qed.

Lemma write_read_other p data fs r fs' p' b :
  fs_wf fs → write_bytes p data fs = (r, fs') →
  fs_locate fs p' ≠ fs_locate fs p → read_bytes fs p' = Ok b → read_bytes fs' p' = Ok b.
Proof.
  intros Hwf H Hne. destruct (write_bytes_cases p data fs) as [[e E]|(q & Hq & Hd & _ & E)];
    rewrite E in H; simplify_eq; [done|].
  rewrite !read_bytes_Ok, !fs_stat_Ok. intros (q' & Hq' & Hn). exists q'. assert (q ≠ []) by (by intros ->).
  rewrite node_at_insert, decide_False by congruence. split; [|done].
  apply locate_insert_file; [done| |done]. intros a t. by eapply locate_no_link.
Qed.

Lemma write_bytes_wf p data fs r fs' : fs_wf fs → write_bytes p data fs = (r, fs') → fs_wf fs'.
Proof.
  intros Hwf H. destruct (write_bytes_cases p data fs) as [[e E]|(q & Hq & Hd & Hp & E)];
    rewrite E in H; simplify_eq; [done|]. assert (q ≠ []) by (by intros ->).
  intros k. rewrite !node_at_insert by done. destruct (decide (k = q)) as [->|].
  - intros _. case_decide as Hk; [|done]. congruence.
  - intros Hk%Hwf. case_decide as Hk'; congruence.
Qed.

Lemma os_mkdir_wf dir name fs r fs' : fs_wf fs → os_mkdir dir name fs = (r, fs') → fs_wf fs'.
Proof.
  unfold os_mkdir. intros Hwf H. repeat case_in H; simplify_eq; try done.
  intros k. rewrite !node_at_insert by (by destruct a). destruct (decide (k = (a ++ [name])%list)) as [->|].
  - intros _. rewrite parent_snoc. case_decide; [done|]. done.
  - intros Hk%Hwf. by case_decide.
Qed.

Lemma mkdir_parents_wf p fs r fs' : fs_wf fs → mkdir_parents p fs = (r, fs') → fs_wf fs'.
Proof.
  unfold mkdir_parents. generalize (rev p). intros rp. revert fs r fs'.
  induction rp as [|name rp IH]; intros fs r fs' Hwf H; cbn [mkdir_rev] in H.
  - by destruct (is_dir _ _); simplify_eq.
  - destruct (is_dir fs _); [by simplify_eq|].
    destruct (mkdir_rev rp fs) as [[u|e] fs1] eqn:E; [|simplify_eq; by eapply IH].
    destruct (is_dir fs1 _); [simplify_eq; by eapply IH|].
    eapply os_mkdir_wf; [|done]. by eapply IH.
Qed.

(** * The entries of a directory *)

Lemma walk_app_inv fs fuel acc p c r :
  walk fuel fs acc (p ++ [c]) = Ok r →
  ∃ q, walk fuel fs acc p = Ok q ∧ node_at fs q = Some Dir.
Proof.
  revert fuel acc p. apply (resolution_ind (λ fuel acc p,
    walk fuel fs acc (p ++ [c])%list = Ok r → ∃ q, walk fuel fs acc p = Ok q ∧ node_at fs q = Some Dir)).
  - intros fuel acc. simpl. rewrite walk_cons, !walk_nil.
    destruct (node_at fs acc) as [[]|] eqn:E; try done. intros _. by exists acc.
  - intros fuel acc d p IH IHl. simpl. rewrite !walk_cons.
    destruct (node_at fs acc) as [[]|] eqn:E; try done.
    case_bool_decide; [apply IH|].
    destruct (node_at fs (acc ++ [d])%list) as [[b| |a t]|]; try apply IH.
    destruct fuel; [done|]. rewrite app_assoc. by apply IHl.
Qed.

Lemma walk_snoc fs fuel acc p c q :
  walk fuel fs acc p = Ok q → node_at fs q = Some Dir → c ≠ ".." →
  (∀ a t, node_at fs (q ++ [c])%list ≠ Some (Link a t)) →
  walk fuel fs acc (p ++ [c]) = Ok (q ++ [c])%list.
Proof.
  intros Hw Hd Hc Hl. revert fuel acc p Hw. apply (resolution_ind (λ fuel acc p,
    walk fuel fs acc p = Ok q → walk fuel fs acc (p ++ [c])%list = Ok (q ++ [c])%list)).
  - intros fuel acc. rewrite walk_nil. intros [= ->]. simpl.
    rewrite walk_cons, Hd, bool_decide_false by done.
    destruct (node_at fs (q ++ [c])%list) as [[b| |a t]|] eqn:E; rewrite ?walk_nil; [done..| |done].
    by destruct (Hl a t).
  - intros fuel acc d p IH IHl. simpl. rewrite !walk_cons.
    destruct (node_at fs acc) as [[]|] eqn:E; try done.
    case_bool_decide; [apply IH|].
    destruct (node_at fs (acc ++ [d])%list) as [[b| |a t]|]; try apply IH.
    destruct fuel; [done|]. rewrite app_assoc. by apply IHl.
Qed.

Lemma path_ok_app p p' : path_ok (p ++ p') = path_ok p && path_ok p'.
Proof. apply forallb_app. Qed.

(** The directory [p] holds no symbolic link. *)
Definition plain_dir (fs : Fs) (p : path) : Prop :=
  ∀ q name a t, fs_locate fs p = Ok q → node_at fs (q ++ [name])%list ≠ Some (Link a t).

(** In such a directory, distinct names are distinct files. *)
Lemma plain_dir_locate fs p c r :
  plain_dir fs p → c ≠ ".." → fs_locate fs (p ++ [c]) = Ok r →
  ∃ q, fs_locate fs p = Ok q ∧ r = (q ++ [c])%list.
Proof.
  intros Hp Hc [Hok Hw]%fs_locate_Ok. rewrite path_ok_app in Hok. apply andb_true_iff in Hok as [Hok ?].
  destruct (walk_app_inv _ _ _ _ _ _ Hw) as (q & Hq & Hd). exists q.
  assert (Hl : fs_locate fs p = Ok q) by (by apply fs_locate_Ok). split; [done|].
  rewrite (walk_snoc _ _ _ _ c q Hq Hd Hc) in Hw by (by intros; eapply Hp). congruence.
Qed.

Lemma plain_dir_grows fs fs' p q :
  grows fs fs' → fs_locate fs p = Ok q → plain_dir fs p → plain_dir fs' p.
Proof.
  intros Hg Hq Hp q' name a t Hq' Hn. pose proof (grows_locate _ _ _ _ Hg Hq) as Hq2.
  rewrite Hq2 in Hq'. injection Hq' as ->.
  exact (Hp _ _ _ _ Hq (proj1 (grows_link _ _ _ a t Hg) Hn)).
Qed.

(** * Link-free paths

    A resolved path goes through no link and has no [".."] left; resolving it
    again gives itself. *)

Definition clean (fs : Fs) (p : path) : Prop :=
  Forall (λ c, c ≠ "..") p ∧ ∀ k a t, k `prefix_of` p → node_at fs k ≠ Some (Link a t).

Lemma clean_nil fs : clean fs [].
Proof. split; [constructor|]. by intros k a t ->%prefix_nil_inv. Qed.
Lemma clean_prefix fs p q : q `prefix_of` p → clean fs p → clean fs q.
Proof.
  intros [r ->] [Hd Hl]. apply Forall_app in Hd as [? _]. split; [done|].
  intros k a t Hk. apply Hl. by apply prefix_app_r.
Qed.
Lemma prefix_snoc_inv (k p : path) c : k `prefix_of` (p ++ [c]) → k `prefix_of` p ∨ k = (p ++ [c])%list.
Proof.
  intros [r E]. destruct r as [|d r _] using rev_ind; [right; by rewrite app_nil_r in E|left].
  rewrite app_assoc in E. apply app_inj_tail in E as [-> _]. by exists r.
Qed.
Lemma clean_snoc fs p c :
  clean fs p → c ≠ ".." → (∀ a t, node_at fs (p ++ [c])%list ≠ Some (Link a t)) → clean fs (p ++ [c])%list.
Proof.
  intros [Hd Hl] Hc Hn. split; [apply Forall_app; by repeat constructor|].
  intros k a t [Hk| ->]%prefix_snoc_inv; auto.
Qed.
Lemma removelast_prefix (p : path) : removelast p `prefix_of` p.
Proof.
  destruct p as [|c p _] using rev_ind; [done|]. rewrite removelast_last. by exists [c].
Qed.

(** What [resolve] returns is link-free. *)
Lemma realpath_clean fs fuel acc rest q :
  clean fs acc → realpath fuel fs acc rest = Some q → clean fs q.
Proof.
  revert fuel acc rest.
  apply (resolution_ind (λ fuel acc rest, clean fs acc → realpath fuel fs acc rest = Some q → clean fs q)).
  { intros fuel acc Hacc. rewrite realpath_nil. by intros [= <-]. }
  intros fuel acc c rest IH IHl Hacc. rewrite realpath_cons. case_bool_decide as Hc.
  { apply IH. eapply clean_prefix; [apply removelast_prefix|done]. }
  destruct (node_at fs (acc ++ [c])%list) as [[b| |a t]|] eqn:E;
    try (apply IH, clean_snoc; [done..|]; intros a' t'; rewrite E; done).
  destruct fuel; [done|]. apply IHl; [done|]. destruct a; [apply clean_nil|done].
Qed.

Lemma resolve_clean fs p q : resolve fs p = Ok q → clean fs q.
Proof.
  unfold resolve. intros (u & _ & H)%res_bind_Ok. destruct (realpath _ _ _ _) eqn:E; simplify_eq.
  eapply realpath_clean; [apply clean_nil|done].
Qed.

Lemma walk_clean fs fuel acc rest q :
  clean fs (acc ++ rest) → walk fuel fs acc rest = Ok q → q = (acc ++ rest)%list.
Proof.
  revert acc. induction rest as [|c rest IH]; intros acc Hcl.
  { rewrite walk_nil, app_nil_r. by intros [= <-]. }
  rewrite walk_cons. destruct (node_at fs acc) as [[]|]; try done.
  destruct Hcl as [Hd Hl]. pose proof Hd as Hd'. rewrite Forall_app, Forall_cons in Hd'. destruct Hd' as (_ & Hc & _).
  rewrite bool_decide_false by done.
  assert (Hcl : clean fs ((acc ++ [c]) ++ rest)) by (by rewrite <-app_assoc).
  destruct (node_at fs (acc ++ [c])%list) as [[b| |a t]|] eqn:E.
  3: { exfalso. apply (Hl (acc ++ [c])%list a t); [|done]. exists rest. by rewrite <-app_assoc. }
  all: intros H; apply IH in H; [|done]; by rewrite H, <-app_assoc.
Qed.
Lemma locate_clean fs p q : clean fs p → fs_locate fs p = Ok q → q = p.
Proof. intros Hc [_ H]%fs_locate_Ok. by apply walk_clean in H. Qed.

Lemma clean_grows fs fs' p : grows fs fs' → clean fs p → clean fs' p.
Proof. intros Hg [? Hl]. split; [done|]. intros k a t Hk Hn%(grows_link _ _ _ _ _ Hg). by eapply Hl. Qed.

(** Creating a link-free directory adds directories on its path only. *)
Lemma mkdir_rev_frame rp fs r fs' k :
  clean fs (rev rp) → mkdir_rev rp fs = (r, fs') → fs' !! k = fs !! k ∨ (k `prefix_of` rev rp ∧ fs !! k = None).
Proof.
  revert fs r fs'. induction rp as [|name rp IH]; intros fs r fs' Hc H; cbn [mkdir_rev] in H.
  - left. by destruct (is_dir _ _); simplify_eq.
  - destruct (is_dir fs _); [left; by simplify_eq|]. cbn [rev] in Hc |- *.
    assert (Hc' : clean fs (rev rp)) by (eapply clean_prefix; [by exists [name]|done]).
    destruct (mkdir_rev rp fs) as [[u|e] fs1] eqn:E.
    2: { simplify_eq. destruct (IH _ _ _ Hc' E) as [?|[? ?]]; [by left|right]. split; [|done]. by apply prefix_app_r. }
    assert (Hfs1 : fs1 !! k = fs !! k ∨ (k `prefix_of` rev rp ++ [name] ∧ fs !! k = None)).
    { destruct (IH _ _ _ Hc' E) as [?|[? ?]]; [by left|right]. split; [|done]. by apply prefix_app_r. }
    destruct (is_dir fs1 _); [by simplify_eq|].
    unfold os_mkdir in H. repeat case_in H; simplify_eq; try done.
    match goal with Hl : fs_locate fs1 _ = Ok ?q |- _ =>
      apply locate_clean in Hl; [|by eapply clean_grows; [eapply mkdir_rev_grows|]]; subst q end.
    destruct (decide (k = rev rp ++ [name])%list) as [->|Hk]; [|by rewrite lookup_insert_ne].
    right. split; [done|]. destruct Hfs1 as [Hk'|[_ ?]]; [|done]. rewrite <-Hk'.
    match goal with Hn : node_at fs1 (rev rp ++ [name])%list = None |- _ => revert Hn end.
    by destruct (rev rp).
Qed.

Lemma mkdir_parents_frame p fs r fs' k :
  clean fs p → mkdir_parents p fs = (r, fs') → fs' !! k = fs !! k ∨ (k `prefix_of` p ∧ fs !! k = None).
Proof.
  unfold mkdir_parents. intros Hc H. rewrite <-(rev_involutive p) in Hc |- * at 1.
  eapply mkdir_rev_frame; [|exact H]. done.
Qed.

(** In a well-formed file system, what is above a node is a directory. *)
Lemma wf_prefix_dir fs p k : fs_wf fs → is_Some (node_at fs p) → k `prefix_of` p → k ≠ p → node_at fs k = Some Dir.
Proof.
  intros Hwf. induction p as [|c p IH] using rev_ind; intros Hs Hk Hne.
  - by apply prefix_nil_inv in Hk.
  - pose proof (Hwf _ Hs) as Hp. rewrite parent_snoc in Hp. apply prefix_snoc_inv in Hk as [Hk|?]; [|done].
    destruct (decide (k = p)) as [->|]; [done|]. apply IH; [by rewrite Hp|done|done].
Qed.

(** A test for well-formedness, for concrete file systems. *)
Definition fs_wfb (fs : Fs) : bool :=
  forallb (λ kn : path * node, bool_decide (node_at fs (parent kn.1) = Some Dir)) (map_to_list fs).
Lemma fs_wfb_ok fs : fs_wfb fs = true → fs_wf fs.
Proof.
  unfold fs_wfb. intros H%Is_true_true k [n Hn]. rewrite forallb_True, Forall_forall in H.
  destruct k as [|c k]; [done|]. simpl in Hn. apply (elem_of_map_to_list (M := gmap (list string))) in Hn. apply H in Hn.
  by apply bool_decide_spec in Hn.
Qed.

(** A test for the absence of symbolic links. *)
Definition no_linksb (fs : Fs) : bool :=
  forallb (λ kn : path * node, match kn.2 with Link _ _ => false | _ => true end) (map_to_list fs).
Lemma no_links_at fs k a t : no_linksb fs = true → node_at fs k ≠ Some (Link a t).
Proof.
  unfold no_linksb. intros H%Is_true_true. rewrite forallb_True, Forall_forall in H.
  destruct k as [|c k]; [done|]. simpl. intros Hn.
  apply (elem_of_map_to_list (M := gmap (list string))) in Hn. by apply H in Hn.
Qed.
Lemma no_links_plain fs p : no_linksb fs = true → plain_dir fs p.
Proof. intros H q name a t _. by apply no_links_at. Qed.

(** A file system with the directories [/work] and [/work/store]. *)
Definition demo_fs : Fs := list_to_map [(["work"], Dir); (["work"; "store"], Dir)].
Lemma demo_fs_wf : fs_wf demo_fs.
Proof. apply fs_wfb_ok. vm_compute. reflexivity. Qed.
