(* ===== verification/RunRegistry.v ===== *)
(** [sdlc/runner/registry.py]: the ephemeral run registry.  The runs are in the
    world ([w_runs]); the secret is fixed when the registry is made. *)

From S2P Require Export Capability World.
#[local] Open Scope Z_scope.

Definition DEFAULT_TTL_SECONDS : Z := 300.

Section registry.
  Context `{Env} (secret : bytes).

Definition start (actor : dict) (run_id : option pystr) : ST World Run :=
  run_id ← match run_id with
           | Some r => if r ≟ "" then (λ u, "RUN-" +:+ u) <$> uuid_hex else mret r
           | None => (λ u, "RUN-" +:+ u) <$> uuid_hex
           end;
  created_at ← now_seconds;
  let run := mkRun run_id actor created_at false in
  _ ← modifyS (λ w, set_runs (<[run_run_id run := run]> (w_runs w)) w);
  mret run.

Definition get_run (run_id : pystr) : ST World (option Run) :=
  w ← getS; mret (w_runs w !! run_id).

Definition finish (run_id : pystr) : ST World unit :=
  run ← get_run run_id;
  match run with
  | None => raiseS RunUnknownError run_id
  | Some r =>
      modifyS (λ w, set_runs
        (<[run_id := mkRun (run_run_id r) (run_actor r) (run_created_at r) true]> (w_runs w)) w)
  end.

Definition or_now (now : option Z) : ST World Z :=
  match now with Some n => mret n | None => now_seconds end.

Definition issue (run_id tool scope : pystr) (ttl_seconds : Z) (now : option Z) : ST World pystr :=
  run ← get_run run_id;
  match run with
  | Some (mkRun _ _ _ false) =>
      issued_at ← or_now now;
      lift (issue_token secret (mkCapability run_id tool scope (issued_at + ttl_seconds)))
  | _ => raiseS RunUnknownError run_id
  end.

Definition _reject (capability : Capability) (reason : string) : CapabilityCheck :=
  mkCapabilityCheck false reason (Some (cap_run_id capability)) (Some (cap_tool capability))
    (Some (cap_scope capability)).

Definition check (token tool scope : pystr) (now : option Z) : ST World CapabilityCheck :=
  decoded ← lift (decode_token secret token);
  match dec_capability decoded with
  | None =>
      let error := match dec_error decoded with
                   | Some e => if e ≟ "" then REASON_RUN_UNKNOWN else e
                   | None => REASON_RUN_UNKNOWN
                   end in
      mret (mkCapabilityCheck false error None None None)
  | Some capability =>
      run ← get_run (cap_run_id capability);
      match run with
      | None => mret (_reject capability REASON_RUN_UNKNOWN)
      | Some run =>
          if run_finished run then mret (_reject capability REASON_RUN_FINISHED) else
          current ← or_now now;
          if cap_expires_at capability <? current then
            mret (_reject capability REASON_CAPABILITY_EXPIRED)
          else if negb (cap_tool capability ≟ tool) then mret (_reject capability REASON_TOOL_MISMATCH)
          else if negb (cap_scope capability ≟ scope) then
            mret (_reject capability REASON_SCOPE_MISMATCH)
          else mret (mkCapabilityCheck true CAPABILITY_VALID (Some (cap_run_id capability))
                 (Some (cap_tool capability)) (Some (cap_scope capability)))
      end
  end.

End registry.

(** * The registry as a state machine

    The operations other components may call, as steps on the world. *)

Section steps.
  Context `{Env} (secret : bytes).

(** A step is labelled with the run it registers, if it registers one. *)
Inductive registry_step : option pystr → World → World → Prop :=
  | step_start actor run_id run w w' :
      start actor run_id w = (Ok run, w') → registry_step (Some (run_run_id run)) w w'
  | step_finish run_id w : registry_step None w (finish run_id w).2
  | step_issue run_id tool scope ttl now w :
      registry_step None w (issue secret run_id tool scope ttl now w).2
  | step_check token tool scope now w :
      registry_step None w (check secret token tool scope now w).2.

Definition any_step (w w' : World) : Prop := ∃ l, registry_step l w w'.
(** A step that does not register [run_id]. *)
Definition step_but (run_id : pystr) (w w' : World) : Prop :=
  ∃ l, registry_step l w w' ∧ l ≠ Some run_id.

(** Every run is stored under its own identifier, which is not empty. *)
Definition registry_ok (w : World) : Prop :=
  ∀ k r, w_runs w !! k = Some r → run_run_id r = k ∧ k ≠ "".

(** A run that can still act. *)
Definition live (w : World) (run_id : pystr) : Prop :=
  ∃ r, w_runs w !! run_id = Some r ∧ run_finished r = false.
End steps.

(** * Helper lemmas *)

Section facts.
  Context `{Env} (secret : bytes).

Lemma start_eq actor run_id w :
  ∃ run, start actor run_id w = (Ok run, (start actor run_id w).2) ∧
    run_actor run = actor ∧ run_finished run = false ∧ run_run_id run ≠ "" ∧
    (∀ r, run_id = Some r → r ≠ "" → run_run_id run = r) ∧
    w_runs (start actor run_id w).2 = <[run_run_id run := run]> (w_runs w) ∧
    w_fs (start actor run_id w).2 = w_fs w ∧ w_log (start actor run_id w).2 = w_log w.
Proof.
  unfold start. destruct run_id as [r|]; [case_bool_decide|]; eexists; split_and!;
    try reflexivity; try (by rewrite ?app_str_cons); try (intros; simplify_eq/=; done).
Qed.

Lemma get_run_eq run_id w : get_run run_id w = (Ok (w_runs w !! run_id), w).
Proof. done. Qed.
Hint Rewrite get_run_eq : py.

Lemma finish_eq run_id w :
  finish run_id w =
    match w_runs w !! run_id with
    | None => (raise RunUnknownError run_id, w)
    | Some r => (Ok tt, set_runs
        (<[run_id := mkRun (run_run_id r) (run_actor r) (run_created_at r) true]> (w_runs w)) w)
    end.
Proof.
  unfold finish. autorewrite with py.
  by destruct (w_runs w !! run_id).
Qed.

(** The moment a check or an issue refers to: the one given, or the clock's. *)
Definition moment (now : option Z) (w : World) : Z := default (env_clock (w_tick w)) now.

Lemma or_now_at now w : ∃ k, or_now now w = (Ok (moment now w), set_tick k w).
Proof. destruct now as [m|]; [exists (w_tick w); by destruct w|by eexists]. Qed.

Lemma or_now_eq now w : ∃ n k, or_now now w = (Ok n, set_tick k w) ∧ ∀ m, now = Some m → n = m.
Proof. destruct (or_now_at now w) as [k E]. exists (moment now w), k. split; [done|by intros m ->]. Qed.

Lemma issue_eq run_id tool scope ttl now w :
  issue secret run_id tool scope ttl now w =
    match w_runs w !! run_id with
    | Some (mkRun _ _ _ false) =>
        let '(n, w') := or_now now w in
        match n with
        | Ok n => (issue_token secret (mkCapability run_id tool scope (n + ttl)), w')
        | Raise e => (Raise e, w')
        end
    | _ => (raise RunUnknownError run_id, w)
    end.
Proof.
  unfold issue. autorewrite with py.
  by destruct (w_runs w !! run_id) as [[? ? ? []]|].
Qed.

(** Issuing and checking only advance the clock. *)
Lemma issue_world run_id tool scope ttl now w :
  ∃ k, (issue secret run_id tool scope ttl now w).2 = set_tick k w.
Proof.
  rewrite issue_eq. destruct (or_now_eq now w) as (n & k & -> & _).
  destruct (w_runs w !! run_id) as [[? ? ? []]|]; try (by exists k); exists (w_tick w); by destruct w.
Qed.

(** [check], with the order of its tests written as one conditional. *)
Definition check_result (w : World) (tool scope : pystr) (now : Z) (d : DecodeResult) : CapabilityCheck :=
  match dec_capability d with
  | None => mkCapabilityCheck false (default REASON_RUN_UNKNOWN (dec_error d)) None None None
  | Some c =>
      let reject := _reject c in
      match w_runs w !! cap_run_id c with
      | None => reject REASON_RUN_UNKNOWN
      | Some run =>
          if run_finished run then reject REASON_RUN_FINISHED
          else if cap_expires_at c <? now then reject REASON_CAPABILITY_EXPIRED
          else if negb (cap_tool c ≟ tool) then reject REASON_TOOL_MISMATCH
          else if negb (cap_scope c ≟ scope) then reject REASON_SCOPE_MISMATCH
          else mkCapabilityCheck true CAPABILITY_VALID (Some (cap_run_id c)) (Some (cap_tool c))
                 (Some (cap_scope c))
      end
  end.

Lemma decode_error_nonempty token r :
  decode_token secret token = Ok r → dec_capability r = None →
  ∃ e, dec_error r = Some e ∧ e ≠ "".
Proof.
  destruct (decode_token_cases secret token) as [(p & g & Hs & Hp & Hg)| ->]; [|intros [= <-]; eauto].
  destruct (is_ascii p && is_ascii g) eqn:Ha.
  2: { by destruct (decode_token_non_ascii secret _ _ _ Hs Hp Hg Ha) as [e ->]. }
  apply andb_true_iff in Ha as [Hap Hag]. rewrite (decode_token_parts _ _ _ _ Hs Hp Hg Hap Hag).
  case_bool_decide; [|intros [= <-]; eauto].
  destruct (raw ← _b64decode p; loads_bytes raw) as [v|e] eqn:E.
  - intros [= <-]. destruct (decode_claims_error v) as [[c ->]| ->]; [done|eauto].
  - rewrite (decode_payload_error _ _ Hap E). intros [= <-]. eauto.
Qed.

Lemma check_at token tool scope now w :
  ∃ k, check secret token tool scope now w =
    match decode_token secret token with
    | Ok d => (Ok (check_result w tool scope (moment now w) d), set_tick k w)
    | Raise e => (Raise e, w)
    end.
Proof.
  destruct (or_now_at now w) as [k En]. unfold check. autorewrite with py.
  destruct (decode_token secret token) as [d|e] eqn:Ed; [|by exists k].
  unfold check_result. destruct (dec_capability d) as [c|] eqn:Ec.
  2: { exists (w_tick w). destruct (decode_error_nonempty _ _ Ed Ec) as (e & -> & He).
    rewrite bool_decide_false by done. by destruct w. }
  autorewrite with py.
  destruct (w_runs w !! cap_run_id c) as [run|] eqn:Er.
  2: { exists (w_tick w). by destruct w. }
  destruct (run_finished run); [exists (w_tick w); by destruct w|].
  exists k. rewrite ST_bind_eq, En. by repeat case_match.
Qed.

Lemma check_eq token tool scope now w :
  ∃ n k, (∀ m, now = Some m → n = m) ∧
    check secret token tool scope now w =
      match decode_token secret token with
      | Ok d => (Ok (check_result w tool scope n d), set_tick k w)
      | Raise e => (Raise e, w)
      end.
Proof. destruct (check_at token tool scope now w) as [k E]. exists (moment now w), k. split; [by intros m ->|done]. Qed.

Lemma check_runs token tool scope now w :
  w_runs (check secret token tool scope now w).2 = w_runs w.
Proof.
  destruct (check_eq token tool scope now w) as (n & k & _ & ->).
  by destruct (decode_token secret token).
Qed.

Lemma issue_runs run_id tool scope ttl now w :
  w_runs (issue secret run_id tool scope ttl now w).2 = w_runs w.
Proof. by destruct (issue_world run_id tool scope ttl now w) as [k ->]. Qed.

Lemma check_result_valid w tool scope now d :
  chk_valid (check_result w tool scope now d) = true ↔
  ∃ c, dec_capability d = Some c ∧ live w (cap_run_id c) ∧ now ≤ cap_expires_at c ∧
    cap_tool c = tool ∧ cap_scope c = scope.
Proof.
  unfold check_result, live. destruct (dec_capability d) as [c|]; [|split; [done|by intros (? & ? & _)]].
  destruct (w_runs w !! cap_run_id c) as [r|] eqn:Er; cbn [chk_valid _reject].
  2: { split; [done|]. intros (? & [= <-] & (r & Hr & _) & _). congruence. }
  destruct (run_finished r) eqn:Ef; cbn [chk_valid _reject].
  { split; [done|]. intros (? & [= <-] & (r' & Hr & ?) & _). congruence. }
  destruct (Z.ltb_spec (cap_expires_at c) now); cbn [chk_valid _reject].
  { split; [done|]. intros (? & [= <-] & _ & ? & _). lia. }
  do 2 (case_bool_decide; cbn [negb chk_valid _reject];
    [|split; [done|]; intros (? & [= <-] & ?); naive_solver]).
  split; [|done]. intros _. exists c. eauto 10.
Qed.

(** The three ways a run's entry changes in a step. *)
Lemma step_runs l w w' :
  registry_step secret l w w' →
  (l = None ∧ w_runs w' = w_runs w) ∨
  (l = None ∧ ∃ k r, w_runs w !! k = Some r ∧
     w_runs w' = <[k := mkRun (run_run_id r) (run_actor r) (run_created_at r) true]> (w_runs w)) ∨
  (∃ r, l = Some (run_run_id r) ∧ run_run_id r ≠ "" ∧ run_finished r = false ∧
     w_runs w' = <[run_run_id r := r]> (w_runs w)).
Proof.
  destruct 1 as [actor run_id run w w' Hs|run_id w|run_id tool scope ttl now w|token tool scope now w].
  - right; right. destruct (start_eq actor run_id w) as (run' & E & _ & Hf & Hne & _ & Hr & _).
    rewrite Hs in E, Hr. injection E as <-. by exists run.
  - rewrite finish_eq. destruct (w_runs w !! run_id) as [r|] eqn:Er; [|by left].
    right; left. split; [done|]. by exists run_id, r.
  - left. by rewrite issue_runs.
  - left. by rewrite check_runs.
Qed.

Lemma step_but_finished run_id w w' :
  step_but secret run_id w w' →
  (∃ r, w_runs w !! run_id = Some r ∧ run_finished r = true) →
  ∃ r, w_runs w' !! run_id = Some r ∧ run_finished r = true.
Proof.
  intros (l & Hs & Hl) (r & Hr & Hf).
  destruct (step_runs _ _ _ Hs) as [[_ ->]|[(_ & k & r' & Hk & ->)|(r' & -> & _ & _ & ->)]]; [eauto| |].
  - destruct (decide (k = run_id)) as [->|]; [rewrite lookup_insert_eq; eauto|].
    rewrite lookup_insert_ne by done. eauto.
  - rewrite lookup_insert_ne by congruence. eauto.
Qed.
Lemma check_frame token tool scope now w :
  let w' := (check secret token tool scope now w).2 in
  w_fs w' = w_fs w ∧ w_runs w' = w_runs w ∧ w_log w' = w_log w.
Proof.
  destruct (check_eq token tool scope now w) as (n & k & _ & ->).
  by destruct (decode_token secret token).
Qed.

(** A check that succeeds vouches for a live, unexpired capability of the tool
    and scope. *)
Lemma check_valid_live token tool scope now w chk w' :
  check secret token tool scope now w = (Ok chk, w') → chk_valid chk = true →
  ∃ cap, decode_token secret token = Ok (mkDecodeResult (Some cap) None) ∧ live w (cap_run_id cap) ∧
    moment now w ≤ cap_expires_at cap ∧
    cap_tool cap = tool ∧ cap_scope cap = scope ∧ w_fs w' = w_fs w ∧ w_runs w' = w_runs w.
Proof.
  intros Hchk Hvalid. pose proof (check_frame token tool scope now w) as (Hfs & Hruns & _). rewrite Hchk in Hfs, Hruns.
  destruct (check_at token tool scope now w) as [k E]. rewrite Hchk in E.
  destruct (decode_token secret token) as [d|] eqn:Ed; [|done].
  injection E as -> _. apply check_result_valid in Hvalid as (cap & Hcap & Hlive & ? & ? & ?).
  assert (d = mkDecodeResult (Some cap) None) as ->.
  { destruct d as [? err]. simpl in Hcap. subst. f_equal.
    by destruct (decode_token_capability secret _ cap err Ed). }
  by exists cap.
Qed.
End facts.

(** * Properties *)

Section properties.
  Context `{Env} (secret : bytes).

(** C5: a capability check accepts exactly when the token decodes, under the
    registry's secret, to a capability whose run is registered and not
    finished, whose expiry has not passed, and whose tool and scope are the
    requested ones; when it accepts it reports that capability, and checking
    changes neither the runs nor the files. *)
Theorem check_valid_iff token tool scope now w chk w' :
  check secret token tool scope (Some now) w = (Ok chk, w') →
  (chk_valid chk = true ↔
    ∃ c, decode_token secret token = Ok (mkDecodeResult (Some c) None) ∧
      live w (cap_run_id c) ∧ now ≤ cap_expires_at c ∧ cap_tool c = tool ∧ cap_scope c = scope ∧
      chk = mkCapabilityCheck true CAPABILITY_VALID (Some (cap_run_id c)) (Some tool) (Some scope)) ∧
  w_runs w' = w_runs w ∧ w_fs w' = w_fs w ∧ w_log w' = w_log w.
Proof.
  destruct (check_eq secret token tool scope (Some now) w) as (n & k & Hn & ->).
  rewrite (Hn now eq_refl). destruct (decode_token secret token) as [d|e] eqn:Ed; [|done].
  intros [= <- <-]. split; [|done]. rewrite check_result_valid. split; [|naive_solver].
  intros (c & Hc & Hl & He & Ht & Hs). exists c.
  assert (d = mkDecodeResult (Some c) None) as ->.
  { destruct d as [? err]. simpl in Hc. subst. f_equal.
    by destruct (decode_token_capability secret token c err Ed). }
  split; [done|]. do 4 (split; [done|]). unfold check_result. simpl.
  destruct Hl as (r & -> & ->). subst.
  destruct (Z.ltb_spec (cap_expires_at c) now); [lia|]. by rewrite !bool_decide_true.
Qed.

(** a token issued for a live run is accepted later, in any world, exactly as
    long as the run is live there and the time to live has not run out, and only
    for the tool and the scope it was issued for. *)
Theorem issue_then_check run_id tool scope ttl n w :
  ustr run_id → ustr tool → ustr scope → Z.abs (n + ttl) < 10 ^ 4300 → live w run_id →
  ∃ token, issue secret run_id tool scope ttl (Some n) w = (Ok token, w) ∧
    ∀ w2 tool' scope' m, ∃ chk w3,
      check secret token tool' scope' (Some m) w2 = (Ok chk, w3) ∧
      (chk_valid chk = true ↔ live w2 run_id ∧ m ≤ n + ttl ∧ tool' = tool ∧ scope' = scope).
Proof.
  intros Hr Ht Hs Hn (r & Hl & Hf).
  destruct (decode_issued secret (mkCapability run_id tool scope (n + ttl))) as (token & Hi & _ & Hd); [done|].
  exists token. split.
  - rewrite issue_eq, Hl. destruct r as [? ? ? b]. simpl in Hf. subst. simpl. by rewrite Hi.
  - intros w2 tool' scope' m.
    destruct (check_eq secret token tool' scope' (Some m) w2) as (m' & k & Hm & ->).
    rewrite (Hm m eq_refl), Hd. eexists _, _. split; [done|].
    rewrite check_result_valid. simpl. naive_solver.
Qed.

(** C32: finishing a run revokes its tokens: as long as no later operation
    registers a run under the same identifier, every token of the run that
    still decodes is rejected as [RUN_FINISHED], whatever else the registry
    does. *)
Theorem finish_revokes token c run_id w w1 w2 tool scope now :
  decode_token secret token = Ok (mkDecodeResult (Some c) None) → cap_run_id c = run_id →
  finish run_id w = (Ok tt, w1) → rtc (step_but secret run_id) w1 w2 →
  ∃ w3, check secret token tool scope (Some now) w2 =
    (Ok (mkCapabilityCheck false REASON_RUN_FINISHED (Some run_id) (Some (cap_tool c)) (Some (cap_scope c))), w3).
Proof.
  intros Hd Hc Hf Hrtc.
  assert (∃ r, w_runs w2 !! run_id = Some r ∧ run_finished r = true) as (r & Hr & Hfin).
  { assert (∃ r, w_runs w1 !! run_id = Some r ∧ run_finished r = true) as H1.
    { rewrite finish_eq in Hf. destruct (w_runs w !! run_id) as [r|]; simplify_eq/=.
      rewrite lookup_insert_eq. eauto. }
    clear Hf. induction Hrtc as [|x y z Hxy _ IH]; [done|]. by eapply IH, step_but_finished. }
  destruct (check_eq secret token tool scope (Some now) w2) as (m & k & _ & ->). rewrite Hd.
  eexists. unfold check_result. simpl. by rewrite Hc, Hr, Hfin; unfold _reject; rewrite Hc.
Qed.

(** the revocation is undone by starting a run under the identifier again:
    every unexpired token issued to the finished run is accepted once more. *)
Theorem restart_revives token c actor w now :
  decode_token secret token = Ok (mkDecodeResult (Some c) None) →
  cap_run_id c ≠ "" → now ≤ cap_expires_at c →
  ∃ run w1 w2, start actor (Some (cap_run_id c)) w = (Ok run, w1) ∧
    check secret token (cap_tool c) (cap_scope c) (Some now) w1 =
      (Ok (mkCapabilityCheck true CAPABILITY_VALID (Some (cap_run_id c)) (Some (cap_tool c)) (Some (cap_scope c))), w2).
Proof.
  intros Hd Hne He. destruct (start_eq actor (Some (cap_run_id c)) w) as (run & Hs & _ & Hf & _ & Hid & Hr & _).
  eexists run, _. destruct (check_eq secret token (cap_tool c) (cap_scope c) (Some now)
    (start actor (Some (cap_run_id c)) w).2) as (m & k & Hm & E). rewrite E, Hd, (Hm now eq_refl).
  eexists. split; [done|]. unfold check_result. simpl.
  rewrite Hr, (Hid _ eq_refl Hne), lookup_insert_eq, Hf.
  destruct (Z.ltb_spec (cap_expires_at c) now); [lia|]. by rewrite !bool_decide_true.
Qed.

(** whatever sequence of registry operations is run, every run stays stored
    under its own non-empty identifier, and no run is ever forgotten. *)
Theorem registry_invariant w w' :
  registry_ok w → rtc (any_step secret) w w' →
  registry_ok w' ∧ dom (w_runs w) ⊆ dom (w_runs w').
Proof.
  intros Hok Hrtc. induction Hrtc as [|x y z (l & Hs) _ IH]; [done|].
  assert (registry_ok y ∧ dom (w_runs x) ⊆ dom (w_runs y)) as [Hy Hsub].
  { destruct (step_runs _ _ _ _ Hs) as [[_ E]|[(_ & k & r & Hk & E)|(r & _ & Hne & _ & E)]];
      unfold registry_ok in *; rewrite E; [done|..]; (split; [|rewrite dom_insert_L; set_solver]);
      intros k' r'; rewrite lookup_insert_Some.
    - intros [[<- <-]|[_ ?]]; [by apply (Hok _ _ Hk)|by apply Hok].
    - intros [[<- <-]|[_ ?]]; [done|by apply Hok]. }
  destruct (IH Hy) as [? ?]. split; [done|]. by transitivity (dom (w_runs y)).
Qed.
End properties.

(** * Witnesses *)

Definition demo_run : Run := mkRun "R" [("id", VStr "a")] 1700000000 false.
Definition demo_world : World := set_runs {["R" := demo_run]} empty_world.
Definition demo_cap : Capability := mkCapability "R" "t" "s" 9.
Definition demo_token : pystr :=
  "v1.eyJleHAiOjksInJ1bl9pZCI6IlIiLCJzY29wZSI6InMiLCJ0b29sIjoidCJ9.TjWhVf_hkI9AZRCtmGGA2Iftl4YgsCItZ6EXohCiSmg".

Lemma demo_token_decodes : decode_token "key" demo_token = Ok (mkDecodeResult (Some demo_cap) None).
Proof. vm_compute. reflexivity. Qed.

Lemma check_valid_iff_witness :
  chk_valid (mkCapabilityCheck true CAPABILITY_VALID (Some "R") (Some "t") (Some "s")) = true ↔
    ∃ c, decode_token "key" demo_token = Ok (mkDecodeResult (Some c) None) ∧
      live demo_world (cap_run_id c) ∧ 8 ≤ cap_expires_at c ∧ cap_tool c = "t" ∧ cap_scope c = "s" ∧
      mkCapabilityCheck true CAPABILITY_VALID (Some "R") (Some "t") (Some "s") =
        mkCapabilityCheck true CAPABILITY_VALID (Some (cap_run_id c)) (Some "t") (Some "s").
Proof.
  refine (proj1 (check_valid_iff (H := idle_env) "key" demo_token "t" "s" 8 demo_world _ demo_world _)).
  vm_compute. reflexivity.
Defined.

Lemma issue_then_check_witness :
  ∃ token, issue (H := idle_env) "key" "R" "t" "s" 300 (Some 9) demo_world = (Ok token, demo_world) ∧
    ∀ w2 tool' scope' m, ∃ chk w3,
      check (H := idle_env) "key" token tool' scope' (Some m) w2 = (Ok chk, w3) ∧
      (chk_valid chk = true ↔ live w2 "R" ∧ m ≤ 9 + 300 ∧ tool' = "t" ∧ scope' = "s").
Proof.
  apply issue_then_check; try (by apply is_ascii_ustr).
  - apply Z.ltb_lt. vm_compute. reflexivity.
  - by exists demo_run.
Defined.

Lemma finish_revokes_witness :
  ∃ w3, check (H := idle_env) "key" demo_token "t" "s" (Some 8) (finish "R" demo_world).2 =
    (Ok (mkCapabilityCheck false REASON_RUN_FINISHED (Some "R") (Some "t") (Some "s")), w3).
Proof.
  apply (finish_revokes (H := idle_env) "key" demo_token demo_cap "R" demo_world (finish "R" demo_world).2);
    [apply demo_token_decodes|done|done|constructor].
Defined.

Lemma restart_revives_witness :
  ∃ run w1 w2, start (H := idle_env) [] (Some "R") (finish "R" demo_world).2 = (Ok run, w1) ∧
    check (H := idle_env) "key" demo_token "t" "s" (Some 8) w1 =
      (Ok (mkCapabilityCheck true CAPABILITY_VALID (Some "R") (Some "t") (Some "s")), w2).
Proof.
  apply (restart_revives (H := idle_env) "key" demo_token demo_cap); [apply demo_token_decodes|done|].
  vm_compute. discriminate.
Defined.

Lemma registry_invariant_witness :
  registry_ok (finish "R" demo_world).2 ∧
  dom (w_runs demo_world) ⊆ dom (w_runs (finish "R" demo_world).2).
Proof.
  apply (registry_invariant (H := idle_env) "key").
  - intros k r. unfold demo_world. simpl. rewrite lookup_singleton_Some. by intros [<- <-].
  - apply rtc_once. eexists. apply step_finish.
Defined.
