(* ===== verification/Evidence.v ===== *)
(** [sdlc/evidence/]: the content-addressed store of byte-exact originals
    ([store.py]), the compression of large untrusted output ([compression.py]),
    the evidence record ([record.py]) and the capture pipeline ([pipeline.py]). *)

From S2P Require Export Trust Crypto FsFacts.
#[local] Open Scope Z_scope.

(** * Compression *)

Definition DEFAULT_MAX_BYTES : Z := 8192.
Definition DEFAULT_EXCERPT_BYTES : Z := 2048.

Record CompressionResult := mkCompressionResult {
  cmp_applied : bool;
  cmp_original_digest : string;
  cmp_original_size_bytes : Z;
  cmp_compressed_size_bytes : Z;
  cmp_recovery_handle : string;
  cmp_context_text : pystr
}.

Definition blen (b : bytes) : Z := Z.of_nat (String.length b).
(** [raw[:n]] and [raw[n:]], with Python's negative indices. *)
Definition slice_to (b : bytes) (n : Z) : bytes :=
  take_str (Z.to_nat (if n <? 0 then blen b + n else n)) b.
Definition slice_from (b : bytes) (n : Z) : bytes :=
  drop_str (Z.to_nat (if n <? 0 then blen b + n else n)) b.

Definition marker (omitted : Z) : pystr :=
  LF +:+ "... [" +:+ dec omitted +:+ " bytes omitted; byte-exact original in evidence store] ..." +:+ LF.

Definition _excerpt (raw : bytes) (excerpt_bytes : Z) : pystr :=
  let head := slice_to raw excerpt_bytes in
  let tail := slice_from raw (- excerpt_bytes) in
  let omitted := blen raw - blen head - blen tail in
  decode_replace (head +:+ marker omitted +:+ tail).

Definition compress_for_context `{Env} (text : pystr) (tier : TrustTier)
    (max_bytes excerpt_bytes : Z) : res CompressionResult :=
  raw ← encode_utf8 text;
  let digest := sha256_hex raw in
  let handle := "sha256:" +:+ digest in
  if negb (bool_decide (tier = UNTRUSTED)) || (blen raw <=? max_bytes) then
    mret (mkCompressionResult false digest (blen raw) (blen raw) handle text)
  else
    let compressed := env_zlib raw in
    mret (mkCompressionResult true digest (blen raw) (blen compressed) handle
            (_excerpt raw excerpt_bytes)).

(** * Store *)

Module EvidenceStore.
Section store.
  Context (root : path).

Definition _path (digest : pystr) : path := path_join root digest.

Definition put (data : bytes) : ST World string :=
  let digest := sha256_hex data in
  _ ← onFs (mkdir_parents root);
  _ ← onFs (write_bytes (_path digest) data);
  mret digest.

Definition get (digest : pystr) : ST World bytes := fun w =>
  let p := _path digest in
  if negb (is_file (w_fs w) p) then (raise KeyError digest, w)
  else (read_bytes (w_fs w) p, w).

Definition resolve (handle : pystr) : ST World bytes :=
  let prefix := "sha256:" in
  if negb (startswith handle prefix) then
    raiseS ValueError ("unsupported recovery handle: " +:+ repr_str handle)
  else get (drop_str (String.length prefix) handle).

End store.
End EvidenceStore.

(** * Record *)

Definition link_docs (links : option (list dict)) : list dict := default [] links.

Definition build_evidence_record (artifact_id created_at : pystr) (actor : dict) (run_id action : pystr)
    (trust_tier : TrustTier) (sensitivity : pystr)
    (artifact_digest artifact_ref policy_decision_ref : option pystr)
    (compression : option CompressionResult) (links : option (list dict)) : dict :=
  let document :=
    [("schema_version", VStr "1.0.0"); ("artifact_type", VStr "evidence-record");
     ("id", VStr artifact_id); ("created_at", VStr created_at); ("actor", VDict actor);
     ("run_id", VStr run_id); ("action", VStr action);
     ("trust_tier", VStr (tier_value trust_tier)); ("sensitivity", VStr sensitivity)] in
  let opt (k : string) (o : option pystr) (d : dict) :=
    match o with Some s => dset d k (VStr s) | None => d end in
  let document := opt "artifact_digest" artifact_digest document in
  let document := opt "artifact_ref" artifact_ref document in
  let document := opt "policy_decision_ref" policy_decision_ref document in
  let document :=
    match compression with
    | None => document
    | Some c =>
        let entry := [("applied", VBool (cmp_applied c))] in
        let entry :=
          if cmp_applied c then
            (entry ++ [("original_digest", VStr (cmp_original_digest c));
                       ("original_size_bytes", VInt (cmp_original_size_bytes c));
                       ("compressed_size_bytes", VInt (cmp_compressed_size_bytes c));
                       ("recovery_handle", VStr (cmp_recovery_handle c))])%list
          else entry in
        dset document "compression" (VDict entry)
    end in
  match link_docs links with
  | [] => document
  | ls => dset document "links" (VList (VDict <$> ls))
  end.

(** * Capture *)

Record ToolOutputResult := mkToolOutputResult {
  out_record : dict;
  out_context_text : pystr;
  out_digest : string
}.

Definition process_tool_output `{Env} (store : path) (text action : pystr) (actor : dict)
    (run_id artifact_id created_at : pystr) (tier : TrustTier) (sensitivity : pystr)
    (max_bytes : Z) (artifact_ref policy_decision_ref : option pystr)
    (links : option (list dict)) : ST World ToolOutputResult :=
  if bool_decide (tier = SENSITIVE) then
    raiseS SensitiveContentError "sensitive content must be redacted or handled outside the model context"
  else
    compression ← lift (compress_for_context text tier max_bytes DEFAULT_EXCERPT_BYTES);
    raw ← lift (encode_utf8 text);
    digest ← EvidenceStore.put store raw;
    if negb (digest ≟ cmp_original_digest compression) then
      raiseS AssertionError "evidence store digest mismatch"
    else
      let record := build_evidence_record artifact_id created_at actor run_id action tier sensitivity
        (Some digest)
        (Some (default (cmp_recovery_handle compression) artifact_ref))
        policy_decision_ref (Some compression) links in
      mret (mkToolOutputResult record (cmp_context_text compression) digest).

(** * Helper lemmas *)

Lemma hex_not_slash a : is_hex a = true → a ≠ chr 47 ∧ a ≠ chr 46.
Proof. unfold is_hex. intros H. split; intros ->; by vm_compute in H. Qed.

(** A digest is one path component. *)
Lemma path_join_digest root b : path_join root (sha256_hex b) = (root ++ [sha256_hex b])%list.
Proof.
  destruct (sha256_hex_shape b) as [Hlen Hhex]. apply path_join_name; [|by intros E; rewrite E in Hlen..].
  intros Hin. apply Is_true_true, forallb_True in Hhex. rewrite Forall_forall in Hhex.
  apply Hhex, Is_true_true in Hin. by apply hex_not_slash in Hin as [].
Qed.

Section facts.
  Context `{Env} (store : path).
  Import EvidenceStore.

(** What [put] does: it creates missing parents, then writes one file. *)
Lemma put_cases data w :
  ∃ fs1, grows (w_fs w) fs1 ∧ (fs_wf (w_fs w) → fs_wf fs1) ∧
    ((∃ e, put store data w = (Raise e, set_fs fs1 w)) ∨
     (∃ fs2, write_bytes (store ++ [sha256_hex data])%list data fs1 = (Ok tt, fs2) ∧
        put store data w = (Ok (sha256_hex data), set_fs fs2 w))).
Proof.
  unfold put, onFs, _path. rewrite path_join_digest. autorewrite with py.
  destruct (mkdir_parents store (w_fs w)) as [r fs1] eqn:Em. exists fs1.
  split; [by eapply mkdir_parents_grows|]. split; [by intros; eapply mkdir_parents_wf|].
  destruct r as [[]|e]; [|left; by eexists]. cbn [fst snd].
  autorewrite with py. cbn [fst snd w_fs set_fs].
  destruct (write_bytes _ data fs1) as [[[]|e] fs2] eqn:Ew.
  - right. exists fs2. split; [done|]. by autorewrite with py.
  - left. exists e. destruct (write_bytes_cases (store ++ [sha256_hex data])%list data fs1)
      as [[e' E]|(q & _ & _ & _ & E)]; rewrite E in Ew; by simplify_eq.
Qed.

Lemma get_eq digest w :
  get store digest w =
    (match read_bytes (w_fs w) (_path store digest) with
     | Ok b => Ok b | Raise _ => raise KeyError digest end, w).
Proof.
  unfold get. destruct (is_file (w_fs w) (_path store digest)) eqn:E; simpl.
  - apply is_file_read in E as [b ->]. done.
  - destruct (read_bytes _ _) as [b|] eqn:Er; [|done].
    assert (is_file (w_fs w) (_path store digest) = true) by (apply is_file_read; eauto). congruence.
Qed.

Lemma resolve_eq digest w : resolve store ("sha256:" +:+ digest) w = get store digest w.
Proof. unfold resolve. by rewrite startswith_app. Qed.

Lemma put_get data w d w' :
  fs_wf (w_fs w) → put store data w = (Ok d, w') →
  d = sha256_hex data ∧ get store d w' = (Ok data, w') ∧ fs_wf (w_fs w') ∧ w' = set_fs (w_fs w') w.
Proof.
  intros Hwf Hput. destruct (put_cases data w) as (fs1 & Hg & Hwf1 & [[e E]|(fs2 & Hw & E)]);
    rewrite E in Hput; simplify_eq. split; [done|].
  rewrite get_eq. unfold _path. rewrite path_join_digest. simpl.
  rewrite (write_read _ _ _ _ (Hwf1 Hwf) Hw). split; [done|]. split; [|done].
  eapply write_bytes_wf; [|done]. auto.
Qed.

Lemma sha256_hex_not_dots b : sha256_hex b ≠ "..".
Proof. intros E. destruct (sha256_hex_shape b) as [Hl _]. by rewrite E in Hl. Qed.

(** Storing an original leaves every other one readable. *)
Lemma put_other data b w r w' :
  fs_wf (w_fs w) → plain_dir (w_fs w) store → put store data w = (r, w') →
  sha256_hex b ≠ sha256_hex data →
  get store (sha256_hex b) w = (Ok b, w) → get store (sha256_hex b) w' = (Ok b, w').
Proof.
  intros Hwf Hpl Hput Hne. destruct (put_cases data w) as (fs1 & Hg & Hwf1 & Hc).
  rewrite !get_eq. unfold _path. rewrite path_join_digest.
  destruct (read_bytes (w_fs w) _) as [b'|] eqn:Er; [|done]. intros [= ->].
  assert (Hloc : ∃ q, fs_locate (w_fs w) store = Ok q).
  { apply read_bytes_Ok, fs_stat_Ok in Er as (q & Hq & _).
    apply plain_dir_locate in Hq as (q' & Hq' & _); [eauto|done|apply sha256_hex_not_dots]. }
  destruct Hloc as [q Hq]. apply (plain_dir_grows _ fs1 _ q Hg Hq) in Hpl.
  apply (grows_read _ fs1) in Er; [|done].
  destruct Hc as [[e E]|(fs2 & Hw & E)]; rewrite E in Hput; simplify_eq/=; [by rewrite Er|].
  erewrite write_read_other; [done|exact (Hwf1 Hwf)|exact Hw| |exact Er].
  intros Heq. apply read_bytes_Ok, fs_stat_Ok in Er as (q1 & Hq1 & _). rewrite Heq in Hq1.
  pose proof (plain_dir_locate _ _ _ _ Hpl (sha256_hex_not_dots data) Hq1) as (q2 & Hq2 & ->).
  rewrite Hq1 in Heq.
  destruct (plain_dir_locate _ _ _ _ Hpl (sha256_hex_not_dots b) Heq) as (q3 & Hq3 & E3).
  apply app_inj_tail in E3 as [_ ?]. congruence.
Qed.
End facts.

(** ** Compression *)

Lemma length_take_str n s : String.length (take_str n s) = (n `min` String.length s)%nat.
Proof. revert n. induction s as [|a s IH]; intros [|n]; simpl; [done..|]. by rewrite IH. Qed.
Lemma length_drop_str n s : String.length (drop_str n s) = (String.length s - n)%nat.
Proof. revert n. induction s as [|a s IH]; intros [|n]; simpl; [done..|]. by rewrite IH. Qed.

(** The head and the tail of an excerpt that fits in the text. *)
Lemma excerpt_eq raw n :
  0 < n → 2 * n ≤ blen raw →
  _excerpt raw n = decode_replace (take_str (Z.to_nat n) raw +:+ marker (blen raw - 2 * n) +:+
    drop_str (Z.to_nat (blen raw - n)) raw).
Proof.
  intros Hn Hl. unfold _excerpt, slice_to, slice_from, blen in *.
  rewrite (proj2 (Z.ltb_ge n 0)), (proj2 (Z.ltb_lt (- n) 0)) by lia.
  rewrite !length_take_str, !length_drop_str.
  replace (Z.of_nat (String.length raw) + - n) with (Z.of_nat (String.length raw) - n) by lia.
  do 3 f_equal. f_equal. lia.
Qed.

Lemma compress_eq `{Env} text tier max_bytes excerpt_bytes :
  compress_for_context text tier max_bytes excerpt_bytes =
    match encode_utf8 text with
    | Ok _ =>
        Ok (if negb (bool_decide (tier = UNTRUSTED)) || (blen text <=? max_bytes) then
              mkCompressionResult false (sha256_hex text) (blen text) (blen text)
                ("sha256:" +:+ sha256_hex text) text
            else
              mkCompressionResult true (sha256_hex text) (blen text) (blen (env_zlib text))
                ("sha256:" +:+ sha256_hex text) (_excerpt text excerpt_bytes))
    | Raise e => Raise e
    end.
Proof.
  unfold compress_for_context. destruct (encode_utf8 text) as [raw|e] eqn:E; [|done].
  apply encode_utf8_Ok in E as ->. cbn [mbind res_bind]. by case_match.
Qed.

Lemma compress_digest `{Env} text tier m x c :
  compress_for_context text tier m x = Ok c →
  cmp_original_digest c = sha256_hex text ∧ cmp_recovery_handle c = "sha256:" +:+ sha256_hex text.
Proof. rewrite compress_eq. destruct (encode_utf8 text); [|done]. intros [= <-]. by case_match. Qed.

(** ** Capture *)

(** What [process_tool_output] does, by cases. *)
Lemma process_cases `{Env} store text action actor run_id artifact_id created_at tier sensitivity
    max_bytes artifact_ref pref links w :
  let m := process_tool_output store text action actor run_id artifact_id created_at tier
    sensitivity max_bytes artifact_ref pref links in
  (∃ e, m w = (Raise e, w)) ∨
  (tier ≠ SENSITIVE ∧ ∃ c fs1,
    compress_for_context text tier max_bytes DEFAULT_EXCERPT_BYTES = Ok c ∧
    grows (w_fs w) fs1 ∧ (fs_wf (w_fs w) → fs_wf fs1) ∧
    ((∃ e, m w = (Raise e, set_fs fs1 w)) ∨
     ∃ fs2, write_bytes (store ++ [sha256_hex text])%list text fs1 = (Ok tt, fs2) ∧
       EvidenceStore.put store text w = (Ok (sha256_hex text), set_fs fs2 w) ∧
       m w = (Ok (mkToolOutputResult
         (build_evidence_record artifact_id created_at actor run_id action tier sensitivity
            (Some (sha256_hex text)) (Some (default (cmp_recovery_handle c) artifact_ref)) pref (Some c) links)
         (cmp_context_text c) (sha256_hex text)), set_fs fs2 w))).
Proof.
  intros m. subst m. unfold process_tool_output.
  destruct (bool_decide (tier = SENSITIVE)) eqn:Et; [left; by eexists|]. apply bool_decide_eq_false in Et.
  rewrite ST_bind_eq, lift_eq.
  destruct (compress_for_context text tier max_bytes DEFAULT_EXCERPT_BYTES) as [c|e] eqn:Ec; [|left; by exists e].
  right. split; [done|]. pose proof Ec as Hd. apply compress_digest in Hd as [Hd _].
  assert (encode_utf8 text = Ok text) as ->.
  { rewrite compress_eq in Ec. destruct (encode_utf8 text) as [t|] eqn:E; [|done].
    by apply encode_utf8_Ok in E as ->. }
  rewrite ST_bind_eq, lift_eq, ST_bind_eq.
  destruct (put_cases store text w) as (fs1 & Hg & Hwf & Hc). exists c, fs1.
  split; [done|]. split; [done|]. split; [done|]. destruct Hc as [[e E]|(fs2 & Hw & E)]; rewrite E.
  - left. by exists e.
  - right. exists fs2. split; [done|]. split; [done|]. by rewrite Hd, bool_decide_true.
Qed.

Lemma build_evidence_record_fields id created_at actor run_id action tier sens dg rf pf c links :
  let d := build_evidence_record id created_at actor run_id action tier sens (Some dg) (Some rf) pf (Some c) links in
  dget d "artifact_type" = Some (VStr "evidence-record") ∧ dget d "id" = Some (VStr id) ∧
  dget d "actor" = Some (VDict actor) ∧ dget d "run_id" = Some (VStr run_id) ∧
  dget d "action" = Some (VStr action) ∧ dget d "trust_tier" = Some (VStr (tier_value tier)) ∧
  dget d "artifact_digest" = Some (VStr dg) ∧ dget d "artifact_ref" = Some (VStr rf) ∧
  dget d "policy_decision_ref" = VStr <$> pf.
Proof.
  intros d. subst d. unfold build_evidence_record. cbv zeta.
  destruct (link_docs links); repeat split; rewrite !dget_dset_ne by done; by destruct pf.
Qed.

(** What a capture that succeeds leaves: the original in the store, and a record
    that names it. *)
Definition evidence_names (evidence : dict) (text action : pystr) (actor : dict) (run_id id : pystr)
    (pref : option pystr) : Prop :=
  dget evidence "artifact_digest" = Some (VStr (sha256_hex text)) ∧
  dget evidence "artifact_ref" = Some (VStr ("sha256:" +:+ sha256_hex text)) ∧
  dget evidence "action" = Some (VStr action) ∧ dget evidence "id" = Some (VStr id) ∧
  dget evidence "run_id" = Some (VStr run_id) ∧ dget evidence "actor" = Some (VDict actor) ∧
  dget evidence "policy_decision_ref" = VStr <$> pref.

Lemma process_names `{Env} store text action actor run_id id created_at tier sens max_bytes pref links w out w' :
  process_tool_output store text action actor run_id id created_at tier sens max_bytes None pref links w
    = (Ok out, w') →
  EvidenceStore.put store text w = (Ok (sha256_hex text), w') ∧
  evidence_names (out_record out) text action actor run_id id pref.
Proof.
  destruct (process_cases store text action actor run_id id created_at tier sens max_bytes None pref links w)
    as [[e E]|(_ & c & fs1 & Hc & _ & _ & [[e E]|(fs2 & _ & Hput & E)])]; rewrite E; try done.
  intros [= <- <-]. split; [done|]. simpl out_record.
  pose proof (compress_digest _ _ _ _ _ Hc) as [_ Hh].
  pose proof (build_evidence_record_fields id created_at actor run_id action tier sens (sha256_hex text)
    (cmp_recovery_handle c) pref c links) as (_&?&?&?&?&_&?&?&?).
  unfold evidence_names. rewrite <- Hh. by split_and!.
Qed.

(** * Properties *)

(** C33: capture is lossless.  When tool output is captured, the original is in
    the store under its SHA-256 digest, the record's [artifact_digest] is that
    digest and its [artifact_ref] is a handle that resolves to the very bytes of
    the output, whether or not the text shown to the model was compressed; only
    the file system has changed. *)
Theorem capture_recoverable `{Env} store text action actor run_id artifact_id created_at tier
    sensitivity max_bytes pref links w out w' :
  fs_wf (w_fs w) →
  process_tool_output store text action actor run_id artifact_id created_at tier sensitivity
    max_bytes None pref links w = (Ok out, w') →
  out_digest out = sha256_hex text ∧
  dget (out_record out) "artifact_digest" = Some (VStr (sha256_hex text)) ∧
  (∃ handle, dget (out_record out) "artifact_ref" = Some (VStr handle) ∧
     EvidenceStore.resolve store handle w' = (Ok text, w')) ∧
  dget (out_record out) "policy_decision_ref" = VStr <$> pref ∧
  w' = set_fs (w_fs w') w ∧ fs_wf (w_fs w').
Proof.
  intros Hwf Hp.
  destruct (process_cases store text action actor run_id artifact_id created_at tier sensitivity
    max_bytes None pref links w) as [[e E]|(_ & c & fs1 & Hc & _ & _ & [[e E]|(fs2 & _ & Hput & E)])];
    rewrite E in Hp; simplify_eq/=.
  destruct (put_get _ _ _ _ _ Hwf Hput) as (_ & Hget & Hwf' & _).
  pose proof (build_evidence_record_fields artifact_id created_at actor run_id action tier sensitivity
    (sha256_hex text) (cmp_recovery_handle c) pref c links) as (_&_&_&_&_&_&Hdg&Hrf&Hpf).
  split_and!; [done|done| |done|done|done].
  eexists. split; [exact Hrf|]. rewrite (proj2 (compress_digest _ _ _ _ _ Hc)). by rewrite resolve_eq.
Qed.

(** sensitive output never enters the store or the model context: capturing
    it is refused and nothing changes.  Capture fails only before the original
    is written: after a failure the file system has at most gained the store's
    directories. *)
Theorem capture_refusal `{Env} store text action actor run_id artifact_id created_at tier
    sensitivity max_bytes artifact_ref pref links w :
  let m := process_tool_output store text action actor run_id artifact_id created_at tier
    sensitivity max_bytes artifact_ref pref links w in
  (tier = SENSITIVE → m.2 = w ∧ ∃ msg, m.1 = raise SensitiveContentError msg) ∧
  (is_ok m.1 = false → m.2 = set_fs (w_fs m.2) w ∧ grows (w_fs w) (w_fs m.2)) ∧
  (is_ok m.1 = true → tier ≠ SENSITIVE).
Proof.
  intros m. split; [intros ->; split; [done|by eexists]|].
  destruct (process_cases store text action actor run_id artifact_id created_at tier sensitivity
    max_bytes artifact_ref pref links w) as [[e E]|(Ht & c & fs1 & _ & Hg & _ & [[e E]|(fs2 & _ & _ & E)])];
    subst m; rewrite E; simpl; (split; [|done]); [|done..]. intros _. by destruct w.
Qed.

(** an original in the store stays readable, byte for byte, under its digest
    whatever is stored afterwards (unless other bytes had the same SHA-256
    digest), when the store directory holds no symbolic links. *)
Theorem evidence_preserved `{Env} store data b w r w' :
  fs_wf (w_fs w) → plain_dir (w_fs w) store →
  EvidenceStore.put store data w = (r, w') →
  (sha256_hex b = sha256_hex data → b = data) →
  EvidenceStore.get store (sha256_hex b) w = (Ok b, w) →
  EvidenceStore.get store (sha256_hex b) w' = (Ok b, w').
Proof.
  intros Hwf Hpl Hput Hcol Hget. destruct (decide (sha256_hex b = sha256_hex data)) as [E|]; [|by eapply put_other].
  specialize (Hcol E). subst data.
  destruct (put_cases store b w) as (fs1 & Hg & Hwf1 & [[e Ep]|(fs2 & Hw & Ep)]).
  - rewrite Ep in Hput. simplify_eq. rewrite get_eq in Hget |- *. simpl.
    destruct (read_bytes (w_fs w) _) as [b'|] eqn:Er; simplify_eq. by rewrite (grows_read _ _ _ _ Hg Er).
  - pose proof Ep as Hp. rewrite Hput in Ep. simplify_eq.
    by destruct (put_get _ _ _ _ _ Hwf Hp) as (_ & ? & _).
Qed.

(** C34: with the default limits, the text that may enter the model context is the
    output itself when it is trusted or at most 8192 bytes long; otherwise it is
    its first and last 2048 bytes around a marker that counts the bytes left out,
    which is positive, and it has at most 4096 characters more than the marker. *)
Theorem context_bounded `{Env} text tier c :
  compress_for_context text tier DEFAULT_MAX_BYTES DEFAULT_EXCERPT_BYTES = Ok c →
  cmp_original_size_bytes c = blen text ∧ cmp_original_digest c = sha256_hex text ∧
  if negb (bool_decide (tier = UNTRUSTED)) || (blen text <=? 8192) then
    cmp_applied c = false ∧ cmp_context_text c = text
  else
    let omitted := blen text - 4096 in
    cmp_applied c = true ∧ 0 < omitted ∧
    cmp_context_text c = decode_replace (take_str 2048 text +:+ marker omitted +:+
      drop_str (String.length text - 2048) text) ∧
    Z.of_nat (py_len (cmp_context_text c)) ≤ 4096 + blen (marker omitted).
Proof.
  rewrite compress_eq. destruct (encode_utf8 text); [|done]. intros [= <-].
  unfold DEFAULT_MAX_BYTES. destruct (negb _ || _) eqn:Eb; [done|].
  apply orb_false_iff in Eb as [_ Hlen]. apply Z.leb_gt in Hlen. cbn. split; [done|]. split; [done|]. split; [done|].
  split; [lia|]. unfold DEFAULT_EXCERPT_BYTES. rewrite excerpt_eq by lia.
  replace (Z.to_nat (blen text - 2048)) with (String.length text - 2048)%nat by (unfold blen in *; lia).
  replace (2 * 2048) with 4096 by done. split; [done|].
  etransitivity; [apply Nat2Z.inj_le, py_len_decode_replace|].
  rewrite !length_app_str, length_take_str, length_drop_str. unfold blen in *. lia.
Qed.

(** the limits that make an excerpt shorter than the text are not checked: an
    excerpt size of at least the length of the text repeats the whole text on
    both sides of a marker with a negative count, and an excerpt size of zero
    keeps the whole text after the marker. *)
Theorem excerpt_overlap raw n :
  (blen raw ≤ n → 0 < n → _excerpt raw n = decode_replace (raw +:+ marker (- blen raw) +:+ raw)) ∧
  _excerpt raw 0 = decode_replace (marker 0 +:+ raw).
Proof.
  assert (Htake : ∀ k, (String.length raw ≤ k)%nat → take_str k raw = raw) by (intros; by apply take_str_all).
  assert (Hdrop : drop_str 0 raw = raw) by (by destruct raw).
  unfold _excerpt, slice_to, slice_from, blen in *. split.
  - intros Hl Hn. rewrite (proj2 (Z.ltb_ge n 0)), (proj2 (Z.ltb_lt (- n) 0)) by lia.
    replace (Z.to_nat (_ + - n)) with 0%nat by lia. rewrite Htake, Hdrop by lia.
    do 4 f_equal. lia.
  - change (0 <? 0) with false. change (- 0) with 0. cbn [Z.ltb Z.compare].
    change (Z.to_nat 0) with 0%nat. rewrite Hdrop. assert (take_str 0 raw = "") as -> by (by destruct raw). rewrite app_str_nil_l.
    cbn [String.length]. do 3 f_equal. lia.
Qed.

(** * Witnesses *)

Definition demo_store : path := ["work"; "store"].
Definition ev_world : World := set_fs demo_fs empty_world.

Lemma demo_capture : ∃ out w', process_tool_output (H := idle_env) demo_store "out" "tool.t" [] "R" "EV-1" "t"
    UNTRUSTED "none" 8192 None (Some "PD-1") None ev_world = (Ok out, w').
Proof.
  assert (H : is_ok (process_tool_output (H := idle_env) demo_store "out" "tool.t" [] "R" "EV-1" "t"
    UNTRUSTED "none" 8192 None (Some "PD-1") None ev_world).1 = true) by (vm_compute; reflexivity).
  destruct (process_tool_output _ _ _ _ _ _ _ _ _ _ _ _ _ ev_world) as [[out|e] w']; [|discriminate H].
  exists out, w'. reflexivity.
Qed.

Lemma capture_recoverable_witness :
  ∃ out w', process_tool_output (H := idle_env) demo_store "out" "tool.t" [] "R" "EV-1" "t" UNTRUSTED "none"
      8192 None (Some "PD-1") None ev_world = (Ok out, w') ∧ out_digest out = sha256_hex "out".
Proof.
  destruct demo_capture as (out & w' & E). exists out, w'. split; [exact E|].
  apply (capture_recoverable (H := idle_env) demo_store "out" "tool.t" [] "R" "EV-1" "t" UNTRUSTED "none"
    8192 (Some "PD-1") None ev_world out w' demo_fs_wf E).
Defined.

Lemma evidence_preserved_witness :
  let w := (EvidenceStore.put demo_store "one" ev_world).2 in
  EvidenceStore.get demo_store (sha256_hex "one") (EvidenceStore.put demo_store "two" w).2 =
    (Ok "one", (EvidenceStore.put demo_store "two" w).2).
Proof.
  intros w. eapply (evidence_preserved (H := idle_env) demo_store "two" "one" w
    (EvidenceStore.put demo_store "two" w).1).
  - apply fs_wfb_ok. vm_compute. reflexivity.
  - apply no_links_plain. vm_compute. reflexivity.
  - by destruct (EvidenceStore.put demo_store "two" w).
  - intros E. vm_compute in E. discriminate E.
  - vm_compute. reflexivity.
Defined.

Lemma context_bounded_witness :
  ∃ c, compress_for_context (H := idle_env) "abc" UNTRUSTED DEFAULT_MAX_BYTES DEFAULT_EXCERPT_BYTES = Ok c ∧
    cmp_original_size_bytes c = 3.
Proof.
  eexists. split; [vm_compute; reflexivity|].
  eapply (context_bounded (H := idle_env) "abc" UNTRUSTED). vm_compute. reflexivity.
Defined.
