(* ===== verification/Policy.v ===== *)
(** [sdlc/policy/]: the OPA client ([client.py]), the policy-decision artifact
    ([decision.py]) and the builders of the two lifecycle enforcement points
    ([artifact_transition.py], [pre_deployment.py]). *)

From S2P Require Export JsonFacts Crypto World.
From Stdlib Require Import Ascii.
#[local] Open Scope Z_scope.

Definition REASON_ALLOWED : string := "ALLOWED".
Definition REASON_DENIED : string := "DENIED".
Definition REASON_POLICY_UNAVAILABLE : string := "POLICY_UNAVAILABLE".
Definition REASON_POLICY_MALFORMED : string := "POLICY_MALFORMED".
Definition DEFAULT_BASE_URL : string := "http://localhost:8181".

Record PolicyResult := mkPolicyResult {
  pr_allow : bool;
  pr_reason_codes : list pystr;
  pr_policy_bundle_version : pystr;
  pr_input_digest : string
}.

Definition compute_input_digest (payload : dict) : res string :=
  raw ← encode_utf8 (dumps canonical (VDict payload));
  mret (sha256_hex raw).

Definition _decision_path (point : pystr) : pystr :=
  "v1/data/sdlc/" +:+ replace_char point (chr 45) "_" +:+ "/decision".

(** The client's configuration; its timeout is part of the transport. *)
Record PolicyClient := mkPolicyClient {
  pc_base_url : pystr;
  pc_bundle_version : pystr
}.

(** [PolicyClient.__init__] *)
Definition new_client (base_url bundle_version : pystr) : PolicyClient :=
  mkPolicyClient (rstrip_char (chr 47) base_url) bundle_version.

Section client.
  Context (self : PolicyClient).

Definition _fail_closed (reason digest : string) : PolicyResult :=
  mkPolicyResult false [reason] (pc_bundle_version self) digest.

Definition _build_request (point : pystr) (payload : dict) : res HttpRequest :=
  let url := pc_base_url self +:+ "/" +:+ _decision_path point in
  body ← encode_utf8 (dumps plain (VDict [("input", VDict payload)]));
  mret (mkHttpRequest url "POST" [("Content-Type", "application/json")] (Some body)).

Definition reason_of (allow : bool) : string := if allow then REASON_ALLOWED else REASON_DENIED.

Definition _parse (raw : bytes) (digest : string) : res PolicyResult :=
  match loads_bytes raw with
  | Raise e =>
      if caught_by [JSONDecodeError] e then Ok (_fail_closed REASON_POLICY_MALFORMED digest)
      else Raise e
  | Ok body =>
      Ok match as_dict body ≫= (λ d, dget d "result") with
      | None => _fail_closed REASON_POLICY_MALFORMED digest
      | Some (VBool result) =>
          mkPolicyResult result [reason_of result] (pc_bundle_version self) digest
      | Some (VDict result) =>
          match dget_none result "allow" with
          | VBool allow =>
              let reason_codes :=
                match dget_none result "reason_codes" with
                | VList codes =>
                    match mapM as_str codes with
                    | Some (c :: cs) => c :: cs
                    | _ => [reason_of allow]
                    end
                | _ => [reason_of allow]
                end in
              mkPolicyResult allow reason_codes (pc_bundle_version self) digest
          | _ => _fail_closed REASON_POLICY_MALFORMED digest
          end
      | Some _ => _fail_closed REASON_POLICY_MALFORMED digest
      end
  end.

Definition evaluate `{Env} (point : pystr) (payload : dict) : ST World PolicyResult :=
  digest ← lift (compute_input_digest payload);
  request ← lift (_build_request point payload);
  raw ← catch (Some <$> http request) [URLError; OSError; TimeoutError] (λ _, mret None);
  match raw with
  | None => mret (_fail_closed REASON_POLICY_UNAVAILABLE digest)
  | Some raw => lift (_parse raw digest)
  end.
End client.

(** * The interface of a policy evaluator *)

(** [PolicyEvaluator], the protocol the gated components are written against:
    evaluating a policy may take time and be logged, but changes neither the
    runs nor the files, and every answer gives a reason. *)
Class PolicyEvaluator (eval : pystr → dict → ST World PolicyResult) := {
  evaluator_frame point payload w :
    w_fs (eval point payload w).2 = w_fs w ∧ w_runs (eval point payload w).2 = w_runs w;
  evaluator_reason point payload w r w' :
    eval point payload w = (Ok r, w') → pr_reason_codes r ≠ []
}.

(** * Artifacts and inputs *)

Definition build_policy_decision (result : PolicyResult) (artifact_id created_at : pystr)
    (actor : dict) (run_id point : pystr) (links : option (list dict)) : dict :=
  let document :=
    [("schema_version", VStr "1.0.0"); ("artifact_type", VStr "policy-decision");
     ("id", VStr artifact_id); ("created_at", VStr created_at); ("actor", VDict actor);
     ("run_id", VStr run_id); ("point", VStr point);
     ("decision", VStr (if pr_allow result then "allow" else "deny"));
     ("reason_codes", VList (VStr <$> pr_reason_codes result));
     ("policy_bundle_version", VStr (pr_policy_bundle_version result));
     ("input_digest", VStr (pr_input_digest result))] in
  match default [] links with
  | [] => document
  | ls => dset document "links" (VList (VDict <$> ls))
  end.

Module ArtifactTransition.
Definition POINT : pystr := "artifact-transition".

Definition build_transition_input (artifact_type from_status to_status : pystr) (actor : dict)
    (now : option pystr) (findings waivers : option (list dict)) : dict :=
  let payload :=
    [("artifact_type", VStr artifact_type); ("from_status", VStr from_status);
     ("to_status", VStr to_status); ("actor", VDict actor)] in
  let payload := match now with Some n => dset payload "now" (VStr n) | None => payload end in
  let payload := match default [] findings with
    | [] => payload | fs => dset payload "findings" (VList (VDict <$> fs)) end in
  match default [] waivers with
  | [] => payload | ws => dset payload "waivers" (VList (VDict <$> ws)) end.

Definition evaluate_transition `{Env} (policy : PolicyClient)
    (artifact_type from_status to_status : pystr) (actor : dict)
    (now : option pystr) (findings waivers : option (list dict)) : ST World PolicyResult :=
  evaluate policy POINT
    (build_transition_input artifact_type from_status to_status actor now findings waivers).

Definition build_transition_decision (result : PolicyResult) (artifact_id created_at : pystr)
    (actor : dict) (run_id : pystr) (links : option (list dict)) : dict :=
  build_policy_decision result artifact_id created_at actor run_id POINT links.
End ArtifactTransition.

Module PreDeployment.
Definition POINT : pystr := "pre-deployment".

(** The arguments are whatever the caller read from its candidate: nothing checks
    the declared types, only [dict] and the iteration do. *)
Definition build_deployment_input (image signature sbom provenance policy_decisions
    required_approver_role approvals : value) : res dict :=
  signature ← vdict signature;
  sbom ← vdict sbom;
  provenance ← vdict provenance;
  decisions ← mbind (M := res) (mapR vdict) (viter policy_decisions);
  approvals ← mbind (M := res) (mapR vdict) (viter approvals);
  mret [("image", image); ("signature", VDict signature); ("sbom", VDict sbom);
   ("provenance", VDict provenance); ("policy_decisions", VList (VDict <$> decisions));
   ("required_approver_role", required_approver_role); ("approvals", VList (VDict <$> approvals))].

Definition evaluate_deployment `{Env} (policy : PolicyClient) (image signature sbom provenance policy_decisions
    required_approver_role approvals : value) : ST World PolicyResult :=
  payload ← lift (build_deployment_input image signature sbom provenance policy_decisions
    required_approver_role approvals);
  evaluate policy POINT payload.

Definition build_deployment_decision (result : PolicyResult) (artifact_id created_at : pystr)
    (actor : dict) (run_id : pystr) (links : option (list dict)) : dict :=
  build_policy_decision result artifact_id created_at actor run_id POINT links.
End PreDeployment.

(** * Helper lemmas *)

Section facts.
  Context `{Env} (self : PolicyClient).

(** The world after one HTTP exchange. *)
Definition after_http (r : HttpRequest) (w : World) : World :=
  log (EvHttp r) (set_tick (S (w_tick w)) w).

Lemma evaluate_eq point payload w :
  evaluate self point payload w =
    match compute_input_digest payload with
    | Raise e => (Raise e, w)
    | Ok digest =>
        match _build_request self point payload with
        | Raise e => (Raise e, w)
        | Ok request =>
            (match env_http (w_tick w) request with
             | Ok raw => _parse self raw digest
             | Raise e =>
                 if caught_by [URLError; OSError; TimeoutError] e then
                   Ok (_fail_closed self REASON_POLICY_UNAVAILABLE digest)
                 else Raise e
             end, after_http request w)
        end
    end.
Proof.
  unfold evaluate. rewrite ST_bind_eq, lift_eq. destruct (compute_input_digest payload) as [digest|]; [|done].
  rewrite ST_bind_eq, lift_eq. destruct (_build_request self point payload) as [request|]; [|done].
  rewrite ST_bind_eq. unfold catch, fmap, ST_fmap, http.
  destruct (env_http (w_tick w) request) as [raw|e]; [by autorewrite with py|].
  by destruct (caught_by _ e).
Qed.

Lemma parse_reason raw digest r : _parse self raw digest = Ok r → pr_reason_codes r ≠ [].
Proof. unfold _parse. intros Hp. repeat case_in Hp; by simplify_eq/=. Qed.
End facts.

#[export] Instance client_evaluator `{Env} self : PolicyEvaluator (evaluate self).
Proof.
  split.
  - intros point payload w. rewrite evaluate_eq.
    destruct (compute_input_digest payload); [|done]. by destruct (_build_request self point payload).
  - intros point payload w r w'. rewrite evaluate_eq.
    destruct (compute_input_digest payload) as [dg|]; [|done].
    destruct (_build_request self point payload) as [rq|]; [|done].
    destruct (env_http (w_tick w) rq) as [raw|e].
    + intros [= Hp _]. by eapply parse_reason.
    + destruct (caught_by _ e); [|done]. by intros [= <- _].
Qed.

Section facts2.
  Context `{Env} (self : PolicyClient).

(** What OPA has to answer for an allow. *)
Definition opa_allows (raw : bytes) : Prop :=
  ∃ d, loads_bytes raw = Ok (VDict d) ∧
    (dget d "result" = Some (VBool true) ∨
     ∃ rd, dget d "result" = Some (VDict rd) ∧ dget rd "allow" = Some (VBool true)).

Lemma parse_allow raw digest r :
  _parse self raw digest = Ok r → pr_allow r = true ↔ opa_allows raw.
Proof.
  unfold _parse, opa_allows. destruct (loads_bytes raw) as [body|e].
  2: { destruct (caught_by _ e); [|done]. intros [= <-]. split; [done|by intros (d & ? & _)]. }
  intros [= <-]. destruct body as [| | | | | |d]; simpl;
    try (by split; [done|intros (d & [= ] & _)]).
  destruct (dget d "result") as [v|] eqn:Ev; [|split; [done|]; intros (d' & [= <-] & [?|(rd & ? & _)]); congruence].
  destruct v as [|b| | | | |rd]; simpl;
    try (split; [done|]; intros (d' & [= <-] & [?|(rd' & ? & _)]); congruence).
  - split; [intros ->; exists d; auto|]. intros (d' & [= <-] & [?|(rd' & ? & _)]); congruence.
  - unfold dget_none, dget_or.
    destruct (dget rd "allow") as [[|b| | | | |]|] eqn:Ea; simpl;
      try (split; [done|]; intros (d' & [= <-] & [?|(rd' & ? & ?)]); simplify_eq; congruence).
    split.
    + intros ->. exists d. split; [done|]. right. eauto.
    + intros (d' & [= <-] & [?|(rd' & ? & ?)]); simplify_eq; congruence.
Qed.

Lemma parse_digest raw digest r :
  _parse self raw digest = Ok r →
  pr_input_digest r = digest ∧ pr_policy_bundle_version r = pc_bundle_version self.
Proof. unfold _parse. intros Hp. repeat case_in Hp; by simplify_eq/=. Qed.
End facts2.

(** * Properties *)

(** Two texts that were found to have the same SHA-256 digest. *)
Definition collision (x y : pystr) : Prop := x ≠ y ∧ sha256_hex x = sha256_hex y.

Section properties.
  Context `{Env} (self : PolicyClient).

(** What an evaluation that returns did and found. *)
Lemma evaluate_Ok point payload w r w' :
  evaluate self point payload w = (Ok r, w') →
  (∃ request, http_method request = "POST" ∧
     http_url request = pc_base_url self +:+ "/" +:+ _decision_path point ∧
     http_body request = Some (dumps plain (VDict [("input", VDict payload)])) ∧
     w_log w' = EvHttp request :: w_log w ∧
     (pr_allow r = true ↔ ∃ raw, env_http (w_tick w) request = Ok raw ∧ opa_allows raw)) ∧
  pr_reason_codes r ≠ [] ∧ compute_input_digest payload = Ok (pr_input_digest r) ∧
  w_fs w' = w_fs w ∧ w_runs w' = w_runs w.
Proof.
  intros Heval. pose proof (evaluator_reason point payload w r w' Heval) as Hreason.
  rewrite evaluate_eq in Heval.
  destruct (compute_input_digest payload) as [dg|]; [|done].
  destruct (_build_request self point payload) as [rq|] eqn:Erq; [|done].
  injection Heval as Hp <-.
  assert (pr_input_digest r = dg ∧ (pr_allow r = true ↔
    ∃ raw, env_http (w_tick w) rq = Ok raw ∧ opa_allows raw)) as [-> Ha].
  { destruct (env_http _ _) as [raw|e].
    - split; [by eapply parse_digest|]. rewrite (parse_allow _ _ _ _ Hp). naive_solver.
    - case_in Hp; simplify_eq. split; [done|]. split; [done|by intros (? & ? & _)]. }
  split; [|done]. exists rq. unfold _build_request in Erq.
  rewrite encode_ascii_dumps in Erq by done. injection Erq as <-. split_and!; done.
Qed.

(** C8: fail-closed.  When an evaluation returns, exactly one POST of the
    input was made, to the decision path of the enforcement point; the answer is an allow only if
    OPA replied with a JSON object whose [result] is [true] or an object with
    [allow] equal to [true] - in every other case, an error of the transport
    included, it is a deny; it always carries a reason and the digest of the
    input. *)
Theorem policy_fail_closed point payload w r w' :
  evaluate self point payload w = (Ok r, w') →
  (∃ request, http_method request = "POST" ∧
     http_url request = pc_base_url self +:+ "/" +:+ _decision_path point ∧
     http_body request = Some (dumps plain (VDict [("input", VDict payload)])) ∧
     w_log w' = EvHttp request :: w_log w ∧
     (pr_allow r = true ↔ ∃ raw, env_http (w_tick w) request = Ok raw ∧ opa_allows raw)) ∧
  pr_reason_codes r ≠ [] ∧ compute_input_digest payload = Ok (pr_input_digest r) ∧
  w_fs w' = w_fs w ∧ w_runs w' = w_runs w.
Proof. apply evaluate_Ok. Qed.

(** where fail-closed stops.  An evaluation raises, instead of denying, in
    exactly these cases: the payload cannot be encoded, the transport raises
    something that is not an [OSError] (an [HTTPException], say), or OPA's reply
    makes [json.loads] raise something that is not a [JSONDecodeError]
    (undecodable bytes, an integer of more than 4300 digits). *)
Theorem policy_raises point payload w :
  is_ok (evaluate self point payload w).1 = false ↔
  is_ok (compute_input_digest payload) = false ∨
  ∃ digest request, compute_input_digest payload = Ok digest ∧
    _build_request self point payload = Ok request ∧
    ((∃ e, env_http (w_tick w) request = Raise e ∧ caught_by [OSError] e = false) ∨
     (∃ raw e, env_http (w_tick w) request = Ok raw ∧ loads_bytes raw = Raise e ∧
        caught_by [JSONDecodeError] e = false)).
Proof.
  rewrite evaluate_eq. destruct (compute_input_digest payload) as [dg|]; [|naive_solver].
  assert (∃ rq, _build_request self point payload = Ok rq) as [rq Hrq].
  { unfold _build_request. rewrite encode_ascii_dumps by done. by eexists. }
  rewrite Hrq. cbn [fst].
  assert (Hos : ∀ e, caught_by [URLError; OSError; TimeoutError] e = caught_by [OSError] e).
  { intros [[] m]; reflexivity. }
  destruct (env_http (w_tick w) rq) as [raw|e] eqn:Eh.
  - unfold _parse. destruct (loads_bytes raw) as [body|e] eqn:El.
    + split; [done|]. intros [?|(? & ? & _ & [= <-] & [(e & ? & _)|(raw' & e & Hraw & ? & _)])]; [done|congruence..].
    + destruct (caught_by [JSONDecodeError] e) eqn:Ec.
      * split; [done|]. intros [?|(? & ? & _ & [= <-] & [(e' & ? & _)|(raw' & e' & Hraw & ? & ?)])]; [done|congruence..].
      * split; [|done]. intros _. right. exists dg, rq. split_and!; [done..|]. right. by exists raw, e.
  - rewrite Hos. destruct (caught_by [OSError] e) eqn:Ec.
    + split; [done|]. intros [?|(? & ? & _ & [= <-] & [(e' & ? & ?)|(raw' & e' & Hraw & ? & _)])]; [done|congruence..].
    + split; [|done]. intros _. right. exists dg, rq. split_and!; [done..|]. left. by exists e.
Qed.

(** the input digest of a decision commits to its input: two JSON inputs with
    the same digest are equal up to the order of keys, unless just their canonical
    texts are a SHA-256 collision. *)
Theorem input_digest_commits p q dg :
  json_ok (VDict p) → json_ok (VDict q) →
  compute_input_digest p = Ok dg → compute_input_digest q = Ok dg →
  sort_value (VDict p) = sort_value (VDict q) ∨ collision (dumps canonical (VDict p)) (dumps canonical (VDict q)).
Proof.
  intros Hp Hq. unfold compute_input_digest.
  rewrite !encode_utf8_ustr by (apply ustr_dumps; [apply ustr_seps_std|done]).
  cbn [mbind res_bind]. intros [= <-] [= Heq].
  destruct (decide (dumps canonical (VDict p) = dumps canonical (VDict q))) as [E|]; [left|by right].
  eapply dumps_inj; [..|exact E]; [done|apply sep_ok_canonical|done..].
Qed.
End properties.

(** * Witnesses *)

Definition demo_client : PolicyClient := new_client "http://localhost:8181/" "b1".

Lemma policy_fail_closed_witness :
  ∃ r w', evaluate (H := allow_env) demo_client "pre-tool-call" [("tool", VStr "t")] empty_world = (Ok r, w') ∧
    pr_allow r = true ∧ pr_reason_codes r ≠ [].
Proof.
  eexists _, _. split; [vm_compute; reflexivity|]. split; [reflexivity|].
  eapply (policy_fail_closed (H := allow_env) demo_client "pre-tool-call" [("tool", VStr "t")] empty_world).
  vm_compute. reflexivity.
Defined.

Lemma input_digest_commits_witness :
  sort_value (VDict [("b", VInt 1); ("a", VInt 2)]) = sort_value (VDict [("a", VInt 2); ("b", VInt 1)]).
Proof.
  assert (Hc : dumps canonical (VDict [("b", VInt 1); ("a", VInt 2)]) = dumps canonical (VDict [("a", VInt 2); ("b", VInt 1)]))
    by (vm_compute; reflexivity).
  destruct (input_digest_commits [("b", VInt 1); ("a", VInt 2)] [("a", VInt 2); ("b", VInt 1)]
    (sha256_hex (dumps canonical (VDict [("b", VInt 1); ("a", VInt 2)])))) as [H|[H _]]; [..|exact H|destruct (H Hc)];
    try (apply json_okb_ok; vm_compute; reflexivity); vm_compute; reflexivity.
Defined.
