(* ===== verification/Rules.v ===== *)
(** [policies/]: the three Rego policies that OPA decides with - before a tool call
    ([pre_tool_call.rego]), for a transition in the life cycle of an artifact
    ([artifact_transition.rego]) and before a deployment ([pre_deployment.rego]).
    They are modelled rule by rule; [Gate] composes them with the program. *)

From S2P Require Export Policy.
#[local] Open Scope Z_scope.

(** * Rego

    A reference has a value or is undefined ([None]).  Rules of one name are a
    set: a reason is denied with as soon as the body of one rule holds. *)

(** [v.k] *)
Definition field (v : option value) (k : string) : option value :=
  match v with Some (VDict d) => dget d k | _ => None end.
(** A reference as a condition: defined and not [false]; [not] is its negation. *)
Definition holds (v : option value) : bool :=
  match v with None | Some (VBool false) => false | Some _ => true end.
(** [not p(arg)]: OPA evaluates the references in an argument first, so that the
    whole condition is undefined when one of them is. *)
Definition not_holds {A} (arg : option A) (p : A → bool) : bool :=
  match arg with Some a => negb (p a) | None => false end.
(** [v == "s"], [set[v]] for a set of strings *)
Definition is_str (v : option value) (s : string) : bool := bool_decide (v = Some (VStr s)).
Definition in_set (set : list string) (v : value) : bool :=
  match v with VStr s => bool_decide (s ∈ set) | _ => false end.
(** [v == w]: the keys of objects are not ordered.  OPA compares numbers by value;
    so does this on integers, and no theorem of [Gate] is about an input with a
    float ([json_ok] excludes them). *)
Definition same (v w : option value) : bool :=
  match v, w with Some v, Some w => bool_decide (sort_value v = sort_value w) | _, _ => false end.
(** [some x in v] *)
Definition elements_of (v : value) : list value :=
  match v with VList l => l | VDict d => snd <$> d | _ => [] end.
(** [contains(v, s)]; on anything but a string it is undefined. *)
Definition contains_str (v : option value) (s : string) : bool :=
  match v with Some (VStr t) => contains t s | _ => false end.

(** The rules [deny_reasons contains reason if condition], each with the truth of
    its body, and the decision that every policy draws from them. *)
Abbreviation Rules := (list (string * bool)) (only parsing).
Definition deny_reasons (rules : Rules) : list string :=
  remove_dups (fst <$> filter (λ r : string * bool, r.2 = true) rules).
Definition decision (rules : Rules) : value :=
  match deny_reasons rules with
  | [] => VDict [("allow", VBool true); ("reason_codes", VList [VStr "ALLOWED"])]
  | reasons =>
      let reason_list := merge_sort String.le reasons in
      VDict [("allow", VBool false); ("reason_codes", VList (VStr <$> reason_list))]
  end.
Definition allowed (rules : Rules) : bool := forallb (λ r : string * bool, negb r.2) rules.

(** * Before a tool call *)

Module ToolRules.
Definition allowed_tools : list string :=
  ["read_file"; "write_file"; "list_files"; "run_tests";
   "read_artifact"; "write_artifact"; "list_artifacts"; "open_pr";
   "skill.grill"; "skill.grill-security"; "skill.planner"; "skill.task-writer"; "skill.reviewer"].
Definition sensitive_markers : list string :=
  [".env"; "secrets/"; "credentials/"; ".pem"; ".key"; "id_rsa"; "id_ed25519"].
Definition protected_paths : list string :=
  [".github/"; "contracts/"; "policies/"; "security/"; "infra/"; "specs/"; ".opencode/";
   "docs/adr/"; "docs/roadmap.md"; "baseline.json"; "ARCHITECTURE_BASELINE.md"].

Definition rules (input : dict) : Rules :=
  [("TOOL_NOT_IN_ALLOWLIST", not_holds (dget input "tool") (in_set allowed_tools));
   ("SENSITIVE_PATH", existsb (contains_str (dget input "path")) sensitive_markers);
   ("PROTECTED_PATH", is_str (dget input "tool") "write_file" &&
      existsb (contains_str (dget input "path")) protected_paths)].
End ToolRules.

(** * Before a deployment *)

Module ReleaseRules.
Definition required_points : list string := ["artifact-transition"; "pr-ci"].

Definition point_allowed (policy_decisions : value) (point : string) : bool :=
  existsb (λ decision, is_str (field (Some decision) "point") point &&
    is_str (field (Some decision) "decision") "allow") (elements_of policy_decisions).
Definition approval_present (input : dict) (approvals : value) : bool :=
  existsb (λ approval, same (field (Some approval) "role") (dget input "required_approver_role") &&
    is_str (field (field (Some approval) "actor") "type") "human") (elements_of approvals).

Definition rules (input : dict) : Rules :=
  let signature := dget_or input "signature" (VDict []) in
  let sbom := dget_or input "sbom" (VDict []) in
  let provenance := dget_or input "provenance" (VDict []) in
  let policy_decisions := dget_or input "policy_decisions" (VList []) in
  let approvals := dget_or input "approvals" (VList []) in
  [("MISSING_IMAGE", eq_str (dget_or input "image" (VStr "")) "");
   ("MISSING_SIGNATURE", negb (holds (field (Some signature) "verified")));
   ("MISSING_SBOM", negb (holds (field (Some sbom) "present")));
   ("MISSING_PROVENANCE", negb (holds (field (Some provenance) "verified")));
   ("MISSING_POLICY_DECISION", existsb (λ point, negb (point_allowed policy_decisions point)) required_points);
   ("MISSING_APPROVAL", negb (approval_present input approvals));
   ("AGENT_MAY_NOT_APPROVE", existsb (λ approval, is_str (field (field (Some approval) "actor") "type") "agent")
      (elements_of approvals))].
End ReleaseRules.

(** * Transitions *)

Module TransitionRules.
Definition approval_statuses : list string := ["approved"; "done"].
Definition blocking_severities : list string := ["critical"; "high"].

Definition statuses : list (string * list string) :=
  [("specification", ["draft"; "in_review"; "approved"; "rejected"; "superseded"]);
   ("threat-model", ["draft"; "in_review"; "approved"; "rejected"; "superseded"]);
   ("plan", ["draft"; "approved"; "superseded"]);
   ("task", ["todo"; "in_progress"; "implemented"; "in_review"; "done"; "blocked"]);
   ("waiver", ["active"; "expired"; "revoked"])].
Definition lifecycles : list (string * list (string * list string)) :=
  [("specification",
     [("draft", ["in_review"; "superseded"]); ("in_review", ["approved"; "rejected"]);
      ("approved", ["superseded"]); ("rejected", ["draft"; "superseded"])]);
   ("threat-model",
     [("draft", ["in_review"; "superseded"]); ("in_review", ["approved"; "rejected"]);
      ("approved", ["superseded"]); ("rejected", ["draft"; "superseded"])]);
   ("plan", [("draft", ["approved"; "superseded"]); ("approved", ["superseded"])]);
   ("task",
     [("todo", ["in_progress"; "blocked"]); ("in_progress", ["implemented"; "blocked"]);
      ("implemented", ["in_review"; "blocked"]); ("in_review", ["done"; "implemented"; "blocked"]);
      ("blocked", ["todo"; "in_progress"]); ("done", [])]);
   ("waiver", [("active", ["expired"; "revoked"]); ("expired", []); ("revoked", [])])].

(** [table[v]] *)
Definition entry {A} (table : list (string * A)) (v : option value) : option A :=
  match v with Some (VStr k) => kget table k | _ => None end.

Section rules.
  (** [time.parse_rfc3339_ns], a function of OPA; [None] where it fails. *)
  Context (parse_rfc3339_ns : pystr → option Z).

Definition instant_ns (v : option value) : option Z :=
  match v with Some (VStr s) => parse_rfc3339_ns s | _ => None end.
Definition waiver_is_unexpired (input : dict) (waiver : value) : bool :=
  match instant_ns (dget input "now"), instant_ns (field (Some waiver) "expires_at") with
  | Some now, Some expires => now <? expires
  | _, _ => false
  end.
Definition medium_is_waived (input : dict) (waivers risk_id : value) : bool :=
  existsb (λ waiver, same (field (Some waiver) "risk_id") (Some risk_id) &&
    is_str (field (Some waiver) "severity") "medium" && is_str (field (Some waiver) "status") "active" &&
    waiver_is_unexpired input waiver) (elements_of waivers).

Definition unknown_status (input : dict) (status : string) : bool :=
  match entry lifecycles (dget input "artifact_type"), entry statuses (dget input "artifact_type") with
  | Some _, Some known => not_holds (dget input status) (in_set known)
  | Some _, None => bool_decide (is_Some (dget input status))
  | None, _ => false
  end.
Definition illegal_transition (input : dict) : bool :=
  match entry lifecycles (dget input "artifact_type") with
  | Some lifecycle =>
      existsb (λ e : string * list string, is_str (dget input "from_status") e.1 &&
        not_holds (dget input "to_status") (in_set e.2)) lifecycle
  | None => false
  end.

Definition rules (input : dict) : Rules :=
  let findings := dget_or input "findings" (VList []) in
  let waivers := dget_or input "waivers" (VList []) in
  [("UNKNOWN_ARTIFACT_TYPE", not_holds (dget input "artifact_type") (λ t, bool_decide (is_Some (entry lifecycles (Some t)))));
   ("UNKNOWN_STATUS", unknown_status input "from_status");
   ("UNKNOWN_STATUS", unknown_status input "to_status");
   ("ILLEGAL_TRANSITION", illegal_transition input);
   ("AGENT_MAY_NOT_APPROVE", is_str (field (dget input "actor") "type") "agent" &&
      match dget input "to_status" with Some to => in_set approval_statuses to | None => false end);
   ("BLOCKING_FINDING", existsb (λ finding,
      match field (Some finding) "severity" with Some s => in_set blocking_severities s | None => false end)
      (elements_of findings));
   ("UNRESOLVED_MEDIUM", existsb (λ finding, is_str (field (Some finding) "severity") "medium" &&
      not_holds (field (Some finding) "risk_id") (medium_is_waived input waivers)) (elements_of findings))].
End rules.
End TransitionRules.

(** * Decisions *)

Lemma deny_reasons_nil rules : deny_reasons rules = [] ↔ allowed rules = true.
Proof.
  unfold deny_reasons, allowed. rewrite forallb_forall. split.
  - intros H r Hr%list_elem_of_In. destruct r as [reason []]; [exfalso|done].
    assert (reason ∈ remove_dups (fst <$> filter (λ r : string * bool, r.2 = true) rules)) as Hin.
    { apply elem_of_remove_dups, list_elem_of_fmap. exists (reason, true). split; [done|].
      by apply list_elem_of_filter. }
    rewrite H in Hin. by apply elem_of_nil in Hin.
  - intros H. apply elem_of_nil_inv. intros reason (r & _ & [Hr Hin]%list_elem_of_filter)%elem_of_remove_dups%list_elem_of_fmap.
    apply list_elem_of_In, H in Hin. by rewrite Hr in Hin.
Qed.

(** Every policy decides, and allows exactly when no rule denies. *)
Lemma decision_spec rules :
  ∃ d reasons, decision rules = VDict d ∧ dget d "allow" = Some (VBool (allowed rules)) ∧
    dget d "reason_codes" = Some (VList (VStr <$> reasons)) ∧ reasons ≠ [] ∧
    (allowed rules = false → ∀ reason, reason ∈ reasons ↔ (reason, true) ∈ rules).
Proof.
  unfold decision. destruct (deny_reasons rules) as [|reason reasons] eqn:E.
  - apply deny_reasons_nil in E. rewrite E. eexists _, ["ALLOWED"]. split_and!; done.
  - assert (allowed rules = false) as ->.
    { destruct (allowed rules) eqn:Ha; [|done]. apply deny_reasons_nil in Ha. congruence. }
    eexists _, _. split_and!; [done|done|done| |].
    + intros Hs. assert (reason ∈ merge_sort String.le (reason :: reasons)) as Hin
        by (rewrite merge_sort_Permutation; apply list_elem_of_here). rewrite Hs in Hin. by apply elem_of_nil in Hin.
    + intros _ r. rewrite merge_sort_Permutation, <- E. unfold deny_reasons.
      rewrite elem_of_remove_dups, list_elem_of_fmap. split.
      * intros ([r' b] & -> & [Hb Hin]%list_elem_of_filter). cbn in *. by subst.
      * intros Hin. exists (r, true). split; [done|]. by apply list_elem_of_filter.
Qed.

Lemma is_str_true v s : is_str v s = true ↔ v = Some (VStr s).
Proof. apply bool_decide_eq_true. Qed.
Lemma in_set_true set v : in_set set v = true ↔ ∃ s, v = VStr s ∧ s ∈ set.
Proof.
  destruct v; cbn; rewrite ?bool_decide_eq_true;
    (split; [by eauto || by intros ?|intros (s' & [= ] & ?); by subst || done]).
Qed.
Lemma holds_true v : holds v = true ↔ ∃ x, v = Some x ∧ x ≠ VBool false.
Proof. destruct v as [[|[]| | | | |]|]; cbn; naive_solver. Qed.

(** * The life cycle of artifacts *)

Section transitions.
  Import TransitionRules.
  Context (parse : pystr → option Z).
  Context (now : option pystr) (findings waivers : option (list dict)).

Definition transition_rules (kind from to : pystr) (actor : dict) : list (string * bool) :=
  rules parse (ArtifactTransition.build_transition_input kind from to actor now findings waivers).

(** A transition the tables permit: both statuses are known, and if the old one
    has an entry, the new one is among its targets. *)
Definition legal (kind from to : string) : Prop :=
  ∃ known lifecycle, kget statuses kind = Some known ∧ kget lifecycles kind = Some lifecycle ∧
    from ∈ known ∧ to ∈ known ∧ ∀ targets, (from, targets) ∈ lifecycle → to ∈ targets.

(** An active medium waiver of the risk that has not expired. *)
Definition waives (risk_id : value) (waiver : dict) : Prop :=
  same (dget waiver "risk_id") (Some risk_id) = true ∧ dget waiver "severity" = Some (VStr "medium") ∧
  dget waiver "status" = Some (VStr "active") ∧
  ∃ n e tn te, now = Some n ∧ dget waiver "expires_at" = Some (VStr e) ∧ parse n = Some tn ∧ parse e = Some te ∧ tn < te.

(** A finding that does not stand in the way.  A medium finding without a [risk_id]
    does not: see [medium_without_risk_id_passes]. *)
Definition cleared (finding : dict) : Prop :=
  dget finding "severity" ≠ Some (VStr "critical") ∧ dget finding "severity" ≠ Some (VStr "high") ∧
  (dget finding "severity" = Some (VStr "medium") →
   ∀ risk_id, dget finding "risk_id" = Some risk_id → Exists (waives risk_id) (default [] waivers)).

Lemma transition_fields kind from to actor :
  let input := ArtifactTransition.build_transition_input kind from to actor now findings waivers in
  dget input "artifact_type" = Some (VStr kind) ∧ dget input "from_status" = Some (VStr from) ∧
  dget input "to_status" = Some (VStr to) ∧ dget input "actor" = Some (VDict actor) ∧
  dget input "now" = VStr <$> now ∧
  dget_or input "findings" (VList []) = VList (VDict <$> default [] findings) ∧
  dget_or input "waivers" (VList []) = VList (VDict <$> default [] waivers).
Proof.
  unfold ArtifactTransition.build_transition_input, dget_or.
  destruct now, findings as [[|? ?]|], waivers as [[|? ?]|]; by split_and!.
Qed.

Lemma unknown_status_false input kind status s known lifecycle :
  dget input "artifact_type" = Some (VStr kind) → dget input status = Some (VStr s) →
  kget statuses kind = Some known → kget lifecycles kind = Some lifecycle →
  unknown_status input status = false ↔ s ∈ known.
Proof.
  intros Ht Hs Hk Hl. unfold unknown_status, entry. rewrite Ht, Hk, Hl, Hs. cbn.
  by rewrite negb_false_iff, bool_decide_eq_true.
Qed.

Lemma illegal_transition_false input kind from to lifecycle :
  dget input "artifact_type" = Some (VStr kind) → dget input "from_status" = Some (VStr from) →
  dget input "to_status" = Some (VStr to) → kget lifecycles kind = Some lifecycle →
  illegal_transition input = false ↔ ∀ targets, (from, targets) ∈ lifecycle → to ∈ targets.
Proof.
  intros Ht Hf Hto Hl. unfold illegal_transition, entry. rewrite Ht, Hl, Hf, Hto. cbn [not_holds in_set].
  rewrite <- not_true_iff_false, existsb_exists. split.
  - intros H targets Hin. apply dec_stable. intros Hno. apply H. exists (from, targets).
    split; [by apply list_elem_of_In|]. cbn. rewrite andb_true_iff, is_str_true, negb_true_iff, bool_decide_eq_false. done.
  - intros H ([f targets] & Hin%list_elem_of_In & Hx). cbn in Hx.
    rewrite andb_true_iff, is_str_true, negb_true_iff, bool_decide_eq_false in Hx. destruct Hx as [[= ->] Hno].
    by apply Hno, H.
Qed.

Lemma instant_ns_Some v t : instant_ns parse v = Some t ↔ ∃ s, v = Some (VStr s) ∧ parse s = Some t.
Proof. destruct v as [[]|]; cbn; naive_solver. Qed.
Lemma unexpired_true input waiver :
  waiver_is_unexpired parse input (VDict waiver) = true ↔
  ∃ n e tn te, dget input "now" = Some (VStr n) ∧ dget waiver "expires_at" = Some (VStr e) ∧
    parse n = Some tn ∧ parse e = Some te ∧ tn < te.
Proof.
  unfold waiver_is_unexpired. cbn [field]. split.
  - destruct (instant_ns parse (dget input "now")) as [tn|] eqn:En; [|done].
    destruct (instant_ns parse (dget waiver "expires_at")) as [te|] eqn:Ee; [|done].
    apply instant_ns_Some in En as (n & ? & ?), Ee as (e & ? & ?). intros Hlt%Z.ltb_lt. by exists n, e, tn, te.
  - intros (n & e & tn & te & Hn & He & Hpn & Hpe & Hlt). rewrite Hn, He. cbn. rewrite Hpn, Hpe. by apply Z.ltb_lt.
Qed.

Lemma medium_is_waived_true kind from to actor risk_id :
  let input := ArtifactTransition.build_transition_input kind from to actor now findings waivers in
  medium_is_waived parse input (VList (VDict <$> default [] waivers)) risk_id = true ↔
  Exists (waives risk_id) (default [] waivers).
Proof.
  intros input. destruct (transition_fields kind from to actor) as (_ & _ & _ & _ & Hn & _). fold input in Hn.
  unfold medium_is_waived. rewrite existsb_exists, Exists_exists. cbn [elements_of].
  setoid_rewrite <- list_elem_of_In. setoid_rewrite list_elem_of_fmap.
  assert (Hw : ∀ w, same (field (Some (VDict w)) "risk_id") (Some risk_id) && is_str (field (Some (VDict w)) "severity") "medium" &&
      is_str (field (Some (VDict w)) "status") "active" && waiver_is_unexpired parse input (VDict w) = true ↔ waives risk_id w).
  { intros w. rewrite !andb_true_iff, !is_str_true, unexpired_true, Hn. unfold waives. cbn [field].
    destruct now as [n|]; cbn [fmap option_fmap option_map]; [|naive_solver]. naive_solver. }
  split.
  - intros (x & (w & -> & Hin) & Hx). exists w. split; [done|]. by apply Hw.
  - intros (w & Hin & Hx). exists (VDict w). split; [by exists w|]. by apply Hw.
Qed.

Lemma kinds_agree kind lifecycle : kget lifecycles kind = Some lifecycle → ∃ known, kget statuses kind = Some known.
Proof. unfold lifecycles, statuses. cbn [kget]. intros H. repeat (case_bool_decide; [by eexists|]). done. Qed.

Lemma forallb_rule reason (b : bool) rules :
  forallb (λ r : string * bool, negb r.2) ((reason, b) :: rules) = true ↔
  b = false ∧ forallb (λ r : string * bool, negb r.2) rules = true.
Proof. cbn. by rewrite andb_true_iff, negb_true_iff. Qed.

Lemma existsb_false {A} (f : A → bool) l : existsb f l = false ↔ ∀ x, x ∈ l → f x = false.
Proof.
  rewrite <- not_true_iff_false, existsb_exists. setoid_rewrite <- list_elem_of_In. split.
  - intros H x Hx. apply not_true_iff_false. eauto.
  - intros H (x & Hx & E). by rewrite H in E.
Qed.

Lemma cleared_iff kind from to actor finding :
  let input := ArtifactTransition.build_transition_input kind from to actor now findings waivers in
  let v := field (Some (VDict finding)) in
  (match v "severity" with Some s => in_set blocking_severities s | None => false end = false ∧
   is_str (v "severity") "medium" &&
     not_holds (v "risk_id") (medium_is_waived parse input (VList (VDict <$> default [] waivers))) = false) ↔
  cleared finding.
Proof.
  cbv zeta. cbn [field]. unfold cleared.
  assert (Hb : match dget finding "severity" with Some s => in_set blocking_severities s | None => false end = false ↔
    dget finding "severity" ≠ Some (VStr "critical") ∧ dget finding "severity" ≠ Some (VStr "high")).
  { destruct (dget finding "severity") as [s|]; [|done]. rewrite <- not_true_iff_false, in_set_true. split.
    - intros H. split; intros [= ->]; apply H; eexists; (split; [done|]); unfold blocking_severities; set_solver.
    - intros [H1 H2] (t & -> & Ht). unfold blocking_severities in Ht. set_unfold. naive_solver. }
  rewrite Hb, andb_false_iff, <- not_true_iff_false, is_str_true.
  assert (Hm : not_holds (dget finding "risk_id")
      (medium_is_waived parse (ArtifactTransition.build_transition_input kind from to actor now findings waivers)
        (VList (VDict <$> default [] waivers))) = false ↔
    ∀ risk_id, dget finding "risk_id" = Some risk_id → Exists (waives risk_id) (default [] waivers)).
  { destruct (dget finding "risk_id") as [risk|]; cbn [not_holds]; [|done].
    rewrite negb_false_iff, medium_is_waived_true. naive_solver. }
  rewrite Hm. destruct (decide (dget finding "severity" = Some (VStr "medium"))); naive_solver.
Qed.

(** Exactly which transitions the policy allows. *)
Lemma transition_rules_allowed kind from to actor :
  allowed (transition_rules kind from to actor) = true ↔
  legal kind from to ∧ (dget actor "type" = Some (VStr "agent") → to ∉ approval_statuses) ∧
  Forall cleared (default [] findings).
Proof.
  destruct (transition_fields kind from to actor) as (Ht & Hf & Hto & Ha & _ & Hfi & Hwa).
  unfold transition_rules, allowed, rules. rewrite !forallb_rule, Ht, Hto, Ha, Hfi, Hwa. cbn [not_holds entry field elements_of].
  rewrite negb_false_iff, bool_decide_eq_true, !existsb_false, Forall_forall. split.
  - intros ([lifecycle Hl] & Hu1 & Hu2 & Hil & Hag & Hb & Hm & _).
    destruct (kinds_agree _ _ Hl) as [known Hk]. split_and!.
    + exists known, lifecycle. split_and!; [done|done|..].
      * exact (proj1 (unknown_status_false _ kind _ from known lifecycle Ht Hf Hk Hl) Hu1).
      * exact (proj1 (unknown_status_false _ kind _ to known lifecycle Ht Hto Hk Hl) Hu2).
      * exact (proj1 (illegal_transition_false _ kind from to lifecycle Ht Hf Hto Hl) Hil).
    + intros Hagent Hin. rewrite Hagent in Hag. cbn in Hag. by rewrite bool_decide_true in Hag.
    + intros finding Hin. apply (cleared_iff kind from to actor).
      assert (Hx : VDict finding ∈ VDict <$> default [] findings) by (by apply list_elem_of_fmap_2).
      split; [by apply (Hb (VDict finding))|by apply (Hm (VDict finding))].
  - intros ((known & lifecycle & Hk & Hl & Hin1 & Hin2 & Htg) & Hag & Hc).
    split_and!; [exact (mk_is_Some _ _ Hl)|..|done].
    + exact (proj2 (unknown_status_false _ kind _ from known lifecycle Ht Hf Hk Hl) Hin1).
    + exact (proj2 (unknown_status_false _ kind _ to known lifecycle Ht Hto Hk Hl) Hin2).
    + exact (proj2 (illegal_transition_false _ kind from to lifecycle Ht Hf Hto Hl) Htg).
    + rewrite <- not_true_iff_false, andb_true_iff, is_str_true. cbn [in_set]. rewrite bool_decide_eq_true.
      intros [Hagent Hin]. by apply Hag.
    + intros x (finding & -> & Hin)%list_elem_of_fmap. by apply (cleared_iff kind from to actor), Hc.
    + intros x (finding & -> & Hin)%list_elem_of_fmap. by apply (cleared_iff kind from to actor), Hc.
Qed.

(** the policy is not fail-closed for a medium finding that names no risk: the
    condition that it is waived is then undefined, and so is its negation, so that no
    rule denies - although no waiver covers the finding.  Whatever the waivers, the
    finding changes no decision. *)
Theorem medium_without_risk_id_passes kind from to actor finding :
  dget finding "severity" = Some (VStr "medium") → dget finding "risk_id" = None →
  findings = Some [finding] →
  (allowed (transition_rules kind from to actor) = true ↔
   legal kind from to ∧ (dget actor "type" = Some (VStr "agent") → to ∉ approval_statuses)).
Proof.
  intros Hs Hr Hf. rewrite transition_rules_allowed, Hf. cbn [default from_option id].
  assert (Forall cleared [finding]); [|naive_solver].
  apply Forall_singleton. unfold cleared. rewrite Hs, Hr. naive_solver.
Qed.
End transitions.

(** Every history of allowed transitions: the actors and the new statuses, latest first. *)
Inductive lived (parse : pystr → option Z) (kind start : string) : list (dict * string) → string → Prop :=
  | lived_start : lived parse kind start [] start
  | lived_move moves from actor to now findings waivers :
      lived parse kind start moves from →
      allowed (transition_rules parse now findings waivers kind from to actor) = true →
      lived parse kind start ((actor, to) :: moves) to.

Section histories.
  Import TransitionRules.
  Context (parse : pystr → option Z).

Lemma allowed_legal now findings waivers kind from to actor :
  allowed (transition_rules parse now findings waivers kind from to actor) = true →
  legal kind from to ∧ (dget actor "type" = Some (VStr "agent") → to ∉ approval_statuses).
Proof. intros (? & ? & _)%transition_rules_allowed. done. Qed.

(** [legal] as a test. *)
Definition legalb (kind from to : string) : bool :=
  match kget statuses kind, kget lifecycles kind with
  | Some known, Some lifecycle =>
      bool_decide (from ∈ known) && bool_decide (to ∈ known) &&
      forallb (λ e : string * list string, negb (bool_decide (e.1 = from)) || bool_decide (to ∈ e.2)) lifecycle
  | _, _ => false
  end.
Lemma legal_iff kind from to : legal kind from to ↔ legalb kind from to = true.
Proof.
  unfold legal, legalb. destruct (kget statuses kind) as [known|]; [|split; [by intros (? & ? & ? & _)|done]].
  destruct (kget lifecycles kind) as [lifecycle|]; [|split; [by intros (? & ? & _ & ? & _)|done]].
  rewrite !andb_true_iff, !bool_decide_eq_true, forallb_forall. setoid_rewrite <- list_elem_of_In.
  setoid_rewrite orb_true_iff. setoid_rewrite negb_true_iff. setoid_rewrite bool_decide_eq_false.
  setoid_rewrite bool_decide_eq_true. split.
  - intros (? & ? & [= ->] & [= ->] & ? & ? & Ht). split; [done|]. intros [f targets] Hin. cbn.
    destruct (decide (f = from)) as [->|]; [right; by apply Ht|by left].
  - intros [[? ?] Ht]. exists known, lifecycle. split_and!; try done. intros targets Hin.
    by destruct (Ht _ Hin).
Qed.

(** What a test decides for all statuses of a kind holds of them. *)
Lemma legal_check kind known (P : string → string → bool) :
  kget statuses kind = Some known →
  forallb (λ from, forallb (λ to, negb (legalb kind from to) || P from to) known) known = true →
  ∀ from to, legal kind from to → P from to = true.
Proof.
  intros Hk Hall from to Hl. pose proof Hl as (known' & ? & Hk' & _ & Hf & Ht & _).
  assert (known' = known) as -> by congruence. apply legal_iff in Hl.
  rewrite forallb_forall in Hall. specialize (Hall from ltac:(by apply list_elem_of_In)).
  rewrite forallb_forall in Hall. specialize (Hall to ltac:(by apply list_elem_of_In)). by rewrite Hl in Hall.
Qed.

(** Where a task comes from. *)
Lemma legal_task from to :
  legal "task" from to →
  (to = "done" → from = "in_review") ∧ (to = "in_review" → from = "implemented") ∧
  (to = "implemented" → from = "in_progress" ∨ from = "in_review").
Proof.
  intros Hl. apply (legal_check "task" _ (λ from to, bool_decide ((to = "done" → from = "in_review") ∧
    (to = "in_review" → from = "implemented") ∧ (to = "implemented" → from = "in_progress" ∨ from = "in_review")))
    eq_refl) in Hl; [by apply bool_decide_eq_true in Hl|by vm_compute].
Qed.

(** The final statuses of tasks and waivers are final: nothing leaves them. *)
Lemma final_statuses kind from to : legal kind from to → from ∉ ["done"; "expired"; "revoked"].
Proof.
  intros Hl. pose proof Hl as (known & ? & Hk & _).
  apply (legal_check kind known (λ from _, bool_decide (from ∉ ["done"; "expired"; "revoked"])) Hk) in Hl;
    [by apply bool_decide_eq_true in Hl|].
  revert Hk. unfold statuses. cbn [kget]. repeat (case_bool_decide; [subst; intros [= <-]; by vm_compute|]). done.
Qed.

(** What the history of a task tells about its status. *)
Lemma task_history moves s :
  lived parse "task" "todo" moves s →
  (s = "todo" ∨ ∃ actor rest, moves = (actor, s) :: rest) ∧
  (s = "implemented" ∨ s = "in_review" → "in_progress" ∈ moves.*2) ∧
  (s = "in_review" → "implemented" ∈ moves.*2).
Proof.
  induction 1 as [|moves from actor to now fi wa _ (IH1 & IH2 & IH3) Ha]; [naive_solver|].
  apply allowed_legal in Ha as [(_ & Hr & Hi)%legal_task _].
  assert (Hin : from ≠ "todo" → from ∈ moves.*2).
  { intros Hne. destruct IH1 as [?|(a & rest & ->)]; [done|]. cbn. set_solver. }
  split_and!; cbn.
  - right. by exists actor, moves.
  - intros [->| ->]; apply elem_of_cons; right.
    + destruct (Hi eq_refl) as [->| ->]; [by apply Hin|by apply IH2; right].
    + rewrite (Hr eq_refl) in *. apply IH2. by left.
  - intros ->. rewrite (Hr eq_refl) in *. apply elem_of_cons. right. by apply Hin.
Qed.

(** C22: a task is done only after its review.  However the policy let a task go from
    [todo] to [done], whoever moved it and whatever was found on the way, it was in
    progress, then implemented, then in review right before it was done, and who
    moved it to [done] is no agent; and nothing moves it on. *)
Theorem task_done_reviewed moves :
  lived parse "task" "todo" moves "done" →
  (∃ actor reviewer rest, moves = (actor, "done") :: (reviewer, "in_review") :: rest ∧
    dget actor "type" ≠ Some (VStr "agent") ∧ "implemented" ∈ rest.*2 ∧ "in_progress" ∈ rest.*2) ∧
  ∀ actor to now findings waivers, allowed (transition_rules parse now findings waivers "task" "done" to actor) = false.
Proof.
  intros Hlived. split.
  2: { intros actor to now findings waivers. apply not_true_iff_false. intros [Hl _]%allowed_legal.
    apply final_statuses in Hl. set_solver. }
  inversion Hlived as [|moves' from actor ? now findings waivers Hl Ha]; subst.
  apply allowed_legal in Ha as [(Hr & _)%legal_task Hag]. rewrite (Hr eq_refl) in Hl.
  destruct (task_history _ _ Hl) as (Hhead & Hp & Hi). destruct Hhead as [|(a & rest & ->)]; [done|].
  exists actor, a, rest. split_and!; [done| |set_solver..].
  intros Hagent. apply (Hag Hagent). unfold approval_statuses. set_solver.
Qed.

(** A superseded specification, threat model or plan is in no table of transitions,
    so that anything is permitted to it. *)
Lemma superseded_anything kind known to :
  kind ∈ ["specification"; "threat-model"; "plan"] → kget statuses kind = Some known → to ∈ known →
  legal kind "superseded" to.
Proof.
  intros Hkind Hk Hto. apply legal_iff.
  repeat (apply elem_of_cons in Hkind as [->|Hkind]; [injection Hk as <-;
    repeat (apply elem_of_cons in Hto as [->|Hto]; [by vm_compute|]); by apply elem_of_nil in Hto|]).
  by apply elem_of_nil in Hkind.
Qed.

(** so a specification gets approved without ever being in review: an agent may
    supersede a draft, and a superseded document may be approved. *)
Theorem superseded_bypasses_review agent human :
  dget agent "type" = Some (VStr "agent") → dget human "type" = Some (VStr "human") →
  lived parse "specification" "draft" [(human, "approved"); (agent, "superseded")] "approved" ∧
  allowed (transition_rules parse None None None "specification" "draft" "approved" human) = false.
Proof.
  intros Ha Hh. split.
  - apply (lived_move _ _ _ _ "superseded" _ _ None None None).
    + apply (lived_move _ _ _ _ "draft" _ _ None None None); [constructor|]. apply transition_rules_allowed.
      split_and!; [apply legal_iff; by vm_compute| |done]. intros _ Hin. unfold approval_statuses in Hin. set_solver.
    + apply transition_rules_allowed. split_and!; [apply legal_iff; by vm_compute| |done]. by rewrite Hh.
  - apply not_true_iff_false. intros [Hl _]%allowed_legal. apply legal_iff in Hl. by vm_compute in Hl.
Qed.
End histories.

(** * Releases *)

(** What a release needs. *)
Record release_ready (image role : value) (signature sbom provenance : dict) (decisions approvals : list dict) : Prop := {
  ready_image : image ≠ VStr "";
  ready_signature : ∃ v, dget signature "verified" = Some v ∧ v ≠ VBool false;
  ready_sbom : ∃ v, dget sbom "present" = Some v ∧ v ≠ VBool false;
  ready_provenance : ∃ v, dget provenance "verified" = Some v ∧ v ≠ VBool false;
  ready_decisions : ∀ point, point ∈ ReleaseRules.required_points → ∃ decision, decision ∈ decisions ∧
    dget decision "point" = Some (VStr point) ∧ dget decision "decision" = Some (VStr "allow");
  ready_approval : ∃ approval actor, approval ∈ approvals ∧ same (dget approval "role") (Some role) = true ∧
    dget approval "actor" = Some (VDict actor) ∧ dget actor "type" = Some (VStr "human");
  ready_no_agent : ∀ approval actor, approval ∈ approvals → dget approval "actor" = Some (VDict actor) →
    dget actor "type" ≠ Some (VStr "agent")
}.

Lemma field_dict v k x : field v k = Some x ↔ ∃ d, v = Some (VDict d) ∧ dget d k = Some x.
Proof. destruct v as [[]|]; cbn; naive_solver. Qed.

Lemma existsb_dicts (f : value → bool) (l : list dict) :
  existsb f (elements_of (VList (VDict <$> l))) = true ↔ ∃ d, d ∈ l ∧ f (VDict d) = true.
Proof.
  cbn [elements_of]. rewrite existsb_exists. setoid_rewrite <- list_elem_of_In. setoid_rewrite list_elem_of_fmap.
  naive_solver.
Qed.

Lemma point_allowed_true decisions point :
  ReleaseRules.point_allowed (VList (VDict <$> decisions)) point = true ↔
  ∃ decision, decision ∈ decisions ∧ dget decision "point" = Some (VStr point) ∧
    dget decision "decision" = Some (VStr "allow").
Proof.
  unfold ReleaseRules.point_allowed. rewrite existsb_dicts. setoid_rewrite andb_true_iff.
  by setoid_rewrite is_str_true.
Qed.
Lemma approval_present_true input approvals role :
  dget input "required_approver_role" = Some role →
  ReleaseRules.approval_present input (VList (VDict <$> approvals)) = true ↔
  ∃ approval actor, approval ∈ approvals ∧ same (dget approval "role") (Some role) = true ∧
    dget approval "actor" = Some (VDict actor) ∧ dget actor "type" = Some (VStr "human").
Proof.
  intros Hr. unfold ReleaseRules.approval_present. rewrite existsb_dicts, Hr. setoid_rewrite andb_true_iff.
  setoid_rewrite is_str_true. setoid_rewrite field_dict. cbn [field]. naive_solver.
Qed.
Lemma agent_approval_false (approvals : list dict) :
  existsb (λ approval, is_str (field (field (Some approval) "actor") "type") "agent")
    (elements_of (VList (VDict <$> approvals))) = false ↔
  ∀ approval actor, approval ∈ approvals → dget approval "actor" = Some (VDict actor) →
    dget actor "type" ≠ Some (VStr "agent").
Proof.
  rewrite <- not_true_iff_false, existsb_dicts. setoid_rewrite is_str_true. setoid_rewrite field_dict. cbn [field].
  naive_solver.
Qed.

(** Exactly what the policy allows to be released. *)
Lemma release_rules_allowed input image role signature sbom provenance decisions approvals :
  dget input "image" = Some image → dget input "required_approver_role" = Some role →
  dget input "signature" = Some (VDict signature) → dget input "sbom" = Some (VDict sbom) →
  dget input "provenance" = Some (VDict provenance) →
  dget input "policy_decisions" = Some (VList (VDict <$> decisions)) →
  dget input "approvals" = Some (VList (VDict <$> approvals)) →
  allowed (ReleaseRules.rules input) = true ↔ release_ready image role signature sbom provenance decisions approvals.
Proof.
  intros Hi Hr Hs Hb Hp Hd Ha. unfold ReleaseRules.rules, allowed, dget_or. rewrite Hi, Hs, Hb, Hp, Hd, Ha.
  cbn [from_option id]. rewrite !forallb_rule, !negb_false_iff, agent_approval_false, (approval_present_true _ _ role Hr).
  cbn [field]. rewrite !holds_true, existsb_false. setoid_rewrite negb_false_iff. setoid_rewrite point_allowed_true.
  rewrite <- not_true_iff_false, eq_str_true. split.
  - intros (? & ? & ? & ? & ? & ? & ? & _). by split.
  - intros []. by split_and!.
Qed.

(** * Tool calls *)

Lemma contains_str_true v s : contains_str v s = true ↔ ∃ t, v = Some (VStr t) ∧ contains t s = true.
Proof. destruct v as [[]|]; cbn; naive_solver. Qed.

(** What an allowed tool call is. *)
Lemma tool_rules_allowed input tool resource :
  dget input "tool" = Some (VStr tool) → dget input "path" = Some (VStr resource) →
  allowed (ToolRules.rules input) = true ↔
  tool ∈ ToolRules.allowed_tools ∧ (∀ marker, marker ∈ ToolRules.sensitive_markers → contains resource marker = false) ∧
  (tool = "write_file" → ∀ zone, zone ∈ ToolRules.protected_paths → contains resource zone = false).
Proof.
  intros Ht Hp. unfold ToolRules.rules, allowed. rewrite Ht, Hp, !forallb_rule. cbn [not_holds in_set contains_str].
  rewrite negb_false_iff, bool_decide_eq_true, existsb_false, andb_false_iff, existsb_false.
  rewrite <- not_true_iff_false, is_str_true.
  destruct (decide (tool = "write_file")) as [->|]; naive_solver.
Qed.

(** * Witnesses *)

(** Timestamps of the form [NNNN], for examples. *)
Definition demo_clock (s : pystr) : option Z := if bool_decide (s = "2026-10-01") then Some 1 else Some 2.
Definition agent_actor : dict := [("type", VStr "agent"); ("id", VStr "implementer")].
Definition human_actor : dict := [("type", VStr "human"); ("id", VStr "owner")].

Definition task_moves : list (dict * string) :=
  [(human_actor, "done"); (agent_actor, "in_review"); (agent_actor, "implemented"); (agent_actor, "in_progress")].

Lemma demo_lived : lived demo_clock "task" "todo" task_moves "done".
Proof.
  apply (lived_move _ _ _ _ "in_review" _ _ None None None); [|vm_compute; reflexivity].
  apply (lived_move _ _ _ _ "implemented" _ _ None None None); [|vm_compute; reflexivity].
  apply (lived_move _ _ _ _ "in_progress" _ _ None None None); [|vm_compute; reflexivity].
  apply (lived_move _ _ _ _ "todo" _ _ None None None); [|vm_compute; reflexivity]. constructor.
Qed.

Lemma task_done_reviewed_witness :
  ∃ actor reviewer rest, task_moves = (actor, "done") :: (reviewer, "in_review") :: rest ∧
    dget actor "type" ≠ Some (VStr "agent").
Proof.
  destruct (task_done_reviewed demo_clock task_moves demo_lived) as [(a & r & rest & E & Ha & _) _].
  by exists a, r, rest.
Defined.

Lemma superseded_bypasses_review_witness :
  lived demo_clock "specification" "draft" [(human_actor, "approved"); (agent_actor, "superseded")] "approved".
Proof. apply (superseded_bypasses_review demo_clock agent_actor human_actor); reflexivity. Defined.

(** Cases of the policies' own tests. *)
Definition transition_case (kind from to : string) (actor : dict) (now : option pystr) (findings waivers : list dict) : value :=
  decision (TransitionRules.rules demo_clock
    (ArtifactTransition.build_transition_input kind from to actor now (Some findings) (Some waivers))).
Definition finding (severity : string) : dict := [("risk_id", VStr "RISK-0003"); ("severity", VStr severity)].
Definition waiver_until (expires_at : string) : dict :=
  [("risk_id", VStr "RISK-0003"); ("severity", VStr "medium"); ("status", VStr "active"); ("expires_at", VStr expires_at)].
Definition denied (reasons : list string) : value :=
  VDict [("allow", VBool false); ("reason_codes", VList (VStr <$> reasons))].
Definition granted : value := VDict [("allow", VBool true); ("reason_codes", VList [VStr "ALLOWED"])].

Example transition_tests :
  [transition_case "specification" "draft" "in_review" agent_actor None [] [];
   transition_case "specification" "draft" "approved" human_actor None [] [];
   transition_case "mystery" "draft" "approved" human_actor None [] [];
   transition_case "specification" "bogus" "approved" human_actor None [] [];
   transition_case "specification" "in_review" "approved" agent_actor None [] [];
   transition_case "task" "in_review" "done" human_actor (Some "2026-10-01") [finding "high"] [];
   transition_case "task" "in_review" "done" human_actor (Some "2026-10-01") [finding "medium"] [waiver_until "2026-12-21"];
   transition_case "task" "in_review" "done" human_actor (Some "2026-12-21") [finding "medium"] [waiver_until "2026-10-01"];
   transition_case "task" "in_review" "done" human_actor None [finding "medium"] [waiver_until "2026-12-21"]]
  = [granted; denied ["ILLEGAL_TRANSITION"]; denied ["UNKNOWN_ARTIFACT_TYPE"]; denied ["UNKNOWN_STATUS"];
     denied ["AGENT_MAY_NOT_APPROVE"]; denied ["BLOCKING_FINDING"]; granted; denied ["UNRESOLVED_MEDIUM"];
     denied ["UNRESOLVED_MEDIUM"]].
Proof. vm_compute. reflexivity. Qed.

Example tool_tests :
  (λ tp, decision (ToolRules.rules [("tool", VStr tp.1); ("path", VStr tp.2)])) <$>
    [("read_file", "src/main.go"); ("shell_exec", ".env"); ("write_file", "certs/server.key");
     ("write_file", "policies/pre_tool_call.rego"); ("write_artifact", "specs/tasks/TASK-0001.json")]
  = [granted; denied ["SENSITIVE_PATH"; "TOOL_NOT_IN_ALLOWLIST"]; denied ["SENSITIVE_PATH"]; denied ["PROTECTED_PATH"];
     granted].
Proof. vm_compute. reflexivity. Qed.

Lemma medium_without_risk_id_passes_witness :
  let finding := [("severity", VStr "medium")] in
  allowed (transition_rules (λ _, None) None (Some [finding]) None "task" "in_review" "done"
    [("type", VStr "human")]) = true ∧ dget finding "risk_id" = None.
Proof.
  cbv zeta. split; [|reflexivity].
  refine (proj2 (medium_without_risk_id_passes (λ _, None) None (Some [[("severity", VStr "medium")]]) None
    "task" "in_review" "done" [("type", VStr "human")] [("severity", VStr "medium")] eq_refl eq_refl eq_refl) _).
  split; [apply legal_iff; vm_compute; reflexivity|discriminate].
Defined.
