(* ===== verification/ToolRegistry.v ===== *)
(** [sdlc/tools/registry.py]: the allowlisted tool registry and the schema
    validation of tool arguments and results. *)

From S2P Require Export World.
#[local] Open Scope Z_scope.

(** * Validation errors *)

(** Python's order on the components of an error path.  Two paths of one
    instance first differ inside one container, hence between two strings or
    two integers; the mixed cases never arise. *)
Definition key_lt (a b : value) : bool :=
  match a, b with
  | VStr s, VStr t => bool_decide (s ≠ t ∧ String.le s t)
  | VInt m, VInt n => m <? n
  | VInt _, VStr _ => true
  | _, _ => false
  end.
Fixpoint path_le (p q : list value) : bool :=
  match p, q with
  | [], _ => true
  | _ :: _, [] => false
  | a :: p, b :: q => if key_lt a b then true else if key_lt b a then false else path_le p q
  end.

Definition schema_error : Type := list value * string.
Definition error_le (a b : schema_error) : Prop := path_le a.1 b.1 = true.
#[export] Instance error_le_dec a b : Decision (error_le a b).
Proof. unfold error_le. apply _. Defined.

Definition format_error (e : schema_error) : string :=
  let where_ := join "/" (py_str <$> e.1) in
  (if where_ ≟ "" then "<root>" else where_) +:+ ": " +:+ e.2.

(** [sorted(errors, key=path)], formatted. *)
Definition format_errors (errors : list schema_error) : list string :=
  format_error <$> merge_sort error_le errors.

Definition validate_instance `{Env} (instance : value) (schema : dict) : res (list string) :=
  errors ← env_iter_errors [] (VDict schema) instance;
  mret (format_errors errors).

(** * Tools *)

Abbreviation ToolHandler := (dict → ST World dict) (only parsing).

Record ToolSpec := mkToolSpec {
  spec_name : pystr;
  spec_scope : pystr;
  spec_description : pystr;
  spec_args_schema : dict;
  spec_result_schema : dict;
  spec_handler : ToolHandler
}.

(** The tools of a registry, by name. *)
Abbreviation Tools := (gmap string ToolSpec) (only parsing).

Definition register (spec : ToolSpec) (tools : Tools) : res Tools :=
  if spec_name spec ≟ "" then raise ValueError "tool name must be non-empty"
  else match tools !! spec_name spec with
  | Some _ => raise ValueError ("tool already registered: " +:+ spec_name spec)
  | None => Ok (<[spec_name spec := spec]> tools)
  end.

Definition get_tool (name : pystr) (tools : Tools) : res ToolSpec :=
  match tools !! name with
  | Some spec => Ok spec
  | None => raise UnknownToolError name
  end.

Definition names (tools : Tools) : list pystr := merge_sort String.le (elements (dom tools)).

Definition has_tool (name : value) (tools : Tools) : bool :=
  match name with VStr n => bool_decide (is_Some (tools !! n)) | _ => false end.

Definition make_tool (name scope description : pystr) (handler : ToolHandler)
    (args_schema result_schema : option dict) : ToolSpec :=
  let default_ := [("type", VStr "object")] in
  let or_default (o : option dict) := match o with Some (kv :: d) => kv :: d | _ => default_ end in
  mkToolSpec name scope description (or_default args_schema) (or_default result_schema) handler.

(** * Well-formed registries *)

(** Every tool is filed under its own name, which is not empty. *)
Definition tools_ok (tools : Tools) : Prop :=
  map_Forall (λ name spec, spec_name spec = name ∧ name ≠ "") tools.

Lemma register_cases spec tools :
  (∃ msg, register spec tools = raise ValueError msg ∧
     (spec_name spec = "" ∨ is_Some (tools !! spec_name spec))) ∨
  (spec_name spec ≠ "" ∧ tools !! spec_name spec = None ∧
     register spec tools = Ok (<[spec_name spec := spec]> tools)).
Proof.
  unfold register. case_bool_decide; [left; eauto|].
  destruct (tools !! spec_name spec); [left; eauto|by right].
Qed.

Lemma register_ok spec tools tools' : tools_ok tools → register spec tools = Ok tools' → tools_ok tools'.
Proof.
  intros Hok Hr. destruct (register_cases spec tools) as [(msg & E & _)|(? & ? & E)]; rewrite E in Hr; simplify_eq.
  by apply map_Forall_insert_2.
Qed.

Lemma elem_of_names name tools : name ∈ names tools ↔ is_Some (tools !! name).
Proof. unfold names. by rewrite merge_sort_Permutation, elem_of_elements, elem_of_dom. Qed.

(** * Properties *)

(** registration.  It refuses an empty name and a name already taken, and
    otherwise adds exactly that tool: no tool is ever replaced, every tool stays
    filed under its own name, a later lookup of the name gives the tool, and
    the names are listed sorted, once each. *)
Theorem register_correct spec tools tools' :
  tools_ok tools → register spec tools = Ok tools' →
  tools_ok tools' ∧ tools ⊆ tools' ∧ get_tool (spec_name spec) tools' = Ok spec ∧
  (∀ n, n ≠ spec_name spec → get_tool n tools' = get_tool n tools) ∧
  names tools' ≡ₚ spec_name spec :: names tools ∧ Sorted String.le (names tools') ∧ NoDup (names tools').
Proof.
  intros Hok Hr. pose proof (register_ok _ _ _ Hok Hr) as Hok'. split; [done|].
  destruct (register_cases spec tools) as [(msg & E & _)|(Hne & Hnone & E)]; rewrite E in Hr; simplify_eq.
  unfold get_tool, names. split_and!.
  - by apply insert_subseteq.
  - by rewrite lookup_insert_eq.
  - intros n Hn. by rewrite lookup_insert_ne.
  - rewrite !merge_sort_Permutation, dom_insert_L.
    rewrite elements_union_singleton by (by apply not_elem_of_dom). done.
  - apply Sorted_merge_sort; apply _.
  - rewrite merge_sort_Permutation. apply NoDup_elements.
Qed.

Lemma register_correct_witness :
  names {["a" := make_tool "a" "s" "" (λ d, mret d) None None]} ≡ₚ ["a"].
Proof.
  destruct (register_correct (make_tool "a" "s" "" (λ d, mret d) None None) ∅
    {["a" := make_tool "a" "s" "" (λ d, mret d) None None]}) as (_ & _ & _ & _ & Hp & _).
  - apply map_Forall_empty.
  - reflexivity.
  - exact Hp.
Defined.
