(* ===== verification/Artifacts.v ===== *)
(** [sdlc/artifacts/registry.py]: where the JSON Schemas are, and the validation
    of artifacts against them.  All of it only reads files. *)

From S2P Require Export Json FsFacts ToolRegistry.
#[local] Open Scope Z_scope.

(** * Reading text *)

(** Text mode translates [CR LF] and [CR] to [LF]. *)
Fixpoint universal_newlines (s : pystr) : pystr :=
  match s with
  | "" => ""
  | String a s =>
      if byte_of a =? 13 then
        match s with
        | String b s' =>
            if byte_of b =? 10 then String (chr 10) (universal_newlines s')
            else String (chr 10) (universal_newlines s)
        | "" => String (chr 10) ""
        end
      else String a (universal_newlines s)
  end.

(** [path.read_text(encoding="utf-8")] *)
Definition read_text (fs : Fs) (p : path) : res pystr :=
  raw ← read_bytes fs p; text ← decode_utf8 raw; mret (universal_newlines text).

(** [json.loads(path.read_text(encoding="utf-8"))] *)
Definition read_json (fs : Fs) (p : path) : res value := text ← read_text fs p; loads text.

(** Python's order on paths: by components. *)
Fixpoint path_leb (p q : path) : bool :=
  match p, q with
  | [], _ => true
  | _ :: _, [] => false
  | a :: p, b :: q => if bool_decide (a = b) then path_leb p q else bool_decide (String.le a b)
  end.
Definition path_le_prop (p q : path) : Prop := path_leb p q = true.
#[export] Instance path_le_prop_dec p q : Decision (path_le_prop p q).
Proof. unfold path_le_prop. apply _. Defined.
Definition sort_paths (l : list path) : list path := merge_sort path_le_prop l.

(** [sorted(directory.glob("*" + suffix))] *)
Definition glob_suffix (fs : Fs) (directory : path) (suffix : string) : list path :=
  sort_paths ((λ name, directory ++ [name])%list <$>
    filter (λ name, endswith name suffix = true) (children fs directory)).

(** * Schemas *)

Definition SCHEMA_DIR_REL : path := ["contracts"; "schemas"].
Definition SCHEMA_SUFFIX : string := ".schema.json".

(** [[origin, *origin.parents]] *)
Fixpoint self_and_parents (fuel : nat) (p : path) : list path :=
  match fuel with
  | O => [p]
  | S fuel => match p with [] => [[]] | _ => p :: self_and_parents fuel (parent p) end
  end.

Definition is_repo_root (fs : Fs) (p : path) : bool :=
  is_file fs (p ++ SCHEMA_DIR_REL ++ ["common.schema.json"])%list.

Section registry.
  Context `{Env}.

Definition find_repo_root (fs : Fs) (start : option path) : res path :=
  origin ← resolve fs (default env_module_file start);
  match filter (λ p, is_repo_root fs p = true) (self_and_parents (length origin) origin) with
  | p :: _ => Ok p
  | [] => raise FileNotFoundError "could not locate repository root"
  end.

Definition schema_dir (fs : Fs) (repo_root : option path) : res path :=
  root ← match repo_root with Some r => Ok r | None => find_repo_root fs None end;
  mret (root ++ SCHEMA_DIR_REL)%list.

Definition load_schema (fs : Fs) (name : string) (repo_root : option path) : res value :=
  directory ← schema_dir fs repo_root;
  read_json fs (path_join directory name).

(** Every schema, by its [$id] and by its file name. *)
Definition build_registry (fs : Fs) (repo_root : option path) : res (list (value * value)) :=
  directory ← schema_dir fs repo_root;
  resources ← mapR (λ p : path,
    contents ← read_json fs p;
    let name := default "" (last p) in
    id ← vget contents "$id" (VStr name);
    Ok [(id, contents); (VStr name, contents)]) (glob_suffix fs directory SCHEMA_SUFFIX);
  Ok (concat resources).

Definition artifact_schema_name (instance : dict) : res string :=
  match dget_none instance "artifact_type" with
  | VStr t =>
      if t ≟ "" then raise ValueError "artifact is missing a string 'artifact_type' field"
      else Ok (t +:+ SCHEMA_SUFFIX)
  | _ => raise ValueError "artifact is missing a string 'artifact_type' field"
  end.

Definition validate_document (fs : Fs) (instance : dict) (schema_name : string)
    (repo_root : option path) : res (list string) :=
  schema ← load_schema fs schema_name repo_root;
  registry ← build_registry fs repo_root;
  errors ← env_iter_errors registry schema (VDict instance);
  mret (format_errors errors).

Definition validate_artifact (fs : Fs) (instance : dict) (repo_root : option path) : res (list string) :=
  name ← artifact_schema_name instance;
  validate_document fs instance name repo_root.

(** [shown] is [str(path)]. *)
Definition validate_file (fs : Fs) (p : path) (shown : pystr) (repo_root : option path) : res (list string) :=
  instance ← read_json fs p;
  match instance with
  | VDict d =>
      if negb (dhas d "artifact_type") && dhas d "baseline_id" then
        validate_document fs d "baseline.schema.json" repo_root
      else validate_artifact fs d repo_root
  | _ => Ok [shown +:+ ": top-level JSON value must be an object"]
  end.

End registry.

(** * Properties *)

Lemma self_and_parents_spec fuel p q :
  (length p ≤ fuel)%nat → q ∈ self_and_parents fuel p ↔ q `prefix_of` p.
Proof.
  revert p. induction fuel as [|fuel IH]; intros p Hp; simpl.
  - destruct p; [|simpl in Hp; lia]. rewrite list_elem_of_singleton. split; [intros ->; done|].
    by intros ->%prefix_nil_inv.
  - destruct p as [|c p] using rev_ind; [rewrite list_elem_of_singleton; split; [intros ->; done|by intros ->%prefix_nil_inv]|].
    clear IHp. rewrite length_app in Hp. simpl in Hp.
    assert (match (p ++ [c])%list with [] => [[]] | _ :: _ => (p ++ [c])%list :: self_and_parents fuel (parent (p ++ [c])) end
      = (p ++ [c])%list :: self_and_parents fuel p) as ->.
    { rewrite parent_snoc. by destruct p. }
    rewrite elem_of_cons, IH by lia. split.
    + intros [->|[k ->]]; [done|]. exists (k ++ [c])%list. by rewrite app_assoc.
    + intros [k E]. destruct k as [|d k] using rev_ind; [left; by rewrite app_nil_r in E|right].
      rewrite app_assoc in E. apply app_inj_tail in E as [-> _]. by exists k.
Qed.

(** the repository root that is found is an ancestor of the (resolved) start
    that holds the common schema; if there is none, and only then, the search
    fails. *)
Theorem find_repo_root_correct `{Env} fs start origin :
  resolve fs (default env_module_file start) = Ok origin →
  match find_repo_root fs start with
  | Ok root => root `prefix_of` origin ∧ is_repo_root fs root = true
  | Raise e => exn_cls e = FileNotFoundError ∧ ∀ p, p `prefix_of` origin → is_repo_root fs p = false
  end.
Proof.
  intros Ho. unfold find_repo_root. rewrite Ho. cbn [mbind res_bind].
  destruct (filter _ _) as [|p ps] eqn:E.
  - split; [done|]. intros p Hp. apply self_and_parents_spec with (fuel := length origin) in Hp; [|done].
    destruct (is_repo_root fs p) eqn:Ep; [|done]. exfalso.
    assert (p ∈ filter (λ p, is_repo_root fs p = true) (self_and_parents (length origin) origin)) as Hin
      by (by apply list_elem_of_filter).
    rewrite E in Hin. by apply elem_of_nil in Hin.
  - assert (p ∈ filter (λ p, is_repo_root fs p = true) (self_and_parents (length origin) origin)) as Hin
      by (rewrite E; set_solver).
    apply list_elem_of_filter in Hin as [? Hin]. apply self_and_parents_spec in Hin; done.
Qed.

(** the schema an artifact is validated against is chosen by the artifact
    itself and is not confined to the schema directory: an artifact whose
    [artifact_type] is an absolute path is validated against the schema file at
    that path, whatever the repository's schemas say. *)
Theorem artifact_schema_unconfined `{Env} fs instance root t :
  dget instance "artifact_type" = Some (VStr t) → is_absolute t = true →
  validate_artifact fs instance (Some root) =
    schema ← read_json fs (path_parts (t +:+ SCHEMA_SUFFIX));
    registry ← build_registry fs (Some root);
    errors ← env_iter_errors registry schema (VDict instance);
    Ok (format_errors errors).
Proof.
  intros Ht Habs. unfold validate_artifact, artifact_schema_name, dget_none, dget_or. rewrite Ht.
  cbn [default from_option id]. rewrite bool_decide_false by (by intros ->).
  cbn [mbind res_bind]. unfold validate_document, load_schema, schema_dir, path_join.
  assert (is_absolute (t +:+ SCHEMA_SUFFIX) = true) as ->; [|done].
  unfold is_absolute in *. apply startswith_spec in Habs as [u ->].
  rewrite app_str_assoc. apply startswith_app.
Qed.

Definition repo_fs : Fs := list_to_map
  [(["repo"], Dir); (["repo"; "contracts"], Dir); (["repo"; "contracts"; "schemas"], Dir);
   (["repo"; "contracts"; "schemas"; "common.schema.json"], File "{}");
   (["repo"; "contracts"; "schemas"; "idea.schema.json"], File "{}")].

Lemma find_repo_root_correct_witness :
  match find_repo_root (H := idle_env) repo_fs None with
  | Ok root => root `prefix_of` ["repo"; "sdlc"; "registry.py"] ∧ is_repo_root repo_fs root = true
  | Raise e => exn_cls e = FileNotFoundError ∧
      ∀ p, p `prefix_of` ["repo"; "sdlc"; "registry.py"] → is_repo_root repo_fs p = false
  end.
Proof. apply (find_repo_root_correct (H := idle_env)). vm_compute. reflexivity. Defined.

Lemma artifact_schema_unconfined_witness :
  let fs := <[["evil.schema.json"] := File "{}"]> repo_fs in
  let instance := [("artifact_type", VStr "/evil"); ("anything", VNone)] in
  validate_artifact (H := idle_env) fs instance (Some ["repo"]) = Ok [] ∧
  is_ok (validate_artifact (H := idle_env) repo_fs instance (Some ["repo"])) = false.
Proof.
  intros fs instance. split; [|vm_compute; reflexivity].
  rewrite (artifact_schema_unconfined (H := idle_env) fs instance ["repo"] "/evil" eq_refl eq_refl).
  vm_compute. reflexivity.
Defined.
