(* ===== verification/Builtin.v ===== *)
(** [sdlc/tools/builtin.py]: the built-in tools - the artifact store and the
    workspace writer - and their registration. *)

From S2P Require Export Artifacts JsonFacts Crypto.
#[local] Open Scope Z_scope.

(** * Schemas *)

Definition type_of (t : string) : value := VDict [("type", VStr t)].
Definition obj_schema (required : list string) (properties : list (string * value)) (closed : bool) : dict :=
  ([("type", VStr "object"); ("required", VList (VStr <$> required)); ("properties", VDict properties)]
   ++ if closed then [("additionalProperties", VBool false)] else [])%list.

Definition READ_SCHEMA : dict := obj_schema ["artifact_id"] [("artifact_id", type_of "string")] true.
Definition READ_RESULT : dict :=
  obj_schema ["artifact_id"; "document"] [("artifact_id", type_of "string"); ("document", type_of "object")] false.
Definition WRITE_SCHEMA : dict := obj_schema ["document"] [("document", type_of "object")] true.
Definition WRITE_RESULT : dict :=
  obj_schema ["artifact_id"; "digest"] [("artifact_id", type_of "string"); ("digest", type_of "string")] false.
Definition LIST_SCHEMA : dict := [("type", VStr "object"); ("additionalProperties", VBool false)].
Definition LIST_RESULT : dict :=
  obj_schema ["artifact_ids"]
    [("artifact_ids", VDict [("type", VStr "array"); ("items", type_of "string")])] false.
Definition FILE_WRITE_SCHEMA : dict :=
  obj_schema ["path"; "content"] [("path", type_of "string"); ("content", type_of "string")] true.
Definition FILE_WRITE_RESULT : dict :=
  obj_schema ["path"; "digest"; "bytes"]
    [("path", type_of "string"); ("digest", type_of "string"); ("bytes", type_of "integer")] false.

(** * The artifact store *)

Module ArtifactStore.
Section store.
  Context (root : path).

Definition path_of (artifact_id : pystr) : path := path_join root (artifact_id +:+ ".json").

Definition read (artifact_id : pystr) : ST World dict := liftFs (λ fs,
  let p := path_of artifact_id in
  if negb (is_file fs p) then raise KeyError artifact_id
  else
    loaded ← read_json fs p;
    match loaded with
    | VDict d => Ok d
    | _ => raise TypeError ("artifact " +:+ artifact_id +:+ " is not a JSON object")
    end).

Definition write (document : dict) : ST World string :=
  match dget_none document "id" with
  | VStr artifact_id =>
      if artifact_id ≟ "" then raiseS ValueError "document is missing a string 'id'"
      else
        let canonical_text := dumps canonical (VDict document) in
        _ ← onFs (mkdir_parents root);
        data ← lift (encode_utf8 canonical_text);
        _ ← onFs (write_bytes (path_of artifact_id) data);
        mret (sha256_hex data)
  | _ => raiseS ValueError "document is missing a string 'id'"
  end.

Definition list_ids : ST World (list pystr) := askFs (λ fs,
  if negb (is_dir fs root) then []
  else merge_sort String.le
    (stem <$> filter (λ name, endswith name ".json" = true) (children fs root))).

End store.
End ArtifactStore.

Section handlers.
  Context `{Env} (store : path).

Definition _read_handler : ToolHandler := fun args =>
  v ← lift (ditem args "artifact_id");
  let artifact_id := py_str v in
  document ← ArtifactStore.read store artifact_id;
  mret [("artifact_id", VStr artifact_id); ("document", VDict document)].

Definition _write_handler : ToolHandler := fun args =>
  v ← lift (ditem args "document");
  document ← lift (vdict v);
  errors ← liftFs (λ fs, validate_artifact fs document None);
  match errors with
  | _ :: _ => raiseS ValueError (join "; " errors)
  | [] =>
      digest ← ArtifactStore.write store document;
      id ← lift (ditem document "id");
      mret [("artifact_id", VStr (py_str id)); ("digest", VStr digest)]
  end.

Definition _list_handler : ToolHandler := fun args =>
  ids ← ArtifactStore.list_ids store;
  mret [("artifact_ids", VList (VStr <$> ids))].

Definition register_artifact_tools (registry : Tools) : res Tools :=
  registry ← register (mkToolSpec "read_artifact" "workspace" "Read a canonical workflow artifact by id"
    READ_SCHEMA READ_RESULT _read_handler) registry;
  registry ← register (mkToolSpec "write_artifact" "workspace" "Validate and persist a canonical workflow artifact"
    WRITE_SCHEMA WRITE_RESULT _write_handler) registry;
  register (mkToolSpec "list_artifacts" "workspace" "List stored artifact ids"
    LIST_SCHEMA LIST_RESULT _list_handler) registry.
End handlers.

(** * The workspace writer *)

(** The part of a path check that looks at the text only; [open_pr] shares it. *)
Definition starts_with_slash (s : pystr) : bool := startswith s "/" || startswith s (String BS "").
Definition posix_slashes (s : pystr) : pystr := replace_char s BS "/".

(** The confinement of a relative path: the resolved target. *)
Definition confine (fs : Fs) (root : path) (relative_path : pystr) : res path :=
  if (relative_path ≟ "") || starts_with_slash relative_path then
    raise ValueError "path must be relative to the workspace root"
  else if bool_decide (".." ∈ path_parts relative_path) then
    raise ValueError "path must not contain '..'"
  else
    target ← World.resolve fs (path_join root relative_path);
    if negb (inside root target) then raise ValueError "path escapes the workspace root"
    else Ok target.

Module WorkspaceWriter.
(** [WorkspaceWriter.__init__] *)
Definition new (root : path) : ST World path := liftFs (λ fs, World.resolve fs root).

Definition write (root : path) (relative_path content : pystr) : ST World dict :=
  target ← liftFs (λ fs, confine fs root relative_path);
  _ ← onFs (mkdir_parents (parent target));
  data ← lift (encode_utf8 content);
  _ ← onFs (write_bytes target data);
  mret [("path", VStr (posix_slashes relative_path)); ("digest", VStr (sha256_hex data));
        ("bytes", VInt (Z.of_nat (String.length data)))].
End WorkspaceWriter.

Definition _write_file_handler (root : path) : ToolHandler := fun args =>
  p ← lift (ditem args "path");
  content ← lift (ditem args "content");
  WorkspaceWriter.write root (py_str p) (py_str content).

Definition register_file_tools (registry : Tools) (root : path) : ST World Tools :=
  writer ← WorkspaceWriter.new root;
  lift (register (mkToolSpec "write_file" "workspace" "Write a UTF-8 text file confined to the workspace root"
    FILE_WRITE_SCHEMA FILE_WRITE_RESULT (_write_file_handler writer)) registry).

(** * Helper lemmas *)

Lemma confine_Ok fs root rel target :
  confine fs root rel = Ok target →
  World.resolve fs (path_join root rel) = Ok target ∧ root `prefix_of` target ∧ clean fs target.
Proof.
  unfold confine. intros H. case_in H; [done|]. case_in H; [done|].
  apply res_bind_Ok in H as (t & Ht & H). unfold inside in H.
  case_bool_decide; simplify_eq/=. split_and!; [done..|]. by eapply resolve_clean.
Qed.

(** Writing at a link-free target below an existing directory stays below it. *)
Lemma write_below fs root target data r fs1 r2 fs2 :
  fs_wf fs → node_at fs root = Some Dir → root `prefix_of` target → clean fs target →
  mkdir_parents (parent target) fs = (r, fs1) → write_bytes target data fs1 = (r2, fs2) →
  (∀ k, ¬ (root `prefix_of` k ∧ k ≠ root) → node_at fs1 k = node_at fs k ∧ node_at fs2 k = node_at fs k) ∧
  (r2 = Ok tt → target ≠ root ∧ node_at fs2 target = Some (File data)).
Proof.
  intros Hwf Hroot Hpre Hclean Hmk Hw.
  pose proof (mkdir_parents_grows _ _ _ _ Hmk) as Hg.
  assert (Hpar : clean fs (parent target)) by (eapply clean_prefix; [apply removelast_prefix|done]).
  assert (Hfs1 : ∀ k, ¬ (root `prefix_of` k ∧ k ≠ root) → node_at fs1 k = node_at fs k).
  { intros k Hk. destruct k as [|c k]; [done|]. cbn [node_at].
    destruct (mkdir_parents_frame _ _ _ _ (c :: k) Hpar Hmk) as [?|[Hkp Hnone]]; [done|exfalso].
    assert (Hkt : (c :: k) `prefix_of` target) by (etrans; [exact Hkp|apply removelast_prefix]).
    assert (node_at fs (c :: k) = Some Dir) as Hdir; [|simpl in Hdir; congruence].
    destruct (prefix_weak_total root (c :: k) target Hpre Hkt) as [Hrk|Hkr].
    - destruct (decide (c :: k = root)) as [->|]; [done|]. by destruct Hk.
    - destruct (decide (c :: k = root)) as [->|]; [done|].
      apply (wf_prefix_dir fs root); [done|by rewrite Hroot|done|done]. }
  destruct (write_bytes_cases target data fs1) as [[e E]|(q & Hq & Hnd & _ & E)]; rewrite E in Hw; simplify_eq.
  { split; [|done]. intros k Hk. by rewrite (Hfs1 k Hk). }
  apply locate_clean in Hq; [|by eapply clean_grows]. subst q.
  assert (Hne : target ≠ root).
  { intros ->. apply Hnd. by eapply grows_at. }
  assert (target ≠ []) by (by intros ->). split.
  - intros k Hk. rewrite (node_at_insert fs1) by done. rewrite (Hfs1 k Hk). split; [done|].
    rewrite decide_False; [done|]. intros ->. by apply Hk.
  - intros _. by rewrite (node_at_insert fs1), decide_True.
Qed.

(** * Properties *)

(** C11: the workspace writer is confined.  Whatever path and content it is given,
    and whatever links the file system holds, it changes nothing outside the
    workspace root (nor the root itself); when it succeeds, the file at the
    resolved path, strictly below the root, has exactly the UTF-8 bytes of the
    content, and the digest and the size returned are theirs. *)
Theorem writer_confined root rel content w r w' :
  fs_wf (w_fs w) → node_at (w_fs w) root = Some Dir →
  WorkspaceWriter.write root rel content w = (r, w') →
  w' = set_fs (w_fs w') w ∧
  (∀ k, ¬ (root `prefix_of` k ∧ k ≠ root) → node_at (w_fs w') k = node_at (w_fs w) k) ∧
  (∀ out, r = Ok out → ∃ target,
     World.resolve (w_fs w) (path_join root rel) = Ok target ∧ root `prefix_of` target ∧ target ≠ root ∧
     node_at (w_fs w') target = Some (File content) ∧
     out = [("path", VStr (posix_slashes rel)); ("digest", VStr (sha256_hex content));
            ("bytes", VInt (Z.of_nat (String.length content)))]).
Proof.
  intros Hwf Hroot. unfold WorkspaceWriter.write. rewrite ST_bind_eq. unfold liftFs.
  destruct (confine (w_fs w) root rel) as [target|e] eqn:Ec.
  2: { intros [= <- <-]. split_and!; [by destruct w|done|done]. }
  apply confine_Ok in Ec as (Hres & Hpre & Hcl). rewrite ST_bind_eq. unfold onFs. rewrite zoom_eq.
  destruct (mkdir_parents (parent target) (w_fs w)) as [rm fs1] eqn:Em. cbn [fst snd].
  destruct (write_bytes target content fs1) as [rw fs2] eqn:Ew.
  destruct (write_below _ _ _ _ _ _ _ _ Hwf Hroot Hpre Hcl Em Ew) as [Hframe Hok].
  destruct rm as [[]|e]; [|intros [= <- <-]; split_and!; [done|by intros k Hk; apply Hframe|done]].
  rewrite ST_bind_eq, lift_eq. destruct (encode_utf8 content) as [data|e] eqn:Ee.
  2: { intros [= <- <-]. split_and!; [done|by intros k Hk; apply Hframe|done]. }
  apply encode_utf8_Ok in Ee as ->. rewrite ST_bind_eq, zoom_eq. cbn [w_fs set_fs]. rewrite Ew. cbn [fst snd].
  destruct rw as [[]|e]; [|intros [= <- <-]; split_and!; [done|by intros k Hk; apply Hframe|done]].
  rewrite ST_ret_eq. intros [= <- <-]. split_and!; [done|by intros k Hk; apply Hframe|].
  intros out [= <-]. destruct (Hok eq_refl) as [? ?]. by exists target.
Qed.

Lemma writer_confined_witness :
  let w := set_fs demo_fs empty_world in
  let r := WorkspaceWriter.write ["work"] "a/b.txt" "hi" w in
  ∃ target, World.resolve demo_fs (path_join ["work"] "a/b.txt") = Ok target ∧
    node_at (w_fs r.2) target = Some (File "hi").
Proof.
  intros w r. destruct r as [[out|e] w'] eqn:E; [|vm_compute in E; discriminate E].
  destruct (writer_confined ["work"] "a/b.txt" "hi" w (Ok out) w') as (_ & _ & Ht).
  - apply demo_fs_wf.
  - reflexivity.
  - exact E.
  - destruct (Ht out eq_refl) as (target & ? & _ & _ & ? & _). by exists target.
Defined.

(** ** The artifact store *)

Lemma universal_newlines_id s : no_ctrl s = true → universal_newlines s = s.
Proof.
  unfold no_ctrl. induction s as [|a s IH]; [done|]. simpl. intros [Ha Hs]%andb_true_iff.
  rewrite (proj2 (Z.eqb_neq (byte_of a) 13)) by lia. by rewrite IH.
Qed.

Lemma store_write_cases root document w :
  let id := dget_none document "id" in
  let text := dumps canonical (VDict document) in
  (∃ e, ArtifactStore.write root document w = (Raise e, w)) ∨
  (∃ artifact_id fs1, id = VStr artifact_id ∧ artifact_id ≠ "" ∧
    mkdir_parents root (w_fs w) = (Ok tt, fs1) ∧
    ((∃ e, ArtifactStore.write root document w = (Raise e, set_fs fs1 w)) ∨
     (∃ fs2, write_bytes (ArtifactStore.path_of root artifact_id) text fs1 = (Ok tt, fs2) ∧
        ArtifactStore.write root document w = (Ok (sha256_hex text), set_fs fs2 w)))) ∨
  (∃ e fs1, mkdir_parents root (w_fs w) = (Raise e, fs1) ∧
     ArtifactStore.write root document w = (Raise e, set_fs fs1 w)).
Proof.
  intros id text. unfold ArtifactStore.write. fold id.
  destruct id as [| | | |artifact_id| |]; try (left; by eexists).
  case_bool_decide; [left; by eexists|]. rewrite ST_bind_eq. unfold onFs. rewrite zoom_eq.
  destruct (mkdir_parents root (w_fs w)) as [[[]|e] fs1] eqn:Em; cbn [fst snd]; [|right; right; by exists e, fs1].
  right; left. exists artifact_id, fs1. split_and!; [done..|]. rewrite ST_bind_eq, lift_eq. fold text.
  destruct (encode_utf8 text) as [data|e] eqn:Ee; [|left; by exists e]. apply encode_utf8_Ok in Ee as ->.
  rewrite ST_bind_eq, zoom_eq. cbn [w_fs set_fs].
  destruct (write_bytes_cases (ArtifactStore.path_of root artifact_id) text fs1) as [[e E]|(q & _ & _ & _ & E)];
    rewrite E; cbn [fst snd]; [left; by exists e|right]. eexists. split; [done|]. by rewrite ST_ret_eq.
Qed.

Lemma read_json_written fs p v :
  json_ok v → read_bytes fs p = Ok (dumps canonical v) → read_json fs p = Ok (sort_value v).
Proof.
  intros Hv Hr. unfold read_json, read_text. rewrite Hr. cbn [mbind res_bind].
  rewrite decode_utf8_ustr by (apply ustr_dumps; [apply ustr_seps_std|done]).
  cbn [mbind res_bind mret res_ret]. rewrite universal_newlines_id by (by apply no_ctrl_dumps).
  rewrite loads_dumps_gen; [done|apply sep_ok_canonical|done].
Qed.

(** an artifact that was written is read back by its id as the same JSON
    object, with its keys in canonical order; the digest returned is the SHA-256
    digest of the canonical text in the file. *)
Theorem store_roundtrip root document w digest w' :
  fs_wf (w_fs w) → json_ok (VDict document) →
  ArtifactStore.write root document w = (Ok digest, w') →
  digest = sha256_hex (dumps canonical (VDict document)) ∧
  ∃ id d, dget document "id" = Some (VStr id) ∧ id ≠ "" ∧ VDict d = sort_value (VDict document) ∧
    ArtifactStore.read root id w' = (Ok d, w') ∧ fs_wf (w_fs w') ∧ w' = set_fs (w_fs w') w.
Proof.
  intros Hwf Hok Hw. destruct (store_write_cases root document w)
    as [[e E]|[(id & fs1 & Hid & Hne & Hm & [[e E]|(fs2 & Hwr & E)])|(e & fs1 & _ & E)]];
    rewrite E in Hw; simplify_eq.
  split; [done|]. eexists id, _.
  pose proof (mkdir_parents_wf _ _ _ _ Hwf Hm) as Hwf1.
  pose proof (write_read _ _ _ _ Hwf1 Hwr) as Hread.
  split_and!; [|done|reflexivity| |by eapply write_bytes_wf|done].
  - unfold dget_none, dget_or in Hid. destruct (dget document "id"); by simplify_eq/=.
  - unfold ArtifactStore.read, liftFs. cbn [w_fs set_fs].
    rewrite (proj2 (is_file_read _ _)) by eauto. cbn [negb].
    by rewrite (read_json_written _ _ _ Hok Hread).
Qed.

(** an invalid artifact never enters the store through the tool surface: the
    [write_artifact] handler raises and changes nothing unless the document's
    schema - the one the document names - accepts it. *)
Theorem write_artifact_validates `{Env} store args document w :
  dget args "document" = Some (VDict document) →
  let r := _write_handler store args w in
  (validate_artifact (w_fs w) document None ≠ Ok [] → is_ok r.1 = false ∧ r.2 = w) ∧
  (∀ out, r.1 = Ok out → ∃ id, dget document "id" = Some (VStr id) ∧
     out = [("artifact_id", VStr id); ("digest", VStr (sha256_hex (dumps canonical (VDict document))))] ∧
     validate_artifact (w_fs w) document None = Ok []).
Proof.
  intros Hd r. subst r. unfold _write_handler. rewrite ST_bind_eq, lift_eq. unfold ditem. rewrite Hd.
  rewrite ST_bind_eq, lift_eq. cbn [vdict]. rewrite ST_bind_eq. unfold liftFs.
  destruct (validate_artifact (w_fs w) document None) as [[|e es]|e]; [split; [done|]|split; done..].
  rewrite ST_bind_eq. destruct (store_write_cases store document w)
    as [[e E]|[(id & fs1 & Hid & Hne & Hm & [[e E]|(fs2 & Hwr & E)])|(e & fs1 & _ & E)]]; rewrite E; try done.
  unfold dget_none, dget_or in Hid. destruct (dget document "id") as [v|] eqn:Ei; simplify_eq/=.
  cbn [fst snd]. intros out [= <-]. by exists id.
Qed.

(** artifact ids are not confined to the store: an id that is an absolute path
    names the same file in every store, so reading it leaves the store's root,
    and so does writing a document with such an id. *)
Theorem artifact_id_unconfined root root' artifact_id w :
  is_absolute artifact_id = true →
  ArtifactStore.path_of root artifact_id = path_parts (artifact_id +:+ ".json") ∧
  ArtifactStore.read root artifact_id w = ArtifactStore.read root' artifact_id w.
Proof.
  intros Habs. assert (Hp : ∀ r, ArtifactStore.path_of r artifact_id = path_parts (artifact_id +:+ ".json")).
  { intros r. unfold ArtifactStore.path_of, path_join.
    assert (is_absolute (artifact_id +:+ ".json") = true) as ->; [|done].
    unfold is_absolute in *. apply startswith_spec in Habs as [u ->]. rewrite app_str_assoc. apply startswith_app. }
  split; [apply Hp|]. unfold ArtifactStore.read. by rewrite !Hp.
Qed.

Definition demo_doc : dict := [("id", VStr "IDEA-1"); ("artifact_type", VStr "idea"); ("a", VInt 1)].

Lemma store_roundtrip_witness :
  ∃ digest w', ArtifactStore.write ["work"; "store"] demo_doc (set_fs demo_fs empty_world) = (Ok digest, w') ∧
    digest = sha256_hex (dumps canonical (VDict demo_doc)).
Proof.
  eexists _, _. split; [vm_compute; reflexivity|].
  eapply (store_roundtrip ["work"; "store"] demo_doc (set_fs demo_fs empty_world));
    [apply demo_fs_wf|apply json_okb_ok; vm_compute; reflexivity|vm_compute; reflexivity].
Defined.

Lemma write_artifact_validates_witness :
  let w := set_fs repo_fs empty_world in
  is_ok (_write_handler (H := idle_env) ["repo"] [("document", VDict [("id", VStr "x")])] w).1 = false.
Proof.
  intros w. apply (write_artifact_validates (H := idle_env) ["repo"]
    [("document", VDict [("id", VStr "x")])] [("id", VStr "x")] w eq_refl).
  vm_compute. discriminate.
Defined.

Lemma artifact_id_unconfined_witness :
  ArtifactStore.path_of ["work"; "store"] "/etc/secret" = ["etc"; "secret.json"].
Proof. apply (artifact_id_unconfined ["work"; "store"] [] "/etc/secret" empty_world). reflexivity. Defined.
