(* ===== verification/Commands.v ===== *)
(** [sdlc/tools/commands.py]: the allowlisted command runner behind the
    [run_tests] tool. *)

From S2P Require Export Builtin.
#[local] Open Scope Z_scope.

Definition DEFAULT_ALLOWED_PROGRAMS : list pystr := ["ruff"; "mypy"; "pytest"; "opa"; "gofmt"; "go"].
Definition MAX_OUTPUT_CHARS : nat := 200 * 100.

Definition RUN_SCHEMA : dict :=
  obj_schema ["argv"]
    [("argv", VDict [("type", VStr "array"); ("items", type_of "string"); ("minItems", VInt 1)]);
     ("cwd", type_of "string")] true.
Definition RUN_RESULT : dict :=
  obj_schema ["exit_code"; "stdout"; "stderr"; "truncated"]
    [("exit_code", type_of "integer"); ("stdout", type_of "string");
     ("stderr", type_of "string"); ("truncated", type_of "boolean")] false.

Definition NUL : string := str1 0.
Definition has_separator (s : pystr) : bool := contains s "/" || contains s (String BS "").

Module CommandRunner.
Record t := mk { root : path; allow : list pystr }.

(** [CommandRunner.__init__]; the timeout and the process launcher are the
    environment's. *)
Definition new (root : path) (allowlist : list pystr) : ST World t :=
  root ← liftFs (λ fs, World.resolve fs root); mret (mk root allowlist).

Section runner.
  Context (self : t).

Definition check_item (item : value) : res pystr :=
  match item with
  | VStr s => if contains s NUL then raise ValueError "argv must not contain NUL" else Ok s
  | _ => raise TypeError "all argv items must be strings"
  end.

(** The validated [argv]. *)
Definition _validate (argv : value) : res (list pystr) :=
  match argv with
  | VList ((VStr program :: _) as items) =>
      if has_separator program then raise ValueError "program must be a bare name on the allowlist"
      else if negb (bool_decide (program ∈ allow self)) then
        raise ValueError ("program not allowed: " +:+ program)
      else mapR check_item items
  | VList (_ :: _) => raise ValueError "program must be a bare name on the allowlist"
  | _ => raise ValueError "argv must be a non-empty list of strings"
  end.

(** Resolve the working directory, confined to the workspace root. *)
Definition _resolve_cwd (fs : Fs) (cwd : pystr) : res path :=
  if (cwd ≟ "") || (cwd ≟ ".") then Ok (root self)
  else if starts_with_slash cwd || bool_decide (".." ∈ path_parts cwd) then
    raise ValueError "cwd must be relative to the workspace root"
  else
    target ← World.resolve fs (path_join (root self) cwd);
    if negb (inside (root self) target) then raise ValueError "cwd escapes the workspace root"
    else if negb (is_dir fs target) then raise ValueError "cwd is not a directory"
    else Ok target.

Definition result_of (completed : Completed) : dict :=
  let stdout := default "" (proc_stdout completed) in
  let stderr := default "" (proc_stderr completed) in
  let truncated := (MAX_OUTPUT_CHARS <? py_len stdout)%nat || (MAX_OUTPUT_CHARS <? py_len stderr)%nat in
  [("exit_code", VInt (proc_returncode completed));
   ("stdout", VStr (py_take MAX_OUTPUT_CHARS stdout));
   ("stderr", VStr (py_take MAX_OUTPUT_CHARS stderr));
   ("truncated", VBool truncated)].

Definition execute `{Env} (argv : value) (cwd : pystr) : ST World dict :=
  argv ← lift (_validate argv);
  dir ← liftFs (λ fs, _resolve_cwd fs cwd);
  completed ← run_process argv dir;
  mret (result_of completed).
End runner.
End CommandRunner.

Definition _run_handler `{Env} (runner : CommandRunner.t) : ToolHandler := fun args =>
  v ← lift (ditem args "argv");
  items ← lift (viter v);
  CommandRunner.execute runner (VList ((λ i, VStr (py_str i)) <$> items)) (py_str (dget_or args "cwd" (VStr ""))).

Definition register_test_tools `{Env} (registry : Tools) (root : path) (allowlist : list pystr) : ST World Tools :=
  command_runner ← CommandRunner.new root allowlist;
  lift (register (mkToolSpec "run_tests" "workspace"
    "Run an allowlisted repository check (pytest/ruff/mypy/opa) via explicit argv"
    RUN_SCHEMA RUN_RESULT (_run_handler command_runner)) registry).

(** * Correctness *)

(** What a validated command line is. *)
Definition argv_ok (allow : list pystr) (argv : list pystr) : Prop :=
  ∃ program args, argv = program :: args ∧ program ∈ allow ∧ has_separator program = false ∧
    Forall (λ s, contains s NUL = false) argv.

(** Where a command may run. *)
Definition cwd_ok (fs : Fs) (root dir : path) : Prop :=
  dir = root ∨ root `prefix_of` dir ∧ clean fs dir ∧ is_dir fs dir = true.

Lemma check_items items argv :
  mapR CommandRunner.check_item items = Ok argv ↔
  items = VStr <$> argv ∧ Forall (λ s, contains s NUL = false) argv.
Proof.
  revert argv. induction items as [|v items IH]; intros argv; cbn [mapR].
  - split; [intros [= <-]; by split|]. intros [He _]. by destruct argv.
  - rewrite res_bind_Ok. split.
    + intros (s & Hs & H). apply res_bind_Ok in H as (ss & Hss & [= <-]). apply IH in Hss as [-> Hf].
      destruct v; try done. unfold CommandRunner.check_item in Hs. case_in Hs; simplify_eq. split; [done|by constructor].
    + intros [He Hf]. destruct argv as [|s argv]; simplify_eq/=. inversion Hf as [|?? Hs Hf']; subst.
      exists s. rewrite Hs. split; [done|]. rewrite (proj2 (IH argv)) by done. done.
Qed.

Lemma validate_Ok self v argv :
  CommandRunner._validate self v = Ok argv ↔
  v = VList (VStr <$> argv) ∧ argv_ok (CommandRunner.allow self) argv.
Proof.
  unfold CommandRunner._validate, argv_ok. split.
  - destruct v as [| | | | |[|[| | | |p| |] l]|]; try done. intros H. case_in H; [done|].
    case_bool_decide; [|done]. cbn [negb] in H. apply check_items in H as [He Hf].
    destruct argv as [|p' args]; simplify_eq/=. split; [done|]. by exists p', args.
  - intros [-> (p & args & -> & Hp & Hs & Hf)]. cbn [fmap list_fmap]. rewrite Hs.
    rewrite bool_decide_true by done. cbn [negb]. by apply check_items.
Qed.

Lemma resolve_cwd_Ok self fs cwd dir :
  CommandRunner._resolve_cwd self fs cwd = Ok dir → cwd_ok fs (CommandRunner.root self) dir.
Proof.
  unfold CommandRunner._resolve_cwd, cwd_ok. intros H. case_in H; [simplify_eq; by left|right].
  case_in H; [done|]. apply res_bind_Ok in H as (t & Ht & H). unfold inside in H.
  case_bool_decide; [|done]. cbn [negb] in H. destruct (is_dir fs t) eqn:Hd; simplify_eq/=.
  split_and!; [done| |done]. by eapply resolve_clean.
Qed.

(** The world after a process ran. *)
Definition after_run `{Env} (argv : list pystr) (dir : path) (w : World) : World :=
  (run_process argv dir w).2.

Lemma execute_cases `{Env} self v cwd w r w' :
  CommandRunner.execute self v cwd w = (r, w') →
  (w' = w ∧ is_ok r = false) ∨
  ∃ argv dir, CommandRunner._validate self v = Ok argv ∧
    CommandRunner._resolve_cwd self (w_fs w) cwd = Ok dir ∧
    w' = after_run argv dir w ∧
    r = (completed ← (run_process argv dir w).1; Ok (CommandRunner.result_of completed)).
Proof.
  unfold CommandRunner.execute. rewrite ST_bind_eq, lift_eq.
  destruct (CommandRunner._validate self v) as [argv|e]; [|intros [= <- <-]; by left].
  rewrite ST_bind_eq. unfold liftFs at 1. destruct (CommandRunner._resolve_cwd self (w_fs w) cwd) as [dir|e];
    [|intros [= <- <-]; by left].
  rewrite ST_bind_eq. intros E. right. exists argv, dir. unfold after_run.
  destruct (run_process argv dir w) as [[c|e] w1]; cbv iota beta in E; [rewrite ST_ret_eq in E|];
    injection E as <- <-; by split_and!.
Qed.

Lemma run_process_log `{Env} argv dir w :
  w_log (after_run argv dir w) = EvRun argv dir :: w_log w ∧ w_runs (after_run argv dir w) = w_runs w.
Proof. unfold after_run, run_process. by destruct (env_run _ _ _ _). Qed.

(** C12: whatever arguments the [run_tests] tool is called with, either it raises and
    nothing happened, or it starts exactly one process: the given argument vector,
    whose program is a bare name of the allowlist and which has no NUL, in the
    root or in an existing directory below the root reached through no symbolic link. *)
Theorem only_allowlisted_commands `{Env} runner args w r w' :
  _run_handler runner args w = (r, w') →
  (w' = w ∧ is_ok r = false) ∨
  ∃ v (items : list value) (argv : list pystr) dir, ditem args "argv" = Ok v ∧ viter v = Ok items ∧
    argv = py_str <$> items ∧
    argv_ok (CommandRunner.allow runner) argv ∧ cwd_ok (w_fs w) (CommandRunner.root runner) dir ∧
    w' = after_run argv dir w ∧ w_log w' = EvRun argv dir :: w_log w ∧ w_runs w' = w_runs w.
Proof.
  unfold _run_handler. rewrite ST_bind_eq, lift_eq.
  destruct (ditem args "argv") as [v|e]; [|intros [= <- <-]; by left].
  rewrite ST_bind_eq, lift_eq. destruct (viter v) as [items|e] eqn:Ei; [|intros [= <- <-]; by left].
  intros E. apply execute_cases in E as [?|(argv & dir & Hv & Hd & -> & _)]; [by left|right].
  apply validate_Ok in Hv as [He Hok]. apply resolve_cwd_Ok in Hd.
  exists v, items, argv, dir. destruct (run_process_log argv dir w) as [-> ->].
  split_and!; try done. injection He as He. clear -He. revert argv He.
  induction items as [|i items IH]; intros [|a argv] He; simplify_eq/=; [done|]. f_equal. by apply IH.
Qed.

(** A text as the tool returns it, and whether it was cut. *)
Lemma py_take_fits n s : wf_str s → (py_len s ≤ n)%nat → py_take n s = s.
Proof. intros Hs Hl. unfold py_take. rewrite take_ge by done. by apply wf_str_encode_decode. Qed.

Lemma py_take_prefix n s : wf_str s → ∃ rest, s = py_take n s +:+ rest.
Proof.
  intros Hs. exists (utf8_encode (drop n (utf8_decode s))). unfold py_take.
  by rewrite <- utf8_encode_app, take_drop, wf_str_encode_decode.
Qed.

Lemma py_len_take n s : wf_str s → (py_len (py_take n s) ≤ n)%nat.
Proof.
  intros (cps & Hc & ->). unfold py_len, py_take. rewrite (utf8_decode_encode cps) by done.
  rewrite utf8_decode_encode by (by apply Forall_take). rewrite length_take. lia.
Qed.

(** the output of a command is bounded and no loss is hidden: both streams are at
    most [MAX_OUTPUT_CHARS] characters long and prefixes of what the process
    wrote, and unless [truncated] is set they are all it wrote. *)
Theorem output_bounded completed :
  let out := default "" (proc_stdout completed) in
  let err := default "" (proc_stderr completed) in
  wf_str out → wf_str err →
  ∃ stdout stderr truncated,
    CommandRunner.result_of completed =
      [("exit_code", VInt (proc_returncode completed)); ("stdout", VStr stdout);
       ("stderr", VStr stderr); ("truncated", VBool truncated)] ∧
    (py_len stdout ≤ MAX_OUTPUT_CHARS)%nat ∧ (py_len stderr ≤ MAX_OUTPUT_CHARS)%nat ∧
    (∃ rest, out = stdout +:+ rest) ∧ (∃ rest, err = stderr +:+ rest) ∧
    (truncated = false ↔ stdout = out ∧ stderr = err).
Proof.
  intros out err Ho He. eexists _, _, _. split; [reflexivity|]. fold out err.
  split_and!; [by apply py_len_take|by apply py_len_take|by apply py_take_prefix|by apply py_take_prefix|].
  rewrite orb_false_iff, !Nat.ltb_ge. split; intros [H1 H2].
  - by rewrite !py_take_fits.
  - split; [rewrite <- H1|rewrite <- H2]; by apply py_len_take.
Qed.

Definition demo_runner : CommandRunner.t := CommandRunner.mk ["work"] DEFAULT_ALLOWED_PROGRAMS.
Definition demo_args : dict := [("argv", VList [VStr "pytest"; VStr "-q"]); ("cwd", VStr "store")].

Example run_demo :
  (_run_handler (H := idle_env) demo_runner demo_args (set_fs demo_fs empty_world)).1 =
  Ok [("exit_code", VInt 0); ("stdout", VStr ""); ("stderr", VStr ""); ("truncated", VBool false)].
Proof. vm_compute. reflexivity. Qed.

Example run_refused :
  (_run_handler (H := idle_env) demo_runner [("argv", VList [VStr "/bin/sh"])] empty_world).1 =
  raise ValueError "program must be a bare name on the allowlist".
Proof. vm_compute. reflexivity. Qed.

Lemma only_allowlisted_commands_witness :
  let run := _run_handler (H := idle_env) demo_runner demo_args (set_fs demo_fs empty_world) in
  w_log run.2 = [EvRun ["pytest"; "-q"] ["work"; "store"]].
Proof.
  intros run. destruct (only_allowlisted_commands (H := idle_env) demo_runner demo_args
    (set_fs demo_fs empty_world) run.1 run.2) as [[_ Hf]|_]; [apply surjective_pairing|exfalso|];
    vm_compute in *; congruence.
Defined.

Lemma output_bounded_witness :
  ∃ out, CommandRunner.result_of (mkCompleted 1 (Some "failed") None) =
    [("exit_code", VInt 1); ("stdout", VStr out); ("stderr", VStr ""); ("truncated", VBool false)] ∧ out = "failed".
Proof.
  destruct (output_bounded (mkCompleted 1 (Some "failed") None)) as (out & err & t & _ & Hl & _).
  - apply ustr_wf, is_ascii_ustr. reflexivity.
  - apply ustr_wf, is_ascii_ustr. reflexivity.
  - exists "failed". split; [vm_compute; reflexivity|reflexivity].
Defined.
