(* ===== verification/Vcs.v ===== *)
(** [sdlc/tools/vcs.py]: the [open_pr] tool - branch, commit, push and pull
    request - with its git and GitHub back ends. *)

From S2P Require Export Commands.
From Stdlib Require Import Ascii.
#[local] Open Scope Z_scope.

(** * Branch names *)

(** First code points of the runs of decimal digits that the [\d] of a [str]
    pattern matches (Unicode 15.0, category Nd). *)
Definition DIGIT_ZEROS : list Z :=
  [48; 1632; 1776; 1984; 2406; 2534; 2662; 2790; 2918; 3046; 3174; 3302; 3430; 3558; 3664; 3792; 3872; 4160;
   4240; 6112; 6160; 6470; 6608; 6784; 6800; 6992; 7088; 7232; 7248; 42528; 43216; 43264; 43472; 43504; 43600;
   44016; 65296; 66720; 68912; 69734; 69872; 69942; 70096; 70384; 70736; 70864; 71248; 71360; 71472; 71904;
   72016; 72784; 73040; 73120; 73552; 92768; 92864; 93008; 120782; 120792; 120802; 120812; 120822; 123200;
   123632; 124144; 125264].
Definition digit_cp (cp : Z) : bool := existsb (λ z, (z <=? cp) && (cp <? z + 10)) DIGIT_ZEROS.

Definition between (lo hi cp : Z) : bool := (lo <=? cp) && (cp <=? hi).
Definition upper_cp : Z → bool := between 65 90.
Definition word_cp (cp : Z) : bool := upper_cp cp || between 48 57 cp.
Definition slug_start (cp : Z) : bool := between 97 122 cp || between 48 57 cp.
Definition slug_cp (cp : Z) : bool := slug_start cp || (cp =? 45).

(** The longest prefix of code points in [p], and the rest. *)
Fixpoint span (p : Z → bool) (l : list Z) : list Z * list Z :=
  match l with
  | [] => ([], [])
  | x :: l' => if p x then let '(a, b) := span p l' in (x :: a, b) else ([], l)
  end.

(** One or more [p], of which the first is a [q], then a hyphen: the rest. No [p]
    below holds of the hyphen, so the longest match is the only one. *)
Definition segment (q p : Z → bool) (l : list Z) : option (list Z) :=
  match l with
  | x :: l => if q x then match (span p l).2 with 45 :: rest => Some rest | _ => None end else None
  | [] => None
  end.
Definition FEATURE : list Z := utf8_decode "feature/".

(** [[A-Z][A-Z0-9]*-\d+-[A-Z][A-Z0-9]*-\d+-] *)
Definition identifiers (l : list Z) : option (list Z) :=
  l ← segment upper_cp word_cp l;
  l ← segment digit_cp digit_cp l;
  l ← segment upper_cp word_cp l;
  segment digit_cp digit_cp l.

(** [BRANCH_PATTERN.match]; the final [$] also matches before a line feed that
    ends the text. *)
Definition branch_matches (branch : pystr) : bool :=
  let l := utf8_decode branch in
  if negb (bool_decide (take 8 l = FEATURE)) then false else
  match identifiers (drop 8 l) with
  | Some (x :: l) => slug_start x && bool_decide ((span slug_cp l).2 = [] ∨ (span slug_cp l).2 = [10])
  | _ => false
  end.

Definition PROTECTED_PATH_MARKERS : list pystr :=
  [".github/"; "contracts/"; "policies/"; "security/"; "infra/"; "specs/"; ".opencode/"; "docs/adr/";
   "docs/roadmap.md"; "baseline.json"; "ARCHITECTURE_BASELINE.md"].

Definition OPEN_PR_SCHEMA : dict :=
  obj_schema ["branch"; "commit_message"; "paths"]
    [("branch", type_of "string");
     ("commit_message", VDict [("type", VStr "string"); ("minLength", VInt 1)]);
     ("paths", VDict [("type", VStr "array"); ("items", type_of "string"); ("minItems", VInt 1)]);
     ("base", type_of "string"); ("title", type_of "string"); ("body", type_of "string")] true.
Definition OPEN_PR_RESULT : dict :=
  obj_schema ["branch"; "commit"; "pr_url"]
    [("branch", type_of "string"); ("commit", type_of "string"); ("pr_url", type_of "string")] false.

(** * Git and GitHub *)

(** [_run_git]; with [capture_output] and [text] both streams are strings. *)
Definition _run_git `{Env} (argv : list pystr) (cwd : path) : ST World pystr :=
  completed ← catch (run_process ("git" :: argv) cwd) [OSError; SubprocessError]
    (λ e, raiseS ValueError ("git failed: " +:+ exn_msg e));
  if negb (proc_returncode completed =? 0) then
    raiseS ValueError ("git " +:+ join " " argv +:+ " failed: " +:+ strip (default "" (proc_stderr completed)))
  else mret (default "" (proc_stdout completed)).

Definition _github_headers (token : pystr) : list (string * string) :=
  [("Authorization", "Bearer " +:+ token); ("Accept", "application/vnd.github+json");
   ("Content-Type", "application/json"); ("X-GitHub-Api-Version", "2022-11-28")].

Definition _github_credentials `{Env} : res (pystr * pystr) :=
  match env_environ "SDLC_GITHUB_TOKEN", env_environ "SDLC_GITHUB_REPOSITORY" with
  | Some token, Some repo =>
      if (token ≟ "") || (repo ≟ "") then
        raise ValueError "SDLC_GITHUB_TOKEN and SDLC_GITHUB_REPOSITORY are required"
      else Ok (token, repo)
  | _, _ => raise ValueError "SDLC_GITHUB_TOKEN and SDLC_GITHUB_REPOSITORY are required"
  end.

Definition hex_upper (n : Z) : ascii := if n <? 10 then chr (48 + n) else chr (55 + n).
(** [urllib.parse.quote_plus]: letters, digits and [_.-~] are kept. *)
Definition quote_byte (a : ascii) : string :=
  let b := byte_of a in
  if between 48 57 b || between 65 90 b || between 97 122 b || bool_decide (b ∈ [95; 46; 45; 126])
  then String a ""
  else if b =? 32 then "+"
  else "%" +:+ of_chars [hex_upper (b / 16); hex_upper (b mod 16)].
Definition quote_plus (s : pystr) : res string :=
  data ← encode_utf8 s; mret (join "" (quote_byte <$> chars data)).

Definition pulls_url (repo : pystr) : pystr := "https://api.github.com/repos/" +:+ repo +:+ "/pulls".
Definition TRANSPORT_ERRORS : list exn_class := [URLError; OSError; TimeoutError; JSONDecodeError].

Definition _find_existing_pull_request `{Env} (repo branch : pystr) (headers : list (string * string))
    : ST World pystr :=
  let owner := default "" (head (split_char (chr 47) repo)) in
  head_ ← lift (quote_plus (owner +:+ ":" +:+ branch));
  let request := mkHttpRequest (pulls_url repo +:+ "?state=open&head=" +:+ head_) "GET" headers None in
  data ← catch (raw ← http request; data ← lift (loads_bytes raw); mret (Some data)) TRANSPORT_ERRORS
    (λ _, mret None);
  mret match data with
  | Some (VList (VDict d :: _)) => py_str (dget_or d "html_url" (VStr ""))
  | _ => ""
  end.

(** What the handlers of a failed [POST] do; [inr url] returns [url]. *)
Definition _on_post_error `{Env} (repo : pystr) (payload : dict) (headers : list (string * string)) (e : exn)
    : ST World (value + pystr) :=
  let failed (code : Z) : ST World (value + pystr) :=
    raiseS ValueError ("failed to open pull request: HTTP " +:+ dec code) in
  match exn_cls e with
  | HTTPError code =>
      if code =? 422 then
        branch ← lift (ditem payload "branch");
        existing ← _find_existing_pull_request repo (py_str branch) headers;
        if negb (existing ≟ "") then mret (inr existing) else failed code
      else failed code
  | _ => raiseS ValueError ("failed to open pull request: " +:+ exn_msg e)
  end.

(** The address in the response, or the early return. *)
Definition _pr_url (data : value + pystr) : res pystr :=
  match data with
  | inr existing => Ok existing
  | inl (VDict d) =>
      if truthy (dget_none d "html_url") then Ok (py_str (dget_none d "html_url"))
      else raise ValueError "pull request response is missing html_url"
  | inl _ => raise ValueError "pull request response is missing html_url"
  end.

Definition _open_github_pull_request `{Env} (payload : dict) : ST World pystr :=
  '(token, repo) ← lift _github_credentials;
  let headers := _github_headers token in
  title ← lift (ditem payload "title");
  branch ← lift (ditem payload "branch");
  base ← lift (ditem payload "base");
  text ← lift (ditem payload "body");
  body ← lift (encode_utf8 (dumps plain
    (VDict [("title", title); ("head", branch); ("base", base); ("body", text)])));
  let request := mkHttpRequest (pulls_url repo) "POST" headers (Some body) in
  data ← catch (raw ← http request; data ← lift (loads_bytes raw); mret (inl data)) TRANSPORT_ERRORS
    (_on_post_error repo payload headers);
  lift (_pr_url data).

(** * The tool *)

Module OpenPRTool.
Record t := mk {
  root : path;
  git : list pystr → path → ST World pystr;
  open_ : dict → ST World pystr
}.

(** [OpenPRTool.__init__] *)
Definition new `{Env} (root : path) (git : option (list pystr → path → ST World pystr))
    (open_pull_request : option (dict → ST World pystr)) : ST World t :=
  root ← liftFs (λ fs, World.resolve fs root);
  mret (mk root (default _run_git git) (default _open_github_pull_request open_pull_request)).

Definition _branch (branch : pystr) : res pystr :=
  if branch_matches branch then Ok branch
  else raise ValueError "branch must match feature/{FEATURE_ID}-{TASK_ID}-slug".

(** The first marker of a protected zone in a path. *)
Definition marker_of (p : pystr) : option pystr :=
  List.find (contains (posix_slashes p)) PROTECTED_PATH_MARKERS.
Fixpoint _reject_protected (paths : list pystr) : res unit :=
  match paths with
  | [] => Ok tt
  | p :: paths =>
      match marker_of p with
      | Some marker => raise ValueError ("PROTECTED_PR_PATH: " +:+ p +:+ " touches protected zone " +:+ repr_str marker)
      | None => _reject_protected paths
      end
  end.

Section tool.
  Context (self : t).

Definition _confine (fs : Fs) (relative_path : pystr) : res pystr :=
  _ ← confine fs (root self) relative_path; Ok (posix_slashes relative_path).

Definition _switch (branch : pystr) : ST World unit :=
  listed ← git self ["branch"; "--list"; branch] (root self);
  _ ← (if negb (strip listed ≟ "") then git self ["switch"; branch] (root self)
       else git self ["switch"; "-c"; branch] (root self));
  mret tt.

(** The checks [__call__] makes before any git or network call. *)
Definition checked_args (fs : Fs) (args : dict) : res (pystr * pystr * list pystr) :=
  b ← ditem args "branch";
  branch ← _branch (py_str b);
  m ← ditem args "commit_message";
  let message := py_str m in
  if strip message ≟ "" then raise ValueError "commit_message must be non-empty" else
  ps ← ditem args "paths";
  items ← viter ps;
  paths ← mapR (λ p, _confine fs (py_str p)) items;
  if bool_decide (paths = []) then raise ValueError "paths must be non-empty" else
  _ ← _reject_protected paths;
  mret (branch, message, paths).

Definition title_of (args : dict) (message : pystr) : res pystr :=
  if truthy (dget_none args "title") then Ok (py_str (dget_none args "title"))
  else match splitlines message with
  | line :: _ => Ok line
  | [] => raise IndexError "list index out of range"
  end.

Definition base_of (args : dict) : pystr :=
  let base := strip (py_str (vor (dget_none args "base") (VStr "main"))) in
  if base ≟ "" then "main" else base.

(** Commit the paths to the branch and push it: the commit. *)
Definition land (branch message : pystr) (paths : list pystr) : ST World pystr :=
  _ ← _switch branch;
  _ ← git self ("add" :: "--" :: paths) (root self);
  staged ← git self ["diff"; "--cached"; "--name-only"] (root self);
  _ ← (if negb (strip staged ≟ "") then git self ["commit"; "-m"; message] (root self) else mret "");
  _ ← git self ["push"; "-u"; "origin"; branch] (root self);
  commit ← git self ["rev-parse"; "HEAD"] (root self);
  mret (strip commit).

Definition call : ToolHandler := fun args =>
  '(branch, message, paths) ← liftFs (λ fs, checked_args fs args);
  let base := base_of args in
  commit ← land branch message paths;
  title ← lift (title_of args message);
  pr_url ← open_ self [("branch", VStr branch); ("base", VStr base); ("title", VStr title);
    ("body", VStr (py_str (vor (dget_none args "body") (VStr ""))))];
  mret [("branch", VStr branch); ("commit", VStr commit); ("pr_url", VStr pr_url)].
End tool.
End OpenPRTool.

Definition register_vcs_tools `{Env} (registry : Tools) (root : path)
    (git : option (list pystr → path → ST World pystr))
    (open_pull_request : option (dict → ST World pystr)) : ST World Tools :=
  tool ← OpenPRTool.new root git open_pull_request;
  lift (register (mkToolSpec "open_pr" "vcs"
    "Create a feature branch, commit the given paths, push it, and open a pull request against the base branch"
    OPEN_PR_SCHEMA OPEN_PR_RESULT (OpenPRTool.call tool)) registry).

(** * Branch names: the pattern as a grammar *)

Definition run_of (q p : Z → bool) (l : list Z) : Prop :=
  ∃ x l', l = x :: l' ∧ q x = true ∧ Forall (λ y, p y = true) l'.

(** [feature/FEAT-1-TASK-2-slug], perhaps with a line feed at the end. *)
Definition branch_grammar (l : list Z) : Prop :=
  ∃ f m t n slug last, l = FEATURE ++ f ++ 45 :: m ++ 45 :: t ++ 45 :: n ++ 45 :: slug ++ last ∧
    run_of upper_cp word_cp f ∧ run_of digit_cp digit_cp m ∧ run_of upper_cp word_cp t ∧
    run_of digit_cp digit_cp n ∧ run_of slug_start slug_cp slug ∧ (last = [] ∨ last = [10]).

Lemma span_app p l : (span p l).1 ++ (span p l).2 = l ∧ Forall (λ y, p y = true) (span p l).1.
Proof.
  induction l as [|x l [IH Hf]]; cbn [span]; [by split|]. destruct (p x) eqn:Hx; [|by split].
  destruct (span p l) as [a b]. cbn [fst snd] in *. split; [cbn; by f_equal|by constructor].
Qed.

Lemma span_stop p l k :
  Forall (λ y, p y = true) l → (∀ x k', k = x :: k' → p x = false) → span p (l ++ k) = (l, k).
Proof.
  intros Hl Hk. induction Hl as [|x l Hx Hl IH]; cbn [span app].
  - destruct k as [|x k]; [done|]. cbn [span]. by rewrite (Hk x k).
  - by rewrite Hx, IH.
Qed.

Lemma segment_spec q p l rest :
  p 45 = false →
  segment q p l = Some rest ↔ ∃ s, l = s ++ 45 :: rest ∧ run_of q p s.
Proof.
  intros Hp. unfold segment, run_of. split.
  - destruct l as [|x l]; [done|]. destruct (q x) eqn:Hq; [|done].
    destruct (span_app p l) as [He Hf]. destruct (span p l) as [a b]; cbn [fst snd] in *.
    intros H. assert (b = 45 :: rest) as ->.
    { destruct b as [|z b]; [done|]. destruct (decide (z = 45)) as [->|Hz]; [by simplify_eq|].
      exfalso. clear -H Hz. destruct z as [|z|z]; try done. do 6 (destruct z as [z|z|]; try done). }
    exists (x :: a). split; [by rewrite <- He|eauto].
  - intros (s & -> & x & s' & -> & Hq & Hf). cbn [app]. rewrite Hq.
    rewrite span_stop; [done|done|by intros ?? [= <- _]].
Qed.

Lemma identifiers_spec l rest :
  identifiers l = Some rest ↔
  ∃ f m t n, l = f ++ 45 :: m ++ 45 :: t ++ 45 :: n ++ 45 :: rest ∧
    run_of upper_cp word_cp f ∧ run_of digit_cp digit_cp m ∧ run_of upper_cp word_cp t ∧ run_of digit_cp digit_cp n.
Proof.
  unfold identifiers. split.
  - rewrite !bind_Some. setoid_rewrite bind_Some. setoid_rewrite bind_Some.
    setoid_rewrite (segment_spec _ _ _ _ eq_refl).
    intros (l1 & (f & -> & Hf) & l2 & (m & -> & Hm) & l3 & (t & -> & Ht) & n & -> & Hn). eauto 10.
  - intros (f & m & t & n & -> & Hf & Hm & Ht & Hn).
    rewrite (proj2 (segment_spec upper_cp word_cp _ _ eq_refl)) by eauto. cbn [mbind option_bind].
    rewrite (proj2 (segment_spec digit_cp digit_cp _ _ eq_refl)) by eauto. cbn [mbind option_bind].
    rewrite (proj2 (segment_spec upper_cp word_cp _ _ eq_refl)) by eauto. cbn [mbind option_bind].
    apply segment_spec; eauto.
Qed.

Lemma slug_spec x l :
  slug_start x && bool_decide ((span slug_cp l).2 = [] ∨ (span slug_cp l).2 = [10]) = true ↔
  ∃ slug last, x :: l = slug ++ last ∧ run_of slug_start slug_cp slug ∧ (last = [] ∨ last = [10]).
Proof.
  rewrite andb_true_iff, bool_decide_eq_true. split.
  - intros [Hx Hl]. destruct (span_app slug_cp l) as [He Hf].
    exists (x :: (span slug_cp l).1), (span slug_cp l).2. split; [by rewrite <- app_comm_cons, He|].
    split; [by exists x, (span slug_cp l).1|done].
  - intros (slug & last & He & (y & s & -> & Hy & Hf) & Hl). injection He as -> ->. split; [done|].
    rewrite span_stop; [done|done|]. intros z k' ->. by destruct Hl; simplify_eq.
Qed.

Lemma branch_accepts branch :
  OpenPRTool._branch branch = Ok branch ↔ branch_grammar (utf8_decode branch).
Proof.
  unfold OpenPRTool._branch. assert (H : branch_matches branch = true ↔ branch_grammar (utf8_decode branch)).
  2: { rewrite <- H. by destruct (branch_matches branch). }
  unfold branch_matches, branch_grammar. set (l := utf8_decode branch).
  split.
  - case_bool_decide as Hp; [cbn [negb]|done]. destruct (identifiers (drop 8 l)) as [[|x rest]|] eqn:Ei; try done.
    intros (slug & last & He & Hs & Hl)%slug_spec. rewrite He in Ei.
    apply identifiers_spec in Ei as (f & m & t & n & Ed & ?).
    exists f, m, t, n, slug, last. rewrite <- Ed, <- Hp, take_drop. naive_solver.
  - intros (f & m & t & n & slug & last & -> & Hf & Hm & Ht & Hn & Hs & Hl).
    change (take 8 (FEATURE ++ ?k)) with (FEATURE ++ take 0 k). rewrite take_0, app_nil_r.
    rewrite bool_decide_true by done. cbn [negb]. change (drop 8 (FEATURE ++ ?k)) with (drop 0 k). rewrite drop_0.
    rewrite (proj2 (identifiers_spec _ (slug ++ last))) by eauto 10.
    destruct Hs as (x & s & -> & Hx & Hs). cbn [app]. apply slug_spec. exists (x :: s), last.
    split; [done|]. split; [by exists x, s|done].
Qed.

(** the branch check accepts exactly the branch grammar
    [feature/FEATURE_ID-TASK_ID-slug]; as [$] also matches before a final line
    feed, a name with one line feed after the slug is accepted too, and as [\d]
    matches every decimal digit, so are non-ASCII digits. *)
Theorem branch_accepted_iff branch :
  OpenPRTool._branch branch = Ok branch ↔ branch_grammar (utf8_decode branch).
Proof. apply branch_accepts. Qed.

(** * The order of external calls *)

(** [m] adds to the log of external calls one of the sequences [S], all of it if
    it returns and a prefix of it if it raises. *)
Definition emits {A} (m : ST World A) (S : list event → Prop) : Prop :=
  ∀ w r w', m w = (r, w') →
    ∃ evs l, w_log w' = rev evs ++ w_log w ∧ S l ∧ if r is Ok _ then evs = l else evs `prefix_of` l.

Lemma emits_bind {A B} (m : ST World A) (f : A → ST World B) S T :
  emits m S → (∀ a, emits (f a) T) → (∃ l, T l) →
  emits (m ≫= f) (λ l, ∃ l1 l2, l = l1 ++ l2 ∧ S l1 ∧ T l2).
Proof.
  intros Hm Hf [l0 Hl0] w r w'. rewrite ST_bind_eq. destruct (m w) as [[a|e] w1] eqn:Em.
  - destruct (Hm _ _ _ Em) as (e1 & l1 & Hw1 & Hl1 & ->). intros E.
    destruct (Hf a _ _ _ E) as (e2 & l2 & Hw2 & Hl2 & Hr). exists (l1 ++ e2), (l1 ++ l2).
    split; [by rewrite Hw2, Hw1, rev_app_distr, app_assoc|]. split; [by exists l1, l2|].
    destruct r; [by subst|by apply prefix_app].
  - intros [= <- <-]. destruct (Hm _ _ _ Em) as (e1 & l1 & Hw1 & Hl1 & Hp).
    exists e1, (l1 ++ l0). split_and!; [done|by exists l1, l0|by apply prefix_app_r].
Qed.

Lemma emits_weaken {A} (m : ST World A) (S T : list event → Prop) :
  emits m S → (∀ l, S l → T l) → emits m T.
Proof. intros Hm Hi w r w' E. destruct (Hm _ _ _ E) as (e & l & ? & ? & ?). exists e, l. auto. Qed.

Lemma emits_quiet {A} (m : ST World A) :
  (∀ w, (m w).2 = w) → emits m (eq []).
Proof.
  intros Hm w r w' E. exists [], []. pose proof (Hm w) as H. rewrite E in H. cbn in H. subst.
  split_and!; [done|done|by destruct r].
Qed.

Section back_ends.
  Context `{Env}.

Lemma emits_run_git argv cwd : emits (_run_git argv cwd) (eq [EvRun ("git" :: argv) cwd]).
Proof.
  intros w r w'. unfold _run_git. rewrite ST_bind_eq. unfold catch.
  destruct (run_process_log ("git" :: argv) cwd w) as [Hl _]. unfold after_run in Hl.
  destruct (run_process ("git" :: argv) cwd w) as [[c|e] w1]; cbn [snd] in Hl.
  - intros E. exists [EvRun ("git" :: argv) cwd], [EvRun ("git" :: argv) cwd].
    assert (w' = w1) as ->.
    { cbv beta iota in E. destruct (negb _); [rewrite raiseS_eq in E|rewrite ST_ret_eq in E]; by injection E. }
    split_and!; [done|done|by destruct r].
  - intros E. exists [EvRun ("git" :: argv) cwd], [EvRun ("git" :: argv) cwd].
    assert (w' = w1) as -> by (cbv beta iota in E; destruct (caught_by _ e); rewrite ?raiseS_eq in E; by injection E).
    split_and!; [done|done|by destruct r].
Qed.

(** The calls that open a pull request: the [POST], and after a failed one
    perhaps the [GET] that looks for an existing pull request. *)
Definition pull_request_calls (l : list event) : Prop :=
  ∃ repo headers body, let post := EvHttp (mkHttpRequest (pulls_url repo) "POST" headers (Some body)) in
    l = [post] ∨ ∃ url, l = [post; EvHttp (mkHttpRequest url "GET" headers None)].

Lemma find_existing_log repo branch headers w r w' :
  _find_existing_pull_request repo branch headers w = (r, w') →
  w_log w' = w_log w ∨ ∃ url, w_log w' = EvHttp (mkHttpRequest url "GET" headers None) :: w_log w.
Proof.
  unfold _find_existing_pull_request. rewrite ST_bind_eq, lift_eq.
  destruct (quote_plus _) as [q|e]; [|intros [= <- <-]; by left].
  rewrite ST_bind_eq. unfold catch. rewrite ST_bind_eq. unfold http at 1.
  destruct (env_http _ _) as [raw|e].
  - rewrite ST_bind_eq, lift_eq. destruct (loads_bytes raw) as [d|e].
    + rewrite !ST_ret_eq. intros [= <- <-]. right. eauto.
    + destruct (caught_by _ e); [rewrite !ST_ret_eq|]; intros [= <- <-]; right; eauto.
  - destruct (caught_by _ e); [rewrite !ST_ret_eq|]; intros [= <- <-]; right; eauto.
Qed.

Lemma on_post_error_log repo payload headers e w r w' :
  _on_post_error repo payload headers e w = (r, w') →
  w_log w' = w_log w ∨ ∃ url, w_log w' = EvHttp (mkHttpRequest url "GET" headers None) :: w_log w.
Proof.
  unfold _on_post_error. destruct (exn_cls e); try (intros [= <- <-]; by left).
  case_match; [|intros [= <- <-]; by left]. rewrite ST_bind_eq, lift_eq.
  destruct (ditem payload "branch") as [b|e']; [|intros [= <- <-]; by left].
  rewrite ST_bind_eq. destruct (_find_existing_pull_request _ _ _ _) as [[x|e'] w1] eqn:Ef;
    apply find_existing_log in Ef; [case_match; [rewrite ST_ret_eq|]|]; by intros [= <- <-].
Qed.

Lemma emits_open payload : emits (_open_github_pull_request payload) pull_request_calls.
Proof.
  intros w r w'. unfold _open_github_pull_request.
  assert (Hq : ∀ e, (Raise e, w) = (r, w') → ∃ evs l, w_log w' = rev evs ++ w_log w ∧ pull_request_calls l ∧
    if r is Ok _ then evs = l else evs `prefix_of` l).
  { intros e [= <- <-]. exists [], [EvHttp (mkHttpRequest (pulls_url "") "POST" [] (Some ""))].
    split_and!; [done| |apply prefix_nil]. exists "", [], "". by left. }
  rewrite ST_bind_eq, lift_eq. destruct _github_credentials as [[token repo]|e]; [|apply Hq].
  do 5 (rewrite ST_bind_eq, lift_eq; match goal with |- context [match ?x with _ => _ end] => destruct x end; [|apply Hq]).
  clear Hq. rewrite ST_bind_eq. unfold catch. rewrite ST_bind_eq. unfold http at 1.
  set (post := mkHttpRequest _ _ _ _). set (w1 := log _ _).
  intros E.
  assert (Hl : w_log w' = w_log w1 ∨
      ∃ url, w_log w' = EvHttp (mkHttpRequest url "GET" (_github_headers token) None) :: w_log w1).
  { assert (Hh : ∀ e, match _on_post_error repo payload (_github_headers token) e w1 with
        | (Ok d, w2) => lift (_pr_url d) w2 | (Raise e', w2) => (Raise e', w2) end = (r, w') →
      w_log w' = w_log w1 ∨ ∃ url, w_log w' = EvHttp (mkHttpRequest url "GET" (_github_headers token) None) :: w_log w1).
    { intros e'. destruct (_on_post_error _ _ _ e' w1) as [[d|x] w2] eqn:Eh; apply on_post_error_log in Eh;
        rewrite ?lift_eq; by intros [= <- <-]. }
    destruct (env_http _ post) as [raw|e]; [rewrite ST_bind_eq, lift_eq in E; destruct (loads_bytes raw) as [d|e]|].
    - rewrite ST_ret_eq, lift_eq in E. injection E as <- <-. by left.
    - destruct (caught_by _ e); [by apply (Hh e)|injection E as <- <-; by left].
    - destruct (caught_by _ e); [by apply (Hh e)|injection E as <- <-; by left]. }
  clear E. destruct Hl as [->|[url ->]].
  - exists [EvHttp post], [EvHttp post]. split_and!; [done| |by destruct r].
    eexists repo, (_github_headers token), _. by left.
  - pose (get := EvHttp (mkHttpRequest url "GET" (_github_headers token) None)).
    exists [EvHttp post; get], [EvHttp post; get]. split_and!; [done| |by destruct r].
    eexists repo, (_github_headers token), _. right. by exists url.
Qed.
End back_ends.

(** * The tool *)

(** The git commands of one call: [known] if the branch exists already, [staged] if
    there is something to commit. *)
Definition git_script (known staged : bool) (branch message : pystr) (paths : list pystr) : list (list pystr) :=
  [["branch"; "--list"; branch]; if known then ["switch"; branch] else ["switch"; "-c"; branch];
   "add" :: "--" :: paths; ["diff"; "--cached"; "--name-only"]]
  ++ (if staged then [["commit"; "-m"; message]] else [])
  ++ [["push"; "-u"; "origin"; branch]; ["rev-parse"; "HEAD"]].
Definition git_event (root : path) (argv : list pystr) : event := EvRun ("git" :: argv) root.

Definition default_tool `{Env} (root : path) : OpenPRTool.t :=
  OpenPRTool.mk root _run_git _open_github_pull_request.

Section script.
  Context `{Env} (root : path).
Let self := default_tool root.

Lemma emits_git argv : emits (OpenPRTool.git self argv (OpenPRTool.root self)) (eq [git_event root argv]).
Proof. apply emits_run_git. Qed.

Lemma emits_switch branch : emits (OpenPRTool._switch self branch) (λ l,
  ∃ known, l = git_event root <$> take 2 (git_script known false branch "" [])).
Proof.
  eapply emits_weaken.
  - eapply (emits_bind _ _ _ (λ l, ∃ known : bool,
      l = [git_event root (if known then ["switch"; branch] else ["switch"; "-c"; branch])])); [apply emits_git| |].
    + intros listed. set (known := negb (strip listed ≟ "")). eapply emits_weaken.
      * eapply (emits_bind _ _ (λ l, l = [git_event root (if known then ["switch"; branch] else ["switch"; "-c"; branch])]) (eq [])).
        -- destruct known; (eapply emits_weaken; [apply emits_git|by intros ? <-]).
        -- intros _. by apply emits_quiet.
        -- by eexists.
      * cbn beta. intros l (l1 & l2 & -> & -> & <-). by exists known.
    + by exists [git_event root ["switch"; branch]], true.
  - cbn beta. intros l (l1 & l2 & -> & <- & [known ->]). by exists known.
Qed.

(** One git command, then the rest. *)
Lemma emits_then {B} argv (f : pystr → ST World B) T :
  (∀ a, emits (f a) T) → (∃ l, T l) →
  emits (OpenPRTool.git self argv (OpenPRTool.root self) ≫= f) (λ l, ∃ l2, l = git_event root argv :: l2 ∧ T l2).
Proof.
  intros Hf HT. eapply emits_weaken; [eapply (emits_bind _ _ _ T (emits_git argv) Hf HT)|].
  cbn beta. intros l (l1 & l2 & -> & <- & ?). by exists l2.
Qed.

Lemma emits_land branch message paths : emits (OpenPRTool.land self branch message paths) (λ l,
  ∃ known staged, l = git_event root <$> git_script known staged branch message paths).
Proof.
  pose (tail := [git_event root ["push"; "-u"; "origin"; branch]; git_event root ["rev-parse"; "HEAD"]]).
  pose (after_add := λ staged : bool,
    (if staged then [git_event root ["commit"; "-m"; message]] else []) ++ tail).
  eapply emits_weaken; [unfold OpenPRTool.land; eapply (emits_bind _ _ _ (λ l, ∃ staged,
    l = git_event root ("add" :: "--" :: paths) :: git_event root ["diff"; "--cached"; "--name-only"] :: after_add staged)
    (emits_switch branch))|].
  - intros _. eapply emits_weaken; [eapply (emits_then _ _ (λ l, ∃ staged,
      l = git_event root ["diff"; "--cached"; "--name-only"] :: after_add staged))|].
    + intros _. eapply emits_weaken; [eapply (emits_then _ _ (λ l, ∃ staged, l = after_add staged))|].
      * intros out. set (staged := negb (strip out ≟ "")). eapply emits_weaken; [eapply (emits_bind _ _
          (λ l, l = if staged then [git_event root ["commit"; "-m"; message]] else []) (λ l, l = tail))|].
        -- destruct staged; (eapply emits_weaken; [apply emits_git || by apply emits_quiet|by intros ? <-]).
        -- intros _. eapply emits_weaken; [eapply (emits_then _ _ (λ l, ∃ l2, l = git_event root ["rev-parse"; "HEAD"] :: l2 ∧ [] = l2))|].
           ++ intros _. eapply (emits_then _ _ (eq [])); [intros commit; by apply emits_quiet|by eexists].
           ++ by eexists _, [].
           ++ by intros l (? & -> & ? & -> & <-).
        -- by eexists.
        -- cbn beta. intros l (l1 & l2 & -> & -> & ->). by exists staged.
      * by exists (after_add true), true.
      * intros l (? & -> & staged & ->). by exists staged.
    + by eexists _, true.
    + intros l (? & -> & staged & ->). by exists staged.
  - by eexists _, true.
  - cbn beta. intros l (l1 & l2 & -> & [known ->] & staged & ->). exists known, staged. by destruct staged.
Qed.
End script.

(** What the checks before the first external call promise. *)
Lemma confined_paths self fs items paths :
  mapR (λ p, OpenPRTool._confine self fs (py_str p)) items = Ok paths →
  paths = (λ p, posix_slashes (py_str p)) <$> items ∧
  Forall (λ p, ∃ target, confine fs (OpenPRTool.root self) (py_str p) = Ok target) items.
Proof.
  revert paths. induction items as [|p items IH]; cbn [mapR]; intros paths; [by intros [= <-]|].
  intros (q & Hq & (qs & Hqs & [= <-])%res_bind_Ok)%res_bind_Ok. apply IH in Hqs as [-> Hf].
  unfold OpenPRTool._confine in Hq. apply res_bind_Ok in Hq as (target & Ht & [= <-]).
  split; [done|]. constructor; [by exists target|done].
Qed.

Lemma reject_protected_Ok paths :
  OpenPRTool._reject_protected paths = Ok tt ↔ Forall (λ p, OpenPRTool.marker_of p = None) paths.
Proof.
  induction paths as [|p paths IH]; cbn [OpenPRTool._reject_protected]; [by split|].
  rewrite Forall_cons, <- IH. destruct (OpenPRTool.marker_of p); naive_solver.
Qed.

Lemma checked_args_Ok self fs args branch message paths :
  OpenPRTool.checked_args self fs args = Ok (branch, message, paths) →
  branch_grammar (utf8_decode branch) ∧ strip message ≠ "" ∧ paths ≠ [] ∧
  Forall (λ p, OpenPRTool.marker_of p = None) paths ∧
  ∃ items : list value, paths = (λ p, posix_slashes (py_str p)) <$> items ∧
    Forall (λ p, ∃ target, confine fs (OpenPRTool.root self) (py_str p) = Ok target) items.
Proof.
  unfold OpenPRTool.checked_args. intros (b & _ & H)%res_bind_Ok. apply res_bind_Ok in H as (br & Hb & H).
  apply res_bind_Ok in H as (m & _ & H). case_bool_decide as Hm; [done|].
  apply res_bind_Ok in H as (ps & _ & H). apply res_bind_Ok in H as (items & _ & H).
  apply res_bind_Ok in H as (qs & Hq & H). case_bool_decide as Hqs; [done|].
  apply res_bind_Ok in H as ([] & Hp & [= <- <- <-]).
  apply confined_paths in Hq as [-> Hf]. apply reject_protected_Ok in Hp.
  assert (OpenPRTool._branch br = Ok br ∧ br = py_str b) as [Hbr ->].
  { unfold OpenPRTool._branch in *. destruct (branch_matches (py_str b)) eqn:E; [|done]. injection Hb as <-. by rewrite E. }
  split_and!; [|done..|by exists items]. revert Hbr. unfold OpenPRTool._branch.
  intros Hbr. by apply branch_accepts.
Qed.

Lemma pull_request_calls_some : ∃ l, pull_request_calls l.
Proof. eexists. exists "", [], "". by left. Qed.

Lemma emits_rest `{Env} (args : dict) (branch message commit : pystr) : emits (
  title ← lift (OpenPRTool.title_of args message);
  pr_url ← _open_github_pull_request [("branch", VStr branch); ("base", VStr (OpenPRTool.base_of args));
    ("title", VStr title); ("body", VStr (py_str (vor (dget_none args "body") (VStr ""))))];
  mret [("branch", VStr branch); ("commit", VStr commit); ("pr_url", VStr pr_url)]) pull_request_calls.
Proof.
  eapply emits_weaken; [eapply (emits_bind _ _ (eq []) pull_request_calls)|].
  - by apply emits_quiet.
  - intros title. eapply emits_weaken; [eapply (emits_bind _ _ _ (eq []) (emits_open _))|].
    + intros url. by apply emits_quiet.
    + by eexists.
    + by intros l (l1 & l2 & -> & ? & <-); rewrite app_nil_r.
  - apply pull_request_calls_some.
  - by intros l (l1 & l2 & -> & <- & ?).
Qed.

(** C15: [open_pr] is fail-closed and ordered.  Either its argument checks fail and it
    makes no git or network call at all; or the branch is well formed and the paths
    are confined to the root and free of protected markers, and it runs git in the
    root in the fixed order list, switch, add, diff, commit (only if something is
    staged), push, rev-parse, and only after all of them the pull-request calls.
    An error in the middle stops the sequence there. *)
Theorem open_pr_ordered `{Env} root args w r w' :
  let self := default_tool root in
  OpenPRTool.call self args w = (r, w') →
  (w' = w ∧ ∃ e, r = Raise e ∧ OpenPRTool.checked_args self (w_fs w) args = Raise e) ∨
  ∃ branch message paths evs known staged calls,
    OpenPRTool.checked_args self (w_fs w) args = Ok (branch, message, paths) ∧
    branch_grammar (utf8_decode branch) ∧ Forall (λ p, OpenPRTool.marker_of p = None) paths ∧
    (∃ items : list value, paths = (λ p, posix_slashes (py_str p)) <$> items ∧
      Forall (λ p, ∃ target, confine (w_fs w) root (py_str p) = Ok target) items) ∧
    w_log w' = rev evs ++ w_log w ∧ pull_request_calls calls ∧
    let all := (git_event root <$> git_script known staged branch message paths) ++ calls in
    if r is Ok _ then evs = all else evs `prefix_of` all.
Proof.
  intros self. unfold OpenPRTool.call. rewrite ST_bind_eq. unfold liftFs.
  destruct (OpenPRTool.checked_args self (w_fs w) args) as [[[branch message] paths]|e] eqn:Ec;
    [|intros [= <- <-]; left; eauto].
  pose proof (checked_args_Ok _ _ _ _ _ _ Ec) as (Hb & _ & _ & Hp & Hi). intros E. right.
  destruct (emits_bind _ _ _ pull_request_calls (emits_land root branch message paths)
    (emits_rest args branch message) pull_request_calls_some _ _ _ E)
    as (evs & l & Hw & (l1 & calls & -> & (known & staged & ->) & Hcalls) & Hr).
  exists branch, message, paths, evs, known, staged, calls. by split_and!.
Qed.

(** opening a pull request is idempotent: when GitHub answers 422 to the [POST] and
    lists an open pull request for the head, its address is the result. *)
Theorem existing_pull_request_returned `{Env} payload token repo title branch base text body url_head raw d rest w :
  _github_credentials = Ok (token, repo) →
  ditem payload "title" = Ok title → ditem payload "branch" = Ok branch →
  ditem payload "base" = Ok base → ditem payload "body" = Ok text →
  body = dumps plain (VDict [("title", title); ("head", branch); ("base", base); ("body", text)]) →
  quote_plus (default "" (head (split_char (chr 47) repo)) +:+ ":" +:+ py_str branch) = Ok url_head →
  let post := mkHttpRequest (pulls_url repo) "POST" (_github_headers token) (Some body) in
  let get := mkHttpRequest (pulls_url repo +:+ "?state=open&head=" +:+ url_head) "GET" (_github_headers token) None in
  (∃ msg, env_http (w_tick w) post = Raise (Exn (HTTPError 422) msg)) →
  env_http (S (w_tick w)) get = Ok raw → loads_bytes raw = Ok (VList (VDict d :: rest)) →
  py_str (dget_or d "html_url" (VStr "")) ≠ "" →
  ∃ w', _open_github_pull_request payload w = (Ok (py_str (dget_or d "html_url" (VStr ""))), w') ∧
    w_log w' = [EvHttp get; EvHttp post] ++ w_log w.
Proof.
  intros Hc Ht Hbr Hba Htx -> Hq post get [msg Hpost] Hget Hl Hne.
  unfold _open_github_pull_request. rewrite ST_bind_eq, lift_eq, Hc.
  rewrite ST_bind_eq, lift_eq, Ht, ST_bind_eq, lift_eq, Hbr, ST_bind_eq, lift_eq, Hba, ST_bind_eq, lift_eq, Htx.
  rewrite ST_bind_eq, lift_eq, encode_utf8_ustr by (by apply is_ascii_ustr, is_ascii_dumps).
  rewrite ST_bind_eq. unfold catch at 1. rewrite ST_bind_eq. unfold http at 1. fold post. rewrite Hpost. cbv iota beta.
  replace (caught_by TRANSPORT_ERRORS (Exn (HTTPError 422) msg)) with true by reflexivity.
  unfold _on_post_error. cbn [exn_cls]. rewrite Z.eqb_refl, ST_bind_eq, lift_eq, Hbr, ST_bind_eq.
  unfold _find_existing_pull_request. rewrite ST_bind_eq, lift_eq, Hq, ST_bind_eq.
  unfold catch at 1. rewrite ST_bind_eq. unfold http at 1. fold get. cbn [w_tick log set_tick]. rewrite Hget.
  cbv iota beta. rewrite ST_bind_eq, lift_eq, Hl, !ST_ret_eq. rewrite bool_decide_false by done. cbn [negb].
  rewrite ST_ret_eq, lift_eq. eexists. by split.
Qed.

(** the protected-path check reads the path's text, not what git stages: the path
    [.] passes every check, so [git add -- .] stages the whole tree, protected zones
    included. *)
Theorem whole_tree_passes_checks self fs branch message :
  World.resolve fs (OpenPRTool.root self) = Ok (OpenPRTool.root self) →
  OpenPRTool._branch branch = Ok branch → strip message ≠ "" →
  OpenPRTool.checked_args self fs
    [("branch", VStr branch); ("commit_message", VStr message); ("paths", VList [VStr "."])] =
  Ok (branch, message, ["."]).
Proof.
  intros Hr Hb Hm. unfold OpenPRTool.checked_args.
  assert (Hcf : OpenPRTool._confine self fs "." = Ok ".").
  { unfold OpenPRTool._confine, confine. replace (path_join (OpenPRTool.root self) ".") with (OpenPRTool.root self).
    2: { change (path_join ?r ".") with (r ++ []). symmetry. apply app_nil_r. }
    replace (("." ≟ "") || starts_with_slash ".") with false by reflexivity.
    replace (bool_decide (".." ∈ path_parts ".")) with false by reflexivity.
    rewrite Hr. cbn [mbind res_bind]. unfold inside. rewrite bool_decide_true by reflexivity. reflexivity. }
  set (args := [_; _; _]). replace (ditem args "branch") with (Ok (VStr branch)) by reflexivity.
  replace (ditem args "commit_message") with (Ok (VStr message)) by reflexivity.
  replace (ditem args "paths") with (Ok (VList [VStr "."])) by reflexivity.
  cbn [mbind res_bind py_str]. rewrite Hb. cbn [mbind res_bind]. rewrite bool_decide_false by done.
  cbn [mbind res_bind viter mapR py_str]. rewrite Hcf. reflexivity.
Qed.

(** A path with backslashes is confined as one name, then handed to git with slashes. *)
Example backslash_traversal :
  OpenPRTool._confine (OpenPRTool.mk ["work"] (λ _ _, mret "") (λ _, mret "")) demo_fs
    ("a" +:+ String BS ".." +:+ String BS ".." +:+ String BS "b") = Ok "a/../../b".
Proof. vm_compute. reflexivity. Qed.

Definition demo_branch : pystr := "feature/FEAT-0006-TASK-0009-open-pr-tool".
Definition demo_pr : dict :=
  [("branch", VStr demo_branch); ("commit_message", VStr "Add the tool"); ("paths", VList [VStr "store/a.py"])].

Example branch_with_line_feed : OpenPRTool._branch (demo_branch +:+ LF) = Ok (demo_branch +:+ LF).
Proof. vm_compute. reflexivity. Qed.

(** GitHub says that the pull request exists already. *)
Definition github_env : Env := {|
  env_clock := env_clock (Env := idle_env); env_utcnow := env_utcnow (Env := idle_env); env_uuid := env_uuid (Env := idle_env);
  env_http _ request :=
    if bool_decide (http_method request = "POST") then Raise (Exn (HTTPError 422) "Unprocessable Entity")
    else Ok (dumps plain (VList [VDict [("html_url", VStr "https://github.com/o/r/pull/7")]]));
  env_run := env_run (Env := idle_env); env_llm := env_llm (Env := idle_env);
  env_iter_errors := env_iter_errors (Env := idle_env); env_zlib := env_zlib (Env := idle_env);
  env_cwd := env_cwd (Env := idle_env); env_module_file := env_module_file (Env := idle_env);
  env_environ name := if bool_decide (name = "SDLC_GITHUB_TOKEN") then Some "t"
    else if bool_decide (name = "SDLC_GITHUB_REPOSITORY") then Some "o/r" else None;
  env_urandom := env_urandom (Env := idle_env)
|}.

Lemma open_pr_ordered_witness :
  let run := OpenPRTool.call (default_tool (H := github_env) ["work"]) demo_pr (set_fs demo_fs empty_world) in
  length (w_log run.2) = 8%nat ∧
  run.1 = Ok [("branch", VStr demo_branch); ("commit", VStr ""); ("pr_url", VStr "https://github.com/o/r/pull/7")].
Proof.
  intros run. destruct (open_pr_ordered (H := github_env) ["work"] demo_pr (set_fs demo_fs empty_world) run.1 run.2)
    as [[_ [e [He _]]]|_]; [apply surjective_pairing|vm_compute in He; congruence|].
  split; vm_compute; reflexivity.
Defined.

Lemma existing_pull_request_returned_witness :
  let payload := [("branch", VStr demo_branch); ("base", VStr "main"); ("title", VStr "t"); ("body", VStr "")] in
  ∃ w', _open_github_pull_request (H := github_env) payload empty_world = (Ok "https://github.com/o/r/pull/7", w').
Proof.
  intros payload. destruct (existing_pull_request_returned (H := github_env) payload "t" "o/r"
    (VStr "t") (VStr demo_branch) (VStr "main") (VStr "")
    (dumps plain (VDict [("title", VStr "t"); ("head", VStr demo_branch); ("base", VStr "main"); ("body", VStr "")]))
    "o%3Afeature%2FFEAT-0006-TASK-0009-open-pr-tool"
    (dumps plain (VList [VDict [("html_url", VStr "https://github.com/o/r/pull/7")]]))
    [("html_url", VStr "https://github.com/o/r/pull/7")] [] empty_world) as [w' [E _]];
    try reflexivity; try (vm_compute; reflexivity); try (eexists; reflexivity); [vm_compute; discriminate|].
  exists w'. exact E.
Defined.

Lemma whole_tree_passes_checks_witness :
  OpenPRTool.checked_args (default_tool (H := github_env) ["work"]) demo_fs
    [("branch", VStr demo_branch); ("commit_message", VStr "m"); ("paths", VList [VStr "."])] =
  Ok (demo_branch, "m", ["."]).
Proof. apply whole_tree_passes_checks; vm_compute; [reflexivity|reflexivity|discriminate]. Defined.
