(* ===== verification/Executor.v ===== *)
(** [sdlc/runner/executor.py]: the runner-executor, which runs an allowlisted
    tool after the policy, the capability and the schema gates and records
    evidence of every call. *)

From S2P Require Export RunRegistry Evidence Policy ToolRegistry.
#[local] Open Scope Z_scope.

Definition POLICY_POINT : pystr := "pre-tool-call".

Definition REASON_EXECUTED : string := "EXECUTED".
Definition REASON_UNKNOWN_TOOL : string := "UNKNOWN_TOOL".
Definition REASON_INVALID_ARGS : string := "INVALID_TOOL_ARGS".
Definition REASON_INVALID_RESULT : string := "INVALID_TOOL_RESULT".
Definition REASON_EXECUTION_FAILED : string := "EXECUTION_FAILED".
Definition REASON_TOOL_SCOPE_MISMATCH : string := "SCOPE_MISMATCH".

Record ExecutionResult := mkExecutionResult {
  res_allowed : bool;
  res_reason : string;
  res_decision : dict;
  res_evidence : dict;
  res_output : option dict
}.

(** [str(args.get("path", "") or "")], else the comma-joined [paths]. *)
Definition policy_resource (resource : pystr) (args : dict) : pystr :=
  let resource :=
    if resource ≟ "" then py_str (vor (dget_or args "path" (VStr "")) (VStr "")) else resource in
  if resource ≟ "" then
    match dget_none args "paths" with
    | VList items => join "," (py_str <$> items)
    | _ => resource
    end
  else resource.

(** The parameters of one call. *)
Record Call := mkCall {
  call_run_id : pystr;
  call_token : pystr;
  call_tool : pystr;
  call_args : dict;
  call_scope : pystr;
  call_created_at : pystr;
  call_decision_id : pystr;
  call_evidence_id : pystr;
  call_resource : pystr
}.

Section executor.
  Context `{Env} (policy : pystr → dict → ST World PolicyResult).
  Context (secret : bytes) (tools : Tools) (store : path).

(** The canonical text of a call, which is what evidence preserves. *)
Definition evidence_text (tool : pystr) (args detail : dict) : pystr :=
  dumps sorted_utf8 (VDict [("tool", VStr tool); ("args", VDict args); ("detail", VDict detail)]).

Definition _record (c : Call) (detail actor decision : dict) : ST World dict :=
  decision_id ← lift (ditem decision "id");
  outcome ← process_tool_output store (evidence_text (call_tool c) (call_args c) detail)
    ("tool." +:+ call_tool c) actor (call_run_id c) (call_evidence_id c) (call_created_at c)
    UNTRUSTED "none" DEFAULT_MAX_BYTES None (Some (py_str decision_id)) None;
  mret (out_record outcome).

Definition _deny (reason : string) (c : Call) (actor decision : dict) : ST World ExecutionResult :=
  evidence ← _record c [("denied", VStr reason)] actor decision;
  mret (mkExecutionResult false reason decision evidence None).

Definition tool_payload (c : Call) (actor : dict) : dict :=
  [("tool", VStr (call_tool c)); ("path", VStr (policy_resource (call_resource c) (call_args c)));
   ("scope", VStr (call_scope c)); ("actor", VDict actor)].

Definition execute (c : Call) : ST World ExecutionResult :=
  run ← get_run (call_run_id c);
  match run with
  | None => raiseS RunUnknownError (call_run_id c)
  | Some run =>
      let actor := run_actor run in
      policy_result ← policy POLICY_POINT (tool_payload c actor);
      let decision := build_policy_decision policy_result (call_decision_id c) (call_created_at c)
        actor (call_run_id c) POLICY_POINT None in
      if negb (pr_allow policy_result) then
        match pr_reason_codes policy_result with
        | reason :: _ => _deny reason c actor decision
        | [] => raiseS IndexError "tuple index out of range"
        end
      else
      chk ← check secret (call_token c) (call_tool c) (call_scope c) None;
      if negb (chk_valid chk) then _deny (chk_reason chk) c actor decision else
      match get_tool (call_tool c) tools with
      | Raise _ => _deny REASON_UNKNOWN_TOOL c actor decision
      | Ok spec =>
          if negb (spec_scope spec ≟ call_scope c) then
            _deny REASON_TOOL_SCOPE_MISMATCH c actor decision
          else
          arg_errors ← lift (validate_instance (VDict (call_args c)) (spec_args_schema spec));
          match arg_errors with
          | _ :: _ => _deny REASON_INVALID_ARGS c actor decision
          | [] =>
              output ← catch_all (Some <$> spec_handler spec (call_args c)) (λ _, mret None);
              match output with
              | None => _deny REASON_EXECUTION_FAILED c actor decision
              | Some output =>
                  result_errors ← lift (validate_instance (VDict output) (spec_result_schema spec));
                  match result_errors with
                  | _ :: _ => _deny REASON_INVALID_RESULT c actor decision
                  | [] =>
                      evidence ← _record c [("output", VDict output)] actor decision;
                      mret (mkExecutionResult true REASON_EXECUTED decision evidence (Some output))
                  end
              end
          end
      end
  end.

(** * Helper lemmas *)

(** Evidence of a detail was stored between two worlds: the canonical text of
    the call is in the store, and the record points to it. *)
Definition recorded (c : Call) (actor decision detail : dict) (w : World) (evidence : dict) (w' : World) : Prop :=
  let text := evidence_text (call_tool c) (call_args c) detail in
  EvidenceStore.put store text w = (Ok (sha256_hex text), w') ∧
  dget evidence "artifact_digest" = Some (VStr (sha256_hex text)) ∧
  dget evidence "artifact_ref" = Some (VStr ("sha256:" +:+ sha256_hex text)) ∧
  dget evidence "action" = Some (VStr ("tool." +:+ call_tool c)) ∧
  dget evidence "id" = Some (VStr (call_evidence_id c)) ∧
  dget evidence "run_id" = Some (VStr (call_run_id c)) ∧
  dget evidence "actor" = Some (VDict actor) ∧
  (∃ ref, dget decision "id" = Some ref ∧
     dget evidence "policy_decision_ref" = Some (VStr (py_str ref))).

Lemma record_Ok c detail actor decision w evidence w' :
  _record c detail actor decision w = (Ok evidence, w') → recorded c actor decision detail w evidence w'.
Proof.
  unfold _record, recorded. rewrite ST_bind_eq, lift_eq. unfold ditem.
  destruct (dget decision "id") as [ref|] eqn:Ei; [|done]. rewrite ST_bind_eq.
  destruct (process_tool_output _ _ _ _ _ _ _ _ _ _ _ _ _ w) as [[out|e] w1] eqn:Hp; [|done].
  apply process_names in Hp as (? & ? & ? & ? & ? & ? & ? & ?). rewrite ST_ret_eq. intros [= <- <-].
  split_and!; try done. by exists ref.
Qed.

Lemma deny_Ok reason c actor decision w r w' :
  _deny reason c actor decision w = (Ok r, w') →
  res_allowed r = false ∧ res_reason r = reason ∧ res_decision r = decision ∧ res_output r = None ∧
  recorded c actor decision [("denied", VStr reason)] w (res_evidence r) w'.
Proof.
  unfold _deny. rewrite ST_bind_eq. destruct (_record _ _ _ _ w) as [[ev|e] w1] eqn:E; [|done].
  rewrite ST_ret_eq. intros [= <- <-]. simpl. split_and!; try done. by apply record_Ok.
Qed.

(** All the gates a call passes before its handler runs, in the world [w1] the
    policy left; [w2] is the world the handler starts in. *)
Definition gates_pass (c : Call) (pr : PolicyResult) (spec : ToolSpec) (w1 w2 : World) : Prop :=
  pr_allow pr = true ∧
  (∃ chk, check secret (call_token c) (call_tool c) (call_scope c) None w1 = (Ok chk, w2) ∧
     chk_valid chk = true) ∧
  tools !! call_tool c = Some spec ∧ spec_scope spec = call_scope c ∧
  validate_instance (VDict (call_args c)) (spec_args_schema spec) = Ok [].

(** The specification of a call that returns: it was denied before its handler
    ran, or it passed every gate and its handler ran once; in each case one
    piece of evidence was recorded, last. *)
Inductive executed (c : Call) (w : World) (r : ExecutionResult) (w' : World) : Prop :=
  | exec_refused run pr w1 w2 :
      w_runs w !! call_run_id c = Some run →
      policy POLICY_POINT (tool_payload c (run_actor run)) w = (Ok pr, w1) →
      w2 = w1 ∨ w2 = (check secret (call_token c) (call_tool c) (call_scope c) None w1).2 →
      (∀ spec w3, ¬ gates_pass c pr spec w1 w3) →
      res_allowed r = false → res_output r = None →
      res_decision r = build_policy_decision pr (call_decision_id c) (call_created_at c)
        (run_actor run) (call_run_id c) POLICY_POINT None →
      recorded c (run_actor run) (res_decision r) [("denied", VStr (res_reason r))] w2 (res_evidence r) w' →
      executed c w r w'
  | exec_failed run pr spec w1 w2 out w3 :
      w_runs w !! call_run_id c = Some run →
      policy POLICY_POINT (tool_payload c (run_actor run)) w = (Ok pr, w1) →
      gates_pass c pr spec w1 w2 →
      spec_handler spec (call_args c) w2 = (out, w3) →
      (∀ o, out = Ok o → validate_instance (VDict o) (spec_result_schema spec) ≠ Ok []) →
      res_allowed r = false → res_output r = None →
      res_reason r = (if is_ok out then REASON_INVALID_RESULT else REASON_EXECUTION_FAILED) →
      res_decision r = build_policy_decision pr (call_decision_id c) (call_created_at c)
        (run_actor run) (call_run_id c) POLICY_POINT None →
      recorded c (run_actor run) (res_decision r) [("denied", VStr (res_reason r))] w3 (res_evidence r) w' →
      executed c w r w'
  | exec_done run pr spec w1 w2 out w3 :
      w_runs w !! call_run_id c = Some run →
      policy POLICY_POINT (tool_payload c (run_actor run)) w = (Ok pr, w1) →
      gates_pass c pr spec w1 w2 →
      spec_handler spec (call_args c) w2 = (Ok out, w3) →
      validate_instance (VDict out) (spec_result_schema spec) = Ok [] →
      res_allowed r = true → res_output r = Some out → res_reason r = REASON_EXECUTED →
      res_decision r = build_policy_decision pr (call_decision_id c) (call_created_at c)
        (run_actor run) (call_run_id c) POLICY_POINT None →
      recorded c (run_actor run) (res_decision r) [("output", VDict out)] w3 (res_evidence r) w' →
      executed c w r w'.

Ltac finish_deny H :=
  apply deny_Ok in H as (? & Hr & Hdec & ? & Hrec); rewrite <-Hr, <-Hdec in Hrec.

Lemma execute_spec c w r w' : execute c w = (Ok r, w') → executed c w r w'.
Proof.
  unfold execute. rewrite ST_bind_eq, get_run_eq.
  destruct (w_runs w !! call_run_id c) as [run|] eqn:Erun; [|done].
  rewrite ST_bind_eq. destruct (policy _ _ w) as [[pr|e] w1] eqn:Epol; [|done].
  destruct (pr_allow pr) eqn:Eallow; cbn [negb].
  2: { destruct (pr_reason_codes pr) as [|reason l]; [done|]. intros Hd. finish_deny Hd.
    eapply (exec_refused _ _ _ _ run pr w1 w1); eauto.
    by intros spec w3 (? & _); congruence. }
  rewrite ST_bind_eq.
  destruct (check secret (call_token c) (call_tool c) (call_scope c) None w1) as [[chk|e] w2] eqn:Echk; [|done].
  assert (Hw2 : w2 = (check secret (call_token c) (call_tool c) (call_scope c) None w1).2) by (by rewrite Echk).
  destruct (chk_valid chk) eqn:Evalid; cbn [negb].
  2: { intros Hd. finish_deny Hd. eapply (exec_refused _ _ _ _ run pr w1 _); eauto.
    intros spec w3 (_ & (chk' & Hc & ?) & _). rewrite Echk in Hc. congruence. }
  unfold get_tool. destruct (tools !! call_tool c) as [spec|] eqn:Etool.
  2: { intros Hd. finish_deny Hd. eapply (exec_refused _ _ _ _ run pr w1 _); eauto.
    intros spec w3 (_ & _ & ? & _). congruence. }
  destruct (bool_decide (spec_scope spec = call_scope c)) eqn:Escope; cbn [negb].
  2: { intros Hd. finish_deny Hd. apply bool_decide_eq_false in Escope.
    eapply (exec_refused _ _ _ _ run pr w1 _); eauto.
    intros spec' w3 (_ & _ & ? & ? & _). congruence. }
  apply bool_decide_eq_true in Escope. rewrite ST_bind_eq, lift_eq.
  destruct (validate_instance (VDict (call_args c)) (spec_args_schema spec)) as [[|e es]|e] eqn:Eargs; [|..|done].
  2: { intros Hd. finish_deny Hd. eapply (exec_refused _ _ _ _ run pr w1 _); eauto.
    intros spec' w3 (_ & _ & ? & _ & ?). simplify_eq. congruence. }
  assert (Hg : gates_pass c pr spec w1 w2).
  { split_and!; try done. by exists chk. }
  rewrite ST_bind_eq. unfold catch_all, fmap, ST_fmap.
  destruct (spec_handler spec (call_args c) w2) as [[out|e] w3] eqn:Eh.
  2: { rewrite ST_ret_eq. intros Hd. finish_deny Hd. eapply exec_failed; eauto; done. }
  rewrite ST_bind_eq, lift_eq.
  destruct (validate_instance (VDict out) (spec_result_schema spec)) as [[|e es]|e] eqn:Eres; [|..|done].
  2: { intros Hd. finish_deny Hd. eapply exec_failed; eauto.
    intros o [= <-]. congruence. }
  rewrite ST_bind_eq. destruct (_record _ _ _ _ w3) as [[ev|e] w4] eqn:Erec; [|done].
  rewrite ST_ret_eq. intros [= <- <-]. apply record_Ok in Erec. by eapply exec_done.
Qed.
End executor.

(** * Properties *)

Section properties.
  Context `{Env} (policy : pystr → dict → ST World PolicyResult) `{!PolicyEvaluator policy}.
  Context (secret : bytes) (tools : Tools) (store : path).

Lemma policy_frame point payload w r w' :
  policy point payload w = (r, w') → w_fs w' = w_fs w ∧ w_runs w' = w_runs w.
Proof. intros E. pose proof (evaluator_frame point payload w) as Hf. by rewrite E in Hf. Qed.

Lemma recorded_put c actor decision detail w ev w' :
  recorded store c actor decision detail w ev w' →
  ∃ text, EvidenceStore.put store text w = (Ok (sha256_hex text), w').
Proof. intros (? & _). eauto. Qed.

Lemma put_runs text w : w_runs (EvidenceStore.put store text w).2 = w_runs w.
Proof. destruct (put_cases store text w) as (fs1 & _ & _ & [[e ->]|(fs2 & _ & ->)]); done. Qed.

(** C2: refinement.  Every call that returns does what [executed] specifies: the
    gates are passed in order - run, policy, capability, allowlist, scope,
    argument schema - before the handler runs; the handler runs at most once;
    its result is returned only if it satisfies its schema; and exactly one
    piece of evidence, of the denial or of the output, is recorded, last. *)
Theorem execute_refines c w r w' :
  execute policy secret tools store c w = (Ok r, w') → executed policy secret tools store c w r w'.
Proof. apply execute_spec. Qed.

(** C1: a tool's output is returned only for an authenticated, authorised call:
    the run is registered, the policy allowed the call, the token decodes under
    the registry's secret to an unfinished run's capability for this tool and
    scope, which has not expired by the clock the check reads, the tool is
    allowlisted with that scope, arguments and result satisfy the tool's schemas,
    and the handler returned that output. *)
Theorem allowed_only_if_gated c w r w' :
  execute policy secret tools store c w = (Ok r, w') → res_allowed r = true →
  ∃ run pr w1 cap spec w2 out w3,
    w_runs w !! call_run_id c = Some run ∧
    policy POLICY_POINT (tool_payload c (run_actor run)) w = (Ok pr, w1) ∧ pr_allow pr = true ∧
    decode_token secret (call_token c) = Ok (mkDecodeResult (Some cap) None) ∧
    live w (cap_run_id cap) ∧ env_clock (w_tick w1) ≤ cap_expires_at cap ∧
    cap_tool cap = call_tool c ∧ cap_scope cap = call_scope c ∧
    tools !! call_tool c = Some spec ∧ spec_scope spec = call_scope c ∧
    validate_instance (VDict (call_args c)) (spec_args_schema spec) = Ok [] ∧
    w_fs w2 = w_fs w ∧ w_runs w2 = w_runs w ∧
    spec_handler spec (call_args c) w2 = (Ok out, w3) ∧
    validate_instance (VDict out) (spec_result_schema spec) = Ok [] ∧ res_output r = Some out.
Proof.
  intros Hex Hal. apply execute_spec in Hex.
  destruct Hex as [?????????|???????????|run pr spec w1 w2 out w3 Hrun Hpol Hg Hh Hv _ Hout _ _ _]; [congruence..|].
  destruct Hg as (Hpr & (chk & Hchk & Hvalid) & Ht & Hs & Hargs).
  pose proof (policy_frame _ _ _ _ _ Hpol) as [Hfs Hruns].
  destruct (check_valid_live _ _ _ _ _ _ _ _ Hchk Hvalid) as (cap & Ed & Hlive & ? & ? & ? & Hfs2 & Hruns2).
  exists run, pr, w1, cap, spec, w2, out, w3. unfold live in *. rewrite Hruns in Hlive.
  split_and!; try done; congruence.
Qed.

(** C3: a call that is refused has no effect but its evidence: unless the handler
    ran (and failed, or broke its result schema), the runs are unchanged and the
    file system is the one before the call with one original put in the store. *)
Theorem refused_without_effect c w r w' :
  execute policy secret tools store c w = (Ok r, w') →
  res_allowed r = false → res_reason r ∉ [REASON_EXECUTION_FAILED; REASON_INVALID_RESULT] →
  w_runs w' = w_runs w ∧ res_output r = None ∧
  ∃ text w2, w_fs w2 = w_fs w ∧ EvidenceStore.put store text w2 = (Ok (sha256_hex text), w').
Proof.
  intros Hex Hal Hre. apply execute_spec in Hex.
  destruct Hex as [run pr w1 w2 _ Hpol Hw2 _ _ Ho _ Hrec|
    run pr spec w1 w2 out w3 _ _ _ _ _ _ _ Hr _ _|????????????? Ht]; [| |congruence].
  2: { exfalso. apply Hre. rewrite Hr. destruct (is_ok out); set_solver. }
  apply recorded_put in Hrec as [text Hput].
  pose proof (policy_frame _ _ _ _ _ Hpol) as [Hfs Hruns].
  pose proof (check_frame secret (call_token c) (call_tool c) (call_scope c) None w1) as (Hfs2 & Hruns2 & _).
  assert (w_fs w2 = w_fs w ∧ w_runs w2 = w_runs w) as [? ?] by (destruct Hw2 as [-> | ->]; split; congruence).
  split_and!; [|done|by exists text, w2].
  pose proof (put_runs text w2) as Hp. rewrite Hput in Hp. simpl in Hp. congruence.
Qed.

(** C4: audit.  Every call that returns, allowed or denied, leaves its record:
    the policy decision says what the policy answered, and the evidence record
    names the decision and holds a handle that resolves, in the resulting
    world, to the canonical JSON of the tool, the arguments and the output or
    the reason of the denial. *)
Theorem call_audited c w r w' :
  fs_wf (w_fs w) →
  (∀ name spec args w0, tools !! name = Some spec → fs_wf (w_fs w0) →
     fs_wf (w_fs (spec_handler spec args w0).2)) →
  execute policy secret tools store c w = (Ok r, w') →
  ∃ detail handle,
    detail = match res_output r with
             | Some out => [("output", VDict out)]
             | None => [("denied", VStr (res_reason r))]
             end ∧
    dget (res_evidence r) "artifact_ref" = Some (VStr handle) ∧
    EvidenceStore.resolve store handle w' = (Ok (evidence_text (call_tool c) (call_args c) detail), w') ∧
    dget (res_evidence r) "policy_decision_ref" = Some (VStr (call_decision_id c)) ∧
    dget (res_decision r) "id" = Some (VStr (call_decision_id c)) ∧
    (res_allowed r = true → dget (res_decision r) "decision" = Some (VStr "allow")).
Proof.
  intros Hwf Hh Hex. apply execute_spec in Hex.
  assert (Hgoal : ∀ actor w0 pr detail, fs_wf (w_fs w0) →
    recorded store c actor (res_decision r) detail w0 (res_evidence r) w' →
    res_decision r = build_policy_decision pr (call_decision_id c) (call_created_at c) actor
      (call_run_id c) POLICY_POINT None →
    dget (res_evidence r) "artifact_ref" =
      Some (VStr ("sha256:" +:+ sha256_hex (evidence_text (call_tool c) (call_args c) detail))) ∧
    EvidenceStore.resolve store ("sha256:" +:+ sha256_hex (evidence_text (call_tool c) (call_args c) detail)) w' =
      (Ok (evidence_text (call_tool c) (call_args c) detail), w') ∧
    dget (res_evidence r) "policy_decision_ref" = Some (VStr (call_decision_id c)) ∧
    dget (res_decision r) "id" = Some (VStr (call_decision_id c)) ∧
    dget (res_decision r) "decision" = Some (VStr (if pr_allow pr then "allow" else "deny"))).
  { intros actor w0 pr detail Hwf0 (Hput & _ & Href & _ & _ & _ & _ & ref & Hid & Hpref) Hdec.
    destruct (put_get _ _ _ _ _ Hwf0 Hput) as (_ & Hget & _).
    rewrite Hdec in Hid |- *. injection Hid as <-. rewrite resolve_eq. done. }
  destruct Hex as [run pr w1 w2 _ Hpol Hw2 _ Ha Ho Hd Hrec|
    run pr spec w1 w2 out w3 _ Hpol Hg Hsp _ Ha Ho _ Hd Hrec|run pr spec w1 w2 out w3 _ Hpol Hg Hsp _ Ha Ho _ Hd Hrec].
  all: rewrite Ho; eexists _, _; (split; [done|]).
  all: pose proof (policy_frame _ _ _ _ _ Hpol) as [Hfs _];
    pose proof (check_frame secret (call_token c) (call_tool c) (call_scope c) None w1) as (Hfs2 & _).
  - assert (fs_wf (w_fs w2)) as Hwf2 by (by destruct Hw2 as [-> | ->]; rewrite ?Hfs2, Hfs).
    destruct (Hgoal _ _ _ _ Hwf2 Hrec Hd) as (?&?&?&?&?). rewrite Ha. by split_and!.
  - destruct Hg as (_ & (chk & Hchk & _) & Ht & _). rewrite Hchk in Hfs2. simpl in Hfs2.
    assert (fs_wf (w_fs w3)) as Hwf3.
    { pose proof (Hh _ _ (call_args c) w2 Ht) as Hx. rewrite Hsp in Hx. apply Hx. by rewrite Hfs2, Hfs. }
    destruct (Hgoal _ _ _ _ Hwf3 Hrec Hd) as (?&?&?&?&?). rewrite Ha. by split_and!.
  - destruct Hg as (Hpr & (chk & Hchk & _) & Ht & _). rewrite Hchk in Hfs2. simpl in Hfs2.
    assert (fs_wf (w_fs w3)) as Hwf3.
    { pose proof (Hh _ _ (call_args c) w2 Ht) as Hx. rewrite Hsp in Hx. apply Hx. by rewrite Hfs2, Hfs. }
    destruct (Hgoal _ _ _ _ Hwf3 Hrec Hd) as (?&?&?&?&Hde). rewrite Hpr in Hde. by split_and!.
Qed.
End properties.

(** a tool may run without leaving evidence.  When the output (or an
    argument) holds text that UTF-8 cannot encode, a lone surrogate, a call
    whose gates all passed raises after its handler ran: the handler's effects
    stay, and nothing is recorded. *)
Theorem unencodable_call_unrecorded `{Env} (policy : pystr → dict → ST World PolicyResult) secret tools store
    c w run pr spec w1 w2 out w3 e :
  w_runs w !! call_run_id c = Some run →
  policy POLICY_POINT (tool_payload c (run_actor run)) w = (Ok pr, w1) →
  gates_pass secret tools c pr spec w1 w2 →
  spec_handler spec (call_args c) w2 = (Ok out, w3) →
  validate_instance (VDict out) (spec_result_schema spec) = Ok [] →
  encode_utf8 (evidence_text (call_tool c) (call_args c) [("output", VDict out)]) = Raise e →
  execute policy secret tools store c w = (Raise e, w3).
Proof.
  intros Hrun Hpol (Hpr & (chk & Hchk & Hv) & Ht & Hs & Hargs) Hh Hres Henc.
  unfold execute. rewrite ST_bind_eq, get_run_eq, Hrun. rewrite ST_bind_eq, Hpol, Hpr. cbn [negb].
  rewrite ST_bind_eq, Hchk, Hv. cbn [negb]. unfold get_tool. rewrite Ht, bool_decide_true by done.
  cbn [negb]. rewrite ST_bind_eq, lift_eq, Hargs. rewrite ST_bind_eq. unfold catch_all, fmap, ST_fmap.
  rewrite Hh. rewrite ST_bind_eq, lift_eq, Hres, ST_bind_eq.
  unfold _record. rewrite ST_bind_eq, lift_eq. unfold ditem.
  change (dget (build_policy_decision _ _ _ _ _ _ None) "id") with (Some (VStr (call_decision_id c))).
  cbv iota beta. rewrite ST_bind_eq. unfold process_tool_output. rewrite bool_decide_false by done.
  rewrite ST_bind_eq, lift_eq, compress_eq, Henc. done.
Qed.

(** * Witnesses *)

Definition long_cap (run_id : pystr) : Capability := mkCapability run_id "echo" "s" 1800000000.
Definition token_for (run_id : pystr) : pystr :=
  match issue_token "key" (long_cap run_id) with Ok t => t | Raise _ => "" end.
Definition echo_tools : Tools :=
  {["echo" := make_tool "echo" "s" "" (λ args, mret args) None None]}.
Definition two_runs : World :=
  set_runs (<["A" := mkRun "A" [("id", VStr "alice")] 0 true]>
    {["B" := mkRun "B" [("id", VStr "bob")] 0 false]}) ev_world.
Definition demo_call (run_id token : pystr) : Call :=
  mkCall run_id token "echo" [("x", VInt 1)] "s" "t" "PD-1" "EV-1" "".
Definition demo_execute : Call → ST World ExecutionResult :=
  execute (H := allow_env) (evaluate (H := allow_env) demo_client) "key" echo_tools demo_store.

(** the executor never compares the run of the token with the run of the
    call: a token of one run executes a call made in the name of another run,
    even a finished one, and the evidence blames the other run's actor. *)
Theorem token_of_another_run :
  let c := demo_call "A" (token_for "B") in
  decode_token "key" (call_token c) = Ok (mkDecodeResult (Some (long_cap "B")) None) ∧
  (run_finished <$> w_runs two_runs !! call_run_id c) = Some true ∧
  ∃ r w', demo_execute c two_runs = (Ok r, w') ∧ res_allowed r = true ∧
    dget (res_evidence r) "run_id" = Some (VStr "A") ∧
    dget (res_evidence r) "actor" = Some (VDict [("id", VStr "alice")]).
Proof.
  intros c. split; [vm_compute; reflexivity|]. split; [reflexivity|].
  assert (H : match (demo_execute (demo_call "A" (token_for "B")) two_runs).1 with
    | Ok r => Some (res_allowed r, dget (res_evidence r) "run_id", dget (res_evidence r) "actor") | Raise _ => None end
    = Some (true, Some (VStr "A"), Some (VDict [("id", VStr "alice")]))) by (vm_compute; reflexivity).
  fold c in H. destruct (demo_execute c two_runs) as [[r|e] w']; [|discriminate H]. exists r, w'.
  injection H as -> -> ->. by split_and!.
Qed.

Lemma demo_allowed : ∃ r w',
  demo_execute (demo_call "B" (token_for "B")) two_runs = (Ok r, w') ∧
  res_allowed r = true ∧ res_output r = Some [("x", VInt 1)].
Proof.
  assert (H : match (demo_execute (demo_call "B" (token_for "B")) two_runs).1 with
    | Ok r => Some (res_allowed r, res_output r) | Raise _ => None end = Some (true, Some [("x", VInt 1)]))
    by (vm_compute; reflexivity).
  destruct (demo_execute _ two_runs) as [[r|e] w']; [|discriminate H]. exists r, w'.
  injection H as -> ->. by split_and!.
Qed.
Lemma demo_refused : ∃ r w',
  demo_execute (demo_call "A" "not-a-token") two_runs = (Ok r, w') ∧
  res_allowed r = false ∧ res_reason r = REASON_MALFORMED_TOKEN.
Proof.
  assert (H : match (demo_execute (demo_call "A" "not-a-token") two_runs).1 with
    | Ok r => Some (res_allowed r, res_reason r) | Raise _ => None end = Some (false, REASON_MALFORMED_TOKEN))
    by (vm_compute; reflexivity).
  destruct (demo_execute _ two_runs) as [[r|e] w']; [|discriminate H]. exists r, w'.
  injection H as -> ->. by split_and!.
Qed.

Lemma execute_refines_witness :
  ∃ r w', executed (H := allow_env) (evaluate (H := allow_env) demo_client) "key" echo_tools demo_store
    (demo_call "B" (token_for "B")) two_runs r w'.
Proof.
  destruct demo_allowed as (r & w' & E & _). exists r, w'.
  by apply (execute_refines (H := allow_env) (evaluate (H := allow_env) demo_client)).
Defined.

Lemma allowed_only_if_gated_witness :
  let c := demo_call "B" (token_for "B") in ∃ spec, echo_tools !! call_tool c = Some spec ∧
    spec_scope spec = call_scope c ∧ is_Some (w_runs two_runs !! call_run_id c).
Proof.
  intros c. destruct demo_allowed as (r & w' & E & Ha & _).
  destruct (allowed_only_if_gated (H := allow_env) (evaluate (H := allow_env) demo_client) "key" echo_tools
    demo_store c two_runs r w' E Ha) as (run & pr & w1 & cap & spec & w2 & out & w3 & Hr & _ & _ & _ & _ & _ & _ & _ & Ht & Hs & _).
  exists spec. eauto.
Defined.

Lemma refused_without_effect_witness :
  w_runs (demo_execute (demo_call "A" "not-a-token") two_runs).2 = w_runs two_runs.
Proof.
  destruct demo_refused as (r & w' & E & Ha & Hr). rewrite E.
  apply (refused_without_effect (H := allow_env) (evaluate (H := allow_env) demo_client) "key" echo_tools
    demo_store (demo_call "A" "not-a-token") two_runs r w' E Ha).
  rewrite Hr. apply (bool_decide_unpack _). reflexivity.
Defined.

Lemma call_audited_witness :
  let c := demo_call "B" (token_for "B") in
  ∃ r w' handle, demo_execute c two_runs = (Ok r, w') ∧
    dget (res_evidence r) "artifact_ref" = Some (VStr handle) ∧
    EvidenceStore.resolve demo_store handle w' =
      (Ok (evidence_text "echo" (call_args c) [("output", VDict [("x", VInt 1)])]), w').
Proof.
  intros c. destruct demo_allowed as (r & w' & E & Ha & Ho).
  destruct (call_audited (H := allow_env) (evaluate (H := allow_env) demo_client) "key" echo_tools
    demo_store c two_runs r w') as (detail & handle & Hd & Hr & Hres & _).
  - apply demo_fs_wf.
  - intros name spec args w0 Ht Hwf. unfold echo_tools in Ht.
    apply lookup_singleton_Some in Ht as [_ <-]. exact Hwf.
  - exact E.
  - exists r, w', handle. split_and!; [done|done|]. by rewrite Hres, Hd, Ho.
Defined.

(** The lone surrogate U+D800. *)
Definition lone : pystr := utf8_enc 55296.

Lemma unencodable_call_unrecorded_witness :
  let c := mkCall "B" (token_for "B") "echo" [("x", VStr lone)] "s" "t" "PD-1" "EV-1" "" in
  ∃ e w', demo_execute c two_runs = (Raise e, w').
Proof.
  intros c. eexists _, _.
  eapply (unencodable_call_unrecorded (H := allow_env) (evaluate (H := allow_env) demo_client) "key" echo_tools
    demo_store c two_runs (mkRun "B" [("id", VStr "bob")] 0 false)
    (mkPolicyResult true ["ALLOWED"] "b1" _)).
  - vm_compute. reflexivity.
  - vm_compute. reflexivity.
  - split_and!; [reflexivity| |reflexivity|reflexivity|reflexivity].
    eexists. split; [vm_compute; reflexivity|reflexivity].
  - reflexivity.
  - reflexivity.
  - vm_compute. reflexivity.
Defined.
