(* ===== verification/Datetime.v ===== *)
(** [datetime] of the standard library, as far as the control plane uses it:
    [datetime.fromisoformat] (the C implementation, which scans the UTF-8 text
    of the string with a terminating null) and the order of aware datetimes.
    A datetime is the instant it denotes, in microseconds since
    0001-01-01T00:00:00+00:00, and whether it carries an offset. *)

From S2P Require Export PyValue.
#[local] Open Scope Z_scope.

(** * Calendar *)

Definition is_leap (y : Z) : bool := (y mod 4 =? 0) && (negb (y mod 100 =? 0) || (y mod 400 =? 0)).
Definition days_before_year (y : Z) : Z := (y - 1) * 365 + (y - 1) / 4 - (y - 1) / 100 + (y - 1) / 400.
Definition days_in_month (y m : Z) : Z :=
  if m =? 2 then (if is_leap y then 29 else 28)
  else if bool_decide (m ∈ [4; 6; 9; 11]) then 30 else 31.
Definition days_before_month (y m : Z) : Z :=
  foldr Z.add 0 ((λ i, days_in_month y (Z.of_nat i)) <$> seq 1 (Z.to_nat (m - 1))).
(** The proleptic Gregorian ordinal; 0001-01-01 is day 1. *)
Definition ymd2ord (y m d : Z) : Z := days_before_year y + days_before_month y m + d.
Definition MAX_ORDINAL : Z := 3652059.

Definition valid_date (y m d : Z) : bool :=
  (1 <=? y) && (y <=? 9999) && (1 <=? m) && (m <=? 12) && (1 <=? d) && (d <=? days_in_month y m).

Definition isoweek1monday (y : Z) : Z :=
  let firstday := ymd2ord y 1 1 in
  let firstweekday := (firstday + 6) mod 7 in
  let week1monday := firstday - firstweekday in
  if 3 <? firstweekday then week1monday + 7 else week1monday.

(** * Scanning *)

(** What a pointer sees: the byte, or the terminating null. *)
Definition at_ (p : list Z) : Z := hd 0 p.
Definition is_digit_byte (b : Z) : bool := (48 <=? b) && (b <=? 57).

(** [parse_digits(p, &v, k)] *)
Fixpoint parse_digits (k : nat) (v : Z) (p : list Z) : option (Z * list Z) :=
  match k with
  | O => Some (v, p)
  | S k =>
      if is_digit_byte (at_ p) then parse_digits k (v * 10 + (at_ p - 48)) (tail p) else None
  end.

Definition invalid {A} : res A := raise ValueError "Invalid isoformat string".
Definition from_opt {A} (o : option A) : res A := match o with Some a => Ok a | None => invalid end.

Fixpoint leading_digits (s : list Z) : nat :=
  match s with b :: s => if is_digit_byte b then S (leading_digits s) else O | [] => O end.

(** The index of the separator between date and time. *)
Definition find_separator (s : list Z) : option nat :=
  let len := length s in
  let byte i := nth i s 0 in
  if (len =? 7)%nat then Some 7%nat
  else if byte 4%nat =? 45 then
    if byte 5%nat =? 87 then
      if (8 <? len)%nat && (byte 8%nat =? 45) then
        if (len =? 9)%nat then None
        else if (10 <? len)%nat && is_digit_byte (byte 10%nat) then Some 8%nat
        else Some 10%nat
      else Some 8%nat
    else Some 10%nat
  else if byte 4%nat =? 87 then
    let pos := (7 + leading_digits (drop 7 s))%nat in
    if (pos <? 9)%nat then Some pos
    else if Nat.even pos then Some 7%nat else Some 8%nat
  else Some 8%nat.

(** [parse_isoformat_date]: the ordinal of the date in the first [len] bytes. *)
Definition parse_date (s : list Z) (len : nat) : res Z :=
  '(year, p) ← from_opt (parse_digits 4 0 s);
  let sep := at_ p =? 45 in
  let p := if sep then tail p else p in
  let used (p : list Z) := (length s - length p)%nat in
  if at_ p =? 87 then
    '(week, p) ← from_opt (parse_digits 2 0 (tail p));
    '(day, p) ←
      (if (used p <? len)%nat then
         if sep && negb (at_ p =? 45) then invalid
         else from_opt (parse_digits 1 0 (if sep then tail p else p))
       else Ok (1, p));
    if negb ((1 <=? year) && (year <=? 9999)) then invalid
    else
      let first_weekday := (ymd2ord year 1 1 + 6) mod 7 in
      let week_ok := ((1 <=? week) && (week <=? 52)) ||
        ((week =? 53) && ((first_weekday =? 3) || ((first_weekday =? 2) && is_leap year))) in
      if negb week_ok || negb ((1 <=? day) && (day <=? 7)) then invalid
      else
        let ord := isoweek1monday year + (week - 1) * 7 + (day - 1) in
        if (1 <=? ord) && (ord <=? MAX_ORDINAL) then Ok ord else invalid
  else
    '(month, p) ← from_opt (parse_digits 2 0 p);
    if sep && negb (at_ p =? 45) then invalid
    else
      '(day, p) ← from_opt (parse_digits 2 0 (if sep then tail p else p));
      if negb (used p =? len)%nat then invalid
      else if valid_date year month day then Ok (ymd2ord year month day) else invalid.

(** [parse_hh_mm_ss_ff] on the [n] bytes at [p]: the hour, minute, second and
    microsecond, and whether something was left over. *)
Definition fraction (n : Z) (p : list Z) : option (Z * bool) :=
  let to_parse := Z.to_nat (if 6 <=? n then 6 else n) in
  '(us, p) ← parse_digits to_parse 0 p;
  let us := us * 10 ^ (6 - Z.of_nat to_parse) in
  let p := drop (leading_digits p) p in
  Some (us, negb (at_ p =? 0)).

Fixpoint parse_hms (k : nat) (sep : bool) (vals : list Z) (n : Z) (p : list Z) : option (list Z * Z * bool) :=
  match k with
  | O => '(us, rest) ← fraction n p; Some (vals, us, rest)
  | S k' =>
      '(v, p1) ← parse_digits 2 0 p;
      let vals := (vals ++ [v])%list in
      let n := n - 2 in
      let c := at_ p1 in
      let p2 := tail p1 in
      let sep := if (k =? 3)%nat then c =? 58 else sep in
      if n - 1 <=? 0 then Some (vals, 0, negb (c =? 0))
      else if sep && (c =? 58) then parse_hms k' sep vals (n - 1) p2
      else if (c =? 46) || (c =? 44) then
        '(us, rest) ← fraction (n - 1) p2; Some (vals, us, rest)
      else if negb sep then parse_hms k' sep vals n p1
      else None
  end.
Definition parse_clock (n : Z) (p : list Z) : res (Z * Z * Z * Z * bool) :=
  '(vals, us, rest) ← from_opt (parse_hms 3 true [] n p);
  Ok (nth 0 vals 0, nth 1 vals 0, nth 2 vals 0, us, rest).

(** [parse_isoformat_time]: microseconds since midnight, and the offset. *)
Fixpoint find_tz (p : list Z) : nat :=
  match p with
  | b :: p => if (b =? 43) || (b =? 45) || (b =? 90) then O else S (find_tz p)
  | [] => O
  end.

Definition us_of (h m s us : Z) : Z := ((h * 60 + m) * 60 + s) * 1000000 + us.
Definition DAY_US : Z := 86400000000.

Definition parse_time (p : list Z) : res (Z * option Z) :=
  let tz_pos := find_tz p in
  let tz := drop tz_pos p in
  '(h, m, s, us, rest) ← parse_clock (Z.of_nat tz_pos) p;
  let in_range := (h <=? 23) && (m <=? 59) && (s <=? 59) in
  match tz with
  | [] => if rest || negb in_range then invalid else Ok (us_of h m s us, None)
  | b :: tz =>
      if b =? 90 then
        if negb (at_ tz =? 0) || negb in_range then invalid else Ok (us_of h m s us, Some 0)
      else
        '(oh, om, os, ous, orest) ← parse_clock (Z.of_nat (length tz)) tz;
        let offset := (if b =? 45 then -1 else 1) * us_of oh om os ous in
        if orest || negb in_range || negb (Z.abs offset <? DAY_US) then invalid
        else Ok (us_of h m s us, Some offset)
  end.

(** The number of bytes of the UTF-8 sequence that starts with [b]. *)
Definition seq_len (b : Z) : nat :=
  if b <? 128 then 1 else if b <? 224 then 2 else if b <? 240 then 3 else 4.

Record datetime := mkDatetime { dt_instant : Z; dt_aware : bool }.

(** A surrogate where the separator may be is read as a [T]. *)
Definition sanitize (cps : list Z) : list Z :=
  match filter (λ i, (i <? length cps)%nat && is_surrogate (nth i cps 0) = true) [7; 8; 10]%nat with
  | i :: _ => <[i := 84]> cps
  | [] => cps
  end.

(** [datetime.fromisoformat(text)]: a naive datetime is taken to be in UTC. *)
Definition fromisoformat (text : pystr) : res datetime :=
  let cps := sanitize (utf8_decode text) in
  if existsb is_surrogate cps then invalid
  else
    let s := byte_of <$> chars (utf8_encode cps) in
    if (length s <? 7)%nat then invalid
    else
      sep ← from_opt (find_separator s);
      ord ← parse_date s sep;
      '(us, offset) ←
        (if (0 <? length s - sep)%nat then parse_time (drop (sep + seq_len (nth sep s 0)) s)
         else Ok (0, None));
      Ok (mkDatetime (ord * DAY_US + us - default 0 offset) (bool_decide (is_Some offset))).

(** * Formatting

    [datetime.fromordinal] and [strftime("%Y-%m-%dT%H:%M:%SZ")] of a UTC datetime,
    the C implementation's [ord_to_ymd]. *)

Definition ord2ymd (ordinal : Z) : Z * Z * Z :=
  let n := ordinal - 1 in
  let n400 := n / 146097 in let n := n mod 146097 in
  let n100 := n / 36524 in let n := n mod 36524 in
  let n4 := n / 1461 in let n := n mod 1461 in
  let n1 := n / 365 in let n := n mod 365 in
  let year := n400 * 400 + 1 + n100 * 100 + n4 * 4 + n1 in
  if (n1 =? 4) || (n100 =? 4) then (year - 1, 12, 31)
  else
    let month := (n + 50) / 32 in
    let preceding := days_before_month year month in
    if n <? preceding then
      let month := month - 1 in
      (year, month, n - (preceding - days_in_month year month) + 1)
    else (year, month, n - preceding + 1).

(** The text of an instant, to the second; [%Y] is not padded. *)
Definition utc_text (instant : Z) : pystr :=
  let '(y, m, d) := ord2ymd (instant / DAY_US) in
  let secs := instant mod DAY_US / 1000000 in
  dec y +:+ "-" +:+ zfill 2 m +:+ "-" +:+ zfill 2 d +:+ "T" +:+ zfill 2 (secs / 3600) +:+ ":"
    +:+ zfill 2 (secs / 60 mod 60) +:+ ":" +:+ zfill 2 (secs mod 60) +:+ "Z".

(** The instant of a Unix time in microseconds. *)
Definition EPOCH_ORDINAL : Z := 719163.
Definition of_unix (us : Z) : Z := EPOCH_ORDINAL * DAY_US + us.

Example utc_text_now : utc_text (of_unix 1700000000123456) = "2023-11-14T22:13:20Z".
Proof. vm_compute. reflexivity. Qed.
