(* ===== verification/Waiver.v ===== *)
(** [sdlc/waiver/enforcement.py]: waivers of findings.  A moment is an instant in
    microseconds ([Datetime]). *)

From S2P Require Export Datetime.
#[local] Open Scope Z_scope.

Definition SEVERITY_CRITICAL : string := "critical".
Definition SEVERITY_HIGH : string := "high".
Definition SEVERITY_MEDIUM : string := "medium".
Definition SEVERITY_LOW : string := "low".
Definition SECURITY_REVIEWER_ROLE : string := "security-reviewer".
Definition _WAIVABLE_SEVERITIES : gset string := {[SEVERITY_MEDIUM]}.

Definition REASON_AGENT_MAY_NOT_CREATE : string := "AGENT_MAY_NOT_CREATE".
Definition REASON_AGENT_MAY_NOT_APPROVE : string := "AGENT_MAY_NOT_APPROVE".
Definition REASON_APPROVER_NOT_SECURITY_REVIEWER : string := "APPROVER_NOT_SECURITY_REVIEWER".
Definition REASON_APPROVER_IS_RISK_OWNER : string := "APPROVER_IS_RISK_OWNER".
Definition REASON_EXPIRES_BEFORE_CREATED : string := "EXPIRES_BEFORE_CREATED".
Definition REASON_SEVERITY_NOT_WAIVABLE : string := "SEVERITY_NOT_WAIVABLE".
Definition REASON_WAIVER_EXPIRED : string := "WAIVER_EXPIRED".
Definition REASON_WAIVER_REVOKED : string := "WAIVER_REVOKED".
Definition REASON_WAIVER_MISSING : string := "WAIVER_MISSING".
Definition REASON_CRITICAL_NEVER_WAIVED : string := "CRITICAL_NEVER_WAIVED".
Definition REASON_HIGH_NEVER_WAIVED : string := "HIGH_NEVER_WAIVED".
Definition REASON_INVALID_WAIVER : string := "INVALID_WAIVER".

Record WaiverCheck := mkWaiverCheck {
  wc_valid : bool;
  wc_state : string;
  wc_reason_codes : list string
}.

Record BlockDecision := mkBlockDecision {
  bd_blocked : bool;
  bd_reason_codes : list string
}.

(** The instant of an RFC 3339 timestamp; a naive one is in UTC. *)
Definition parse_timestamp (value : pystr) : res Z :=
  let text := strip value in
  let text :=
    if endswith text "Z" then take_str (String.length text - 1) text +:+ "+00:00" else text in
  dt_instant <$> fromisoformat text.

Definition is_waivable (severity : pystr) : bool := bool_decide (severity ∈ _WAIVABLE_SEVERITIES).

Definition may_manage_waiver (actor : dict) : bool := eq_str (dget_none actor "type") "human".

(** [str(waiver[key])] *)
Definition str_item (waiver : dict) (key : string) : res pystr := py_str <$> ditem waiver key.

(** [try: ... except (KeyError, ValueError)] around the two timestamps. *)
Definition waiver_window (waiver : dict) : res (option (Z * Z)) :=
  try_except
    (created_text ← str_item waiver "created_at"; created_at ← parse_timestamp created_text;
     expires_text ← str_item waiver "expires_at"; expires_at ← parse_timestamp expires_text;
     mret (Some (created_at, expires_at)))
    [KeyError; ValueError] (Ok None).

Definition validate_waiver (waiver : dict) : res (list string) :=
  let severity := py_str (dget_or waiver "severity" (VStr "")) in
  let reasons := if is_waivable severity then [] else [REASON_SEVERITY_NOT_WAIVABLE] in
  let created_by := vor (dget_none waiver "created_by") (VDict []) in
  let approved_by := vor (dget_none waiver "approved_by") (VDict []) in
  let owner := vor (dget_none waiver "owner") (VDict []) in
  creator_type ← vget created_by "type" VNone;
  let reasons := if eq_str creator_type "human" then reasons
                 else (reasons ++ [REASON_AGENT_MAY_NOT_CREATE])%list in
  approver_type ← vget approved_by "type" VNone;
  let reasons := if eq_str approver_type "human" then reasons
                 else (reasons ++ [REASON_AGENT_MAY_NOT_APPROVE])%list in
  approver_role ← vget approved_by "role" VNone;
  reasons ← (if negb (eq_str approver_role SECURITY_REVIEWER_ROLE) then
               mret (reasons ++ [REASON_APPROVER_NOT_SECURITY_REVIEWER])%list
             else
               owner_role ← vget owner "role" VNone;
               mret (if eq_str owner_role SECURITY_REVIEWER_ROLE
                     then (reasons ++ [REASON_APPROVER_IS_RISK_OWNER])%list else reasons));
  window ← waiver_window waiver;
  mret match window with
       | None => (reasons ++ [REASON_INVALID_WAIVER])%list
       | Some (created_at, expires_at) =>
           if expires_at <=? created_at then (reasons ++ [REASON_EXPIRES_BEFORE_CREATED])%list
           else reasons
       end.

Definition waiver_state (waiver : dict) (now : Z) : res string :=
  let status := py_str (dget_or waiver "status" (VStr "active")) in
  if negb (status ≟ "active") then Ok status
  else
    expires ← try_except
      (text ← str_item waiver "expires_at"; Some <$> parse_timestamp text)
      [KeyError; ValueError] (Ok None);
    mret match expires with
         | None => "invalid"
         | Some expires_at => if expires_at <=? now then "expired" else "active"
         end.

Definition check_waiver (waiver : dict) (now : Z) : res WaiverCheck :=
  reasons ← validate_waiver waiver;
  state ← waiver_state waiver now;
  let reasons :=
    (reasons ++
     (if state ≟ "expired" then [REASON_WAIVER_EXPIRED]
      else if state ≟ "revoked" then [REASON_WAIVER_REVOKED]
      else if negb (state ≟ "active") then [REASON_INVALID_WAIVER] else []))%list in
  mret (mkWaiverCheck (match reasons with [] => true | _ => false end) state reasons).

(** [dict.fromkeys]: the first occurrence of each reason. *)
Fixpoint fromkeys (seen l : list string) : list string :=
  match l with
  | [] => []
  | x :: l => if bool_decide (x ∈ seen) then fromkeys seen l else x :: fromkeys (x :: seen) l
  end.

Fixpoint scan_waivers (now : Z) (collected : list string) (matching : list dict) : res BlockDecision :=
  match matching with
  | [] => Ok (mkBlockDecision true (fromkeys [] collected))
  | waiver :: matching =>
      chk ← check_waiver waiver now;
      if wc_valid chk then Ok (mkBlockDecision false [])
      else scan_waivers now (collected ++ wc_reason_codes chk)%list matching
  end.

Definition for_risk (risk_id : pystr) (waiver : dict) : bool :=
  py_str (dget_or waiver "risk_id" (VStr "")) ≟ risk_id.

Definition evaluate_risk (risk_id severity : pystr) (waivers : list dict) (now : Z) : res BlockDecision :=
  if severity ≟ SEVERITY_CRITICAL then Ok (mkBlockDecision true [REASON_CRITICAL_NEVER_WAIVED])
  else if severity ≟ SEVERITY_HIGH then Ok (mkBlockDecision true [REASON_HIGH_NEVER_WAIVED])
  else if severity ≟ SEVERITY_LOW then Ok (mkBlockDecision false [])
  else if negb (severity ≟ SEVERITY_MEDIUM) then Ok (mkBlockDecision true [REASON_SEVERITY_NOT_WAIVABLE])
  else
    match filter (λ w, for_risk risk_id w = true) waivers with
    | [] => Ok (mkBlockDecision true [REASON_WAIVER_MISSING])
    | matching => scan_waivers now [] matching
    end.

(** * Specification: a waiver in force *)

(** [(waiver.get(key) or {}).get(name)] *)
Definition party (waiver : dict) (key name : string) : res value :=
  vget (vor (dget_none waiver key) (VDict [])) name VNone.
(** The instant of a timestamp field. *)
Definition instant (waiver : dict) (key : string) (t : Z) : Prop :=
  ∃ v, dget waiver key = Some v ∧ parse_timestamp (py_str v) = Ok t.

(** The rules a waiver has to satisfy at a moment, as [docs/evidence-model.md]
    states them. *)
Record in_force (waiver : dict) (now : Z) : Prop := {
  force_severity : py_str (dget_or waiver "severity" (VStr "")) = SEVERITY_MEDIUM;
  force_creator : party waiver "created_by" "type" = Ok (VStr "human");
  force_approver : party waiver "approved_by" "type" = Ok (VStr "human");
  force_role : party waiver "approved_by" "role" = Ok (VStr SECURITY_REVIEWER_ROLE);
  force_owner : ∃ role, party waiver "owner" "role" = Ok role ∧ role ≠ VStr SECURITY_REVIEWER_ROLE;
  force_status : py_str (dget_or waiver "status" (VStr "active")) = "active";
  force_window : ∃ created expires, instant waiver "created_at" created ∧
    instant waiver "expires_at" expires ∧ created < expires ∧ now < expires
}.

(** * Helper lemmas *)

Lemma fromisoformat_error text e : fromisoformat text = Raise e → exn_cls e = ValueError.
Proof.
  assert (Hinv : ∀ A (e : exn), (invalid : res A) = Raise e → exn_cls e = ValueError) by (by intros A ? [= <-]).
  assert (Hopt : ∀ A (o : option A) e, from_opt o = Raise e → exn_cls e = ValueError).
  { intros A [a|] e'; [done|apply Hinv]. }
  assert (Hdate : ∀ s n e, parse_date s n = Raise e → exn_cls e = ValueError).
  { intros s n e'. unfold parse_date. intros H.
    repeat first [ by apply Hinv in H | by apply Hopt in H | done
      | apply res_bind_Raise in H as [H|([? ?] & _ & H)] | case_in H ]. }
  assert (Hclock : ∀ n p e, parse_clock n p = Raise e → exn_cls e = ValueError).
  { intros n p e'. unfold parse_clock. intros H.
    apply res_bind_Raise in H as [H|([[? ?] ?] & _ & H)]; [by apply Hopt in H|done]. }
  assert (Htime : ∀ p e, parse_time p = Raise e → exn_cls e = ValueError).
  { intros p e'. unfold parse_time. intros H.
    apply res_bind_Raise in H as [H|([[[[? ?] ?] ?] ?] & _ & H)]; [by apply Hclock in H|].
    repeat first [ by apply Hinv in H | done
      | apply res_bind_Raise in H as [H|([[[[? ?] ?] ?] ?] & _ & H)]; [by apply Hclock in H|] | case_in H ]. }
  unfold fromisoformat. intros H.
  repeat first [ by apply Hinv in H | by apply Hopt in H | by apply Hdate in H | by apply Htime in H | done
    | apply res_bind_Raise in H as [H|(? & _ & H)] | case_in H ].
Qed.

Lemma parse_timestamp_error text e : parse_timestamp text = Raise e → exn_cls e = ValueError.
Proof.
  unfold parse_timestamp. destruct (fromisoformat _) as [d|e'] eqn:E; [done|].
  intros [= <-]. by eapply fromisoformat_error.
Qed.

Lemma str_item_cases waiver key :
  (∃ v, dget waiver key = Some v ∧ str_item waiver key = Ok (py_str v)) ∨
  (dget waiver key = None ∧ str_item waiver key = raise KeyError key).
Proof.
  unfold str_item, ditem. destruct (dget waiver key) as [v|] eqn:E; [left; eauto|by right].
Qed.

Lemma caught_value_error e : exn_cls e = ValueError → caught_by [KeyError; ValueError] e = true.
Proof. destruct e as [c m]. simpl. by intros ->. Qed.

(** A timestamp field, read and parsed. *)
Lemma instant_cases waiver key :
  (∃ t, instant waiver key t ∧ (text ← str_item waiver key; parse_timestamp text) = Ok t) ∨
  (∃ e, (text ← str_item waiver key; parse_timestamp text) = Raise e ∧
     caught_by [KeyError; ValueError] e = true ∧ ∀ t, ¬ instant waiver key t).
Proof.
  destruct (str_item_cases waiver key) as [(v & Hv & ->)|(Hn & ->)].
  - cbn [mbind res_bind]. destruct (parse_timestamp (py_str v)) as [t|e] eqn:E.
    + left. exists t. split; [by exists v|done].
    + right. exists e. split; [done|]. split; [by eapply caught_value_error, parse_timestamp_error|].
      intros t (v' & Hv' & ?). rewrite Hv in Hv'. simplify_eq. congruence.
  - right. eexists. split; [reflexivity|]. split; [done|]. intros t (v & Hv & _). congruence.
Qed.

Lemma instant_inj waiver key t t' : instant waiver key t → instant waiver key t' → t = t'.
Proof. intros (v & Hv & Ht) (v' & Hv' & Ht'). rewrite Hv in Hv'. simplify_eq. congruence. Qed.

Lemma waiver_window_cases waiver :
  (∃ c e, instant waiver "created_at" c ∧ instant waiver "expires_at" e ∧
     waiver_window waiver = Ok (Some (c, e))) ∨
  (waiver_window waiver = Ok None ∧
     ∀ c e, instant waiver "created_at" c → instant waiver "expires_at" e → False).
Proof.
  assert (Hassoc : ∀ (f : Z → res (option (Z * Z))),
    (created_text ← str_item waiver "created_at"; created_at ← parse_timestamp created_text; f created_at) =
    ((text ← str_item waiver "created_at"; parse_timestamp text) ≫= f)).
  { intros f. by destruct (str_item waiver "created_at"). }
  assert (Hassoc2 : ∀ c : Z,
    (expires_text ← str_item waiver "expires_at"; expires_at ← parse_timestamp expires_text;
     mret (Some (c, expires_at))) =
    ((text ← str_item waiver "expires_at"; parse_timestamp text) ≫= λ t, Ok (Some (c, t)))).
  { intros c. by destruct (str_item waiver "expires_at"). }
  unfold waiver_window. rewrite Hassoc.
  destruct (instant_cases waiver "created_at") as [(c & Hc & ->)|(e & -> & Hcaught & Hno)].
  2: { right. cbn [mbind res_bind try_except]. rewrite Hcaught. split; [done|]. intros c ? ? _. by eapply Hno. }
  cbn [mbind res_bind]. rewrite Hassoc2.
  destruct (instant_cases waiver "expires_at") as [(e & He & ->)|(e & -> & Hcaught & Hno)].
  - left. exists c, e. done.
  - right. cbn [mbind res_bind try_except]. rewrite Hcaught. split; [done|]. intros ? ? _ ?. by eapply Hno.
Qed.

Lemma waiver_state_eq waiver now :
  (∃ s, waiver_state waiver now = Ok s) ∧
  (waiver_state waiver now = Ok "active" ↔
     py_str (dget_or waiver "status" (VStr "active")) = "active" ∧
     ∃ e, instant waiver "expires_at" e ∧ now < e).
Proof.
  unfold waiver_state. case_bool_decide as Hs; cbn [negb].
  2: { split; [eauto|]. split; [intros [= ?]; done|]. intros [? _]. done. }
  assert ((text ← str_item waiver "expires_at"; Some <$> parse_timestamp text) =
    ((text ← str_item waiver "expires_at"; parse_timestamp text) ≫= λ t, Ok (Some t))) as ->.
  { destruct (str_item waiver "expires_at") as [t|]; [|done]. simpl. by destruct (parse_timestamp t). }
  destruct (instant_cases waiver "expires_at") as [(e & He & ->)|(e & -> & Hcaught & Hno)];
    cbn [mbind res_bind try_except]; [|rewrite Hcaught].
  - split; [eauto|]. destruct (Z.leb_spec e now); split; try done.
    + intros (_ & e' & He' & ?). pose proof (instant_inj _ _ _ _ He He'). lia.
    + intros _. eauto.
  - split; [eauto|]. split; [done|]. intros (_ & e' & He' & _). by destruct (Hno e').
Qed.

Lemma app_nil_iff {A} (l k : list A) : (l ++ k)%list = [] ↔ l = [] ∧ k = [].
Proof. by rewrite app_nil. Qed.

Lemma is_waivable_true s : is_waivable s = true ↔ s = SEVERITY_MEDIUM.
Proof. unfold is_waivable. rewrite bool_decide_eq_true. unfold _WAIVABLE_SEVERITIES. set_solver. Qed.

(** The three parties are mappings, absent or falsy. *)
Definition parties_ok (waiver : dict) : Prop :=
  ∃ a b c d, party waiver "created_by" "type" = Ok a ∧ party waiver "approved_by" "type" = Ok b ∧
    party waiver "approved_by" "role" = Ok c ∧ party waiver "owner" "role" = Ok d.

(** [validate_waiver] on such a waiver: each rule adds its reason. *)
Lemma validate_waiver_eq waiver a b c d :
  party waiver "created_by" "type" = Ok a → party waiver "approved_by" "type" = Ok b →
  party waiver "approved_by" "role" = Ok c → party waiver "owner" "role" = Ok d →
  ∃ window, waiver_window waiver = Ok window ∧
  validate_waiver waiver = Ok (
    (if is_waivable (py_str (dget_or waiver "severity" (VStr ""))) then [] else [REASON_SEVERITY_NOT_WAIVABLE]) ++
    (if eq_str a "human" then [] else [REASON_AGENT_MAY_NOT_CREATE]) ++
    (if eq_str b "human" then [] else [REASON_AGENT_MAY_NOT_APPROVE]) ++
    (if negb (eq_str c SECURITY_REVIEWER_ROLE) then [REASON_APPROVER_NOT_SECURITY_REVIEWER]
     else if eq_str d SECURITY_REVIEWER_ROLE then [REASON_APPROVER_IS_RISK_OWNER] else []) ++
    match window with
    | None => [REASON_INVALID_WAIVER]
    | Some (created, expires) => if expires <=? created then [REASON_EXPIRES_BEFORE_CREATED] else []
    end)%list.
Proof.
  intros Ha Hb Hc Hd. unfold party in *. unfold validate_waiver. rewrite Ha, Hb, Hc. cbn [mbind res_bind].
  assert (∃ window, waiver_window waiver = Ok window) as [window Hw].
  { destruct (waiver_window_cases waiver) as [(? & ? & _ & _ & ->)|[-> _]]; eauto. }
  exists window. split; [done|].
  destruct (eq_str c SECURITY_REVIEWER_ROLE); cbn [negb]; [rewrite Hd; cbn [mbind res_bind]|];
    unfold mret at 1; unfold res_ret; cbn [mbind res_bind]; rewrite Hw; cbn [mbind res_bind];
    unfold mret, res_ret; f_equal;
    destruct (is_waivable _), (eq_str a _), (eq_str b _), window as [[cr ex]|]; try destruct (eq_str d _);
    try destruct (ex <=? cr); reflexivity.
Qed.

Lemma party_Ok waiver key n n' v : party waiver key n = Ok v → ∃ v', party waiver key n' = Ok v'.
Proof. unfold party, vget. destruct (vor _ _); try done. eauto. Qed.

Lemma validate_nil waiver : validate_waiver waiver = Ok [] → parties_ok waiver.
Proof.
  unfold validate_waiver. intros H. apply res_bind_Ok in H as (a & Ha & H).
  apply res_bind_Ok in H as (b & Hb & H). apply res_bind_Ok in H as (c & Hc & H).
  apply res_bind_Ok in H as (rs & Hrs & H).
  destruct (eq_str c SECURITY_REVIEWER_ROLE) eqn:Ec; cbn [negb] in Hrs.
  - apply res_bind_Ok in Hrs as (d & Hd & _). by exists a, b, c, d.
  - exfalso. unfold mret, res_ret in Hrs. injection Hrs as <-. apply res_bind_Ok in H as (window & _ & H).
    unfold mret, res_ret in H. injection H as H.
    destruct window as [[? ?]|]; [destruct (_ <=? _)|]; rewrite ?app_nil_iff in H; naive_solver.
Qed.

Lemma if_nil {A} (b : bool) (x : A) : (if b then [] else [x]) = [] ↔ b = true.
Proof. by destruct b. Qed.

Lemma check_waiver_spec waiver now :
  (∀ chk, check_waiver waiver now = Ok chk →
     (wc_valid chk = true ↔ in_force waiver now) ∧ (wc_valid chk = true ↔ wc_reason_codes chk = [])) ∧
  (parties_ok waiver → ∃ chk, check_waiver waiver now = Ok chk) ∧
  (in_force waiver now → parties_ok waiver).
Proof.
  split_and!.
  - intros chk H. unfold check_waiver in H. apply res_bind_Ok in H as (reasons & Hv & H).
    apply res_bind_Ok in H as (state & Hst & H). unfold mret, res_ret in H. injection H as <-. cbn [wc_valid wc_reason_codes].
    match goal with |- context [(reasons ++ ?t)%list] => set (tail_ := t) end.
    assert (Hvalid : match (reasons ++ tail_)%list with [] => true | _ => false end = true ↔ reasons = [] ∧ state = "active").
    { transitivity ((reasons ++ tail_)%list = []); [by destruct (reasons ++ tail_)%list|].
      rewrite app_nil_iff. apply and_iff_compat_l. unfold tail_. repeat case_bool_decide; simpl; subst; naive_solver. }
    split; [|by destruct (reasons ++ tail_)%list]. rewrite Hvalid. clear Hvalid tail_.
    destruct (waiver_state_eq waiver now) as [_ Hactive]. rewrite Hst in Hactive.
    split.
    + intros [-> ->]. destruct (validate_nil _ Hv) as (a & b & c & d & Ha & Hb & Hc & Hd).
      destruct (validate_waiver_eq _ _ _ _ _ Ha Hb Hc Hd) as (window & Hw & E). rewrite Hv in E.
      injection E as E. symmetry in E. rewrite !app_nil_iff, !if_nil in E. destruct E as (Hsev & Hcr & Hap & Hrole & Hwin).
      apply is_waivable_true in Hsev. apply eq_str_true in Hcr, Hap. subst.
      destruct (eq_str c _) eqn:Ec; [|done]. destruct (eq_str d _) eqn:Ed; [done|]. apply eq_str_true in Ec. subst.
      destruct (waiver_window_cases waiver) as [(cr & ex & Hcr & Hex & Hw')|[Hw' _]]; rewrite Hw in Hw'; simplify_eq.
      destruct (Z.leb_spec ex cr); [done|]. destruct (proj1 Hactive eq_refl) as (Hstat & e & He & ?).
      pose proof (instant_inj _ _ _ _ Hex He). subst e.
      split; try done; [|by exists cr, ex]. exists d. split; [done|]. intros ->. by rewrite (proj2 (eq_str_true _ _)) in Ed.
    + intros [Hsev Hcr Hap Hrole (d & Hd & Hne) Hstat (cr & ex & Hcri & Hexi & ? & ?)].
      destruct (validate_waiver_eq _ _ _ _ _ Hcr Hap Hrole Hd) as (window & Hw & E). rewrite Hv in E. injection E as ->.
      split.
      * rewrite Hsev. destruct (eq_str d SECURITY_REVIEWER_ROLE) eqn:Ed; [by apply eq_str_true in Ed|].
        destruct (waiver_window_cases waiver) as [(cr' & ex' & Hcr' & Hex' & Hw')|[_ Hno]]; [|by destruct (Hno _ _ Hcri Hexi)].
        rewrite Hw in Hw'. simplify_eq. pose proof (instant_inj _ _ _ _ Hcri Hcr'). pose proof (instant_inj _ _ _ _ Hexi Hex').
        subst. destruct (Z.leb_spec ex' cr'); [lia|]. reflexivity.
      * assert (Ok state = Ok "active") as [= ->]; [|done]. apply Hactive. eauto.
  - intros (a & b & c & d & Ha & Hb & Hc & Hd). unfold check_waiver.
    destruct (validate_waiver_eq _ _ _ _ _ Ha Hb Hc Hd) as (window & _ & ->).
    destruct (waiver_state_eq waiver now) as [[s ->] _]. by eexists.
  - intros [_ Hcr Hap Hrole (d & Hd & _) _ _]. by eexists _, _, _, _.
Qed.

(** ** Scanning the waivers of a risk *)

Lemma fromkeys_spec seen l :
  NoDup (fromkeys seen l) ∧ ∀ x, x ∈ fromkeys seen l ↔ x ∈ l ∧ x ∉ seen.
Proof.
  revert seen. induction l as [|y l IH]; intros seen; simpl; [split; [constructor|set_solver]|].
  case_bool_decide as Hy.
  - destruct (IH seen) as [? Hx]. split; [done|]. intros x. rewrite Hx. set_solver.
  - destruct (IH (y :: seen)) as [Hnd Hx]. split.
    + constructor; [|done]. rewrite Hx. set_solver.
    + intros x. rewrite elem_of_cons, Hx. destruct (decide (x = y)); set_solver.
Qed.

Lemma scan_waivers_Ok now collected ws d :
  scan_waivers now collected ws = Ok d →
  (bd_blocked d = false ↔ ∃ w, w ∈ ws ∧ in_force w now) ∧
  (bd_blocked d = true → NoDup (bd_reason_codes d) ∧ (collected ≠ [] ∨ ws ≠ [] → bd_reason_codes d ≠ [])) ∧
  (bd_blocked d = false → bd_reason_codes d = []).
Proof.
  revert collected. induction ws as [|w ws IH]; intros collected; cbn [scan_waivers].
  - intros [= <-]. simpl. split; [split; [done|]; by intros (w & ?%elem_of_nil & _)|]. split; [|done].
    intros _. destruct (fromkeys_spec [] collected) as [Hnd Hin]. split; [done|].
    intros [Hc|?]; [|done]. destruct collected as [|x l]; [done|].
    assert (x ∈ fromkeys [] (x :: l)) as Hx by (apply Hin; set_solver).
    intros E. rewrite E in Hx. set_solver.
  - intros H. apply res_bind_Ok in H as (chk & Hc & H).
    destruct (check_waiver_spec w now) as (Hspec & _). destruct (Hspec _ Hc) as [Hv Hr].
    destruct (wc_valid chk) eqn:Ev.
    + simplify_eq. simpl. split; [|done]. split; [intros _|done]. exists w. split; [set_solver|by apply Hv].
    + destruct (IH _ H) as (Hb & Hn & Hu). split.
      * rewrite Hb. split; [intros (w' & ? & ?); exists w'; set_solver|].
        intros (w' & [->|?]%elem_of_cons & Hw'); [apply Hv in Hw'; congruence|eauto].
      * split; [|done]. intros Hbl. destruct (Hn Hbl) as [? Hne]. split; [done|]. intros _. apply Hne. left.
        assert (wc_reason_codes chk ≠ []) by (intros E; by apply Hr in E).
        destruct collected; [by destruct (wc_reason_codes chk)|done].
Qed.

(** Whether a waiver can be checked does not depend on the moment. *)
Lemma check_waiver_now w now now' chk :
  check_waiver w now = Ok chk → ∃ chk', check_waiver w now' = Ok chk'.
Proof.
  unfold check_waiver. intros (rs & -> & _)%res_bind_Ok. cbn [mbind res_bind].
  destruct (waiver_state_eq w now') as [[st ->] _]. by eexists.
Qed.

Lemma in_force_earlier w now now' : now' ≤ now → in_force w now → in_force w now'.
Proof.
  intros ? [? ? ? ? ? ? (c & e & ? & ? & ? & ?)]. split; try done. exists c, e. split_and!; try done; lia.
Qed.

Lemma scan_waivers_earlier now now' collected ws d :
  now' ≤ now → scan_waivers now collected ws = Ok d → bd_blocked d = false →
  ∀ collected', scan_waivers now' collected' ws = Ok (mkBlockDecision false []).
Proof.
  intros Hle. revert collected. induction ws as [|w ws IH]; intros collected; cbn [scan_waivers].
  - by intros [= <-].
  - intros H Hb collected'. apply res_bind_Ok in H as (chk & Hc & H).
    destruct (check_waiver_now _ _ now' _ Hc) as [chk' Hc']. rewrite Hc'. cbn [mbind res_bind].
    destruct (wc_valid chk') eqn:Ev'; [done|].
    destruct (check_waiver_spec w now) as (Hspec & _). destruct (check_waiver_spec w now') as (Hspec' & _).
    destruct (wc_valid chk) eqn:Ev; [|by eapply IH].
    destruct (Hspec _ Hc) as [Hv _], (Hspec' _ Hc') as [Hv' _].
    apply Hv, (in_force_earlier _ _ now' Hle), Hv' in Ev. congruence.
Qed.

(** The severities that no waiver decides. *)
Lemma evaluate_risk_fixed risk_id severity waivers now :
  severity ≠ SEVERITY_MEDIUM →
  ∃ reason, evaluate_risk risk_id severity waivers now =
    Ok (if severity ≟ SEVERITY_LOW then mkBlockDecision false [] else mkBlockDecision true [reason]).
Proof.
  intros Hm. unfold evaluate_risk. rewrite (bool_decide_false (severity = SEVERITY_MEDIUM)) by done.
  destruct (decide (severity = SEVERITY_CRITICAL)) as [->|]; [by eexists|].
  destruct (decide (severity = SEVERITY_HIGH)) as [->|]; [by eexists|].
  rewrite !(bool_decide_false (severity = SEVERITY_CRITICAL)), !(bool_decide_false (severity = SEVERITY_HIGH)) by done.
  simpl. eexists. by destruct (bool_decide (severity = SEVERITY_LOW)).
Qed.
Lemma evaluate_risk_medium risk_id waivers now :
  evaluate_risk risk_id SEVERITY_MEDIUM waivers now =
    match filter (λ w, for_risk risk_id w = true) waivers with
    | [] => Ok (mkBlockDecision true [REASON_WAIVER_MISSING])
    | matching => scan_waivers now [] matching
    end.
Proof. reflexivity. Qed.

Lemma evaluate_risk_spec risk_id severity waivers now d :
  evaluate_risk risk_id severity waivers now = Ok d →
  (bd_blocked d = false ↔
     severity = SEVERITY_LOW ∨
     (severity = SEVERITY_MEDIUM ∧ ∃ w, w ∈ waivers ∧ for_risk risk_id w = true ∧ in_force w now)) ∧
  (bd_blocked d = true → bd_reason_codes d ≠ [] ∧ NoDup (bd_reason_codes d)) ∧
  (bd_blocked d = false → bd_reason_codes d = []).
Proof.
  destruct (decide (severity = SEVERITY_MEDIUM)) as [->|Hm].
  2: { destruct (evaluate_risk_fixed risk_id severity waivers now Hm) as [reason ->]. intros [= <-].
    destruct (decide (severity = SEVERITY_LOW)) as [->|Hl].
    - simpl. split; [|done]. split; auto.
    - rewrite bool_decide_false by done. simpl. split_and!; [|split; [done|apply NoDup_singleton]|done].
      split; [done|]. by intros [?|[? _]]. }
  rewrite evaluate_risk_medium. set (matching := filter _ waivers).
  assert (Hin : ∀ w, w ∈ matching ↔ w ∈ waivers ∧ for_risk risk_id w = true).
  { intros w. unfold matching. rewrite list_elem_of_filter. tauto. }
  destruct matching as [|w ws].
  - intros [= <-]. simpl. split_and!; [|split; [done|apply NoDup_singleton]|done]. split; [done|].
    intros [?|(_ & w & ? & ? & _)]; [done|]. assert (w ∈ []) as []%elem_of_nil. by apply Hin.
  - intros Hs. destruct (scan_waivers_Ok _ _ _ _ Hs) as (Hb & Hr & Hu). split_and!; [| |done].
    + rewrite Hb. setoid_rewrite Hin. split; [intros (w' & [? ?] & ?); right; eauto|].
      intros [?|(_ & w' & ? & ? & ?)]; [done|eauto].
    + intros Hbl. destruct (Hr Hbl) as [? Hne]. split; [by apply Hne; right|done].
Qed.

(** * Properties *)

(** a waiver check reports validity exactly when the waiver is in force: a
    medium severity, a human creator, a human approver with the security
    reviewer role, an owner without it, an active status, and a window that is
    not empty and has not ended; the reasons are empty exactly then.  The check
    answers whenever the three parties are mappings, absent or falsy. *)
Theorem check_waiver_in_force waiver now :
  (∀ chk, check_waiver waiver now = Ok chk →
     (wc_valid chk = true ↔ in_force waiver now) ∧ (wc_valid chk = true ↔ wc_reason_codes chk = [])) ∧
  (parties_ok waiver → ∃ chk, check_waiver waiver now = Ok chk).
Proof. destruct (check_waiver_spec waiver now) as (? & ? & _). done. Qed.

(** C27: critical, high and unknown severities always block, whatever waivers
    exist; low never blocks; a medium risk is unblocked exactly when one of the
    waivers for that risk is in force.  A block has reasons, each listed once. *)
Theorem evaluate_risk_correct risk_id severity waivers now d :
  evaluate_risk risk_id severity waivers now = Ok d →
  (bd_blocked d = false ↔
     severity = SEVERITY_LOW ∨
     (severity = SEVERITY_MEDIUM ∧ ∃ w, w ∈ waivers ∧ for_risk risk_id w = true ∧ in_force w now)) ∧
  (bd_blocked d = true → bd_reason_codes d ≠ [] ∧ NoDup (bd_reason_codes d)) ∧
  (bd_blocked d = false → bd_reason_codes d = []).
Proof.
  apply evaluate_risk_spec.
Qed.

(** waivers only lapse with time.  A risk that is unblocked at a moment was
    unblocked at every earlier moment, and once the windows of all its waivers
    have ended a medium risk is blocked again. *)
Theorem waivers_lapse risk_id severity waivers now :
  (∀ d now', evaluate_risk risk_id severity waivers now = Ok d → bd_blocked d = false → now' ≤ now →
     ∃ d', evaluate_risk risk_id severity waivers now' = Ok d' ∧ bd_blocked d' = false) ∧
  (∀ d, evaluate_risk risk_id severity waivers now = Ok d → severity ≠ SEVERITY_LOW →
     (∀ w e, w ∈ waivers → for_risk risk_id w = true → instant w "expires_at" e → e ≤ now) →
     bd_blocked d = true).
Proof.
  split.
  - intros d now' Hd Hb Hle. destruct (decide (severity = SEVERITY_MEDIUM)) as [->|Hm].
    + rewrite evaluate_risk_medium in *. destruct (filter _ waivers); [by simplify_eq|].
      eexists. split; [by eapply scan_waivers_earlier|done].
    + destruct (evaluate_risk_fixed risk_id severity waivers now Hm) as [reason E].
      destruct (evaluate_risk_fixed risk_id severity waivers now' Hm) as [reason' ->].
      rewrite E in Hd. eexists. split; [done|]. destruct (bool_decide _); by simplify_eq.
  - intros d Hd Hlow Hexp. destruct (bd_blocked d) eqn:Eb; [done|]. exfalso.
    apply evaluate_risk_spec in Hd as [Hd _]. apply Hd in Eb as [?|(_ & w & Hw & Hf & Hforce)]; [done|].
    destruct (force_window _ _ Hforce) as (c & e & _ & He & _ & Hlt). specialize (Hexp w e Hw Hf He). lia.
Qed.

(** separation of duties is by role only: one and the same person may create,
    approve and own a waiver that is in force, as long as the owner is named
    with another role. *)
Theorem same_person_waiver :
  let alice role := VDict [("type", VStr "human"); ("id", VStr "alice"); ("role", VStr role)] in
  let waiver := [("risk_id", VStr "R1"); ("severity", VStr "medium");
    ("created_by", alice "developer"); ("approved_by", alice SECURITY_REVIEWER_ROLE); ("owner", alice "developer");
    ("created_at", VStr "2026-01-01T00:00:00Z"); ("expires_at", VStr "2026-02-01T00:00:00Z")] in
  ∃ now, parse_timestamp "2026-01-15T00:00:00Z" = Ok now ∧
    check_waiver waiver now = Ok (mkWaiverCheck true "active" []) ∧
    evaluate_risk "R1" SEVERITY_MEDIUM [waiver] now = Ok (mkBlockDecision false []).
Proof. eexists. split; [vm_compute; reflexivity|]. split; vm_compute; reflexivity. Qed.

(** * Witnesses *)

Definition demo_waiver : dict :=
  [("risk_id", VStr "R1"); ("severity", VStr "medium");
   ("created_by", VDict [("type", VStr "human")]);
   ("approved_by", VDict [("type", VStr "human"); ("role", VStr SECURITY_REVIEWER_ROLE)]);
   ("created_at", VStr "2026-01-01T00:00:00Z"); ("expires_at", VStr "2026-02-01T00:00:00Z")].

Lemma evaluate_risk_correct_witness :
  bd_blocked (mkBlockDecision true [REASON_WAIVER_EXPIRED]) = true ∧ [REASON_WAIVER_EXPIRED] ≠ [] ∧
  evaluate_risk "R1" SEVERITY_MEDIUM [demo_waiver] (10 ^ 18) = Ok (mkBlockDecision true [REASON_WAIVER_EXPIRED]).
Proof.
  assert (evaluate_risk "R1" SEVERITY_MEDIUM [demo_waiver] (10 ^ 18) =
    Ok (mkBlockDecision true [REASON_WAIVER_EXPIRED])) as E by (vm_compute; reflexivity).
  split; [reflexivity|]. split; [|exact E].
  apply (proj1 (proj2 (evaluate_risk_correct _ _ _ _ _ E)) eq_refl).
Defined.

Lemma waivers_lapse_witness : ∃ now d, parse_timestamp "2026-01-15T00:00:00Z" = Ok now ∧
  evaluate_risk "R1" SEVERITY_MEDIUM [demo_waiver] (now - 1) = Ok d ∧ bd_blocked d = false.
Proof.
  assert (∃ now, parse_timestamp "2026-01-15T00:00:00Z" = Ok now ∧
    evaluate_risk "R1" SEVERITY_MEDIUM [demo_waiver] now = Ok (mkBlockDecision false [])) as (now & Hn & Hd)
    by (eexists; split; [vm_compute; reflexivity|vm_compute; reflexivity]).
  destruct (proj1 (waivers_lapse "R1" SEVERITY_MEDIUM [demo_waiver] now) _ (now - 1) Hd eq_refl ltac:(lia)) as (d & E & Hb).
  exists now, d. split; [exact Hn|]. split; [exact E|exact Hb].
Defined.
