(* ===== verification/Trace.v ===== *)
(** [sdlc/traceability.py]: the traceability chain of a feature - the artifacts
    connected to it by links, the lifecycle stages among them, and the links
    that lead nowhere. *)

From S2P Require Export Artifacts.
#[local] Open Scope Z_scope.

Definition CHAIN_ORDER : list string :=
  ["idea"; "specification"; "threat-model"; "plan"; "task"; "review"; "security-review"].

Record TraceNode := mkTraceNode {
  tn_artifact_id : pystr;
  tn_artifact_type : pystr;
  tn_path : pystr;
  tn_feature_id : value
}.

Record Traceability := mkTraceability {
  tr_feature_id : pystr;
  tr_nodes : list TraceNode;
  tr_ordered_types : list string;
  tr_missing_types : list string;
  tr_dangling : list pystr
}.

Definition complete (t : Traceability) : bool :=
  bool_decide (tr_missing_types t = []) && bool_decide (tr_dangling t = []).

(** The artifacts, by path, in the order they were loaded. *)
Abbreviation Index := (list (path * dict)) (only parsing).

Definition _read (fs : Fs) (p : path) : res dict :=
  data ← read_json fs p;
  match data with
  | VDict d => Ok d
  | _ => raise TypeError (path_str p +:+ ": top-level JSON must be an object")
  end.

(** [artifacts[path] = doc] *)
Fixpoint iset (index : Index) (p : path) (d : dict) : Index :=
  match index with
  | [] => [(p, d)]
  | (q, e) :: index => if bool_decide (q = p) then (p, d) :: index else (q, e) :: iset index p d
  end.
Fixpoint iget {A} (index : list (path * A)) (p : path) : option A :=
  match index with
  | [] => None
  | (q, e) :: index => if bool_decide (q = p) then Some e else iget index p
  end.

Definition load_artifacts (fs : Fs) (paths : list path) : res Index :=
  foldl (λ (acc : res Index) p,
    artifacts ← acc;
    if is_file fs p then
      q ← resolve fs p; doc ← _read fs p; Ok (iset artifacts q doc)
    else Ok artifacts) (Ok []) paths.

(** [(repo_root / subdir).rglob("*.json")]; links to directories are not followed. *)
Definition rglob_json (fs : Fs) (directory : path) : list path :=
  match fs_locate fs directory with
  | Ok q => omap (λ k : path,
      if bool_decide (q `prefix_of` k ∧ k ≠ q) && endswith (default "" (last k)) ".json"
      then Some (directory ++ drop (length q) k)%list else None) (elements (dom fs))
  | Raise _ => []
  end.

Definition discover (fs : Fs) (repo_root : path) (subdir : pystr) : res Index :=
  load_artifacts fs (sort_paths (rglob_json fs (path_join repo_root subdir))).

Definition _local_link_targets (doc : dict) : res (list pystr) :=
  links ← viter (dget_or doc "links" (VList []));
  hrefs ← mapR (λ link, href ← vget link "href" (VStr ""); Ok (py_str href)) links;
  Ok (filter (λ href, endswith href ".json" = true) (hrefs : list pystr)).

(** [path.relative_to(repo_root).as_posix()] *)
Definition relative_posix (repo_root p : path) : res pystr :=
  if inside repo_root p then
    Ok match drop (length repo_root) p with [] => "." | rest => join "/" rest end
  else raise ValueError (path_str p +:+ " is not in the subpath of " +:+ path_str repo_root).

Definition _node_rank (kind : pystr) : nat :=
  match list_find (λ k, k = kind) CHAIN_ORDER with
  | Some (i, _) => i
  | None => length CHAIN_ORDER
  end.
Definition _node_sort_key (node : TraceNode) : nat * pystr :=
  (_node_rank (tn_artifact_type node), tn_artifact_id node).
Definition node_le (m n : TraceNode) : Prop :=
  let (r, s) := _node_sort_key m in
  let (r', s') := _node_sort_key n in
  (r < r')%nat ∨ (r = r' ∧ String.le s s').
#[export] Instance node_le_dec m n : Decision (node_le m n).
Proof. unfold node_le. destruct (_node_sort_key m), (_node_sort_key n). apply _. Defined.

#[export] Instance node_le_total : Total node_le.
Proof.
  intros m n. unfold node_le. destruct (_node_sort_key m) as [r s], (_node_sort_key n) as [r' s'].
  destruct (lt_eq_lt_dec r r') as [[?| ->]|?]; [by left; left| |by right; left].
  destruct (String.le_total s s'); [left|right]; by right.
Qed.

Section trace.
  (** The order in which a set of paths is iterated. *)
  Context (set_order : list path → list path).

(** [by_href.get(href)]; a later path with the same name would win, but names are distinct. *)
Definition by_href (names : list (pystr * path)) (href : pystr) : option path :=
  snd <$> (last (filter (λ np : pystr * path, np.1 = href) names)).

(** The local link targets that exist, for every artifact. *)
Abbreviation Edges := (list (path * list (option path * pystr))) (only parsing).

Definition out_edges (names : list (pystr * path)) (doc : dict) : res (list (option path * pystr)) :=
  hrefs ← _local_link_targets doc;
  Ok ((λ href, (by_href names href, href)) <$> (hrefs : list pystr)).

(** [incoming]: who links to a path, in index order. *)
Definition incoming (edges : Edges) (target : path) : list path :=
  concat ((λ e : path * list (option path * pystr),
    (λ _, e.1) <$> filter (λ t : option path * pystr, t.1 = Some target) e.2) <$> edges).

(** One element of the frontier: its dangling links and its neighbours. *)
Definition dangling_of (targets : list (option path * pystr)) : list pystr :=
  omap (λ t : option path * pystr, match t.1 with None => Some t.2 | Some _ => None end) targets.
Definition targets_of (edges : Edges) (p : path) : list (option path * pystr) := default [] (iget edges p).
Definition neighbors (edges : Edges) (p : path) : list path :=
  (omap fst (targets_of edges p) ++ incoming edges p)%list.

(** Add the neighbours not selected yet to the selection and the frontier. *)
Definition visit (selected frontier : list path) (ns : list path) : list path * list path :=
  foldl (λ '(selected, frontier) n,
    if bool_decide (n ∈ selected) then (selected, frontier)
    else (selected ++ [n], frontier ++ [n])%list) (selected, frontier) ns.

(** The loop [while frontier]; [frontier.pop()] takes the last element. *)
Fixpoint search (fuel : nat) (edges : Edges) (selected frontier : list path) (dangling : list pystr)
    : option (list path * list pystr) :=
  match rev frontier with
  | [] => Some (selected, dangling)
  | current :: rest =>
      match fuel with
      | O => None
      | S fuel =>
          let '(selected, frontier) := visit selected (rev rest) (neighbors edges current) in
          search fuel edges selected frontier (dangling ++ dangling_of (targets_of edges current))%list
      end
  end.

Definition trace_node (repo_root : path) (index : Index) (p : path) : res TraceNode :=
  let doc := default [] (iget index p) in
  rel ← relative_posix repo_root p;
  Ok (mkTraceNode (py_str (dget_or doc "id" (VStr ""))) (py_str (dget_or doc "artifact_type" (VStr "")))
    rel (dget_none doc "feature_id")).

Definition set_sorted (l : list pystr) : list pystr := merge_sort String.le (remove_dups l).

(** [by_href] and the links of every artifact. *)
Definition link_graph (repo_root : path) (index : Index) : res Edges :=
  names ← mapR (λ pd : path * dict, rel ← relative_posix repo_root pd.1; Ok (rel, pd.1)) index;
  mapR (λ pd : path * dict, ts ← out_edges names pd.2; Ok (pd.1, ts)) index.

(** The paths of the artifacts of a feature. *)
Definition feature_paths (feature_id : pystr) (index : Index) : list path :=
  fst <$> filter (λ pd : path * dict, eq_str (dget_none pd.2 "feature_id") feature_id = true) index.

Definition trace_index (repo_root : path) (feature_id : pystr) (index : Index) : res Traceability :=
  edges ← link_graph repo_root index;
  let selected := feature_paths feature_id index in
  match search (length index) edges selected (set_order selected) [] with
  | None => raise RuntimeError "out of fuel"
  | Some (selected, dangling) =>
      nodes ← mapR (trace_node repo_root index) (set_order selected);
      let nodes := merge_sort node_le nodes in
      let present := tn_artifact_type <$> nodes in
      Ok (mkTraceability feature_id nodes
        (filter (λ kind, kind ∈ present) CHAIN_ORDER) (filter (λ kind, kind ∉ present) CHAIN_ORDER)
        (set_sorted dangling))
  end.

Definition trace_feature (fs : Fs) (repo_root : path) (feature_id : pystr) (artifacts : option Index) : res Traceability :=
  index ← match artifacts with Some a => Ok a | None => discover fs repo_root "specs" end;
  trace_index repo_root feature_id index.
End trace.

Definition format_report (report : Traceability) : pystr :=
  let status := if complete report then "COMPLETE" else "INCOMPLETE" in
  let lines :=
    (("feature " +:+ tr_feature_id report +:+ ": " +:+ status)
    :: ((λ node, "  " +:+ ljust 16 (tn_artifact_type node) +:+ " " +:+ ljust 12 (tn_artifact_id node)
           +:+ " " +:+ tn_path node) <$> tr_nodes report))%list in
  let lines := match tr_missing_types report with
    | [] => lines | ms => lines ++ ["  missing: " +:+ join ", " ms] end%list in
  let lines := match tr_dangling report with
    | [] => lines | ds => lines ++ ["  dangling: " +:+ join ", " ds] end%list in
  join LF lines.

(** * The search *)

Lemma visit_spec selected frontier ns :
  ∃ new, visit selected frontier ns = (selected ++ new, frontier ++ new)%list ∧
    NoDup new ∧ ∀ n, n ∈ new ↔ n ∈ ns ∧ n ∉ selected.
Proof.
  unfold visit. revert selected frontier. induction ns as [|n ns IH]; intros selected frontier; simpl.
  { exists []. rewrite !app_nil_r. split; [done|]. split; [constructor|set_solver]. }
  case_bool_decide as Hn.
  - destruct (IH selected frontier) as (new & E & Hnd & Hin). exists new. split; [done|]. split; [done|].
    intros m. rewrite Hin. set_solver.
  - destruct (IH (selected ++ [n])%list (frontier ++ [n])%list) as (new & E & Hnd & Hin). exists (n :: new).
    rewrite E, <-!app_assoc. split; [done|]. split.
    + constructor; [|done]. rewrite Hin. set_solver.
    + intros m. rewrite elem_of_cons, Hin. destruct (decide (m = n)); set_solver.
Qed.

Section search.
  Context (edges : list (path * list (option path * pystr))).

(** One step of the chain, in either direction of a link. *)
Definition linked (p q : path) : Prop := q ∈ neighbors edges p.
(** What is reachable from a set of paths. *)
Definition chain (from : list path) (p : path) : Prop := ∃ s, s ∈ from ∧ rtc linked s p.

(** The loop invariant: processed paths (selected, no longer in the frontier)
    have their neighbours selected, and the dangling links are theirs. *)
Record search_inv (from selected frontier : list path) (dangling : list pystr) : Prop := {
  inv_selected : NoDup selected;
  inv_frontier : NoDup frontier;
  inv_sub : frontier ⊆ selected;
  inv_known : selected ⊆ edges.*1;
  inv_from : from ⊆ selected;
  inv_reach : ∀ p, p ∈ selected → chain from p;
  inv_closed : ∀ p q, p ∈ selected → p ∉ frontier → linked p q → q ∈ selected;
  inv_dangling : ∀ h, h ∈ dangling ↔
    ∃ p, p ∈ selected ∧ (p ∉ frontier) ∧ h ∈ dangling_of (targets_of edges p)
}.

Context (Hknown : ∀ p q, linked p q → q ∈ edges.*1).

Lemma search_step from selected rest current dangling :
  search_inv from selected (rest ++ [current]) dangling →
  let sf := visit selected rest (neighbors edges current) in
  search_inv from sf.1 sf.2 (dangling ++ dangling_of (targets_of edges current)) ∧
  ∃ new, sf = (selected ++ new, rest ++ new)%list.
Proof.
  intros [Hs Hf Hsub Hk Hfrom Hr Hc Hd] sf. subst sf.
  destruct (visit_spec selected rest (neighbors edges current)) as (new & -> & Hnew & Hin). simpl.
  split; [|by exists new].
  apply NoDup_app in Hf as (Hrest & Hcur & _).
  assert (Hcsel : current ∈ selected) by (apply Hsub; set_solver).
  assert (Hcr : current ∉ rest) by (intros ?; eapply Hcur; [done|set_solver]).
  assert (Hcn : current ∉ new) by (rewrite Hin; set_solver).
  split.
  - apply NoDup_app. split_and!; [done| |done]. intros x ? Hx%Hin. set_solver.
  - apply NoDup_app. split_and!; [done| |done]. intros x ? Hx%Hin. set_solver.
  - set_solver.
  - intros x [?|Hx]%elem_of_app; [by apply Hk|]. apply Hin in Hx as [Hx _]. by apply (Hknown current).
  - set_solver.
  - intros p [?|Hp]%elem_of_app; [by apply Hr|]. apply Hin in Hp as [Hp _].
    destruct (Hr current Hcsel) as (s & ? & ?). exists s. split; [done|]. by eapply rtc_r.
  - intros p q Hp Hnf Hl. destruct (decide (p = current)) as [->|Hne].
    + destruct (decide (q ∈ selected)); [set_solver|]. apply elem_of_app. right. by apply Hin.
    + assert (p ∈ selected) by set_solver. assert (q ∈ selected) by (apply (Hc p); set_solver). set_solver.
  - intros h. rewrite elem_of_app, Hd. split.
    + intros [(p & ? & ? & ?)|?]; [exists p|exists current]; set_solver.
    + intros (p & Hp & Hnf & Hh). destruct (decide (p = current)) as [->|]; [by right|left].
      exists p. set_solver.
Qed.

Lemma search_correct fuel from selected frontier dangling :
  search_inv from selected frontier dangling →
  (length frontier + (length edges - length selected) ≤ fuel)%nat →
  ∃ selected' dangling', search fuel edges selected frontier dangling = Some (selected', dangling') ∧
    search_inv from selected' [] dangling'.
Proof.
  revert selected frontier dangling. induction fuel as [|fuel IH]; intros selected frontier dangling Hinv Hf;
    cbn [search]; destruct frontier as [|current rest] using rev_ind.
  - by exists selected, dangling.
  - rewrite length_app in Hf. simpl in Hf. lia.
  - by exists selected, dangling.
  - clear IHrest. rewrite rev_app_distr. cbn [rev app]. rewrite rev_involutive.
    destruct (search_step _ _ _ _ _ Hinv) as [Hinv' [new E]]. rewrite E in Hinv' |- *. simpl in Hinv'.
    apply IH; [done|].
    assert (Hle : (length (selected ++ new) ≤ length edges)%nat).
    { rewrite <-(length_fmap fst edges). apply submseteq_length, NoDup_submseteq; [apply Hinv'|]. apply Hinv'. }
    rewrite !length_app in *. simpl in *. lia.
Qed.
End search.

(** * The link graph *)

Lemma iget_elem {A} (index : list (path * A)) p a :
  NoDup (index.*1) → (p, a) ∈ index → iget index p = Some a.
Proof.
  induction index as [|[q e] index IH]; intros Hnd Hin; [by apply elem_of_nil in Hin|].
  simpl in *. apply NoDup_cons in Hnd as [Hq Hnd]. apply elem_of_cons in Hin as [[= <- <-]|Hin].
  - by rewrite bool_decide_true.
  - rewrite bool_decide_false; [by apply IH|]. intros ->. apply Hq, list_elem_of_fmap. by exists (p, a).
Qed.
Lemma iget_Some {A} (index : list (path * A)) p a : iget index p = Some a → (p, a) ∈ index.
Proof.
  induction index as [|[q e] index IH]; simpl; [done|].
  case_bool_decide; [intros [= ->]; subst; set_solver|]. intros Hx%IH. set_solver.
Qed.

Lemma elem_of_incoming edges p q :
  q ∈ incoming edges p ↔ ∃ ts, (q, ts) ∈ edges ∧ ∃ h, (Some p, h) ∈ ts.
Proof.
  unfold incoming. rewrite list_elem_of_In, in_concat. split.
  - intros (l & Hl & Hq). apply in_map_iff in Hl as ([e ts] & <- & He). apply in_map_iff in Hq as ([t h] & <- & Ht).
    apply list_elem_of_In, list_elem_of_filter in Ht as [Ht ?]. simpl in *. subst.
    exists ts. split; [by apply list_elem_of_In|]. by exists h.
  - intros (ts & He & h & Hh). eexists. split.
    + apply in_map_iff. exists (q, ts). split; [reflexivity|by apply list_elem_of_In].
    + simpl. apply in_map_iff. exists (Some p, h). split; [done|].
      apply list_elem_of_In, list_elem_of_filter. done.
Qed.

Lemma linked_spec edges p q :
  linked edges p q ↔ (∃ h, (Some q, h) ∈ targets_of edges p) ∨ q ∈ incoming edges p.
Proof.
  unfold linked, neighbors. rewrite elem_of_app, list_elem_of_omap. simpl. split.
  - intros [([t h] & ? & ?)|?]; [left; simpl in *; subst; eauto|auto].
  - intros [[h ?]|?]; [left; by exists (Some q, h)|auto].
Qed.

(** Links are followed in both directions. *)
Lemma linked_sym edges p q : NoDup (edges.*1) → linked edges p q → linked edges q p.
Proof.
  intros Hnd. rewrite !linked_spec, !elem_of_incoming. intros [[h Hh]|(ts & Hts & h & Hh)].
  - right. unfold targets_of in Hh. destruct (iget edges p) as [ts|] eqn:E; [|by apply elem_of_nil in Hh].
    apply iget_Some in E. eauto.
  - left. exists h. unfold targets_of. by rewrite (iget_elem _ _ _ Hnd Hts).
Qed.

Lemma link_graph_keys root index edges : link_graph root index = Ok edges → edges.*1 = index.*1.
Proof.
  unfold link_graph. intros (names & _ & He)%res_bind_Ok. apply mapR_Ok in He.
  induction He as [|[p d] [q ts] ? ? H _ IH]; [done|]. apply res_bind_Ok in H as (? & _ & [= <- <-]).
  rewrite !fmap_cons. by f_equal.
Qed.

Lemma link_graph_known root index edges p q :
  link_graph root index = Ok edges → linked edges p q → q ∈ edges.*1.
Proof.
  intros Hg. pose proof (link_graph_keys _ _ _ Hg) as Hk. unfold link_graph in Hg.
  apply res_bind_Ok in Hg as (names & Hn & He).
  assert (Hnames : names.*2 = index.*1).
  { apply mapR_Ok in Hn. clear He Hk. induction Hn as [|[a d] [r b] ? ? H _ IH]; [done|].
    apply res_bind_Ok in H as (? & _ & [= _ <-]).
    rewrite !fmap_cons. by f_equal. }
  rewrite linked_spec, elem_of_incoming. intros [[h Hh]|(ts & Hts & _)].
  - rewrite Hk, <-Hnames. unfold targets_of in Hh.
    destruct (iget edges p) as [ts|] eqn:E; [|by apply elem_of_nil in Hh]. apply iget_Some in E.
    apply mapR_Ok in He. apply list_elem_of_lookup in E as [i E].
    apply (Forall2_lookup_r _ _ _ _ _ He) in E as ([a d] & _ & H).
    apply res_bind_Ok in H as (ts' & H & [= _ <-]). unfold out_edges in H.
    apply res_bind_Ok in H as (hrefs & _ & [= <-]). apply list_elem_of_fmap in Hh as (href & [= Hq _] & _).
    unfold by_href in Hq. symmetry in Hq. apply fmap_Some in Hq as ([r b] & Hl & ->).
    apply last_Some_elem_of, list_elem_of_filter in Hl as [_ Hl]. apply list_elem_of_fmap. by exists (r, b).
  - apply list_elem_of_fmap. by exists (q, ts).
Qed.

Lemma by_href_Some names h p : NoDup (names.*1) → (h, p) ∈ names → by_href names h = Some p.
Proof.
  intros Hnd Hin. unfold by_href.
  destruct (last (filter (λ np : pystr * path, np.1 = h) names)) as [[h' q]|] eqn:E.
  - apply last_Some_elem_of, list_elem_of_filter in E as [E Hq]. cbn in *. subst h'. f_equal.
    apply list_elem_of_lookup in Hin as [i Hi]. apply list_elem_of_lookup in Hq as [j Hj].
    assert (i = j) as ->; [|congruence].
    apply (NoDup_lookup _ i j h Hnd); by rewrite list_lookup_fmap, ?Hi, ?Hj.
  - apply last_None in E. assert (H : (h, p) ∈ filter (λ np : pystr * path, np.1 = h) names)
      by (by apply list_elem_of_filter). rewrite E in H. by apply elem_of_nil in H.
Qed.
Lemma by_href_None names h : by_href names h = None ↔ h ∉ names.*1.
Proof.
  unfold by_href. rewrite fmap_None, last_None. split.
  - intros E ([h' p] & -> & Hin)%list_elem_of_fmap.
    assert (H : (h', p) ∈ filter (λ np : pystr * path, np.1 = h') names) by (by apply list_elem_of_filter).
    cbn in E. rewrite E in H. by apply elem_of_nil in H.
  - intros Hh. apply elem_of_nil_inv. intros [h' p] [<- Hin]%list_elem_of_filter.
    apply Hh, list_elem_of_fmap. by exists (h', p).
Qed.

(** The links of one artifact, in the graph. *)
Lemma link_graph_targets root index edges p doc :
  NoDup (index.*1) → link_graph root index = Ok edges → (p, doc) ∈ index →
  ∃ names hrefs, mapR (λ pd : path * dict, rel ← relative_posix root pd.1; Ok (rel, pd.1)) index = Ok names ∧
    _local_link_targets doc = Ok hrefs ∧ targets_of edges p = (λ h, (by_href names h, h)) <$> hrefs.
Proof.
  intros Hnd Hg Hin. assert (Hk : NoDup (edges.*1)) by (by rewrite (link_graph_keys _ _ _ Hg)).
  unfold link_graph in Hg. apply res_bind_Ok in Hg as (names & Hn & He). apply mapR_Ok in He.
  apply list_elem_of_lookup in Hin as [i Hi]. apply (Forall2_lookup_l _ _ _ _ _ He) in Hi as (e & Hi & H).
  apply res_bind_Ok in H as (ts & H & [= <-]). unfold out_edges in H. apply res_bind_Ok in H as (hrefs & Hh & [= <-]).
  exists names, hrefs. split_and!; [done|done|]. apply list_elem_of_lookup_2, iget_elem in Hi; [|done].
  unfold targets_of. by rewrite Hi.
Qed.

Lemma iset_fresh (index : Index) p d : p ∉ index.*1 → iset index p d = (index ++ [(p, d)])%list.
Proof.
  induction index as [|[q e] index IH]; intros Hp; [done|]. cbn in *.
  rewrite bool_decide_false by set_solver. f_equal. apply IH. set_solver.
Qed.

(** * Properties *)

Section properties.
  Context (set_order : list path → list path) (Horder : ∀ l, set_order l ≡ₚ l).

Lemma initial_inv root feature_id index edges :
  NoDup (index.*1) → link_graph root index = Ok edges →
  let from := feature_paths feature_id index in
  search_inv edges from from (set_order from) [] ∧ (length (set_order from) ≤ length index)%nat ∧
  (length from ≤ length index)%nat.
Proof.
  intros Hnd Hg from.
  assert (Hsub : sublist from (index.*1)) by (apply fmap_sublist, sublist_filter).
  assert (Hfrom : NoDup from) by (by eapply sublist_NoDup).
  assert (Hlen : (length from ≤ length index)%nat)
    by (apply sublist_length in Hsub; by rewrite length_fmap in Hsub).
  split; [|by rewrite (Permutation_length (Horder from))]. split; try done.
  - by rewrite Horder.
  - intros x. by rewrite Horder.
  - rewrite (link_graph_keys _ _ _ Hg). intros x Hx. unfold from, feature_paths in Hx.
    apply list_elem_of_fmap in Hx as (pd & -> & [_ Hx]%list_elem_of_filter). by apply list_elem_of_fmap_2.
  - intros p Hp. exists p. split; [done|]. constructor.
  - intros p q ? Hp. by rewrite Horder in Hp.
  - intros h. split; [by intros ?%elem_of_nil|]. intros (p & ? & Hp & _). by rewrite Horder in Hp.
Qed.

Lemma search_total root feature_id index edges :
  NoDup (index.*1) → link_graph root index = Ok edges →
  let from := feature_paths feature_id index in
  ∃ selected dangling, search (length index) edges from (set_order from) [] = Some (selected, dangling) ∧
    search_inv edges from selected [] dangling.
Proof.
  intros Hnd Hg from. destruct (initial_inv root feature_id index edges Hnd Hg) as (Hinv & Hlen & Hlen').
  eapply search_correct; [by intros; eapply link_graph_known|exact Hinv|].
  rewrite (Permutation_length (Horder _)).
  assert (length edges = length index) as ->; [|subst from; lia].
  rewrite <-(length_fmap fst edges), (link_graph_keys _ _ _ Hg). by rewrite length_fmap.
Qed.

(** After the search the selection is the chain of the feature. *)
Lemma selected_chain edges from selected dangling p :
  search_inv edges from selected [] dangling → p ∈ selected ↔ chain edges from p.
Proof.
  intros [_ _ _ _ Hfrom Hr Hc _]. split; [apply Hr|]. intros (s & Hs%Hfrom & Hrtc).
  induction Hrtc as [|x y z Hxy _ IH]; [done|]. apply IH. apply (Hc x); [done|apply not_elem_of_nil|done].
Qed.

(** What [trace_index] returns, in terms of the chain. *)
Lemma trace_index_spec root feature_id index edges t :
  NoDup (index.*1) → link_graph root index = Ok edges →
  trace_index set_order root feature_id index = Ok t →
  let from := feature_paths feature_id index in
  (∀ n, n ∈ tr_nodes t ↔ ∃ p, chain edges from p ∧ trace_node root index p = Ok n) ∧
  Sorted node_le (tr_nodes t) ∧
  tr_ordered_types t = filter (λ kind, kind ∈ tn_artifact_type <$> tr_nodes t) CHAIN_ORDER ∧
  tr_missing_types t = filter (λ kind, kind ∉ tn_artifact_type <$> tr_nodes t) CHAIN_ORDER ∧
  (∀ h, h ∈ tr_dangling t ↔ ∃ p, chain edges from p ∧ h ∈ dangling_of (targets_of edges p)) ∧
  Sorted String.le (tr_dangling t) ∧ NoDup (tr_dangling t).
Proof.
  intros Hnd Hg Ht from. unfold trace_index in Ht. rewrite Hg in Ht. cbn [mbind res_bind] in Ht.
  destruct (search_total root feature_id index edges Hnd Hg) as (selected & dangling & Hs & Hinv).
  rewrite Hs in Ht. apply res_bind_Ok in Ht as (nodes & Hnodes & [= <-]). simpl.
  assert (Hsel : ∀ p, p ∈ set_order selected ↔ chain edges from p).
  { intros p. rewrite Horder. by eapply selected_chain. }
  split_and!; try done.
  - intros n. rewrite merge_sort_Permutation. apply mapR_Ok in Hnodes. split.
    + intros [i Hi]%list_elem_of_lookup. apply (Forall2_lookup_r _ _ _ _ _ Hnodes) in Hi as (p & Hp & ?).
      exists p. split; [|done]. apply Hsel, list_elem_of_lookup. eauto.
    + intros (p & Hp%Hsel & Hn). apply list_elem_of_lookup in Hp as [i Hi].
      apply (Forall2_lookup_l _ _ _ _ _ Hnodes) in Hi as (n' & Hi & ?). assert (n' = n) as -> by congruence.
      apply list_elem_of_lookup. by exists i.
  - apply Sorted_merge_sort. apply _.
  - intros h. unfold set_sorted. rewrite merge_sort_Permutation, elem_of_remove_dups.
    rewrite (inv_dangling _ _ _ _ _ Hinv). setoid_rewrite (selected_chain _ _ _ _ _ Hinv).
    split; [intros (p & ? & _ & ?); by exists p|]. intros (p & ? & ?). exists p.
    split; [done|]. split; [apply not_elem_of_nil|done].
  - apply Sorted_merge_sort. apply _.
  - unfold set_sorted. rewrite merge_sort_Permutation. apply NoDup_remove_dups.
Qed.

(** C28: the trace of a feature consists of exactly the artifacts connected to one
    of its artifacts by links followed in either direction, sorted by lifecycle
    stage; the reported dangling links are exactly those of these artifacts that
    lead to no known artifact, sorted and each once. *)
Theorem trace_selects_chain root feature_id index edges t :
  NoDup (index.*1) → link_graph root index = Ok edges →
  trace_index set_order root feature_id index = Ok t →
  let from := feature_paths feature_id index in
  (∀ p q, linked edges p q ↔ linked edges q p) ∧
  (∀ n, n ∈ tr_nodes t ↔ ∃ p, chain edges from p ∧ trace_node root index p = Ok n) ∧
  Sorted node_le (tr_nodes t) ∧
  (∀ h, h ∈ tr_dangling t ↔ ∃ p, chain edges from p ∧ h ∈ dangling_of (targets_of edges p)) ∧
  Sorted String.le (tr_dangling t) ∧ NoDup (tr_dangling t).
Proof.
  intros Hnd Hg Ht from. destruct (trace_index_spec root feature_id index edges t Hnd Hg Ht)
    as (? & ? & _ & _ & ? & ? & ?).
  assert (NoDup (edges.*1)) by (by rewrite (link_graph_keys _ _ _ Hg)).
  split_and!; try done. intros p q. split; by apply linked_sym.
Qed.

(** the trace is complete exactly when every lifecycle stage is represented in
    the chain and no artifact of the chain has a link to a missing artifact;
    the reported present and missing stages partition the lifecycle, in order. *)
Theorem trace_complete_iff root feature_id index edges t :
  NoDup (index.*1) → link_graph root index = Ok edges →
  trace_index set_order root feature_id index = Ok t →
  let from := feature_paths feature_id index in
  (complete t = true ↔
    (∀ kind, kind ∈ CHAIN_ORDER → ∃ p n, chain edges from p ∧ trace_node root index p = Ok n ∧
       tn_artifact_type n = kind) ∧
    (∀ p h, chain edges from p → h ∉ dangling_of (targets_of edges p))) ∧
  tr_ordered_types t `sublist_of` CHAIN_ORDER ∧ tr_missing_types t `sublist_of` CHAIN_ORDER ∧
  (tr_ordered_types t ++ tr_missing_types t)%list ≡ₚ CHAIN_ORDER.
Proof.
  intros Hnd Hg Ht from. destruct (trace_index_spec root feature_id index edges t Hnd Hg Ht)
    as (Hnodes & _ & Hord & Hmiss & Hdang & _).
  rewrite Hord, Hmiss. split_and!; [|apply sublist_filter|apply sublist_filter|].
  - unfold complete. rewrite andb_true_iff, !bool_decide_eq_true, Hmiss.
    assert (Hf : filter (λ kind, kind ∉ tn_artifact_type <$> tr_nodes t) CHAIN_ORDER = [] ↔
      ∀ kind, kind ∈ CHAIN_ORDER → kind ∈ tn_artifact_type <$> tr_nodes t).
    { split.
      - intros E kind Hk. destruct (decide (kind ∈ tn_artifact_type <$> tr_nodes t)) as [|Hn]; [done|].
        assert (kind ∈ filter (λ kind, kind ∉ tn_artifact_type <$> tr_nodes t) CHAIN_ORDER) as Hin
          by (by apply list_elem_of_filter).
        rewrite E in Hin. by apply elem_of_nil in Hin.
      - intros Hall. apply elem_of_nil_inv. intros kind [Hn Hk]%list_elem_of_filter. by apply Hn, Hall. }
    rewrite Hf. clear Hf. setoid_rewrite list_elem_of_fmap. split.
    + intros [Hk Hd]. split.
      * intros kind (n & -> & (p & ? & ?)%Hnodes)%Hk. by exists p, n.
      * intros p h Hp Hh. assert (h ∈ tr_dangling t) as Hin by (apply Hdang; by exists p).
        rewrite Hd in Hin. by apply elem_of_nil in Hin.
    + intros [Hk Hd]. split.
      * intros kind (p & n & Hp & Hn & <-)%Hk. exists n. split; [done|]. apply Hnodes. by exists p.
      * destruct (tr_dangling t) as [|h l]; [done|]. exfalso.
        destruct (proj1 (Hdang h) ltac:(set_solver)) as (p & Hp & Hh). by apply (Hd p h).
  - apply filter_app_complement.
Qed.

(** C37: the search ends: with as much fuel as there are artifacts - each is taken
    from the frontier at most once - it always returns a result, cycles of
    links included. *)
Theorem trace_terminates root feature_id index edges :
  NoDup (index.*1) → link_graph root index = Ok edges →
  ∃ selected dangling,
    search (length index) edges (feature_paths feature_id index)
      (set_order (feature_paths feature_id index)) [] = Some (selected, dangling) ∧
    NoDup selected ∧ selected ⊆ index.*1.
Proof.
  intros Hnd Hg. destruct (search_total root feature_id index edges Hnd Hg) as (selected & dangling & ? & Hinv).
  exists selected, dangling. split; [done|]. split; [apply Hinv|].
  rewrite <-(link_graph_keys _ _ _ Hg). apply Hinv.
Qed.
End properties.

(** the result does not depend on the order in which Python iterates its sets,
    except for the relative order of nodes with the same stage and id. *)
Theorem trace_order_independent order order' root feature_id index t t' :
  (∀ l, order l ≡ₚ l) → (∀ l, order' l ≡ₚ l) → NoDup (index.*1) →
  trace_index order root feature_id index = Ok t → trace_index order' root feature_id index = Ok t' →
  (∀ n, n ∈ tr_nodes t ↔ n ∈ tr_nodes t') ∧ tr_ordered_types t = tr_ordered_types t' ∧
  tr_missing_types t = tr_missing_types t' ∧ tr_dangling t = tr_dangling t' ∧ complete t = complete t'.
Proof.
  intros Ho Ho' Hnd Ht Ht'. assert (∃ edges, link_graph root index = Ok edges) as [edges Hg].
  { unfold trace_index in Ht. apply res_bind_Ok in Ht as (edges & ? & _). eauto. }
  destruct (trace_index_spec order Ho _ _ _ _ _ Hnd Hg Ht) as (Hn & _ & Hor & Hm & Hd & Hs & Hnd1).
  destruct (trace_index_spec order' Ho' _ _ _ _ _ Hnd Hg Ht') as (Hn' & _ & Hor' & Hm' & Hd' & Hs' & Hnd2).
  assert (Hnodes : ∀ n, n ∈ tr_nodes t ↔ n ∈ tr_nodes t') by (intros n; by rewrite Hn, Hn').
  assert (Hkinds : ∀ k, k ∈ tn_artifact_type <$> tr_nodes t ↔ k ∈ tn_artifact_type <$> tr_nodes t').
  { intros k. rewrite !list_elem_of_fmap. by setoid_rewrite Hnodes. }
  assert (Hdd : tr_dangling t = tr_dangling t').
  { apply (Sorted_unique String.le); [done|done|]. apply NoDup_Permutation; [done|done|].
    intros h. by rewrite Hd, Hd'. }
  assert (Hoo : tr_ordered_types t = tr_ordered_types t') by (rewrite Hor, Hor'; by apply list_filter_iff).
  assert (Hmm : tr_missing_types t = tr_missing_types t').
  { rewrite Hm, Hm'. apply list_filter_iff. intros k. by rewrite Hkinds. }
  split_and!; try done. unfold complete. by rewrite Hmm, Hdd.
Qed.

(** * Witnesses *)

Definition link_to (href : string) : dict := [("links", VList [VDict [("rel", VStr "x"); ("href", VStr href)]])].
(** An idea, and a specification that links to it and to a missing file. *)
Definition demo_index : list (path * dict) :=
  [(["r"; "s"; "idea.json"], [("id", VStr "IDEA-1"); ("artifact_type", VStr "idea"); ("feature_id", VStr "F")]);
   (["r"; "s"; "spec.json"],
     dupdate (link_to "s/idea.json") [("id", VStr "SPEC-1"); ("artifact_type", VStr "specification")]);
   (["r"; "s"; "other.json"], dupdate (link_to "s/none.json") [("artifact_type", VStr "task")])].
Definition demo_edges : list (path * list (option path * pystr)) :=
  match link_graph ["r"] demo_index with Ok e => e | Raise _ => [] end.
Definition demo_trace : Traceability :=
  match trace_index (λ l, l) ["r"] "F" demo_index with
  | Ok t => t
  | Raise _ => mkTraceability "" [] [] [] []
  end.

Lemma demo_trace_facts :
  NoDup (demo_index.*1) ∧ link_graph ["r"] demo_index = Ok demo_edges ∧
  trace_index (λ l, l) ["r"] "F" demo_index = Ok demo_trace ∧
  tr_ordered_types demo_trace = ["idea"; "specification"] ∧ tr_dangling demo_trace = [].
Proof.
  split; [apply (bool_decide_unpack _); vm_compute; exact I|]. split_and!; vm_compute; reflexivity.
Qed.

Lemma trace_selects_chain_witness : ∃ n p,
  n ∈ tr_nodes demo_trace ∧ chain demo_edges (feature_paths "F" demo_index) p ∧ trace_node ["r"] demo_index p = Ok n.
Proof.
  destruct demo_trace_facts as (Hnd & Hg & Ht & _).
  destruct (trace_selects_chain (λ l, l) (λ l, Permutation_refl l) ["r"] "F" demo_index demo_edges demo_trace Hnd Hg Ht)
    as (_ & Hn & _).
  destruct (tr_nodes demo_trace) as [|n ns] eqn:E; [vm_compute in E; discriminate E|].
  destruct (proj1 (Hn n) (list_elem_of_here n ns)) as (p & Hc & Hp).
  exists n, p. split; [apply list_elem_of_here|]. split; [exact Hc|exact Hp].
Defined.

Lemma trace_complete_iff_witness :
  (tr_ordered_types demo_trace ++ tr_missing_types demo_trace)%list ≡ₚ CHAIN_ORDER.
Proof.
  destruct demo_trace_facts as (Hnd & Hg & Ht & _).
  apply (trace_complete_iff (λ l, l) (λ l, Permutation_refl l) ["r"] "F" demo_index demo_edges demo_trace Hnd Hg Ht).
Defined.

Lemma trace_terminates_witness :
  ∃ selected dangling, search (length demo_index) demo_edges (feature_paths "F" demo_index)
      (feature_paths "F" demo_index) [] = Some (selected, dangling) ∧
    NoDup selected ∧ selected ⊆ demo_index.*1.
Proof.
  destruct demo_trace_facts as (Hnd & Hg & _).
  apply (trace_terminates (λ l, l) (λ l, Permutation_refl l) ["r"] "F" demo_index demo_edges Hnd Hg).
Defined.

Lemma trace_order_independent_witness :
  ∃ t', trace_index (@rev path) ["r"] "F" demo_index = Ok t' ∧ tr_dangling demo_trace = tr_dangling t'.
Proof.
  destruct demo_trace_facts as (Hnd & Hg & Ht & _).
  eexists. split; [vm_compute; reflexivity|].
  eapply (trace_order_independent (λ l, l) (@rev path) ["r"] "F" demo_index demo_trace);
    [done|intros l; symmetry; apply Permutation_rev|exact Hnd|exact Ht|vm_compute; reflexivity].
Defined.
