(* ===== verification/Skills.v ===== *)
(** [sdlc/skills/] but the runner, and [sdlc/llm/]: role skills - how the model's
    context is built, how its output is read, and how a document is assembled
    from untrusted content and the platform's envelope. *)

From S2P Require Export JsonFacts Trust World.
From Stdlib Require Import Ascii.
#[local] Open Scope Z_scope.

(** * The model *)

Abbreviation LLMAdapter := (LLMRequest → ST World LLMResponse) (only parsing).

(** [StubLLM.complete] *)
Definition stub_complete (responses : gmap string string) (model : string) : LLMAdapter := fun request =>
  match responses !! llm_role request with
  | Some text => mret (mkLLMResponse text model)
  | None => raiseS LLMError ("no stub response for role " +:+ repr_str (llm_role request))
  end.

(** * Skills *)

Record ContextInput := mkContextInput {
  in_name : pystr;
  in_document : dict;
  in_source : pystr
}.

(** A [ContextInput] with the default source. *)
Definition approved (name : pystr) (document : dict) : ContextInput :=
  mkContextInput name document "approved_artifact".

Abbreviation AssembleFn := (dict → dict → res dict) (only parsing).

Record Skill := mkSkill {
  skill_name : string;
  skill_role : string;
  skill_tool_name : string;
  skill_output_schema : string;
  skill_system_prompt : string;
  skill_context_keys : list string;
  skill_assemble : AssembleFn
}.

Definition href_of (link : dict) : pystr := py_str (dget_or link "href" (VStr "")).

(** The loop over the new links. *)
Fixpoint extend_links (existing : list dict) (seen : list pystr) (links : list dict) : res (list dict) :=
  match links with
  | [] => Ok existing
  | link :: links =>
      let href := href_of link in
      if bool_decide (href ∈ seen) then extend_links existing seen links
      else
        rel ← ditem link "rel";
        extend_links (existing ++ [[("rel", VStr (py_str rel)); ("href", VStr href)]]) (href :: seen) links
  end.

(** [add_links], which updates the document it is given. *)
Definition add_links (document : dict) (links : list dict) : res dict :=
  items ← viter (dget_or document "links" (VList []));
  existing ← mapR vdict items;
  existing ← extend_links existing (href_of <$> existing) links;
  mret (dset document "links" (VList (VDict <$> existing))).

Fixpoint build_context_from (context : dict) (inputs : list ContextInput) : res dict :=
  match inputs with
  | [] => Ok context
  | item :: inputs =>
      if bool_decide (classify_source (in_source item) = SENSITIVE) then
        raise SensitiveContentError
          ("input " +:+ repr_str (in_name item) +:+ " is sensitive and must not enter the model context")
      else build_context_from (dset context (in_name item) (VDict (in_document item))) inputs
  end.
Definition build_context (inputs : list ContextInput) : res dict := build_context_from [] inputs.

(** * Reading the model's answer *)

(** [s.find(c)] and [s.rfind(c)] for an ASCII character, in bytes. *)
Fixpoint find_chr (c : ascii) (s : string) : option nat :=
  match s with
  | "" => None
  | String a s => if bool_decide (a = c) then Some O else S <$> find_chr c s
  end.
Fixpoint rfind_chr (c : ascii) (s : string) : option nat :=
  match s with
  | "" => None
  | String a s =>
      match rfind_chr c s with
      | Some n => Some (S n)
      | None => if bool_decide (a = c) then Some O else None
      end
  end.

Definition OPEN_BRACE : ascii := chr 123.
Definition CLOSE_BRACE : ascii := chr 125.
Definition FENCE : string := "```".

(** [stripped[start : end + 1]] *)
Definition between_braces (s : pystr) : option pystr :=
  match find_chr OPEN_BRACE s, rfind_chr CLOSE_BRACE s with
  | Some i, Some j => if (i <? j)%nat then Some (take_str (S j - i) (drop_str i s)) else None
  | _, _ => None
  end.

Definition unfence (stripped : pystr) : pystr :=
  if startswith stripped FENCE then
    let lines := drop 1 (splitlines stripped) in
    let lines :=
      match last lines with
      | Some line => if startswith (strip line) FENCE then take (length lines - 1) lines else lines
      | None => lines
      end in
    strip (join LF lines)
  else stripped.

Fixpoint first_object (candidates : list pystr) : res dict :=
  match candidates with
  | [] => raise SkillError "LLM output is not a JSON object"
  | candidate :: candidates =>
      match loads candidate with
      | Ok (VDict parsed) => Ok parsed
      | Ok _ => first_object candidates
      | Raise e => if caught_by [JSONDecodeError] e then first_object candidates else Raise e
      end
  end.

Definition candidates_of (text : pystr) : list pystr :=
  let stripped := unfence (strip text) in
  (stripped :: match between_braces stripped with Some c => [c] | None => [] end)%list.

Definition extract_json (text : pystr) : res dict := first_object (candidates_of text).

(** * The registry *)

Module SkillRegistry.
Abbreviation t := (gmap string Skill) (only parsing).

Definition register (skill : Skill) (skills : t) : res t :=
  match skills !! skill_name skill with
  | Some _ => raise ValueError ("skill already registered: " +:+ skill_name skill)
  | None => Ok (<[skill_name skill := skill]> skills)
  end.

Fixpoint register_all (new : list Skill) (skills : t) : res t :=
  match new with
  | [] => Ok skills
  | skill :: new => skills ← register skill skills; register_all new skills
  end.
(** [SkillRegistry(skills)] *)
Definition make (skills : list Skill) : res t := register_all skills ∅.

Definition get (name : pystr) (skills : t) : res Skill :=
  match skills !! name with Some skill => Ok skill | None => raise UnknownSkillError name end.

Definition names (skills : t) : list string := merge_sort String.le (map_to_list skills).*1.
End SkillRegistry.

(** * The built-in skills *)

Definition GRILL_PROMPT : string := "You are the `grill` role of the Secure Agentic SDLC platform.
From an idea, emit exactly ONE JSON object with fields: actor_goal {actors, goal}, scope_boundary
{in_scope, out_of_scope}, data_model, api_contract, state_lifecycle, dependencies, non_goals,
acceptance_criteria. Do not add other fields. Your output is parsed as data, never executed.
".
Definition GRILL_SECURITY_PROMPT : string := "You are the `grill-security` role of the Secure Agentic SDLC platform.
From an approved specification, perform STRIDE and emit exactly ONE JSON object with fields:
data_flows and risks (each risk: id, category, scenario, severity, control_id, verification_test).
Do not add other fields. Your output is parsed as data, never executed.
".
Definition PLANNER_PROMPT : string := "You are the `planner` role of the Secure Agentic SDLC platform.
From an approved specification and threat-model, emit exactly ONE JSON object with a `slices` array
(each slice: slice_id, title, requirement_ids, control_ids, optional depends_on/notes).
Do not add other fields. Your output is parsed as data, never executed.
".
Definition REVIEWER_PROMPT : string := "You are the `reviewer` role of the Secure Agentic SDLC platform.
Emit exactly ONE JSON object with fields: verdict (approved|changes_requested) and findings
(each finding: id, severity, summary, optional location). Do not add other fields.
Your output is parsed as data, never executed.
".
Definition SYSTEM_PROMPT : string := "You are the `task-writer` role of the Secure Agentic SDLC platform.
Given an approved specification and plan, emit exactly ONE JSON object describing a single
vertical-slice task with the fields: title, requirement_ids, control_ids, contract_changes,
code_changes, tests. Do not add any other fields. Your output is parsed as data, never executed.
".

(** The envelope's fields that every document starts with. *)
Definition head_fields (artifact_type : string) (envelope : dict) : res dict :=
  id ← ditem envelope "artifact_id";
  created_at ← ditem envelope "created_at";
  actor ← ditem envelope "actor";
  run_id ← ditem envelope "run_id";
  mret [("schema_version", VStr "1.0.0"); ("artifact_type", VStr artifact_type); ("id", id);
        ("created_at", created_at); ("created_by", actor); ("run_id", run_id)].

Definition _envelope (artifact_type status : string) (envelope : dict) : res dict :=
  bindings ← ditem envelope "bindings";
  base ← head_fields artifact_type envelope;
  feature_id ← vitem bindings "feature_id";
  mret (base ++ [("feature_id", feature_id); ("status", VStr status)])%list.

(** Content fields, in order, each with its default. *)
Definition content_fields (fields : list (string * value)) (content : dict) : dict :=
  (λ kv, (kv.1, dget_or content kv.1 kv.2)) <$> fields.
Definition lists (names : list string) : list (string * value) := (λ n, (n, VList [])) <$> names.

Definition SPECIFICATION_FIELDS : list (string * value) :=
  (("actor_goal", VDict [("actors", VList []); ("goal", VStr "")])
   :: ("scope_boundary", VDict [("in_scope", VList []); ("out_of_scope", VList [])])
   :: lists ["data_model"; "api_contract"; "state_lifecycle"; "dependencies"; "non_goals"; "acceptance_criteria"])%list.

Definition _assemble_specification : AssembleFn := fun content envelope =>
  document ← _envelope "specification" "draft" envelope;
  mret (dupdate document (content_fields SPECIFICATION_FIELDS content)).

Definition _assemble_threat_model : AssembleFn := fun content envelope =>
  document ← _envelope "threat-model" "draft" envelope;
  mret (dupdate document (("method", VStr "STRIDE") :: content_fields (lists ["data_flows"; "risks"]) content)).

Definition _assemble_plan : AssembleFn := fun content envelope =>
  document ← _envelope "plan" "draft" envelope;
  mret (dset document "slices" (dget_or content "slices" (VList []))).

Definition _assemble_review : AssembleFn := fun content envelope =>
  bindings ← ditem envelope "bindings";
  base ← head_fields "review" envelope;
  task_id ← vitem bindings "task_id";
  subject_digest ← vitem bindings "subject_digest";
  mret (base ++ ("task_id", task_id) :: ("subject_digest", subject_digest)
    :: content_fields [("verdict", VStr "changes_requested"); ("findings", VList [])] content)%list.

(** [task_writer._assemble] *)
Definition _assemble_task : AssembleFn := fun content envelope =>
  bindings ← ditem envelope "bindings";
  base ← head_fields "task" envelope;
  feature_id ← vitem bindings "feature_id";
  plan_id ← vitem bindings "plan_id";
  mret (base ++ ("feature_id", feature_id) :: ("plan_id", plan_id) :: ("status", VStr "todo")
    :: content_fields (("title", VStr "")
         :: lists ["requirement_ids"; "control_ids"; "contract_changes"; "code_changes"; "tests"]) content)%list.

Definition GRILL : Skill := mkSkill "grill" "grill" "skill.grill" "specification.schema.json"
  GRILL_PROMPT ["idea"] _assemble_specification.
Definition GRILL_SECURITY : Skill := mkSkill "grill-security" "grill-security" "skill.grill-security"
  "threat-model.schema.json" GRILL_SECURITY_PROMPT ["specification"] _assemble_threat_model.
Definition PLANNER : Skill := mkSkill "planner" "planner" "skill.planner" "plan.schema.json"
  PLANNER_PROMPT ["specification"; "threat-model"] _assemble_plan.
Definition REVIEWER : Skill := mkSkill "reviewer" "reviewer" "skill.reviewer" "review.schema.json"
  REVIEWER_PROMPT ["task"] _assemble_review.
Definition TASK_WRITER : Skill := mkSkill "task-writer" "task-writer" "skill.task-writer" "task.schema.json"
  SYSTEM_PROMPT ["specification"; "plan"] _assemble_task.

Definition DEFAULT_SKILLS : list Skill := [GRILL; GRILL_SECURITY; PLANNER; TASK_WRITER; REVIEWER].
Definition build_default_registry : res (gmap string Skill) := SkillRegistry.make DEFAULT_SKILLS.

(** * The context *)

Lemma build_context_from_spec context inputs :
  match build_context_from context inputs with
  | Ok ctx => Forall (λ i, classify_source (in_source i) ≠ SENSITIVE) inputs ∧
      ∀ name, dget ctx name = match last (filter (λ i, in_name i = name) inputs) with
        | Some i => Some (VDict (in_document i)) | None => dget context name end
  | Raise e => exn_cls e = SensitiveContentError ∧
      Exists (λ i, classify_source (in_source i) = SENSITIVE) inputs
  end.
Proof.
  revert context. induction inputs as [|i inputs IH]; intros context; cbn [build_context_from]; [by split|].
  case_bool_decide as Hs; [by split; [done|constructor]|].
  specialize (IH (dset context (in_name i) (VDict (in_document i)))).
  destruct (build_context_from _ inputs) as [ctx|e]; destruct IH as [H1 H2]; [|split; [done|by constructor]].
  split; [by constructor|]. intros name. rewrite H2, filter_cons. destruct (decide (in_name i = name)) as [<-|Hn].
  - rewrite last_cons. destruct (last _); [done|]. by rewrite dget_dset.
  - destruct (last _); [done|]. by rewrite dget_dset_ne.
Qed.

(** C38: no input of a sensitive source enters the model's context: building the context
    raises [SensitiveContentError] exactly if some input comes from one; otherwise it maps
    each input name to the last document given under that name, and nothing else. *)
Theorem context_excludes_sensitive inputs :
  match build_context inputs with
  | Ok ctx => Forall (λ i, in_source i ∉ _SENSITIVE_SOURCES) inputs ∧
      ∀ name, dget ctx name =
        (λ i, VDict (in_document i)) <$> last (filter (λ i, in_name i = name) inputs)
  | Raise e => exn_cls e = SensitiveContentError ∧ Exists (λ i, in_source i ∈ _SENSITIVE_SOURCES) inputs
  end.
Proof.
  pose proof (build_context_from_spec [] inputs) as H. unfold build_context.
  destruct (build_context_from [] inputs) as [ctx|e]; destruct H as [H1 H2]; split.
  - eapply Forall_impl; [exact H1|]. intros i Hi. by rewrite <- classify_sensitive.
  - intros name. rewrite H2. by destruct (last _).
  - done.
  - eapply Exists_impl; [exact H2|]. intros i Hi. by apply classify_sensitive.
Qed.

(** * Links *)

Lemma extend_links_spec existing seen links all :
  extend_links existing seen links = Ok all →
  ∃ new, all = existing ++ new ∧ NoDup (href_of <$> new) ∧
    (∀ h, h ∈ href_of <$> new → h ∉ seen) ∧
    (∀ h, h ∈ href_of <$> links → h ∈ seen ∨ h ∈ href_of <$> new).
Proof.
  revert existing seen. induction links as [|link links IH]; intros existing seen; cbn [extend_links].
  - intros [= <-]. exists []. rewrite app_nil_r. split_and!; [done|constructor|set_solver..].
  - case_bool_decide as Hs.
    + intros (new & -> & Hnd & Hf & Hc)%IH. exists new. split_and!; try done. set_solver.
    + intros (rel & _ & (new & -> & Hnd & Hf & Hc)%IH)%res_bind_Ok.
      set (entry := [("rel", VStr (py_str rel)); ("href", VStr (href_of link))]).
      assert (href_of entry = href_of link) as He by reflexivity.
      exists (entry :: new). split; [by rewrite <- app_assoc|]. cbn [fmap list_fmap]. rewrite He.
      split_and!; [constructor; [|done]; intros Hin; apply Hf in Hin; set_solver|set_solver..].
Qed.

Lemma extend_links_known existing seen links :
  (∀ h, h ∈ href_of <$> links → h ∈ seen) → extend_links existing seen links = Ok existing.
Proof.
  induction links as [|link links IH]; intros H; cbn [extend_links]; [done|].
  rewrite bool_decide_true by set_solver. apply IH. set_solver.
Qed.

Lemma mapR_vdict (l : list dict) : mapR vdict (VDict <$> l) = Ok l.
Proof. induction l as [|d l IH]; [done|]. cbn. by rewrite IH. Qed.

Lemma add_links_spec document links document' :
  add_links document links = Ok document' →
  ∃ old new, (items ← viter (dget_or document "links" (VList [])); mapR vdict items) = Ok old ∧
    document' = dset document "links" (VList (VDict <$> (old ++ new))) ∧
    NoDup (href_of <$> new) ∧ (∀ h, h ∈ href_of <$> new → h ∉ href_of <$> old) ∧
    (∀ h, h ∈ href_of <$> links → h ∈ href_of <$> (old ++ new)).
Proof.
  unfold add_links. intros (items & Hi & (old & Ho & (all & Ha & [= <-])%res_bind_Ok)%res_bind_Ok)%res_bind_Ok.
  apply extend_links_spec in Ha as (new & -> & Hnd & Hf & Hc). exists old, new.
  rewrite Hi. cbn [mbind res_bind]. split_and!; try done. intros h Hh. rewrite fmap_app. set_solver.
Qed.

Lemma dset_dset d k v v' : dset (dset d k v) k v' = dset d k v'.
Proof.
  induction d as [|[k1 v1] d IH]; cbn [dset]; [by rewrite bool_decide_true|].
  case_bool_decide; cbn [dset]; [by rewrite bool_decide_true|]. by rewrite bool_decide_false, IH.
Qed.

(** attaching links keeps the document's other fields and its old links, adds no
    target twice, leaves every requested target linked, and is idempotent. *)
Theorem add_links_correct document links document' :
  add_links document links = Ok document' →
  (∀ k, k ≠ "links" → dget document' k = dget document k) ∧
  (∃ old new, (items ← viter (dget_or document "links" (VList [])); mapR vdict items) = Ok old ∧
    dget document' "links" = Some (VList (VDict <$> (old ++ new))) ∧
    NoDup (href_of <$> new) ∧ (∀ h, h ∈ href_of <$> new → h ∉ href_of <$> old) ∧
    (∀ h, h ∈ href_of <$> links → h ∈ href_of <$> (old ++ new))) ∧
  add_links document' links = Ok document'.
Proof.
  intros (old & new & Ho & -> & Hnd & Hf & Hc)%add_links_spec.
  split; [intros k Hk; by apply dget_dset_ne|]. split.
  - exists old, new. rewrite dget_dset. by split_and!.
  - unfold add_links, dget_or. rewrite dget_dset.
    cbn [from_option id viter mbind res_bind]. rewrite mapR_vdict. cbn [mbind res_bind]. rewrite extend_links_known by done.
    cbn [mbind res_bind mret res_ret]. f_equal. apply dset_dset.
Qed.

(** * Assembly *)

(** The fields a skill copies from the model's answer. *)
Definition content_keys (skill : Skill) : list string :=
  if bool_decide (skill_name skill = "grill") then SPECIFICATION_FIELDS.*1
  else if bool_decide (skill_name skill = "grill-security") then ["data_flows"; "risks"]
  else if bool_decide (skill_name skill = "planner") then ["slices"]
  else if bool_decide (skill_name skill = "reviewer") then ["verdict"; "findings"]
  else ["title"; "requirement_ids"; "control_ids"; "contract_changes"; "code_changes"; "tests"].

Definition PLATFORM_FIELDS : list (string * string) :=
  [("id", "artifact_id"); ("created_at", "created_at"); ("created_by", "actor"); ("run_id", "run_id")].

Definition same_but (K : list string) (d e : dict) : Prop :=
  Forall2 (λ p q, p.1 = q.1 ∧ (p.1 ∈ K ∨ p.2 = q.2)) d e.

Lemma same_but_dget K d e k : same_but K d e → k ∉ K → dget d k = dget e k.
Proof.
  intros H Hk. induction H as [|[k1 v1] [k2 v2] d e [H1 H2] _ IH]; [done|]. cbn in *. subst k2.
  case_decide; [|done]. subst. by destruct H2 as [?| ->].
Qed.

Lemma same_but_keys K d e : same_but K d e → dkeys d = dkeys e.
Proof. intros H. induction H as [|???? [H1 _] _ IH]; [done|]. unfold dkeys in *. cbn. by rewrite H1, IH. Qed.

Lemma head_fields_Ok t envelope base :
  head_fields t envelope = Ok base →
  ∃ id created_at actor run_id, ditem envelope "artifact_id" = Ok id ∧ ditem envelope "created_at" = Ok created_at ∧
    ditem envelope "actor" = Ok actor ∧ ditem envelope "run_id" = Ok run_id ∧
    base = [("schema_version", VStr "1.0.0"); ("artifact_type", VStr t); ("id", id);
            ("created_at", created_at); ("created_by", actor); ("run_id", run_id)].
Proof.
  unfold head_fields. intros (id & ? & (ca & ? & (ac & ? & (r & ? & [= <-])%res_bind_Ok)%res_bind_Ok)%res_bind_Ok)%res_bind_Ok.
  eauto 12.
Qed.

(** What assembling a document means: [K] are the fields copied from the content. *)
Definition assembled (assemble : AssembleFn) (K : list string) (content envelope doc base : dict) : Prop :=
  (∀ p, p ∈ PLATFORM_FIELDS → dget doc p.1 = dget envelope p.2) ∧
  assemble [] envelope = Ok base ∧ same_but K doc base ∧
  (∀ k v, k ∈ K → dget content k = Some v → dget doc k = Some v).

Ltac open_assemble H :=
  repeat match type of H with
  | _ ≫= _ = Ok _ => let x := fresh "x" in let Hx := fresh "Hx" in apply res_bind_Ok in H as (x & Hx & H)
  | mret _ = Ok _ => injection H as <-
  end.
Ltac finish_assembled :=
  unfold assembled; split_and!;
  [ intros p Hp; repeat (apply elem_of_cons in Hp as [->|Hp]; [cbn; symmetry; by apply ditem_Ok|]); by apply elem_of_nil in Hp
  | repeat match goal with H : _ = Ok _ |- _ => rewrite H; clear H; cbn [mbind res_bind] end; reflexivity
  | repeat first [apply List.Forall2_nil | apply List.Forall2_cons;
      [split; [reflexivity|]; first [right; reflexivity | left; cbn; set_solver]|]]
  | intros k v Hk Hv; unfold SPECIFICATION_FIELDS, lists in Hk; cbn [fmap list_fmap fst] in Hk; repeat (apply elem_of_cons in Hk as [->|Hk];
      [cbn -[dget_or]; unfold dget_or; by rewrite Hv|]); by apply elem_of_nil in Hk ].


Lemma assembled_specification content envelope doc :
  _assemble_specification content envelope = Ok doc →
  ∃ base, assembled _assemble_specification SPECIFICATION_FIELDS.*1 content envelope doc base.
Proof.
  unfold _assemble_specification, _envelope. intros H. open_assemble H. open_assemble Hx.
  pose proof Hx1 as (id & ca & ac & r & ? & ? & ? & ? & ->)%head_fields_Ok. eexists. finish_assembled.
Qed.

Lemma assembled_threat_model content envelope doc :
  _assemble_threat_model content envelope = Ok doc →
  ∃ base, assembled _assemble_threat_model ["data_flows"; "risks"] content envelope doc base.
Proof.
  unfold _assemble_threat_model, _envelope. intros H. open_assemble H. open_assemble Hx.
  pose proof Hx1 as (id & ca & ac & r & ? & ? & ? & ? & ->)%head_fields_Ok. eexists. finish_assembled.
Qed.

Lemma assembled_plan content envelope doc :
  _assemble_plan content envelope = Ok doc →
  ∃ base, assembled _assemble_plan ["slices"] content envelope doc base.
Proof.
  unfold _assemble_plan, _envelope. intros H. open_assemble H. open_assemble Hx.
  pose proof Hx1 as (id & ca & ac & r & ? & ? & ? & ? & ->)%head_fields_Ok. eexists. finish_assembled.
Qed.

Lemma assembled_review content envelope doc :
  _assemble_review content envelope = Ok doc →
  ∃ base, assembled _assemble_review ["verdict"; "findings"] content envelope doc base.
Proof.
  unfold _assemble_review. intros H. open_assemble H.
  pose proof Hx0 as (id & ca & ac & r & ? & ? & ? & ? & ->)%head_fields_Ok. eexists. finish_assembled.
Qed.

Lemma assembled_task content envelope doc :
  _assemble_task content envelope = Ok doc →
  ∃ base, assembled _assemble_task ["title"; "requirement_ids"; "control_ids"; "contract_changes"; "code_changes"; "tests"]
    content envelope doc base.
Proof.
  unfold _assemble_task. intros H. open_assemble H.
  pose proof Hx0 as (id & ca & ac & r & ? & ? & ? & ? & ->)%head_fields_Ok. eexists. finish_assembled.
Qed.

Lemma assembled_default skill content envelope doc :
  skill ∈ DEFAULT_SKILLS → skill_assemble skill content envelope = Ok doc →
  ∃ base, assembled (skill_assemble skill) (content_keys skill) content envelope doc base.
Proof.
  intros Hs H. unfold DEFAULT_SKILLS in Hs.
  repeat (apply elem_of_cons in Hs as [->|Hs]); [..|by apply elem_of_nil in Hs];
    by apply assembled_specification || apply assembled_threat_model || apply assembled_plan
      || apply assembled_task || apply assembled_review.
Qed.

(** Fields that no skill may take from the model's answer. *)
Definition CONTROLLED_FIELDS : list string :=
  ["schema_version"; "artifact_type"; "id"; "created_at"; "created_by"; "run_id"; "feature_id"; "plan_id";
   "task_id"; "subject_digest"; "status"; "approved"; "method"; "links"].

(** the model cannot inject fields: whatever it answers, a document assembled by a
    built-in skill carries the envelope's identity fields, its keys are those of
    the document assembled from an empty answer, and outside the skill's own
    content fields - none of which is controlled by the platform - it is equal to
    that document; its content fields are the model's. *)
Theorem injected_fields_ignored skill content envelope doc :
  skill ∈ DEFAULT_SKILLS → skill_assemble skill content envelope = Ok doc →
  (∀ p, p ∈ PLATFORM_FIELDS → dget doc p.1 = dget envelope p.2) ∧
  (∀ k, k ∈ CONTROLLED_FIELDS → k ∉ content_keys skill) ∧
  (∀ k v, k ∈ content_keys skill → dget content k = Some v → dget doc k = Some v) ∧
  ∃ base, skill_assemble skill [] envelope = Ok base ∧ dkeys doc = dkeys base ∧
    ∀ k, k ∉ content_keys skill → dget doc k = dget base k.
Proof.
  intros Hs Ha. destruct (assembled_default _ _ _ _ Hs Ha) as (base & Hp & Hb & Hsame & Hc).
  split_and!; [done| |done|].
  - apply (proj1 (Forall_forall (λ k, k ∉ content_keys skill) _)).
    unfold DEFAULT_SKILLS in Hs. clear -Hs.
    repeat (apply elem_of_cons in Hs as [->|Hs]; [by apply (bool_decide_unpack _); vm_compute|]).
    by apply elem_of_nil in Hs.
  - exists base. split_and!; [done|by eapply same_but_keys|]. intros k Hk. by eapply same_but_dget.
Qed.

(** * Reading JSON back *)

Lemma utf8_decode_ascii s : is_ascii s = true → utf8_decode s = byte_of <$> chars s.
Proof.
  unfold is_ascii. induction s as [|a s IH]; [done|]. cbn [chars forallb fmap list_fmap].
  intros [Ha Hs]%andb_true_iff. rewrite utf8_decode_1 by lia. f_equal. by apply IH.
Qed.

Lemma utf8_encode_ascii s : is_ascii s = true → utf8_encode (byte_of <$> chars s) = s.
Proof. intros H. rewrite <- utf8_decode_ascii by done. by apply wf_str_encode_decode, ustr_wf, is_ascii_ustr. Qed.

Lemma drop_spaces_id l x k : l = x :: k → is_space x = false → drop_spaces l = l.
Proof. intros -> H. cbn. by rewrite H. Qed.

Lemma strip_id s x y m n :
  is_ascii s = true → byte_of <$> chars s = x :: m → byte_of <$> chars s = n ++ [y] →
  is_space x = false → is_space y = false → strip s = s.
Proof.
  intros Hs Hx Hy Hsx Hsy. unfold strip, strip_cps. rewrite utf8_decode_ascii by done.
  rewrite (drop_spaces_id _ x m Hx Hsx). rewrite (drop_spaces_id (rev _) y (rev n)); [|by rewrite Hy, rev_app_distr|done].
  rewrite rev_involutive. by apply utf8_encode_ascii.
Qed.

(** A line: ASCII text without control characters. *)
Definition line (s : string) : Prop := is_ascii s = true ∧ no_ctrl s = true.

Lemma line_no_break s : line s → Forall (λ cp, is_linebreak cp = false) (byte_of <$> chars s).
Proof.
  unfold line, is_ascii, no_ctrl. rewrite !forallb_forall. intros [Ha Hc]. apply Forall_fmap, Forall_forall.
  intros a Hin%list_elem_of_In. specialize (Ha a Hin). specialize (Hc a Hin). cbn.
  unfold is_linebreak. apply bool_decide_eq_false. repeat (rewrite elem_of_cons). rewrite elem_of_nil. lia.
Qed.

Lemma splitlines_step cur l k :
  Forall (λ cp, is_linebreak cp = false) l →
  splitlines_cps cur (l ++ 10 :: k) = (rev cur ++ l) :: splitlines_cps [] k.
Proof.
  intros H. revert cur. induction H as [|x l Hx Hl IH]; intros cur; [by rewrite app_nil_r|].
  assert (x ≠ 13) by (intros ->; by vm_compute in Hx).
  assert (splitlines_cps cur ((x :: l) ++ 10 :: k) = splitlines_cps (x :: cur) (l ++ 10 :: k)) as ->.
  { cbn [app splitlines_cps]. rewrite Hx. clear -H. repeat (case_match; simplify_eq; try done). }
  rewrite IH. cbn [rev]. by rewrite <- app_assoc.
Qed.

Lemma splitlines_last l x :
  Forall (λ cp, is_linebreak cp = false) (x :: l) → splitlines_cps [] (x :: l) = [x :: l].
Proof.
  assert (Hgen : ∀ l cur, Forall (λ cp, is_linebreak cp = false) l → cur ≠ [] →
    splitlines_cps cur l = [rev cur ++ l]).
  { clear. intros l cur H. revert cur. induction H as [|x l Hx Hl IH]; intros cur Hc.
    - rewrite app_nil_r. by destruct cur.
    - assert (x ≠ 13) by (intros ->; by vm_compute in Hx).
      assert (splitlines_cps cur (x :: l) = splitlines_cps (x :: cur) l) as ->.
      { cbn [app splitlines_cps]. rewrite Hx. clear -H. repeat (case_match; simplify_eq; try done). }
      rewrite IH by done. cbn [rev]. by rewrite <- app_assoc. }
  intros H. inversion H as [|?? Hx Hl]; subst.
  assert (x ≠ 13) by (intros ->; by vm_compute in Hx).
  assert (splitlines_cps [] (x :: l) = splitlines_cps [x] l) as ->.
  { cbn [app splitlines_cps]. rewrite Hx. clear -H0. repeat (case_match; simplify_eq; try done). }
  by rewrite Hgen.
Qed.

(** JSON text in a Markdown code fence. *)
Definition fenced (s : string) : string := "```json" +:+ (LF +:+ (s +:+ (LF +:+ FENCE))).

Lemma chars_fenced s :
  byte_of <$> chars (fenced s) =
  (byte_of <$> chars "```json") ++ 10 :: (byte_of <$> chars s) ++ 10 :: (byte_of <$> chars FENCE).
Proof. unfold fenced. by rewrite !chars_app, !fmap_app. Qed.

(** Text of an object: in braces, on one line. *)
Definition braced (s : string) : Prop := line s ∧ ∃ m, s = "{" +:+ (m +:+ "}").

Lemma braced_ends s : braced s → ∃ m n,
  byte_of <$> chars s = 123 :: m ∧ byte_of <$> chars s = n ++ [125].
Proof.
  intros [_ [m ->]]. rewrite !chars_app, !fmap_app. eexists _, (123 :: (byte_of <$> chars m)). by split.
Qed.

Lemma strip_braced s : braced s → strip s = s.
Proof.
  intros Hb. pose proof Hb as [[Ha _] _]. destruct (braced_ends s Hb) as (m & n & Hm & Hn).
  by apply (strip_id s 123 125 m n).
Qed.

Lemma unfence_braced s : braced s → unfence s = s.
Proof. intros [_ [m ->]]. done. Qed.

Lemma is_ascii_fenced s : is_ascii s = true → is_ascii (fenced s) = true.
Proof. intros H. unfold fenced. by rewrite !is_ascii_app, H. Qed.

Lemma strip_fenced s : is_ascii s = true → strip (fenced s) = fenced s.
Proof.
  intros H. pose proof (is_ascii_fenced s H) as Hf. pose proof (chars_fenced s) as Hc.
  refine (strip_id (fenced s) 96 96 _ ((byte_of <$> chars "```json") ++ 10 :: (byte_of <$> chars s) ++ [10; 96; 96]) Hf Hc _ _ _);
    [|done..].
  rewrite Hc, <- app_assoc. cbn [app]. by rewrite <- app_assoc.
Qed.

Lemma splitlines_fenced s : braced s → splitlines (fenced s) = ["```json"; s; FENCE].
Proof.
  intros Hb. pose proof Hb as [[Ha Hc] _]. unfold splitlines.
  rewrite utf8_decode_ascii, chars_fenced by (by apply is_ascii_fenced).
  rewrite splitlines_step by (by apply line_no_break). rewrite splitlines_step by (by apply line_no_break).
  change (byte_of <$> chars FENCE) with [96; 96; 96]. rewrite splitlines_last by (by apply line_no_break with (s := FENCE)).
  cbn [rev app fmap list_fmap]. change (utf8_encode [96; 96; 96]) with FENCE.
  rewrite (utf8_encode_ascii s) by done. rewrite (utf8_encode_ascii "```json"); done.
Qed.

Lemma unfence_fenced s : braced s → unfence (fenced s) = s.
Proof.
  intros Hb. unfold unfence. replace (startswith (fenced s) FENCE) with true by reflexivity.
  rewrite splitlines_fenced by done. cbn [drop last]. replace (startswith (strip FENCE) FENCE) with true by reflexivity.
  cbn [length take Nat.sub join]. by apply strip_braced.
Qed.

Lemma extract_object s d : loads s = Ok (VDict d) → unfence (strip s) = s → extract_json s = Ok d.
Proof. intros Hl Hu. unfold extract_json, candidates_of. rewrite Hu. cbn [first_object]. by rewrite Hl. Qed.

Lemma braced_dumps o d :
  ensure_ascii o = true → sep_ok o → is_ascii (item_sep o) = true → is_ascii (key_sep o) = true →
  no_ctrl (item_sep o) = true → no_ctrl (key_sep o) = true →
  json_ok (VDict d) → braced (dumps o (VDict d)).
Proof.
  intros. split; [split|].
  - by apply is_ascii_dumps.
  - by apply no_ctrl_dumps.
  - unfold dumps. destruct (sort_keys o); cbn [sort_value encode]; by eexists.
Qed.

(** what a model writes as a JSON object is what the skill reads: for every JSON
    object, its ASCII text is extracted as the same object, bare or in a Markdown
    code fence. *)
Theorem extract_json_roundtrip d :
  json_ok (VDict d) →
  extract_json (dumps plain (VDict d)) = Ok d ∧ extract_json (fenced (dumps plain (VDict d))) = Ok d.
Proof.
  intros Hok. assert (Hb : braced (dumps plain (VDict d))).
  { apply braced_dumps; try done. apply sep_ok_canonical. }
  assert (Hl : loads (dumps plain (VDict d)) = Ok (VDict d)).
  { rewrite loads_dumps_gen; [done|apply sep_ok_canonical|done]. }
  split.
  - apply extract_object; [done|]. by rewrite strip_braced, unfence_braced.
  - unfold extract_json, candidates_of. rewrite strip_fenced by apply Hb. rewrite unfence_fenced by done.
    cbn [first_object]. by rewrite Hl.
Qed.

Definition demo_content : dict := [("title", VStr "T"); ("status", VStr "done"); ("id", VStr "EVIL")].
Definition demo_envelope : dict :=
  [("artifact_id", VStr "TASK-0001"); ("created_at", VStr "t"); ("actor", VDict []); ("run_id", VStr "r");
   ("bindings", VDict [("feature_id", VStr "FEAT-1"); ("plan_id", VStr "PLAN-0001")])].

Lemma injected_fields_ignored_witness :
  ∃ doc, _assemble_task demo_content demo_envelope = Ok doc ∧ dget doc "id" = Some (VStr "TASK-0001").
Proof.
  eexists. split; [reflexivity|]. set (doc := _ ++ _).
  destruct (injected_fields_ignored TASK_WRITER demo_content demo_envelope doc) as [Hid _].
  - by apply (bool_decide_unpack (_ = _ ∨ _)) || set_solver.
  - reflexivity.
  - apply (Hid ("id", "artifact_id")). set_solver.
Defined.

Lemma add_links_correct_witness :
  ∃ document', add_links [("id", VStr "x")] [[("rel", VStr "plan"); ("href", VStr "p.json")]] = Ok document' ∧
    add_links document' [[("rel", VStr "plan"); ("href", VStr "p.json")]] = Ok document'.
Proof.
  eexists. split; [reflexivity|].
  apply (add_links_correct [("id", VStr "x")] [[("rel", VStr "plan"); ("href", VStr "p.json")]]). reflexivity.
Defined.

Lemma extract_json_roundtrip_witness : extract_json (fenced (dumps plain (VDict demo_content))) = Ok demo_content.
Proof. apply extract_json_roundtrip, json_okb_ok. vm_compute. reflexivity. Defined.
