(* ===== verification/SkillRunner.v ===== *)
(** [sdlc/skills/runner.py]: a role skill runs after the same policy and
    capability gates as a tool; the model's answer is recorded as evidence, read
    as data and validated before it becomes an artifact. *)

From S2P Require Export RunRegistry Evidence Policy Artifacts Skills.
#[local] Open Scope Z_scope.

Definition POLICY_POINT : pystr := "pre-tool-call".

Definition REASON_COMPLETED : string := "COMPLETED".
Definition REASON_UNKNOWN_SKILL : string := "UNKNOWN_SKILL".
Definition REASON_MISSING_CONTEXT : string := "MISSING_CONTEXT".
Definition REASON_INVALID_LLM_OUTPUT : string := "INVALID_LLM_OUTPUT".
Definition REASON_SCHEMA_INVALID : string := "SCHEMA_INVALID".

Record SkillRunResult := mkSkillRunResult {
  skr_allowed : bool;
  skr_reason : string;
  skr_decision : dict;
  skr_evidence : dict;
  skr_artifact : option dict
}.

(** The parameters of one run. *)
Record SkillCall := mkSkillCall {
  sk_run_id : pystr;
  sk_token : pystr;
  sk_skill_name : pystr;
  sk_inputs : list ContextInput;
  sk_bindings : dict;
  sk_artifact_id : pystr;
  sk_created_at : pystr;
  sk_decision_id : pystr;
  sk_evidence_id : pystr;
  sk_scope : pystr
}.

(** The configuration of a [SkillRunner], apart from the policy and the model. *)
Record SkillConfig := mkSkillConfig {
  skc_secret : bytes;
  skc_skills : gmap string Skill;
  skc_store : path;
  skc_repo_root : option path
}.

Section runner.
  Context `{Env} (policy : pystr → dict → ST World PolicyResult) (cfg : SkillConfig).

Definition skill_tool (c : SkillCall) : pystr := "skill." +:+ sk_skill_name c.
Definition skill_payload (c : SkillCall) (actor : dict) : dict :=
  [("tool", VStr (skill_tool c)); ("path", VStr ""); ("scope", VStr (sk_scope c)); ("actor", VDict actor)].

(** [_record] *)
Definition record_text (c : SkillCall) (text action : pystr) (actor decision : dict) : ST World dict :=
  decision_id ← lift (ditem decision "id");
  outcome ← process_tool_output (skc_store cfg) text action actor (sk_run_id c) (sk_evidence_id c)
    (sk_created_at c) UNTRUSTED "none" DEFAULT_MAX_BYTES None (Some (py_str decision_id)) None;
  mret (out_record outcome).

(** [_deny]; no caller passes a detail. *)
Definition deny_skill (reason : string) (c : SkillCall) (actor decision : dict) : ST World SkillRunResult :=
  evidence ← record_text c reason "skill.denied" actor decision;
  mret (mkSkillRunResult false reason decision evidence None).

Definition skill_envelope (c : SkillCall) (actor : dict) : dict :=
  [("artifact_id", VStr (sk_artifact_id c)); ("created_at", VStr (sk_created_at c)); ("actor", VDict actor);
   ("run_id", VStr (sk_run_id c)); ("bindings", VDict (sk_bindings c))].

Definition missing_context (skill : Skill) (context : dict) : bool :=
  existsb (λ key, negb (dhas context key)) (skill_context_keys skill).

(** What follows the model's answer [text]. *)
Definition read_answer (c : SkillCall) (skill : Skill) (actor decision evidence : dict) (text : pystr)
    : ST World SkillRunResult :=
  match extract_json text with
  | Raise e =>
      if caught_by [SkillError] e then
        mret (mkSkillRunResult false REASON_INVALID_LLM_OUTPUT decision evidence None)
      else lift (Raise e)
  | Ok content =>
      artifact ← lift (skill_assemble skill content (skill_envelope c actor));
      errors ← liftFs (λ fs,
        root ← match skc_repo_root cfg with Some r => Ok r | None => find_repo_root fs None end;
        validate_document fs artifact (skill_output_schema skill) (Some root));
      match errors with
      | _ :: _ => mret (mkSkillRunResult false REASON_SCHEMA_INVALID decision evidence None)
      | [] => mret (mkSkillRunResult true REASON_COMPLETED decision evidence (Some artifact))
      end
  end.

(** What follows the gates. *)
Definition consult (llm : LLMAdapter) (c : SkillCall) (skill : Skill) (actor decision context : dict)
    : ST World SkillRunResult :=
  response ← llm (mkLLMRequest (skill_role skill) (skill_system_prompt skill) context);
  evidence ← record_text c (llm_text response) (skill_tool_name skill +:+ ".output") actor decision;
  read_answer c skill actor decision evidence (llm_text response).

Definition run_skill (llm : LLMAdapter) (c : SkillCall) : ST World SkillRunResult :=
  run ← get_run (sk_run_id c);
  match run with
  | None => raiseS RunUnknownError (sk_run_id c)
  | Some run =>
      let actor := run_actor run in
      policy_result ← policy POLICY_POINT (skill_payload c actor);
      let decision := build_policy_decision policy_result (sk_decision_id c) (sk_created_at c)
        actor (sk_run_id c) POLICY_POINT None in
      if negb (pr_allow policy_result) then
        match pr_reason_codes policy_result with
        | reason :: _ => deny_skill reason c actor decision
        | [] => raiseS IndexError "tuple index out of range"
        end
      else
      chk ← check (skc_secret cfg) (sk_token c) (skill_tool c) (sk_scope c) None;
      if negb (chk_valid chk) then deny_skill (chk_reason chk) c actor decision else
      match SkillRegistry.get (sk_skill_name c) (skc_skills cfg) with
      | Raise _ => deny_skill REASON_UNKNOWN_SKILL c actor decision
      | Ok skill =>
          context ← lift (build_context (sk_inputs c));
          if missing_context skill context then deny_skill REASON_MISSING_CONTEXT c actor decision
          else consult llm c skill actor decision context
      end
  end.

(** * The gates *)

(** All the gates a run passes before the model is asked: [w1] is the world the
    policy left, [w2] the one the model is asked in. *)
Definition skill_gates (c : SkillCall) (w : World) (run : Run) (pr : PolicyResult) (skill : Skill)
    (context : dict) (w1 w2 : World) : Prop :=
  w_runs w !! sk_run_id c = Some run ∧
  policy POLICY_POINT (skill_payload c (run_actor run)) w = (Ok pr, w1) ∧ pr_allow pr = true ∧
  (∃ chk, check (skc_secret cfg) (sk_token c) (skill_tool c) (sk_scope c) None w1 = (Ok chk, w2) ∧
     chk_valid chk = true) ∧
  skc_skills cfg !! sk_skill_name c = Some skill ∧
  build_context (sk_inputs c) = Ok context ∧ missing_context skill context = false.

(** A model that never answers. *)
Definition no_model : LLMAdapter := fun _ => raiseS LLMError "no model".

Definition refused (out : res SkillRunResult * World) : Prop :=
  ∀ r, out.1 = Ok r → skr_allowed r = false ∧ skr_artifact r = None.

Lemma deny_refused reason c actor decision w : refused (deny_skill reason c actor decision w).
Proof.
  intros r. unfold deny_skill. rewrite ST_bind_eq.
  destruct (record_text _ _ _ _ _ w) as [[ev|e] w3]; [rewrite ST_ret_eq|]; by intros [= <-].
Qed.

Definition decision_for (c : SkillCall) (run : Run) (pr : PolicyResult) : dict :=
  build_policy_decision pr (sk_decision_id c) (sk_created_at c) (run_actor run) (sk_run_id c) POLICY_POINT None.

(** [run_skill] either consults the model after all gates passed, or the model has
    no part in what it does, which allows nothing. *)
Lemma run_skill_cases llm c w :
  (∃ run pr skill context w1 w2, skill_gates c w run pr skill context w1 w2 ∧
    run_skill llm c w = consult llm c skill (run_actor run) (decision_for c run pr) context w2) ∨
  ((∀ run pr skill context w1 w2, ¬ skill_gates c w run pr skill context w1 w2) ∧
    run_skill llm c w = run_skill no_model c w ∧ refused (run_skill llm c w)).
Proof.
  unfold run_skill, skill_gates. rewrite !ST_bind_eq, !get_run_eq.
  destruct (w_runs w !! sk_run_id c) as [run|] eqn:Hrun; cbv iota beta zeta.
  2: { right. split_and!; [intros ?????? (? & _); congruence|done|by intros r]. }
  rewrite !ST_bind_eq. destruct (policy POLICY_POINT (skill_payload c (run_actor run)) w) as [[pr|e] w1] eqn:Hpol.
  2: { right. split_and!; [intros ?????? (? & ? & _); simplify_eq; congruence|done|by intros r]. }
  cbv iota beta. destruct (pr_allow pr) eqn:Hallow; cbn [negb].
  2: { right. split_and!; [intros ?????? (? & ? & ? & _); simplify_eq; congruence|done|].
    destruct (pr_reason_codes pr); [by intros r|apply deny_refused]. }
  rewrite !ST_bind_eq. destruct (check _ _ _ _ _ w1) as [[chk|e] w2] eqn:Hchk.
  2: { right. split_and!; [intros ?????? (? & ? & _ & (? & Hc & _) & _); simplify_eq; congruence|done|by intros r]. }
  destruct (chk_valid chk) eqn:Hvalid; cbn [negb].
  2: { right. split_and!; [intros ?????? (? & ? & _ & (? & Hc & ?) & _); simplify_eq; congruence|done|apply deny_refused]. }
  unfold SkillRegistry.get. destruct (skc_skills cfg !! sk_skill_name c) as [skill|] eqn:Hskill.
  2: { right. split_and!; [intros ?????? (_ & _ & _ & _ & ? & _); congruence|done|apply deny_refused]. }
  rewrite !ST_bind_eq, !lift_eq. destruct (build_context (sk_inputs c)) as [context|e] eqn:Hctx.
  2: { right. split_and!; [intros ?????? (_ & _ & _ & _ & _ & ? & _); congruence|done|by intros r]. }
  destruct (missing_context skill context) eqn:Hm.
  { right. split_and!; [intros ?????? (_ & _ & _ & _ & ? & ? & ?); congruence|done|apply deny_refused]. }
  left. exists run, pr, skill, context, w1, w2. split_and!; try done. by exists chk.
Qed.

(** A run that passes the gates passes them in one way only. *)
Lemma run_skill_gated llm c w run pr skill context w1 w2 :
  skill_gates c w run pr skill context w1 w2 →
  run_skill llm c w = consult llm c skill (run_actor run) (decision_for c run pr) context w2.
Proof.
  intros Hg. destruct (run_skill_cases llm c w)
    as [(run' & pr' & skill' & context' & w1' & w2' & Hg' & Hrun)|(Hno & _)].
  2: { by destruct (Hno run pr skill context w1 w2). }
  destruct Hg as (G1 & G2 & _ & (chk & G3 & _) & G4 & G5 & _), Hg' as (G1' & G2' & _ & (chk' & G3' & _) & G4' & G5' & _).
  assert (run' = run) as -> by congruence. rewrite G2 in G2'. injection G2' as <- <-.
  rewrite G3 in G3'. injection G3' as _ <-. assert (skill' = skill) as -> by congruence.
  by assert (context' = context) as -> by congruence.
Qed.
End runner.

(** * Properties *)

Lemma record_text_Ok `{Env} cfg c text action actor decision w ev w' :
  record_text cfg c text action actor decision w = (Ok ev, w') →
  EvidenceStore.put (skc_store cfg) text w = (Ok (sha256_hex text), w') ∧
  ∃ ref, dget decision "id" = Some ref ∧
    evidence_names ev text action actor (sk_run_id c) (sk_evidence_id c) (Some (py_str ref)).
Proof.
  unfold record_text. rewrite ST_bind_eq, lift_eq. unfold ditem.
  destruct (dget decision "id") as [ref|] eqn:Ei; [|done]. rewrite ST_bind_eq.
  destruct (process_tool_output _ _ _ _ _ _ _ _ _ _ _ _ _ w) as [[out|e] w1] eqn:Hp; [|done].
  apply process_names in Hp as [? ?]. rewrite ST_ret_eq. intros [= <- <-]. eauto.
Qed.



Section properties.
  Context `{Env} (policy : pystr → dict → ST World PolicyResult) `{!PolicyEvaluator policy} (cfg : SkillConfig).






(** The root whose schemas a document is validated against. *)
Definition schema_root (fs : Fs) : res path :=
  match skc_repo_root cfg with Some r => Ok r | None => find_repo_root fs None end.

(** What an answer [text] is worth. *)
Definition answer_outcome (c : SkillCall) (skill : Skill) (actor : dict) (text : pystr) (fs : Fs)
    (r : SkillRunResult) : Prop :=
  match skr_artifact r with
  | Some artifact => skr_allowed r = true ∧ skr_reason r = REASON_COMPLETED ∧
      ∃ content root, extract_json text = Ok content ∧
        skill_assemble skill content (skill_envelope c actor) = Ok artifact ∧ schema_root fs = Ok root ∧
        validate_document fs artifact (skill_output_schema skill) (Some root) = Ok []
  | None => skr_allowed r = false ∧
      ((skr_reason r = REASON_INVALID_LLM_OUTPUT ∧ is_ok (extract_json text) = false) ∨
       (skr_reason r = REASON_SCHEMA_INVALID ∧ ∃ content artifact root errors, extract_json text = Ok content ∧
        skill_assemble skill content (skill_envelope c actor) = Ok artifact ∧ schema_root fs = Ok root ∧
        validate_document fs artifact (skill_output_schema skill) (Some root) = Ok errors ∧ errors ≠ []))
  end.

Lemma read_answer_Ok c skill actor decision evidence text w r w' :
  read_answer cfg c skill actor decision evidence text w = (Ok r, w') →
  w' = w ∧ skr_decision r = decision ∧ skr_evidence r = evidence ∧ answer_outcome c skill actor text (w_fs w) r.
Proof.
  unfold read_answer, answer_outcome. destruct (extract_json text) as [content|e].
  2: { destruct (caught_by _ e); [rewrite ST_ret_eq; intros [= <- <-]|by intros [=]]. cbn. naive_solver. }
  rewrite ST_bind_eq, lift_eq. destruct (skill_assemble _ _ _) as [artifact|e] eqn:Ea; [|done].
  rewrite ST_bind_eq. unfold liftFs at 1. fold (schema_root (w_fs w)). destruct (schema_root (w_fs w)) as [root|e] eqn:Er; [|done].
  cbn [mbind res_bind]. destruct (validate_document _ _ _ _) as [[|e es]|e] eqn:Ev; [..|done];
    rewrite ST_ret_eq; intros [= <- <-]; cbn; split_and!; try done.
  - by exists content, root.
  - right. split; [done|]. by exists content, artifact, root, (e :: es).
Qed.

Lemma consult_Ok llm c skill actor decision context w r w' :
  consult cfg llm c skill actor decision context w = (Ok r, w') →
  ∃ response w1 ref,
    llm (mkLLMRequest (skill_role skill) (skill_system_prompt skill) context) w = (Ok response, w1) ∧
    EvidenceStore.put (skc_store cfg) (llm_text response) w1 = (Ok (sha256_hex (llm_text response)), w') ∧
    dget decision "id" = Some ref ∧ skr_decision r = decision ∧
    evidence_names (skr_evidence r) (llm_text response) (skill_tool_name skill +:+ ".output") actor
      (sk_run_id c) (sk_evidence_id c) (Some (py_str ref)) ∧
    answer_outcome c skill actor (llm_text response) (w_fs w') r.
Proof.
  unfold consult. rewrite ST_bind_eq. destruct (llm _ w) as [[response|e] w1] eqn:El; [|done].
  rewrite ST_bind_eq. destruct (record_text _ _ _ _ _ _ w1) as [[ev|e] w2] eqn:Er; [|done].
  apply record_text_Ok in Er as (Hput & ref & Href & Hn).
  intros (-> & Hd & He & Ho)%read_answer_Ok. exists response, w1, ref. by rewrite He.
Qed.

(** C17: an artifact is returned only if it was made from the model's answer under the
    platform's control: the gates passed, the answer was put in the evidence store
    and named by the evidence record, it was read as a JSON object, assembled with
    the run's identity, and found valid by the skill's output schema; with a
    built-in skill its identity fields are the platform's. *)
Theorem allowed_artifact_validated llm c w r w' :
  run_skill policy cfg llm c w = (Ok r, w') → skr_allowed r = true →
  ∃ run pr skill context w1 w2 response w3 content artifact root,
    skill_gates policy cfg c w run pr skill context w1 w2 ∧
    llm (mkLLMRequest (skill_role skill) (skill_system_prompt skill) context) w2 = (Ok response, w3) ∧
    EvidenceStore.put (skc_store cfg) (llm_text response) w3 = (Ok (sha256_hex (llm_text response)), w') ∧
    dget (skr_evidence r) "artifact_digest" = Some (VStr (sha256_hex (llm_text response))) ∧
    extract_json (llm_text response) = Ok content ∧
    skill_assemble skill content (skill_envelope c (run_actor run)) = Ok artifact ∧
    validate_document (w_fs w') artifact (skill_output_schema skill) (Some root) = Ok [] ∧
    skr_artifact r = Some artifact ∧
    (skill ∈ DEFAULT_SKILLS → dget artifact "id" = Some (VStr (sk_artifact_id c)) ∧
       dget artifact "created_by" = Some (VDict (run_actor run)) ∧ dget artifact "run_id" = Some (VStr (sk_run_id c))).
Proof.
  intros E Hal. destruct (run_skill_cases policy cfg llm c w)
    as [(run & pr & skill & context & w1 & w2 & Hg & Hrun)|(_ & _ & Hr)].
  2: { rewrite E in Hr. destruct (Hr r eq_refl). congruence. }
  rewrite Hrun in E. apply consult_Ok in E as (response & w3 & ref & Hllm & Hput & _ & _ & (Hdg & _) & Ho).
  unfold answer_outcome in Ho. destruct (skr_artifact r) as [artifact|] eqn:Ear; [|destruct Ho; congruence].
  destruct Ho as (_ & _ & content & root & Hex & Has & _ & Hv).
  exists run, pr, skill, context, w1, w2, response, w3, content, artifact, root. split_and!; try done.
  intros Hs. destruct (assembled_default _ _ _ _ Hs Has) as (base & Hp & _).
  split_and!; [apply (Hp ("id", "artifact_id"))|apply (Hp ("created_by", "actor"))|apply (Hp ("run_id", "run_id"))];
    unfold PLATFORM_FIELDS; set_solver.
Qed.

(** an answer that is not a valid artifact is evidence all the same: once the
    model has answered, every run that returns has put the answer's very text in
    the store and names it in its evidence record, with the reason of a refusal. *)
Theorem every_answer_recorded llm c w r w' run pr skill context w1 w2 :
  skill_gates policy cfg c w run pr skill context w1 w2 →
  run_skill policy cfg llm c w = (Ok r, w') →
  ∃ response w3,
    llm (mkLLMRequest (skill_role skill) (skill_system_prompt skill) context) w2 = (Ok response, w3) ∧
    EvidenceStore.put (skc_store cfg) (llm_text response) w3 = (Ok (sha256_hex (llm_text response)), w') ∧
    evidence_names (skr_evidence r) (llm_text response) (skill_tool_name skill +:+ ".output") (run_actor run)
      (sk_run_id c) (sk_evidence_id c) (Some (sk_decision_id c)) ∧
    answer_outcome c skill (run_actor run) (llm_text response) (w_fs w') r.
Proof.
  intros Hg E. rewrite (run_skill_gated _ _ _ _ _ _ _ _ _ _ _ Hg) in E.
  apply consult_Ok in E as (response & w3 & ref & Hllm & Hput & Href & _ & Hn & Ho).
  assert (ref = VStr (sk_decision_id c)) as -> by (vm_compute in Href; by injection Href).
  by exists response, w3.
Qed.
End properties.

(** * Witnesses *)

Definition demo_skills : gmap string Skill := {["grill" := GRILL]}.
Definition skill_cfg : SkillConfig := mkSkillConfig "key" demo_skills ["repo"; "evidence"] (Some ["repo"]).
Definition skill_token : pystr :=
  match issue_token "key" (mkCapability "R" "skill.grill" "skills" 1800000000) with Ok t => t | Raise _ => "" end.
Definition skill_world : World :=
  set_fs (<[["repo"; "contracts"; "schemas"; "specification.schema.json"] := File "{}"]> repo_fs) demo_world.
Definition demo_skill_call : SkillCall :=
  mkSkillCall "R" skill_token "grill" [approved "idea" [("id", VStr "IDEA-1")]] [("feature_id", VStr "FEAT-1")]
    "SPEC-0001" "t" "PD-0001" "EV-0001" "skills".
Definition demo_llm : LLMAdapter := stub_complete {["grill" := "{}"]} "stub".
Definition demo_run_skill : ST World SkillRunResult :=
  run_skill (H := allow_env) (evaluate (H := allow_env) demo_client) skill_cfg demo_llm demo_skill_call.

Lemma demo_skill_allowed : ∃ r w', demo_run_skill skill_world = (Ok r, w') ∧ skr_allowed r = true.
Proof.
  assert (H : match (demo_run_skill skill_world).1 with Ok r => skr_allowed r | Raise _ => false end = true)
    by (vm_compute; reflexivity).
  destruct (demo_run_skill skill_world) as [[r|e] w']; [|discriminate H]. exists r, w'. split; [reflexivity|exact H].
Qed.

Lemma demo_skill_gates : ∃ r w' run pr skill context w1 w2,
  demo_run_skill skill_world = (Ok r, w') ∧
  skill_gates (H := allow_env) (evaluate (H := allow_env) demo_client) skill_cfg demo_skill_call skill_world
    run pr skill context w1 w2.
Proof.
  destruct demo_skill_allowed as (r & w' & E & Ha).
  destruct (run_skill_cases (H := allow_env) (evaluate (H := allow_env) demo_client) skill_cfg demo_llm demo_skill_call skill_world)
    as [(run & pr & skill & context & w1 & w2 & Hg & _)|(_ & _ & Hr)].
  - exists r, w', run, pr, skill, context, w1, w2. split; [exact E|exact Hg].
  - unfold refused in Hr. change (∀ r, (demo_run_skill skill_world).1 = Ok r → skr_allowed r = false ∧ skr_artifact r = None) in Hr.
    rewrite E in Hr. destruct (Hr r eq_refl) as [Hf _]. rewrite Hf in Ha. discriminate Ha.
Qed.

Lemma allowed_artifact_validated_witness :
  ∃ r w' artifact, demo_run_skill skill_world = (Ok r, w') ∧ skr_artifact r = Some artifact.
Proof.
  destruct demo_skill_allowed as (r & w' & E & Ha).
  destruct (allowed_artifact_validated (H := allow_env) (evaluate (H := allow_env) demo_client) skill_cfg demo_llm
    demo_skill_call skill_world r w' E Ha) as (_ & _ & _ & _ & _ & _ & _ & _ & _ & artifact & _ & _ & _ & _ & _ & _ & _ & _ & Har & _).
  exists r, w', artifact. split; [exact E|exact Har].
Defined.

Lemma every_answer_recorded_witness :
  ∃ r w' response w2 w3, demo_run_skill skill_world = (Ok r, w') ∧
    demo_llm (mkLLMRequest "grill" GRILL_PROMPT [("idea", VDict [("id", VStr "IDEA-1")])]) w2 = (Ok response, w3).
Proof.
  destruct demo_skill_gates as (r & w' & run & pr & skill & context & w1 & w2 & E & Hg).
  destruct (every_answer_recorded (H := allow_env) (evaluate (H := allow_env) demo_client) skill_cfg demo_llm
    demo_skill_call skill_world r w' run pr skill context w1 w2 Hg E) as (response & w3 & Hllm & _).
  exists r, w', response, w2, w3. split; [exact E|]. revert Hllm.
  destruct Hg as (_ & _ & _ & _ & Hs & Hc & _). cbn [sk_skill_name demo_skill_call skc_skills skill_cfg] in Hs.
  unfold demo_skills in Hs. apply lookup_singleton_Some in Hs as [_ <-].
  assert (context = [("idea", VDict [("id", VStr "IDEA-1")])]) as -> by (vm_compute in Hc; by injection Hc).
  exact (λ H, H).
Defined.

