(* ===== verification/Pipeline.v ===== *)
(** [sdlc/pipeline/orchestrator.py]: the pipeline idea - specification - threat
    model - plan - task - security review - review.  Its own state is its counters
    and the documents it has written; every effect goes through the skill runner
    and the runner-executor. *)

From S2P Require Export Executor SkillRunner Builtin Trace.
#[local] Open Scope Z_scope.

Definition ARTIFACT_ID_PREFIX : list (string * string) :=
  [("idea", "IDEA"); ("specification", "SPEC"); ("threat-model", "TM"); ("plan", "PLAN"); ("task", "TASK");
   ("review", "REV"); ("security-review", "SECREV")].

Record StageResult := mkStageResult {
  stage_stage : string;
  stage_artifact_type : string;
  stage_artifact_id : pystr;
  stage_decision : dict;
  stage_evidence : dict
}.

(** * The security review *)

(** The disposition of one risk. *)
Definition disposition_of (severity : pystr) (verification waiver : value) : string :=
  if bool_decide (severity ∈ ["critical"; "high"]) then
    if truthy verification then "mitigated" else "open_blocking"
  else if severity ≟ "medium" then
    if truthy waiver then "waived_medium" else "open_blocking"
  else "accepted_low".

(** The body of the loop: the entry of one risk. *)
Definition risk_entry (risk : value) : res dict :=
  severity_value ← vget risk "severity" (VStr "");
  let severity := py_str severity_value in
  verification ← vget risk "verification_test" VNone;
  waiver ← vget risk "waiver_id" VNone;
  let disposition := disposition_of severity verification waiver in
  id ← vget risk "id" VNone;
  let entry := [("risk_id", id); ("severity", VStr severity); ("disposition", VStr disposition)] in
  mret (if (disposition ≟ "mitigated") && truthy verification
        then (entry ++ [("verification_evidence", VStr (py_str verification))])%list else entry).

Definition blocks (entry : dict) : bool := eq_str (dget_none entry "disposition") "open_blocking".

Definition build_security_review (feature_id : pystr) (threat_model : dict) (artifact_id created_at : pystr)
    (actor : dict) (run_id threat_model_href : pystr) : res dict :=
  risks ← viter (dget_or threat_model "risks" (VList []));
  dispositions ← mapR risk_entry risks;
  let blocking := existsb blocks dispositions in
  mret [("schema_version", VStr "1.0.0"); ("artifact_type", VStr "security-review"); ("id", VStr artifact_id);
        ("created_at", VStr created_at); ("created_by", VDict actor); ("run_id", VStr run_id);
        ("links", VList [VDict [("rel", VStr "threat"); ("href", VStr threat_model_href)]]);
        ("feature_id", VStr feature_id); ("threat_model_id", VStr (py_str (dget_or threat_model "id" (VStr ""))));
        ("verdict", VStr (if blocking then "changes_requested" else "approved"));
        ("risk_dispositions", VList (VDict <$> dispositions))].

(** * The pipeline *)

(** The configuration of a [Pipeline]; the policy and the model are parameters. *)
Record PipelineConfig := mkPipelineConfig {
  pl_feature_id : pystr;
  pl_run_id : pystr;
  pl_secret : bytes;
  pl_skills : gmap string Skill;
  pl_tools : gmap string ToolSpec;
  pl_evidence : path;
  pl_store : path;
  pl_repo_root : path;
  pl_schema_root : option path;
  pl_href_prefix : pystr
}.

(** The attributes that change during [run], and the world. *)
Record PState := mkPState {
  ps_world : World;
  ps_created_at : pystr;
  ps_counters : list (string * Z);
  ps_decision_seq : Z;
  ps_evidence_seq : Z;
  ps_written : list (pystr * dict)
}.

Record PipelineResult := mkPipelineResult {
  pr_feature_id : pystr;
  pr_run_id : pystr;
  pr_stages : list StageResult;
  pr_artifacts : list (pystr * dict);
  pr_trace : Traceability
}.

Definition inWorld {A} (m : ST World A) : ST PState A :=
  zoom ps_world (λ w s, mkPState w (ps_created_at s) (ps_counters s) (ps_decision_seq s) (ps_evidence_seq s) (ps_written s)) m.

Definition _artifact_id (kind : string) : ST PState pystr := fun s =>
  let next_value := default 0 (kget (ps_counters s) kind) + 1 in
  let s' := mkPState (ps_world s) (ps_created_at s) (kset (ps_counters s) kind next_value) (ps_decision_seq s)
              (ps_evidence_seq s) (ps_written s) in
  match kget ARTIFACT_ID_PREFIX kind with
  | Some prefix => (Ok (prefix +:+ "-" +:+ zfill 4 next_value), s')
  | None => (raise KeyError kind, s')
  end.

Definition _next_decision_id : ST PState pystr := fun s =>
  let n := ps_decision_seq s + 1 in
  (Ok ("PD-" +:+ zfill 4 n),
   mkPState (ps_world s) (ps_created_at s) (ps_counters s) n (ps_evidence_seq s) (ps_written s)).
Definition _next_evidence_id : ST PState pystr := fun s =>
  let n := ps_evidence_seq s + 1 in
  (Ok ("EV-" +:+ zfill 4 n),
   mkPState (ps_world s) (ps_created_at s) (ps_counters s) (ps_decision_seq s) n (ps_written s)).
Definition set_written (id : pystr) (document : dict) : ST PState unit := modifyS (λ s,
  mkPState (ps_world s) (ps_created_at s) (ps_counters s) (ps_decision_seq s) (ps_evidence_seq s)
    (kset (ps_written s) id document)).
Definition set_created_at (created_at : pystr) : ST PState unit := modifyS (λ s,
  mkPState (ps_world s) created_at (ps_counters s) (ps_decision_seq s) (ps_evidence_seq s) (ps_written s)).

Section pipeline.
  Context `{Env} (policy : pystr → dict → ST World PolicyResult) (llm : LLMAdapter).
  Context (set_order : list path → list path) (cfg : PipelineConfig).

Definition skill_config : SkillConfig :=
  mkSkillConfig (pl_secret cfg) (pl_skills cfg) (pl_evidence cfg) (pl_schema_root cfg).

Definition _href (artifact_id : pystr) : pystr := pl_href_prefix cfg +:+ "/" +:+ artifact_id +:+ ".json".

Definition issue_for (tool scope : pystr) : ST PState pystr :=
  inWorld (issue (pl_secret cfg) (pl_run_id cfg) tool scope DEFAULT_TTL_SECONDS None).

Definition _persist (kind : string) (artifact_id : pystr) (document : dict) : ST PState StageResult :=
  errors ← inWorld (liftFs (λ fs, validate_artifact fs document None));
  match errors with
  | _ :: _ => raiseS PipelineError ("invalid " +:+ kind +:+ " artifact: " +:+ join "; " errors)
  | [] =>
      token ← issue_for "write_artifact" "workspace";
      s ← getS;
      decision_id ← _next_decision_id;
      evidence_id ← _next_evidence_id;
      result ← inWorld (execute policy (pl_secret cfg) (pl_tools cfg) (pl_evidence cfg)
        (mkCall (pl_run_id cfg) token "write_artifact" [("document", VDict document)] "workspace"
           (ps_created_at s) decision_id evidence_id ""));
      if negb (res_allowed result) then
        raiseS PipelineError ("write_artifact denied for " +:+ artifact_id +:+ ": " +:+ res_reason result)
      else
        _ ← set_written artifact_id document;
        mret (mkStageResult kind kind artifact_id (res_decision result) (res_evidence result))
  end.

Definition _skill (skill_name : pystr) (kind : string) (inputs : list ContextInput) (bindings : dict)
    (links : list dict) : ST PState (StageResult * dict) :=
  skill ← lift (SkillRegistry.get skill_name (pl_skills cfg));
  artifact_id ← _artifact_id kind;
  token ← issue_for (skill_tool_name skill) "skills";
  s ← getS;
  decision_id ← _next_decision_id;
  evidence_id ← _next_evidence_id;
  result ← inWorld (run_skill policy skill_config llm (mkSkillCall (pl_run_id cfg) token skill_name inputs
    bindings artifact_id (ps_created_at s) decision_id evidence_id "skills"));
  match skr_allowed result, skr_artifact result with
  | true, Some artifact =>
      artifact ← lift (add_links artifact links);
      stage ← _persist kind artifact_id artifact;
      mret (stage, artifact)
  | _, _ => raiseS PipelineError ("skill " +:+ skill_name +:+ " denied: " +:+ skr_reason result)
  end.

(** [{"rel": rel, "href": self._href(kind, artifact_id)}] *)
Definition link_to (rel : string) (artifact_id : value) : dict :=
  [("rel", VStr rel); ("href", VStr (_href (py_str artifact_id)))].

Definition security_reviewer : dict :=
  [("type", VStr "agent"); ("id", VStr "security-reviewer"); ("role", VStr "security-reviewer")].

Definition run_pipeline (idea : dict) (created_at : pystr) : ST PState PipelineResult :=
  _ ← set_created_at created_at;
  let feature := ("feature_id", VStr (pl_feature_id cfg)) in
  idea_id ← (if truthy (dget_none idea "id") then mret (py_str (dget_none idea "id")) else _artifact_id "idea");
  stage_idea ← _persist "idea" idea_id idea;
  '(stage_spec, specification) ← _skill "grill" "specification" [approved "idea" idea] [feature]
    [link_to "requirement" (VStr idea_id)];
  spec_id ← lift (ditem specification "id");
  '(stage_tm, threat_model) ← _skill "grill-security" "threat-model" [approved "specification" specification]
    [feature] [link_to "requirement" spec_id];
  tm_id ← lift (ditem threat_model "id");
  '(stage_plan, plan) ← _skill "planner" "plan"
    [approved "specification" specification; approved "threat-model" threat_model] [feature] [link_to "threat" tm_id];
  plan_id ← lift (ditem plan "id");
  '(stage_task, task) ← _skill "task-writer" "task"
    [approved "specification" specification; approved "plan" plan] [feature; ("plan_id", plan_id)]
    [link_to "plan" plan_id];
  secrev_id ← _artifact_id "security-review";
  security_review ← lift (build_security_review (pl_feature_id cfg) threat_model secrev_id created_at
    security_reviewer (pl_run_id cfg) (_href (py_str tm_id)));
  stage_secrev ← _persist "security-review" secrev_id security_review;
  raw ← lift (encode_utf8 (dumps canonical (VDict task)));
  task_id ← lift (ditem task "id");
  '(stage_review, review) ← _skill "reviewer" "review" [approved "task" task]
    [feature; ("task_id", task_id); ("subject_digest", VStr (sha256_hex raw))] [link_to "task" task_id];
  s ← getS;
  let artifacts := ps_written s in
  trace ← lift (trace_feature set_order (w_fs (ps_world s)) (pl_repo_root cfg) (pl_feature_id cfg)
    (Some (foldl (λ (index : Index) (kd : pystr * dict),
       iset index (ArtifactStore.path_of (pl_store cfg) kd.1) kd.2) [] artifacts)));
  mret (mkPipelineResult (pl_feature_id cfg) (pl_run_id cfg)
    [stage_idea; stage_spec; stage_tm; stage_plan; stage_task; stage_secrev; stage_review] artifacts trace).
End pipeline.

(** * The security review *)

Definition risk_field (risk : value) (k : string) : value :=
  match risk with VDict d => dget_none d k | _ => VNone end.
Definition risk_severity (risk : value) : pystr :=
  match risk with VDict d => py_str (dget_or d "severity" (VStr "")) | _ => "" end.

(** A risk that must block: high or critical without a verification test, or
    medium without a waiver. *)
Definition blocking_risk (risk : value) : Prop :=
  (risk_severity risk ∈ ["critical"; "high"] ∧ truthy (risk_field risk "verification_test") = false) ∨
  (risk_severity risk = "medium" ∧ truthy (risk_field risk "waiver_id") = false).

Lemma risk_entry_Ok risk entry :
  risk_entry risk = Ok entry →
  ∃ d, risk = VDict d ∧ dget entry "risk_id" = Some (risk_field risk "id") ∧
    dget entry "severity" = Some (VStr (risk_severity risk)) ∧
    dget entry "disposition" = Some (VStr (disposition_of (risk_severity risk)
      (risk_field risk "verification_test") (risk_field risk "waiver_id"))).
Proof.
  unfold risk_entry. destruct risk as [| | | | | |d]; try done. cbn [vget mbind res_bind].
  intros [= <-]. exists d. split; [done|]. cbn [risk_field risk_severity]. unfold dget_none.
  destruct (_ && _); rewrite ?dget_app; done.
Qed.

Lemma disposition_blocks severity verification waiver :
  disposition_of severity verification waiver = "open_blocking" ↔
  (severity ∈ ["critical"; "high"] ∧ truthy verification = false) ∨ (severity = "medium" ∧ truthy waiver = false).
Proof.
  unfold disposition_of. repeat case_bool_decide; destruct (truthy verification), (truthy waiver);
    split; try done; try (by auto); intros [[? ?]|[? ?]]; subst; try done; exfalso; set_solver.
Qed.

Lemma blocks_iff risk entry : risk_entry risk = Ok entry → blocks entry = true ↔ blocking_risk risk.
Proof.
  intros (d & -> & _ & _ & Hd)%risk_entry_Ok. unfold blocks, dget_none, dget_or. rewrite Hd. cbn [from_option id].
  rewrite eq_str_true. unfold blocking_risk. rewrite <- disposition_blocks. split; [by intros [= H]|by intros <-].
Qed.

Lemma risk_entries_spec risks entries :
  mapR risk_entry risks = Ok entries →
  existsb blocks entries = true ↔ Exists blocking_risk risks.
Proof.
  revert entries. induction risks as [|risk risks IH]; intros entries; cbn [mapR].
  - intros [= <-]. split; [done|]. intros H. inversion H.
  - intros (e & He & (es & Hes & [= <-])%res_bind_Ok)%res_bind_Ok. cbn [existsb].
    rewrite orb_true_iff, Exists_cons, (blocks_iff _ _ He), (IH _ Hes). done.
Qed.

(** C20: the security review is a function of the threat model: it has one
    disposition for each risk, in order, with the risk's id and severity, and it
    approves exactly when no risk is high or critical without a verification
    test or medium without a waiver. *)
Theorem security_review_verdict feature_id threat_model artifact_id created_at actor run_id href doc :
  build_security_review feature_id threat_model artifact_id created_at actor run_id href = Ok doc →
  ∃ risks dispositions, viter (dget_or threat_model "risks" (VList [])) = Ok risks ∧
    dget doc "risk_dispositions" = Some (VList (VDict <$> dispositions)) ∧
    Forall2 (λ risk entry, dget entry "risk_id" = Some (risk_field risk "id") ∧
      dget entry "severity" = Some (VStr (risk_severity risk))) risks dispositions ∧
    dget doc "verdict" = Some (VStr (if bool_decide (Exists blocking_risk risks)
                                     then "changes_requested" else "approved")) ∧
    dget doc "id" = Some (VStr artifact_id) ∧ dget doc "feature_id" = Some (VStr feature_id).
Proof.
  unfold build_security_review. intros (risks & Hr & (entries & He & [= <-])%res_bind_Ok)%res_bind_Ok.
  exists risks, entries. split_and!; try done.
  - clear Hr. revert entries He. induction risks as [|r risks IH]; intros entries; cbn [mapR].
    + intros [= <-]. constructor.
    + intros (e & (d & _ & ? & ? & _)%risk_entry_Ok & (es & Hes & [= <-])%res_bind_Ok)%res_bind_Ok.
      constructor; [done|by apply IH].
  - pose proof (risk_entries_spec _ _ He) as Hb. cbn -[existsb]. repeat f_equal.
    case_bool_decide as Hx.
    + by rewrite (proj2 Hb Hx).
    + destruct (existsb blocks entries); [by destruct Hx; apply Hb|done].
Qed.

(** only the exact severities [critical], [high] and [medium] are known to the
    security review: a threat model whose risks all have other severities - such
    as [CRITICAL] or none - is approved. *)
Theorem unknown_severity_approved feature_id threat_model artifact_id created_at actor run_id href doc risks :
  viter (dget_or threat_model "risks" (VList [])) = Ok risks →
  Forall (λ risk, risk_severity risk ∉ ["critical"; "high"; "medium"]) risks →
  build_security_review feature_id threat_model artifact_id created_at actor run_id href = Ok doc →
  dget doc "verdict" = Some (VStr "approved").
Proof.
  unfold build_security_review. intros Hr Hf. rewrite Hr. cbn [mbind res_bind]. intros (entries & He & [= <-])%res_bind_Ok.
  cbn -[existsb]. destruct (existsb blocks entries) eqn:Eb; [|done]. exfalso.
  apply (risk_entries_spec _ _ He), Exists_exists in Eb as (risk & Hin & Hb).
  rewrite Forall_forall in Hf. apply (Hf risk Hin). destruct Hb as [[H _]|[-> _]]; set_solver.
Qed.

(** * Stages *)

(** One document went into the store through the gated tool, between two worlds. *)
Definition stored `{Env} policy (cfg : PipelineConfig) (document : dict) (stage : StageResult) (w0 w : World) : Prop :=
  validate_artifact (w_fs w0) document None = Ok [] ∧
  ∃ call result w1,
    execute policy (pl_secret cfg) (pl_tools cfg) (pl_evidence cfg) call w1 = (Ok result, w) ∧
    call_tool call = "write_artifact" ∧ call_args call = [("document", VDict document)] ∧
    call_run_id call = pl_run_id cfg ∧ res_allowed result = true ∧
    stage_decision stage = res_decision result ∧ stage_evidence stage = res_evidence result.

(** What the counters and the written documents of a later state are. *)
Definition advanced (s s' : PState) (counters : list (string * Z)) (steps : Z) (written : list (pystr * dict)) : Prop :=
  ps_counters s' = counters ∧ ps_decision_seq s' = ps_decision_seq s + steps ∧
  ps_evidence_seq s' = ps_evidence_seq s + steps ∧ ps_written s' = written ∧ ps_created_at s' = ps_created_at s.

Lemma persist_Ok `{Env} policy cfg kind id document s stage s' :
  _persist policy cfg kind id document s = (Ok stage, s') →
  stage_stage stage = kind ∧ stage_artifact_type stage = kind ∧ stage_artifact_id stage = id ∧
  stored policy cfg document stage (ps_world s) (ps_world s') ∧
  advanced s s' (ps_counters s) 1 (kset (ps_written s) id document).
Proof.
  unfold _persist. rewrite ST_bind_eq. unfold inWorld at 1. rewrite zoom_eq. unfold liftFs at 1 2. cbn [fst snd].
  destruct (validate_artifact (w_fs (ps_world s)) document None) as [[|e es]|e] eqn:Hv; [|by rewrite raiseS_eq|done].
  rewrite ST_bind_eq. unfold issue_for, inWorld at 1. rewrite zoom_eq.
  destruct (issue _ _ _ _ _ _ _) as [[token|e] w1] eqn:Hi; cbn [fst snd]; [|done].
  rewrite ST_bind_eq, getS_eq, ST_bind_eq. unfold _next_decision_id at 1. cbn [ps_world ps_created_at ps_counters ps_decision_seq ps_evidence_seq ps_written].
  rewrite ST_bind_eq. unfold _next_evidence_id at 1. cbn [ps_world ps_created_at ps_counters ps_decision_seq ps_evidence_seq ps_written].
  rewrite ST_bind_eq. unfold inWorld at 1. rewrite zoom_eq. cbn [ps_world ps_created_at ps_counters ps_decision_seq ps_evidence_seq ps_written].
  destruct (execute _ _ _ _ _ w1) as [[result|e] w2] eqn:He; cbn [fst snd]; [|done].
  destruct (res_allowed result) eqn:Ha; cbn [negb]; [|by rewrite raiseS_eq].
  rewrite ST_bind_eq. unfold set_written. rewrite modifyS_eq, ST_ret_eq. intros [= <- <-].
  unfold stored, advanced. cbn. split_and!; try done. eexists _, result, w1. by split_and!.
Qed.

(** A skill made the document, between two worlds. *)
Definition produced `{Env} policy llm (cfg : PipelineConfig) (skill_name : pystr) (inputs : list ContextInput)
    (bindings : dict) (links : list dict) (id created_at : pystr) (document : dict) : Prop :=
  ∃ skill call r w1 w2 artifact,
    pl_skills cfg !! skill_name = Some skill ∧
    run_skill policy (skill_config cfg) llm call w1 = (Ok r, w2) ∧ skr_allowed r = true ∧
    sk_skill_name call = skill_name ∧ sk_inputs call = inputs ∧ sk_bindings call = bindings ∧
    sk_artifact_id call = id ∧ sk_run_id call = pl_run_id cfg ∧ sk_created_at call = created_at ∧
    skr_artifact r = Some artifact ∧ add_links artifact links = Ok document.

Definition next_count (s : PState) (kind : string) : Z := default 0 (kget (ps_counters s) kind) + 1.
Definition id_of (kind : string) (n : Z) : pystr := default "" (kget ARTIFACT_ID_PREFIX kind) +:+ "-" +:+ zfill 4 n.

Lemma artifact_id_Ok kind s id s' :
  _artifact_id kind s = (Ok id, s') →
  id = id_of kind (next_count s kind) ∧ ps_world s' = ps_world s ∧
  advanced s s' (kset (ps_counters s) kind (next_count s kind)) 0 (ps_written s).
Proof.
  unfold _artifact_id, id_of. destruct (kget ARTIFACT_ID_PREFIX kind) as [prefix|]; [|done].
  intros [= <- <-]. unfold advanced. cbn. split_and!; try done; lia.
Qed.

Lemma skill_Ok `{Env} policy llm cfg skill_name kind inputs bindings links s stage document s' :
  _skill policy llm cfg skill_name kind inputs bindings links s = (Ok (stage, document), s') →
  let id := id_of kind (next_count s kind) in
  stage_stage stage = kind ∧ stage_artifact_type stage = kind ∧ stage_artifact_id stage = id ∧
  produced policy llm cfg skill_name inputs bindings links id (ps_created_at s) document ∧
  (∃ w, stored policy cfg document stage w (ps_world s')) ∧
  advanced s s' (kset (ps_counters s) kind (next_count s kind)) 2 (kset (ps_written s) id document).
Proof.
  unfold _skill. rewrite ST_bind_eq, lift_eq. unfold SkillRegistry.get.
  destruct (pl_skills cfg !! skill_name) as [skill|] eqn:Hs; [|done].
  rewrite ST_bind_eq. destruct (_artifact_id kind s) as [[id|e] s1] eqn:Hid; [|done].
  apply artifact_id_Ok in Hid as (-> & Hw1 & Hc1 & Hd1 & He1 & Hwr1 & Hca1).
  rewrite ST_bind_eq. unfold issue_for, inWorld at 1. rewrite zoom_eq.
  destruct (issue _ _ _ _ _ _ _) as [[token|e] w1] eqn:Hi; cbn [fst snd]; [|done].
  rewrite ST_bind_eq, getS_eq, ST_bind_eq. unfold _next_decision_id at 1. cbn [ps_world ps_created_at ps_counters ps_decision_seq ps_evidence_seq ps_written].
  rewrite ST_bind_eq. unfold _next_evidence_id at 1. cbn [ps_world ps_created_at ps_counters ps_decision_seq ps_evidence_seq ps_written].
  rewrite ST_bind_eq. unfold inWorld at 1. rewrite zoom_eq. cbn [ps_world ps_created_at ps_counters ps_decision_seq ps_evidence_seq ps_written].
  destruct (run_skill _ _ _ _ w1) as [[r|e] w2] eqn:He; cbn [fst snd]; [|done].
  destruct (skr_allowed r) eqn:Ha; [|by rewrite raiseS_eq].
  destruct (skr_artifact r) as [artifact|] eqn:Har; [|by rewrite raiseS_eq].
  rewrite ST_bind_eq, lift_eq. destruct (add_links artifact links) as [doc|e] eqn:Hl; [|done].
  rewrite ST_bind_eq. match goal with |- context [_persist _ _ _ _ _ ?st] => set (s2 := st) end.
  destruct (_persist _ _ _ _ _ s2) as [[stg|e] s3] eqn:Hp; [|done]. rewrite ST_ret_eq. intros [= <- <- <-].
  apply persist_Ok in Hp as (? & ? & ? & Hst & Hc & Hd & Hev & Hwr & Hca). cbn in *.
  split_and!; try done.
  - eexists skill, _, r, w1, w2, artifact. split_and!; try done.
  - by eexists.
  - unfold advanced. rewrite Hc, Hd, Hev, Hwr, Hca. cbn. rewrite Hc1, Hd1, He1, Hwr1, Hca1. split_and!; try done; lia.
Qed.

(** * A whole run *)

Definition fresh (w : World) : PState := mkPState w "" [] 0 0 [].

Definition idea_id_of (idea : dict) : pystr :=
  if truthy (dget_none idea "id") then py_str (dget_none idea "id") else "IDEA-0001".

(** The documents of a run. *)
Record Documents := mkDocuments {
  doc_idea : dict; doc_spec : dict; doc_tm : dict; doc_plan : dict; doc_task : dict;
  doc_secrev : dict; doc_review : dict
}.

Definition documents (d : Documents) : list dict :=
  [doc_idea d; doc_spec d; doc_tm d; doc_plan d; doc_task d; doc_secrev d; doc_review d].
Definition stage_ids (idea : dict) : list pystr :=
  [idea_id_of idea; "SPEC-0001"; "TM-0001"; "PLAN-0001"; "TASK-0001"; "SECREV-0001"; "REV-0001"].
Definition STAGE_KINDS : list string :=
  ["idea"; "specification"; "threat-model"; "plan"; "task"; "security-review"; "review"].

(** How each document was made: by which skill, from which inputs, linked to what. *)
Definition derived `{Env} policy llm (cfg : PipelineConfig) (idea : dict) (created_at : pystr) (d : Documents)
    (spec_id tm_id plan_id task_id : value) : Prop :=
  let feature := ("feature_id", VStr (pl_feature_id cfg)) in
  let made := produced policy llm cfg in
  doc_idea d = idea ∧ ditem (doc_spec d) "id" = Ok spec_id ∧ ditem (doc_tm d) "id" = Ok tm_id ∧
  ditem (doc_plan d) "id" = Ok plan_id ∧ ditem (doc_task d) "id" = Ok task_id ∧
  made "grill" [approved "idea" idea] [feature] [link_to cfg "requirement" (VStr (idea_id_of idea))]
    "SPEC-0001" created_at (doc_spec d) ∧
  made "grill-security" [approved "specification" (doc_spec d)] [feature] [link_to cfg "requirement" spec_id]
    "TM-0001" created_at (doc_tm d) ∧
  made "planner" [approved "specification" (doc_spec d); approved "threat-model" (doc_tm d)] [feature]
    [link_to cfg "threat" tm_id] "PLAN-0001" created_at (doc_plan d) ∧
  made "task-writer" [approved "specification" (doc_spec d); approved "plan" (doc_plan d)]
    [feature; ("plan_id", plan_id)] [link_to cfg "plan" plan_id] "TASK-0001" created_at (doc_task d) ∧
  build_security_review (pl_feature_id cfg) (doc_tm d) "SECREV-0001" created_at security_reviewer (pl_run_id cfg)
    (_href cfg (py_str tm_id)) = Ok (doc_secrev d) ∧
  made "reviewer" [approved "task" (doc_task d)]
    [feature; ("task_id", task_id); ("subject_digest", VStr (sha256_hex (dumps canonical (VDict (doc_task d)))))]
    [link_to cfg "task" task_id] "REV-0001" created_at (doc_review d).

Definition written_of (idea : dict) (d : Documents) : list (pystr * dict) :=
  foldl (λ m kd, kset m kd.1 kd.2) [] (zip (stage_ids idea) (documents d)).

Definition index_of (cfg : PipelineConfig) (artifacts : list (pystr * dict)) : list (path * dict) :=
  foldl (λ (index : Index) (kd : pystr * dict), iset index (ArtifactStore.path_of (pl_store cfg) kd.1) kd.2) [] artifacts.

(** Kinds for which no identifier was made yet. *)
Definition unused (s : PState) (kinds : list string) : Prop := Forall (λ k, kget (ps_counters s) k = None) kinds.

(** The state after a stage wrote a document, taking [n] identifiers of each sort. *)
Definition later (s s' : PState) (n : Z) (id : pystr) (document : dict) : Prop :=
  ps_written s' = kset (ps_written s) id document ∧ ps_created_at s' = ps_created_at s ∧
  ps_decision_seq s' = ps_decision_seq s + n ∧ ps_evidence_seq s' = ps_evidence_seq s + n.

Lemma unused_after s s' kind kinds n :
  NoDup (kind :: kinds) → unused s (kind :: kinds) → ps_counters s' = kset (ps_counters s) kind n → unused s' kinds.
Proof.
  intros [Hk _]%NoDup_cons [_ Hu]%Forall_cons Hc. unfold unused. rewrite Hc.
  rewrite Forall_forall in Hu |- *. intros k Hin. rewrite kget_kset_ne; [by apply Hu|]. by intros ->.
Qed.

Lemma next_count_unused s kind kinds : unused s (kind :: kinds) → next_count s kind = 1.
Proof. intros [Hk _]%Forall_cons. unfold next_count. by rewrite Hk. Qed.

Lemma skill_first `{Env} policy llm cfg skill_name kind kinds inputs bindings links s stage document s' :
  NoDup (kind :: kinds) → unused s (kind :: kinds) →
  _skill policy llm cfg skill_name kind inputs bindings links s = (Ok (stage, document), s') →
  stage_stage stage = kind ∧ stage_artifact_type stage = kind ∧ stage_artifact_id stage = id_of kind 1 ∧
  produced policy llm cfg skill_name inputs bindings links (id_of kind 1) (ps_created_at s) document ∧
  (∃ w0 w1, stored policy cfg document stage w0 w1) ∧ unused s' kinds ∧ later s s' 2 (id_of kind 1) document.
Proof.
  intros Hnd Hu (? & ? & ? & ? & [w0 ?] & Hc & ? & ? & ? & ?)%skill_Ok.
  rewrite (next_count_unused _ _ _ Hu) in *. unfold later.
  split_and!; try done; [by exists w0, (ps_world s')|by eapply unused_after].
Qed.

Lemma artifact_id_first kind kinds s id s' :
  NoDup (kind :: kinds) → unused s (kind :: kinds) → _artifact_id kind s = (Ok id, s') →
  id = id_of kind 1 ∧ unused s' kinds ∧ ps_written s' = ps_written s ∧ ps_created_at s' = ps_created_at s ∧
  ps_decision_seq s' = ps_decision_seq s ∧ ps_evidence_seq s' = ps_evidence_seq s.
Proof.
  intros Hnd Hu (-> & _ & Hc & ? & ? & ? & ?)%artifact_id_Ok. rewrite (next_count_unused _ _ _ Hu) in *.
  split_and!; try done; [by eapply unused_after|lia..].
Qed.

Lemma persist_step `{Env} policy cfg kind id kinds document s stage s' :
  unused s kinds → _persist policy cfg kind id document s = (Ok stage, s') →
  stage_stage stage = kind ∧ stage_artifact_type stage = kind ∧ stage_artifact_id stage = id ∧
  (∃ w0 w1, stored policy cfg document stage w0 w1) ∧ unused s' kinds ∧ later s s' 1 id document.
Proof.
  intros Hu (? & ? & ? & ? & Hc & ? & ? & ? & ?)%persist_Ok. unfold later, unused in *. rewrite Hc.
  split_and!; try done. by exists (ps_world s), (ps_world s').
Qed.

Ltac next_skill stage doc st' :=
  rewrite ST_bind_eq;
  match goal with U : unused ?st (?k :: ?ks) |- context [_skill ?p ?l ?c ?n ?k ?i ?b ?ln ?st] =>
    let E := fresh "E" in
    destruct (_skill p l c n k i b ln st) as [[[stage doc]|?] st'] eqn:E; [|done];
    apply (skill_first _ _ _ _ _ ks) in E; [|by apply (bool_decide_unpack _)|exact U];
    destruct E as (? & ? & ? & ? & ? & ? & ?); clear U
  end; cbv iota beta.
Ltac next_persist stage st' :=
  rewrite ST_bind_eq;
  match goal with U : unused ?st ?ks |- context [_persist ?p ?c ?k ?i ?d ?st] =>
    let E := fresh "E" in
    destruct (_persist p c k i d st) as [[stage|?] st'] eqn:E; [|done];
    apply (persist_step _ _ _ _ ks) in E; [|exact U]; destruct E as (? & ? & ? & ? & ? & ?); clear U
  end; cbv iota beta.
Ltac next_id v :=
  rewrite ST_bind_eq, lift_eq;
  match goal with |- context [ditem ?d ?k] =>
    let E := fresh "E" in destruct (ditem d k) as [v|?] eqn:E; [|done] end.

Lemma run_pipeline_Ok `{Env} policy llm set_order cfg idea created_at w res s' :
  run_pipeline policy llm set_order cfg idea created_at (fresh w) = (Ok res, s') →
  ∃ d spec_id tm_id plan_id task_id,
    derived policy llm cfg idea created_at d spec_id tm_id plan_id task_id ∧
    Forall2 (λ stage doc, ∃ w0 w1, stored policy cfg doc stage w0 w1) (pr_stages res) (documents d) ∧
    stage_stage <$> pr_stages res = STAGE_KINDS ∧ stage_artifact_type <$> pr_stages res = STAGE_KINDS ∧
    stage_artifact_id <$> pr_stages res = stage_ids idea ∧
    pr_artifacts res = written_of idea d ∧ ps_written s' = pr_artifacts res ∧
    ps_decision_seq s' = 12 ∧ ps_evidence_seq s' = 12 ∧
    trace_feature set_order (w_fs (ps_world s')) (pl_repo_root cfg) (pl_feature_id cfg)
      (Some (index_of cfg (pr_artifacts res))) = Ok (pr_trace res).
Proof.
  unfold run_pipeline. rewrite ST_bind_eq. unfold set_created_at at 1. rewrite modifyS_eq. cbn [fresh ps_world ps_counters ps_decision_seq ps_evidence_seq ps_written].
  rewrite ST_bind_eq.
  assert (Hidea : ∃ counters, (if truthy (dget_none idea "id") then mret (py_str (dget_none idea "id")) else _artifact_id "idea")
     (mkPState w created_at [] 0 0 []) = (Ok (idea_id_of idea), mkPState w created_at counters 0 0 []) ∧
     unused (mkPState w created_at counters 0 0 []) (drop 1 STAGE_KINDS)).
  { unfold idea_id_of. destruct (truthy _); eexists; (split; [reflexivity|by apply (bool_decide_unpack _)]). }
  destruct Hidea as (counters & -> & Hu).
  set (s0 := mkPState _ _ _ _ _ _) in *. cbv iota beta. unfold STAGE_KINDS in Hu. cbn [drop] in Hu.
  next_persist st1 s1. next_skill st2 spec s2. next_id spec_id. next_skill st3 tm s3. next_id tm_id.
  next_skill st4 plan s4. next_id plan_id. next_skill st5 task s5. rewrite ST_bind_eq.
  destruct (_artifact_id "security-review" s5) as [[secrev_id|?] s6] eqn:Eid; [|done].
  match goal with U : unused s5 _ |- _ => apply (artifact_id_first _ ["review"]) in Eid; [|by apply (bool_decide_unpack _)|exact U] end.
  destruct Eid as (-> & Hu6 & Hw6 & Hc6 & Hd6 & He6). cbv iota beta. rewrite ST_bind_eq, lift_eq.
  destruct (build_security_review _ _ _ _ _ _ _) as [secrev|] eqn:Esec; [|done].
  next_persist st6 s7. rewrite ST_bind_eq, lift_eq. destruct (encode_utf8 _) as [raw|] eqn:Eraw; [|done].
  apply encode_utf8_Ok in Eraw as ->. next_id task_id. next_skill st7 review s8.
  rewrite ST_bind_eq, getS_eq, ST_bind_eq, lift_eq.
  destruct (trace_feature _ _ _ _ _) as [trace|] eqn:Etr; [|done]. rewrite ST_ret_eq. intros [= <- <-].
  repeat match goal with L : later _ _ _ _ _ |- _ => destruct L as (? & ? & ? & ?) end.
  subst s0. cbn [ps_world ps_created_at ps_decision_seq ps_evidence_seq ps_written] in *.
  change (id_of "specification" 1) with "SPEC-0001" in *. change (id_of "threat-model" 1) with "TM-0001" in *.
  change (id_of "plan" 1) with "PLAN-0001" in *. change (id_of "task" 1) with "TASK-0001" in *.
  change (id_of "security-review" 1) with "SECREV-0001" in *. change (id_of "review" 1) with "REV-0001" in *.
  assert (ps_created_at s1 = created_at ∧ ps_created_at s2 = created_at ∧ ps_created_at s3 = created_at ∧
    ps_created_at s4 = created_at ∧ ps_created_at s7 = created_at) as (Hca1 & Hca2 & Hca3 & Hca4 & Hca7)
    by (split_and!; congruence).
  rewrite Hca1, Hca2, Hca3, Hca4, Hca7 in *.
  assert (Hw : ps_written s8 = written_of idea (mkDocuments idea spec tm plan task secrev review)) by
    (unfold written_of; cbn [zip_with stage_ids documents doc_idea doc_spec doc_tm doc_plan doc_task doc_secrev doc_review foldl fst snd]; congruence).
  exists (mkDocuments idea spec tm plan task secrev review), spec_id, tm_id, plan_id, task_id.
  cbn [pr_stages pr_artifacts pr_trace documents doc_idea doc_spec doc_tm doc_plan doc_task doc_secrev doc_review fmap list_fmap].
  split_and!; try done; try congruence.
  - unfold documents. cbn [doc_idea doc_spec doc_tm doc_plan doc_task doc_secrev doc_review].
    repeat (apply List.Forall2_cons; [assumption|]). apply List.Forall2_nil.
  - unfold STAGE_KINDS. congruence.
  - unfold STAGE_KINDS. congruence.
  - unfold stage_ids. congruence.
  - lia.
  - lia.
Qed.

(** C18: a run that returns went through all seven stages, in the fixed order and
    with the fixed identifiers; the document of each stage was valid and entered
    the store through an allowed call of the gated [write_artifact] tool in the
    run's name; each is linked to and made from its predecessors; and the traced
    artifacts are exactly these documents. *)
Theorem pipeline_stages `{Env} policy llm set_order cfg idea created_at w res s' :
  run_pipeline policy llm set_order cfg idea created_at (fresh w) = (Ok res, s') →
  ∃ d spec_id tm_id plan_id task_id,
    derived policy llm cfg idea created_at d spec_id tm_id plan_id task_id ∧
    stage_stage <$> pr_stages res = STAGE_KINDS ∧ stage_artifact_id <$> pr_stages res = stage_ids idea ∧
    Forall2 (λ stage doc, ∃ w0 w1, stored policy cfg doc stage w0 w1) (pr_stages res) (documents d) ∧
    pr_artifacts res = written_of idea d ∧ ps_decision_seq s' = 12 ∧ ps_evidence_seq s' = 12 ∧
    trace_feature set_order (w_fs (ps_world s')) (pl_repo_root cfg) (pl_feature_id cfg)
      (Some (index_of cfg (written_of idea d))) = Ok (pr_trace res).
Proof.
  intros (d & i1 & i2 & i3 & i4 & Hd & Hf & Hk & _ & Hi & Ha & _ & Hds & Hes & Ht)%run_pipeline_Ok.
  exists d, i1, i2, i3, i4. rewrite Ha in Ht. by split_and!.
Qed.

Lemma produced_assembled `{Env} policy llm cfg name skill inputs bindings links id created_at document :
  pl_skills cfg !! name = Some skill → skill ∈ DEFAULT_SKILLS →
  produced policy llm cfg name inputs bindings links id created_at document →
  ∃ content actor artifact,
    skill_assemble skill content [("artifact_id", VStr id); ("created_at", VStr created_at); ("actor", VDict actor);
      ("run_id", VStr (pl_run_id cfg)); ("bindings", VDict bindings)] = Ok artifact ∧
    add_links artifact links = Ok document ∧ ∀ k, k ≠ "links" → dget document k = dget artifact k.
Proof.
  intros Hs Hdef (skill' & call & r & w1 & w2 & artifact & Hs' & Hrun & Hal & Hn & Hin & Hb & Hid & Hr & Hc & Ha & Hl).
  assert (skill' = skill) as -> by congruence.
  destruct (run_skill_cases policy (skill_config cfg) llm call w1)
    as [(run & pr & sk & context & w3 & w4 & Hg & E)|(_ & _ & Href)].
  2: { rewrite Hrun in Href. destruct (Href r eq_refl). congruence. }
  rewrite E in Hrun. apply consult_Ok in Hrun as (response & w5 & ref & _ & _ & _ & _ & _ & Ho).
  unfold answer_outcome in Ho. rewrite Ha in Ho. destruct Ho as (_ & _ & content & root & _ & Has & _).
  destruct Hg as (_ & _ & _ & _ & Hsk & _). cbn [skc_skills skill_config] in Hsk. rewrite Hn in Hsk.
  assert (sk = skill) as -> by congruence. unfold skill_envelope in Has. rewrite Hid, Hc, Hr, Hb in Has.
  exists content, (run_actor run), artifact. split_and!; [done|done|].
  intros k Hk. apply add_links_spec in Hl as (old & new & _ & -> & _). by apply dget_dset_ne.
Qed.

Lemma assembled_id skill content id created_at actor run_id bindings artifact :
  skill ∈ DEFAULT_SKILLS →
  skill_assemble skill content [("artifact_id", VStr id); ("created_at", VStr created_at); ("actor", VDict actor);
    ("run_id", VStr run_id); ("bindings", VDict bindings)] = Ok artifact →
  dget artifact "id" = Some (VStr id).
Proof.
  intros Hs Ha. destruct (assembled_default _ _ _ _ Hs Ha) as (base & Hp & _).
  apply (Hp ("id", "artifact_id")). unfold PLATFORM_FIELDS. set_solver.
Qed.

(** with the built-in reviewer, the review of a run that returns is bound to the
    task it reviews: it names the task's id, and its [subject_digest] is the
    SHA-256 digest of the canonical text of the very task document of the run - the
    text the artifact store writes. *)
Theorem review_binds_task `{Env} policy llm set_order cfg idea created_at w res s' :
  pl_skills cfg !! "reviewer" = Some REVIEWER → pl_skills cfg !! "task-writer" = Some TASK_WRITER →
  run_pipeline policy llm set_order cfg idea created_at (fresh w) = (Ok res, s') →
  ∃ task review, kget (pr_artifacts res) "TASK-0001" = Some task ∧ kget (pr_artifacts res) "REV-0001" = Some review ∧
    dget task "id" = Some (VStr "TASK-0001") ∧ dget review "task_id" = Some (VStr "TASK-0001") ∧
    dget review "id" = Some (VStr "REV-0001") ∧
    dget review "subject_digest" = Some (VStr (sha256_hex (dumps canonical (VDict task)))).
Proof.
  intros Hrev Htask (d & i1 & i2 & i3 & task_id & Hd & _ & _ & _ & _ & -> & _)%run_pipeline_Ok.
  destruct Hd as (_ & _ & _ & _ & Htid & _ & _ & _ & Hmade_task & _ & Hmade_rev).
  assert (TASK_WRITER ∈ DEFAULT_SKILLS ∧ REVIEWER ∈ DEFAULT_SKILLS) as [Ht Hr] by (unfold DEFAULT_SKILLS; set_solver).
  apply (produced_assembled _ _ _ _ _ _ _ _ _ _ _ Htask Ht) in Hmade_task as (c1 & a1 & art1 & Has1 & _ & Hk1).
  apply (produced_assembled _ _ _ _ _ _ _ _ _ _ _ Hrev Hr) in Hmade_rev as (c2 & a2 & art2 & Has2 & _ & Hk2).
  pose proof (assembled_id _ _ _ _ _ _ _ _ Ht Has1) as Hid1. pose proof (assembled_id _ _ _ _ _ _ _ _ Hr Has2) as Hid2.
  rewrite <- Hk1 in Hid1 by done. rewrite <- Hk2 in Hid2 by done.
  apply ditem_Ok in Htid. rewrite Htid in Hid1. injection Hid1 as ->.
  exists (doc_task d), (doc_review d). unfold written_of.
  cbn [zip_with stage_ids documents foldl fst snd]. rewrite kget_kset. rewrite !kget_kset_ne, kget_kset by done.
  split_and!; try done; rewrite Hk2 by done; cbn in Has2; injection Has2 as <-; reflexivity.
Qed.

(** * Witnesses *)

Definition schema_fs : Fs := foldl (λ fs name, <[["repo"; "contracts"; "schemas"; name] := File "{}"]> fs) repo_fs
  ["idea.schema.json"; "specification.schema.json"; "threat-model.schema.json"; "plan.schema.json";
   "task.schema.json"; "review.schema.json"; "security-review.schema.json"].
Definition pipeline_world : World := set_fs schema_fs demo_world.
Definition artifact_tools : Tools :=
  match register_artifact_tools (H := allow_env) ["repo"; "specs"] ∅ with Ok t => t | Raise _ => ∅ end.
Definition default_skills : gmap string Skill :=
  match build_default_registry with Ok t => t | Raise _ => ∅ end.
Definition demo_pipeline : PipelineConfig :=
  mkPipelineConfig "FEAT-1" "R" "key" default_skills artifact_tools ["repo"; "evidence"] ["repo"; "specs"] ["repo"]
    None "specs".
Definition demo_idea : dict := [("id", VStr "IDEA-1"); ("artifact_type", VStr "idea")].
Definition echo_llm : LLMAdapter := fun _ => mret (mkLLMResponse "{}" "stub").
Definition demo_run_pipeline : ST PState PipelineResult :=
  run_pipeline (H := allow_env) (evaluate (H := allow_env) demo_client) echo_llm (λ l, l) demo_pipeline demo_idea "t".

Lemma demo_pipeline_returns : ∃ res s', demo_run_pipeline (fresh pipeline_world) = (Ok res, s').
Proof.
  assert (H : is_ok (demo_run_pipeline (fresh pipeline_world)).1 = true) by (vm_compute; reflexivity).
  destruct (demo_run_pipeline (fresh pipeline_world)) as [[res|e] s']; [|discriminate H]. exists res, s'. reflexivity.
Qed.

Lemma pipeline_stages_witness :
  ∃ res s', demo_run_pipeline (fresh pipeline_world) = (Ok res, s') ∧
    stage_artifact_id <$> pr_stages res =
      ["IDEA-1"; "SPEC-0001"; "TM-0001"; "PLAN-0001"; "TASK-0001"; "SECREV-0001"; "REV-0001"].
Proof.
  destruct demo_pipeline_returns as (res & s' & E). exists res, s'. split; [exact E|].
  destruct (pipeline_stages (H := allow_env) (evaluate (H := allow_env) demo_client) echo_llm (λ l, l) demo_pipeline
    demo_idea "t" pipeline_world res s' E) as (_ & _ & _ & _ & _ & _ & _ & Hids & _). exact Hids.
Defined.

Lemma review_binds_task_witness :
  ∃ res s' review, demo_run_pipeline (fresh pipeline_world) = (Ok res, s') ∧
    kget (pr_artifacts res) "REV-0001" = Some review ∧ dget review "task_id" = Some (VStr "TASK-0001").
Proof.
  destruct demo_pipeline_returns as (res & s' & E).
  destruct (review_binds_task (H := allow_env) (evaluate (H := allow_env) demo_client) echo_llm (λ l, l) demo_pipeline
    demo_idea "t" pipeline_world res s') as (task & review & _ & Hr & _ & Ht & _);
    [vm_compute; reflexivity|vm_compute; reflexivity|exact E|].
  exists res, s', review. split; [exact E|split; [exact Hr|exact Ht]].
Defined.

Definition demo_threats : dict :=
  [("id", VStr "TM-0001"); ("risks", VList [VDict [("id", VStr "R1"); ("severity", VStr "CRITICAL")]])].
Definition demo_secrev : dict :=
  match build_security_review "F" demo_threats "SECREV-0001" "t" [] "R" "h" with Ok d => d | Raise _ => [] end.

Lemma security_review_verdict_witness :
  ∃ risks dispositions, viter (dget_or demo_threats "risks" (VList [])) = Ok risks ∧
    dget demo_secrev "risk_dispositions" = Some (VList (VDict <$> dispositions)).
Proof.
  destruct (security_review_verdict "F" demo_threats "SECREV-0001" "t" [] "R" "h" demo_secrev eq_refl)
    as (risks & ds & H1 & H2 & _). by exists risks, ds.
Defined.

Lemma unknown_severity_approved_witness : dget demo_secrev "verdict" = Some (VStr "approved").
Proof.
  apply (unknown_severity_approved "F" demo_threats "SECREV-0001" "t" [] "R" "h" demo_secrev
    [VDict [("id", VStr "R1"); ("severity", VStr "CRITICAL")]]); [reflexivity| |reflexivity].
  apply (bool_decide_unpack _). vm_compute. exact I.
Defined.
