(* ===== verification/PipelineTrace.v ===== *)
(** The pipeline and its trace together: what [Trace.trace_feature] reports on the
    documents that one run of [Pipeline.run_pipeline] has written. *)

From S2P Require Export Pipeline.
#[local] Open Scope Z_scope.

(** * The documents of the built-in skills *)

(** The platform's envelope, as the skill runner passes it. *)
Definition envelope_of (id created_at : pystr) (actor : dict) (run_id : pystr) (bindings : dict) : dict :=
  [("artifact_id", VStr id); ("created_at", VStr created_at); ("actor", VDict actor); ("run_id", VStr run_id);
   ("bindings", VDict bindings)].

Lemma envelope_bindings id created_at actor run_id bindings :
  ditem (envelope_of id created_at actor run_id bindings) "bindings" = Ok (VDict bindings).
Proof. done. Qed.
Lemma envelope_head t id created_at actor run_id bindings :
  head_fields t (envelope_of id created_at actor run_id bindings) =
  Ok [("schema_version", VStr "1.0.0"); ("artifact_type", VStr t); ("id", VStr id);
      ("created_at", VStr created_at); ("created_by", VDict actor); ("run_id", VStr run_id)].
Proof. done. Qed.

(** The artifact type a built-in skill writes. *)
Definition type_written (skill : Skill) : string :=
  if bool_decide (skill_name skill = "grill") then "specification"
  else if bool_decide (skill_name skill = "grill-security") then "threat-model"
  else if bool_decide (skill_name skill = "planner") then "plan"
  else if bool_decide (skill_name skill = "reviewer") then "review"
  else "task".

(** A built-in skill writes its type and no links, and copies the feature it is
    given, except the reviewer. *)
Lemma assembled_shape skill content id created_at actor run_id bindings artifact :
  skill ∈ DEFAULT_SKILLS → skill_assemble skill content (envelope_of id created_at actor run_id bindings) = Ok artifact →
  dget artifact "artifact_type" = Some (VStr (type_written skill)) ∧ dget artifact "links" = None ∧
  (skill ≠ REVIEWER → dget artifact "feature_id" = dget bindings "feature_id").
Proof.
  intros Hs Ha. unfold DEFAULT_SKILLS in Hs.
  repeat (apply elem_of_cons in Hs as [->|Hs]); [..|by apply elem_of_nil in Hs];
    cbn [skill_assemble GRILL GRILL_SECURITY PLANNER TASK_WRITER REVIEWER] in Ha;
    unfold _assemble_specification, _assemble_threat_model, _assemble_plan, _assemble_task, _assemble_review,
      _envelope in Ha; rewrite envelope_bindings, envelope_head in Ha; cbn [mbind res_bind vitem] in Ha;
    open_assemble Ha; repeat match goal with H : ?m ≫= _ = Ok _ |- _ => open_assemble H end;
    repeat match goal with H : ditem _ _ = Ok _ |- _ => apply ditem_Ok in H end;
    (split_and!; [reflexivity|reflexivity|by intros ?]).
Qed.

(** * The links the pipeline sets *)

Definition SUFFIX : string := ".json".

Lemma json_href_kept prefix id : endswith (prefix +:+ "/" +:+ id +:+ SUFFIX) SUFFIX = true.
Proof. rewrite <- !app_str_assoc. apply endswith_app. Qed.

Lemma one_link cfg target rel document :
  dget document "links" = Some (VList [VDict [("rel", rel); ("href", VStr (_href cfg target))]]) →
  _local_link_targets document = Ok [_href cfg target].
Proof.
  intros Hl. unfold _local_link_targets, dget_or at 1. rewrite Hl.
  cbn. by rewrite decide_True by apply json_href_kept.
Qed.

(** A document without links, once it is linked to another by the pipeline. *)
Lemma linked_targets cfg artifact rel target document :
  dget artifact "links" = None → add_links artifact [link_to cfg rel (VStr target)] = Ok document →
  _local_link_targets document = Ok [_href cfg target].
Proof.
  intros Hn. unfold add_links, dget_or at 1. rewrite Hn.
  cbn [from_option id viter mbind res_bind mapR mret res_ret fmap list_fmap].
  assert (Hh : href_of (link_to cfg rel (VStr target)) = _href cfg target) by done.
  cbn [extend_links]. rewrite Hh, bool_decide_false by apply not_elem_of_nil. cbn.
  intros [= <-]. eapply one_link. by rewrite dget_dset.
Qed.

Lemma secrev_shape feature_id threat_model id created_at actor run_id cfg tm_id doc :
  build_security_review feature_id threat_model id created_at actor run_id (_href cfg tm_id) = Ok doc →
  dget doc "artifact_type" = Some (VStr "security-review") ∧ dget doc "feature_id" = Some (VStr feature_id) ∧
  _local_link_targets doc = Ok [_href cfg tm_id].
Proof.
  unfold build_security_review. intros (risks & _ & (es & _ & [= <-])%res_bind_Ok)%res_bind_Ok.
  split_and!; [done|done|]. by eapply one_link.
Qed.

(** * The conventional layout *)

(** Artifacts are stored where their links say, and the roles have the built-in
    skills; [parts] is the store's place in the repository, ["specs"] by default. *)
Record conventional (cfg : PipelineConfig) (parts : path) : Prop := {
  conv_parts : parts ≠ [];
  conv_prefix : pl_href_prefix cfg = join "/" parts;
  conv_store : pl_store cfg = (pl_repo_root cfg ++ parts)%list;
  conv_skills : ∀ skill, skill ∈ DEFAULT_SKILLS → pl_skills cfg !! skill_name skill = Some skill
}.

(** An identifier that is a file name. *)
Definition file_id (id : pystr) : Prop := chr 47 ∉ chars id.

Definition doc_path (cfg : PipelineConfig) (id : pystr) : path := (pl_store cfg ++ [id +:+ SUFFIX])%list.

Lemma path_of_doc cfg id : file_id id → ArtifactStore.path_of (pl_store cfg) id = doc_path cfg id.
Proof.
  intros Hid. apply path_join_name.
  - rewrite chars_app, elem_of_app. intros [?|H]; [done|]. revert H. by apply (bool_decide_unpack (_ ∉ _)).
  - by destruct id.
  - by destruct id as [|a [|b id]].
Qed.

Lemma relative_doc cfg parts id :
  conventional cfg parts → relative_posix (pl_repo_root cfg) (doc_path cfg id) = Ok (_href cfg id).
Proof.
  intros [Hne Hp Hs _]. unfold relative_posix, doc_path, inside. rewrite Hs, <- app_assoc.
  rewrite bool_decide_true, drop_app_length by (by apply prefix_app_r).
  destruct (parts ++ [_])%list as [|x l] eqn:E; [by destruct parts|]. rewrite <- E, join_snoc by done.
  unfold _href. by rewrite Hp.
Qed.

#[export] Instance href_inj cfg : Inj (=) (=) (_href cfg).
Proof. intros x y H. unfold _href in H. apply app_str_inj_l, app_str_inj_l in H. by apply app_str_inj_r in H. Qed.
#[export] Instance doc_path_inj cfg : Inj (=) (=) (doc_path cfg).
Proof. intros x y H. unfold doc_path in H. apply app_inv_head in H. injection H as H. by apply app_str_inj_r in H. Qed.

(** * The written documents, as an index *)

(** Setting distinct keys one after the other appends them. *)
Lemma foldl_append {A B C} (step : list C → A → list C) (f : A → C) (key : C → B) (l : list A) (m : list C) :
  (∀ m a, key (f a) ∉ key <$> m → step m a = (m ++ [f a])%list) →
  NoDup (key <$> (m ++ (f <$> l))) → foldl step m l = (m ++ (f <$> l))%list.
Proof.
  intros Hstep. revert m. induction l as [|a l IH]; intros m Hnd; [by rewrite app_nil_r|].
  cbn [foldl]. rewrite Hstep.
  - rewrite IH; [by rewrite <- app_assoc|]. by rewrite <- app_assoc.
  - rewrite fmap_app in Hnd. apply NoDup_app in Hnd as (_ & Hd & _). intros Hin.
    apply (Hd _ Hin). cbn. set_solver.
Qed.

Lemma fst_zip_docs idea d : (zip (stage_ids idea) (documents d)).*1 = stage_ids idea.
Proof. done. Qed.

Definition run_index (cfg : PipelineConfig) (idea : dict) (d : Documents) : list (path * dict) :=
  (λ kd, (doc_path cfg kd.1, kd.2)) <$> zip (stage_ids idea) (documents d).

Lemma written_distinct idea d :
  NoDup (stage_ids idea) → written_of idea d = zip (stage_ids idea) (documents d).
Proof.
  intros Hnd. unfold written_of. rewrite (foldl_append _ (λ kd, kd) fst); [by rewrite list_fmap_id| |].
  - intros m [k v] Hk. by apply kset_fresh.
  - by rewrite list_fmap_id.
Qed.

Lemma run_index_paths cfg idea d : (run_index cfg idea d).*1 = doc_path cfg <$> stage_ids idea.
Proof. done. Qed.

Lemma index_of_run cfg idea d :
  NoDup (stage_ids idea) → Forall file_id (stage_ids idea) →
  index_of cfg (written_of idea d) = run_index cfg idea d.
Proof.
  intros Hnd Hid. rewrite written_distinct by done. unfold index_of, run_index.
  assert (Hp : ∀ kd, kd ∈ zip (stage_ids idea) (documents d) →
    ArtifactStore.path_of (pl_store cfg) kd.1 = doc_path cfg kd.1).
  { intros kd Hin. apply path_of_doc. rewrite Forall_forall in Hid. apply Hid.
    rewrite <- (fst_zip_docs idea d). by apply list_elem_of_fmap_2. }
  assert (Heq : ∀ l (m : list (path * dict)), (∀ kd, kd ∈ l → ArtifactStore.path_of (pl_store cfg) kd.1 = doc_path cfg kd.1) →
    foldl (λ index kd, iset index (ArtifactStore.path_of (pl_store cfg) kd.1) kd.2) m l =
    foldl (λ (index : list (path * dict)) (kd : pystr * dict), iset index (doc_path cfg kd.1) kd.2) m l).
  { intros l. induction l as [|kd l IH]; intros m Hl; [done|]. cbn [foldl].
    rewrite Hl by apply list_elem_of_here. apply IH. set_solver. }
  rewrite Heq by done.
  rewrite (foldl_append _ (λ kd : pystr * dict, (doc_path cfg kd.1, kd.2)) fst); [done| |].
  - intros m [k v] Hk. by apply iset_fresh.
  - cbn [app]. change (NoDup (run_index cfg idea d).*1). rewrite run_index_paths.
    apply NoDup_fmap_2; [apply _|done].
Qed.

(** * The chain of one run *)

(** Which document links to which, by identifier; the reviews link into the chain
    and nothing links to them. *)
Definition run_links (idea : dict) : list (pystr * (string * pystr)) :=
  [("SPEC-0001", ("specification", idea_id_of idea)); ("TM-0001", ("threat-model", "SPEC-0001"));
   ("PLAN-0001", ("plan", "TM-0001")); ("TASK-0001", ("task", "PLAN-0001"));
   ("SECREV-0001", ("security-review", "TM-0001")); ("REV-0001", ("review", "TASK-0001"))].

(** A document of the given type whose only local link leads to [target]. *)
Definition links_to (cfg : PipelineConfig) (kind : string) (target : pystr) (document : dict) : Prop :=
  dget document "artifact_type" = Some (VStr kind) ∧ _local_link_targets document = Ok [_href cfg target].
Definition of_feature (cfg : PipelineConfig) (document : dict) : Prop :=
  dget document "feature_id" = Some (VStr (pl_feature_id cfg)).

Section run.
  Context `{Env} (policy : pystr → dict → ST World PolicyResult) (llm : LLMAdapter).
  Context (cfg : PipelineConfig) (parts : path) (Hconv : conventional cfg parts).

Lemma made_shape skill inputs bindings rel target id created_at document :
  skill ∈ DEFAULT_SKILLS →
  produced policy llm cfg (skill_name skill) inputs (("feature_id", VStr (pl_feature_id cfg)) :: bindings)
    [link_to cfg rel (VStr target)] id created_at document →
  dget document "id" = Some (VStr id) ∧ links_to cfg (type_written skill) target document ∧
  (skill ≠ REVIEWER → of_feature cfg document).
Proof.
  intros Hs Hp. pose proof (conv_skills _ _ Hconv _ Hs) as Hreg.
  apply (produced_assembled _ _ _ _ _ _ _ _ _ _ _ Hreg Hs) in Hp as (content & actor & artifact & Has & Hl & Hk).
  pose proof (assembled_id _ _ _ _ _ _ _ _ Hs Has) as Hid.
  apply (assembled_shape _ _ _ _ _ _ _ _ Hs) in Has as (Ht & Hnl & Hf).
  unfold links_to, of_feature. rewrite !Hk by done. split_and!; [done|done| |].
  - by eapply linked_targets.
  - intros Hr. by rewrite Hf.
Qed.

Lemma derived_documents idea created_at d spec_id tm_id plan_id task_id :
  derived policy llm cfg idea created_at d spec_id tm_id plan_id task_id →
  doc_idea d = idea ∧
  Forall2 (λ l doc, links_to cfg l.2.1 l.2.2 doc) (run_links idea) (drop 1 (documents d)) ∧
  Forall (of_feature cfg) [doc_spec d; doc_tm d; doc_plan d; doc_task d; doc_secrev d].
Proof.
  intros (Hidea & Hs & Ht & Hp & Hk & Mspec & Mtm & Mplan & Mtask & Msec & Mrev).
  assert (Forall (.∈ DEFAULT_SKILLS) [GRILL; GRILL_SECURITY; PLANNER; TASK_WRITER; REVIEWER]) as Hdef
    by (apply Forall_forall; done).
  rewrite !Forall_cons in Hdef. destruct Hdef as (D1 & D2 & D3 & D4 & D5 & _).
  apply ditem_Ok in Hs, Ht, Hp, Hk.
  apply (made_shape GRILL _ _ _ _ _ _ _ D1) in Mspec as (I1 & L1 & F1). rewrite Hs in I1. injection I1 as ->.
  apply (made_shape GRILL_SECURITY _ _ _ _ _ _ _ D2) in Mtm as (I2 & L2 & F2). rewrite Ht in I2. injection I2 as ->.
  apply (made_shape PLANNER _ _ _ _ _ _ _ D3) in Mplan as (I3 & L3 & F3). rewrite Hp in I3. injection I3 as ->.
  apply (made_shape TASK_WRITER _ _ _ _ _ _ _ D4) in Mtask as (I4 & L4 & F4). rewrite Hk in I4. injection I4 as ->.
  apply (made_shape REVIEWER _ _ _ _ _ _ _ D5) in Mrev as (_ & L5 & _).
  apply secrev_shape in Msec as (T6 & F6 & L6).
  split_and!; [done| |].
  - unfold run_links, documents. cbn [drop].
    repeat (apply List.Forall2_cons; [done|]). apply List.Forall2_nil.
  - rewrite !Forall_cons, Forall_nil. split_and!; try done; [apply F1|apply F2|apply F3|apply F4]; by intros [=].
Qed.
End run.

(** Membership in the lists of a run. *)
Ltac in_run :=
  unfold stage_ids, documents; cbn [zip_with]; repeat first [apply list_elem_of_here | apply list_elem_of_further].

Section graph.
  Context (cfg : PipelineConfig) (parts : path) (Hconv : conventional cfg parts).
  Context (idea : dict) (d : Documents) (Hids : NoDup (stage_ids idea)).
  Context (edges : list (path * list (option path * pystr))).
  Context (Hedges : link_graph (pl_repo_root cfg) (run_index cfg idea d) = Ok edges).

Lemma run_paths_distinct : NoDup (run_index cfg idea d).*1.
Proof using Hids. rewrite run_index_paths. apply NoDup_fmap_2; [apply _|done]. Qed.

(** [by_href] of a run. *)
Definition run_names : list (pystr * path) := (λ id, (_href cfg id, doc_path cfg id)) <$> stage_ids idea.

Lemma run_names_spec :
  mapR (λ pd : path * dict, rel ← relative_posix (pl_repo_root cfg) pd.1; Ok (rel, pd.1)) (run_index cfg idea d) =
  Ok run_names.
Proof using Hconv.
  apply mapR_Ok. unfold run_index, run_names, stage_ids, documents. cbn [zip_with fmap list_fmap fst snd].
  repeat (apply List.Forall2_cons; [cbn [fst]; by rewrite (relative_doc _ _ _ Hconv)|]). apply List.Forall2_nil.
Qed.

Lemma run_resolve id : id ∈ stage_ids idea → by_href run_names (_href cfg id) = Some (doc_path cfg id).
Proof using Hids.
  intros Hin. apply by_href_Some.
  - unfold run_names. rewrite <- list_fmap_compose. apply (NoDup_fmap_2 (_href cfg)), Hids.
  - unfold run_names. apply list_elem_of_fmap. by exists id.
Qed.
Lemma run_dangling h : by_href run_names h = None ↔ h ∉ _href cfg <$> stage_ids idea.
Proof. rewrite by_href_None. done. Qed.

(** The links of a document of the run: those to documents of the run are edges,
    the others dangle. *)
Lemma run_targets id doc :
  (id, doc) ∈ zip (stage_ids idea) (documents d) →
  ∃ hrefs, _local_link_targets doc = Ok hrefs ∧
    (∀ target, target ∈ stage_ids idea → _href cfg target ∈ hrefs →
       linked edges (doc_path cfg id) (doc_path cfg target)) ∧
    (∀ h, h ∈ dangling_of (targets_of edges (doc_path cfg id)) ↔ h ∈ hrefs ∧ h ∉ _href cfg <$> stage_ids idea).
Proof using Hconv Hids Hedges.
  intros Hin. assert (Hi : (doc_path cfg id, doc) ∈ run_index cfg idea d)
    by (apply list_elem_of_fmap; by exists (id, doc)).
  destruct (link_graph_targets _ _ _ _ _ run_paths_distinct Hedges Hi) as (names & hrefs & Hn & Ht & Hto).
  rewrite run_names_spec in Hn. injection Hn as <-. exists hrefs. split_and!; [done| |].
  - intros target Htin Hh. apply linked_spec. left. exists (_href cfg target). rewrite Hto.
    apply list_elem_of_fmap. exists (_href cfg target). split; [by rewrite run_resolve|done].
  - intros h. rewrite <- run_dangling, Hto. unfold dangling_of. rewrite list_elem_of_omap. split.
    + intros ([o h'] & (h2 & [= -> ->] & Hh)%list_elem_of_fmap & E). cbn [fst snd] in E.
      destruct (by_href run_names h2) eqn:Eb; [done|]. injection E as <-. by split.
    + intros [Hh Hb]. exists (None, h). split; [|done]. apply list_elem_of_fmap. exists h. split; [by rewrite Hb|done].
Qed.

Context (Hlinks : Forall2 (λ l doc, links_to cfg l.2.1 l.2.2 doc) (run_links idea) (drop 1 (documents d))).
Context (Hfeature : Forall (of_feature cfg) [doc_spec d; doc_tm d; doc_plan d; doc_task d; doc_secrev d]).

Abbreviation from := (feature_paths (pl_feature_id cfg) (run_index cfg idea d)).

Lemma run_known p : chain edges from p → p ∈ doc_path cfg <$> stage_ids idea.
Proof using Hedges.
  rewrite <- (run_index_paths cfg idea d). intros (s & Hs & Hr).
  assert (Hs' : s ∈ (run_index cfg idea d).*1).
  { unfold feature_paths in Hs. apply list_elem_of_fmap in Hs as (pd & -> & [_ Hpd]%list_elem_of_filter).
    by apply list_elem_of_fmap_2. }
  apply rtc_inv_r in Hr as [->|(q & _ & Hqr)]; [done|].
  rewrite <- (link_graph_keys _ _ _ Hedges). by eapply link_graph_known.
Qed.

(** The documents of the feature itself. *)
Lemma run_from id doc :
  (id, doc) ∈ zip (stage_ids idea) (documents d) → of_feature cfg doc → doc_path cfg id ∈ from.
Proof.
  intros Hin Hf. unfold feature_paths. apply list_elem_of_fmap. exists (doc_path cfg id, doc). split; [done|].
  apply list_elem_of_filter. split.
  - cbn [snd]. unfold dget_none, dget_or. rewrite Hf. cbn. by apply bool_decide_true.
  - apply list_elem_of_fmap. by exists (id, doc).
Qed.

(** A document of the run that links to another. *)
Lemma run_edge id kind target doc :
  (id, doc) ∈ zip (stage_ids idea) (documents d) → links_to cfg kind target doc → target ∈ stage_ids idea →
  linked edges (doc_path cfg id) (doc_path cfg target).
Proof using Hconv Hids Hedges.
  intros Hin [_ Ht] Hti. destruct (run_targets id doc Hin) as (hrefs & Ht' & He & _).
  rewrite Ht in Ht'. injection Ht' as <-. apply He; [done|]. apply list_elem_of_here.
Qed.

Lemma run_chain p : chain edges from p ↔ p ∈ doc_path cfg <$> stage_ids idea.
Proof using Hconv Hids Hedges Hlinks Hfeature.
  split; [apply run_known|]. unfold run_links, documents in Hlinks. cbn [drop] in Hlinks.
  repeat match goal with H : Forall2 _ (_ :: _) (_ :: _) |- _ => apply Forall2_cons in H as [? H] end.
  rewrite !Forall_cons in Hfeature. destruct Hfeature as (F1 & F2 & F3 & F4 & F5 & _). cbn [fst snd] in *.
  assert (Hstart : ∀ id doc, (id, doc) ∈ zip (stage_ids idea) (documents d) → of_feature cfg doc →
    chain edges from (doc_path cfg id)) by (intros id doc ??; exists (doc_path cfg id); split; [by eapply run_from|done]).
  assert (Hedge : ∀ p q, chain edges from p → linked edges p q → chain edges from q).
  { intros p' q (s & ? & ?) ?. exists s. split; [done|]. by eapply rtc_r. }
  assert (Hnd : NoDup edges.*1) by (rewrite (link_graph_keys _ _ _ Hedges); apply run_paths_distinct).
  intros (id & -> & Hid)%list_elem_of_fmap. unfold stage_ids in Hid.
  repeat (apply elem_of_cons in Hid as [->|Hid]); [..|by apply elem_of_nil in Hid];
    try (eapply Hstart; [in_run|done]).
  - eapply Hedge; [apply (Hstart "SPEC-0001" (doc_spec d)); [in_run|done]|].
    eapply run_edge; [|done|]; in_run.
  - eapply Hedge; [apply (Hstart "TASK-0001" (doc_task d)); [in_run|done]|].
    apply linked_sym; [done|].
    eapply run_edge; [|done|]; in_run.
Qed.

Lemma run_node id doc :
  (id, doc) ∈ zip (stage_ids idea) (documents d) →
  ∃ n, trace_node (pl_repo_root cfg) (run_index cfg idea d) (doc_path cfg id) = Ok n ∧
    tn_path n = _href cfg id ∧ tn_artifact_type n = py_str (dget_or doc "artifact_type" (VStr "")).
Proof using Hconv Hids.
  intros Hin. unfold trace_node. rewrite (relative_doc _ _ _ Hconv). cbn [mbind res_bind].
  rewrite (iget_elem _ (doc_path cfg id) doc run_paths_distinct);
    [|apply list_elem_of_fmap; by exists (id, doc)].
  eexists. by split_and!.
Qed.

(** Every stage of the life cycle is some document of the run. *)
Lemma run_kinds kind :
  dget (doc_idea d) "artifact_type" = Some (VStr "idea") → kind ∈ CHAIN_ORDER →
  ∃ id doc, (id, doc) ∈ zip (stage_ids idea) (documents d) ∧ dget doc "artifact_type" = Some (VStr kind).
Proof using Hlinks.
  intros Hi Hk. unfold run_links, documents in Hlinks. cbn [drop] in Hlinks.
  repeat match goal with H : Forall2 _ (_ :: _) (_ :: _) |- _ => apply Forall2_cons in H as [[? _] H] end.
  cbn [fst snd] in *. unfold CHAIN_ORDER in Hk.
  repeat (apply elem_of_cons in Hk as [->|Hk]; [eexists _, _; split; [|eassumption]; in_run|]).
  by apply elem_of_nil in Hk.
Qed.

Lemma run_no_dangling id kind target doc h :
  (id, doc) ∈ zip (stage_ids idea) (documents d) → target ∈ stage_ids idea → links_to cfg kind target doc →
  h ∉ dangling_of (targets_of edges (doc_path cfg id)).
Proof using Hconv Hids Hedges.
  intros Hin Hti [_ Ht] Hdang. destruct (run_targets id doc Hin) as (hrefs & Ht' & _ & Hd).
  rewrite Ht in Ht'. injection Ht' as <-. apply Hd in Hdang as [Hh Hno].
  apply list_elem_of_singleton in Hh as ->. apply Hno. by apply list_elem_of_fmap_2.
Qed.

(** Only the idea's own links can dangle. *)
Lemma run_dangling_links hrefs h :
  _local_link_targets (doc_idea d) = Ok hrefs →
  (∃ p, p ∈ doc_path cfg <$> stage_ids idea ∧ h ∈ dangling_of (targets_of edges p)) ↔
  h ∈ hrefs ∧ h ∉ _href cfg <$> stage_ids idea.
Proof using Hconv Hids Hedges Hlinks.
  intros Hh. assert (Hz : (idea_id_of idea, doc_idea d) ∈ zip (stage_ids idea) (documents d)) by in_run.
  destruct (run_targets _ _ Hz) as (hrefs' & Ht & _ & Hd). rewrite Hh in Ht. injection Ht as <-. split.
  - intros (p & (id & -> & Hid)%list_elem_of_fmap & Hdang).
    unfold run_links, documents in Hlinks. cbn [drop] in Hlinks.
    repeat match goal with H : Forall2 _ (_ :: _) (_ :: _) |- _ => apply Forall2_cons in H as [? H] end.
    cbn [fst snd] in *. unfold stage_ids in Hid.
    apply elem_of_cons in Hid as [->|Hid]; [by apply Hd|]. exfalso.
    repeat (apply elem_of_cons in Hid as [->|Hid]; [contradict Hdang; eapply run_no_dangling; [in_run| |eassumption]; in_run|]).
    by apply elem_of_nil in Hid.
  - intros Hin. exists (doc_path cfg (idea_id_of idea)). split; [|by apply Hd].
    apply list_elem_of_fmap_2. apply list_elem_of_here.
Qed.

(** The trace of the written documents. *)
Lemma run_trace set_order t hrefs :
  (∀ l, set_order l ≡ₚ l) → dget (doc_idea d) "artifact_type" = Some (VStr "idea") →
  _local_link_targets (doc_idea d) = Ok hrefs →
  trace_index set_order (pl_repo_root cfg) (pl_feature_id cfg) (run_index cfg idea d) = Ok t →
  (∀ h, h ∈ tn_path <$> tr_nodes t ↔ h ∈ _href cfg <$> stage_ids idea) ∧
  tr_ordered_types t = CHAIN_ORDER ∧ tr_missing_types t = [] ∧
  (∀ h, h ∈ tr_dangling t ↔ h ∈ hrefs ∧ h ∉ _href cfg <$> stage_ids idea).
Proof using Hconv Hids Hedges Hlinks Hfeature.
  intros Horder Hi Hh Ht.
  destruct (trace_index_spec set_order Horder _ _ _ _ _ run_paths_distinct Hedges Ht)
    as (Hn & _ & Hord & Hmiss & Hdang & _).
  setoid_rewrite run_chain in Hn. setoid_rewrite run_chain in Hdang.
  assert (Hkinds : ∀ kind, kind ∈ CHAIN_ORDER → kind ∈ tn_artifact_type <$> tr_nodes t).
  { intros kind (id & doc & Hin & Hk)%run_kinds; [|done]. destruct (run_node id doc Hin) as (n & Hnode & _ & Hty).
    apply list_elem_of_fmap. exists n. split; [rewrite Hty; unfold dget_or; by rewrite Hk|].
    apply Hn. exists (doc_path cfg id). split; [|done]. apply list_elem_of_fmap_2.
    rewrite <- (fst_zip_docs idea d). by apply (list_elem_of_fmap_2 fst) in Hin. }
  split_and!.
  - intros h. rewrite !list_elem_of_fmap. split.
    + intros (n & -> & (p & (id & -> & Hid)%list_elem_of_fmap & Hnode)%Hn). exists id. split; [|done].
      rewrite <- (fst_zip_docs idea d) in Hid. apply list_elem_of_fmap in Hid as ([id' doc] & -> & Hin).
      destruct (run_node id' doc Hin) as (n' & Hnode' & Hp & _). cbn [fst] in *. congruence.
    + intros (id & -> & Hid). pose proof Hid as Hz. rewrite <- (fst_zip_docs idea d) in Hz.
      apply list_elem_of_fmap in Hz as ([id' doc] & -> & Hin). destruct (run_node id' doc Hin) as (n & Hnode & Hp & _).
      exists n. split; [done|]. apply Hn. exists (doc_path cfg id'). split; [|done]. by apply list_elem_of_fmap_2.
  - rewrite Hord. by apply filter_every.
  - rewrite Hmiss. apply elem_of_nil_inv. intros kind [Hno Hk]%list_elem_of_filter. by apply Hno, Hkinds.
  - intros h. rewrite Hdang. apply run_dangling_links, Hh.
Qed.
End graph.

(** * The trace of a run *)

Section traced.
  Context `{Env} (policy : pystr → dict → ST World PolicyResult) (llm : LLMAdapter).
  Context (set_order : list path → list path) (Horder : ∀ l, set_order l ≡ₚ l).

(** C19: what the pipeline reports about itself is true and, up to the links the idea
    came with, complete.  In the conventional layout and with the built-in skills,
    for an idea of type [idea] whose identifier is a file name of its own, a run
    that returns has a trace that consists of exactly its seven documents, names all
    seven stages of the life cycle in order and misses none; its dangling links are
    exactly the local links of the idea itself that lead to no document of the run.
    So the trace is complete exactly when the idea has no such link. *)
Theorem pipeline_trace cfg parts idea created_at w res s' :
  conventional cfg parts → file_id (idea_id_of idea) → idea_id_of idea ∉ drop 1 (stage_ids idea) →
  dget idea "artifact_type" = Some (VStr "idea") →
  run_pipeline policy llm set_order cfg idea created_at (fresh w) = (Ok res, s') →
  ∃ hrefs, _local_link_targets idea = Ok hrefs ∧
    let t := pr_trace res in
    let known := _href cfg <$> stage_ids idea in
    (∀ h, h ∈ tn_path <$> tr_nodes t ↔ h ∈ known) ∧
    tr_ordered_types t = CHAIN_ORDER ∧ tr_missing_types t = [] ∧
    (∀ h, h ∈ tr_dangling t ↔ h ∈ hrefs ∧ h ∉ known) ∧
    (complete t = true ↔ hrefs ⊆ known).
Proof using Horder.
  intros Hconv Hfile Hfresh Htype (d & i1 & i2 & i3 & i4 & Hd & _ & _ & _ & _ & Ha & _ & _ & _ & Ht)%run_pipeline_Ok.
  destruct (derived_documents _ _ _ _ Hconv _ _ _ _ _ _ _ Hd) as (Hidea & Hlinks & Hfeat).
  assert (Hids : NoDup (stage_ids idea)).
  { unfold stage_ids in *. apply NoDup_cons. split; [done|]. by apply (bool_decide_unpack _). }
  rewrite Ha, index_of_run in Ht; [|done|].
  2: { unfold stage_ids. apply Forall_cons. split; [done|]. by apply (bool_decide_unpack _). }
  unfold trace_feature in Ht. cbn [mbind res_bind] in Ht.
  assert (∃ edges, link_graph (pl_repo_root cfg) (run_index cfg idea d) = Ok edges) as [edges Hg].
  { unfold trace_index in Ht. apply res_bind_Ok in Ht as (edges & ? & _). eauto. }
  destruct (run_targets cfg parts Hconv idea d Hids edges Hg (idea_id_of idea) (doc_idea d)) as (hrefs & Hh & _);
    [in_run|].
  exists hrefs. split; [by rewrite <- Hidea|].
  assert (Htype' : dget (doc_idea d) "artifact_type" = Some (VStr "idea")) by (by rewrite Hidea).
  destruct (run_trace cfg parts Hconv idea d Hids edges Hg Hlinks Hfeat set_order _ hrefs Horder Htype' Hh Ht)
    as (Hn & Hord & Hmiss & Hdang).
  split_and!; [done|done|done|done|]. unfold complete. rewrite Hmiss, andb_true_iff, !bool_decide_eq_true. split.
  - intros [_ E] h Hin. apply dec_stable. intros Hno. specialize (Hdang h). rewrite E in Hdang.
    by destruct (proj1 (elem_of_nil h) (proj2 Hdang (conj Hin Hno))).
  - intros Hsub. split; [done|]. apply elem_of_nil_inv. intros h [Hin Hno]%Hdang. by apply Hno, Hsub.
Qed.
End traced.

(** * Witness *)

Lemma demo_conventional : conventional demo_pipeline ["specs"].
Proof.
  split; [done|done|done|]. intros skill Hs. unfold DEFAULT_SKILLS in Hs.
  repeat (apply elem_of_cons in Hs as [->|Hs]; [vm_compute; reflexivity|]). by apply elem_of_nil in Hs.
Qed.

Lemma pipeline_trace_witness :
  ∃ res s', demo_run_pipeline (fresh pipeline_world) = (Ok res, s') ∧ complete (pr_trace res) = true.
Proof.
  destruct demo_pipeline_returns as (res & s' & E). exists res, s'. split; [exact E|].
  destruct (pipeline_trace (H := allow_env) (evaluate (H := allow_env) demo_client) echo_llm (λ l, l)
    (λ l, Permutation_refl l) demo_pipeline ["specs"] demo_idea "t" pipeline_world res s' demo_conventional)
    as (hrefs & Hh & _ & _ & _ & _ & Hc); [apply (bool_decide_unpack _); vm_compute; exact I..|reflexivity|exact E|].
  apply Hc. vm_compute in Hh. injection Hh as <-. apply list_subseteq_nil.
Defined.

(** Nothing keeps an idea from having the identifier of a later stage: then that
    stage's document replaces it, in the store and in the result, and the trace of
    the run lacks the idea. *)
Definition colliding_idea : dict := [("id", VStr "SPEC-0001"); ("artifact_type", VStr "idea")].
Definition colliding_run : ST PState PipelineResult :=
  run_pipeline (H := allow_env) (evaluate (H := allow_env) demo_client) echo_llm (λ l, l) demo_pipeline colliding_idea "t".

Lemma idea_overwritten :
  match (colliding_run (fresh pipeline_world)).1 with
  | Ok res => length (pr_stages res) = 7%nat ∧ length (pr_artifacts res) = 6%nat ∧
      tr_missing_types (pr_trace res) = ["idea"] ∧
      (λ doc, dget doc "artifact_type") <$> kget (pr_artifacts res) "SPEC-0001" = Some (Some (VStr "specification"))
  | Raise _ => False
  end.
Proof. vm_compute. by split_and!. Qed.
