(* ===== verification/Mcp.v ===== *)
(** [sdlc/mcp/]: the JSON-RPC helpers ([protocol.py]), the server that exposes the
    tools ([server.py]), the in-process client ([client.py]) and the injection of
    capabilities on the stdio bridge ([bootstrap.py]). *)

From S2P Require Export Executor Datetime.
#[local] Open Scope Z_scope.

(** * Protocol *)

Definition JSONRPC_VERSION : string := "2.0".
Definition PARSE_ERROR : Z := -32700.
Definition INVALID_REQUEST : Z := -32600.
Definition METHOD_NOT_FOUND : Z := -32601.
Definition INVALID_PARAMS : Z := -32602.
Definition INTERNAL_ERROR : Z := -32603.

Definition request (request_id : value) (method : pystr) (params : option dict) : dict :=
  ([("jsonrpc", VStr JSONRPC_VERSION); ("id", request_id); ("method", VStr method)]
   ++ match params with Some p => [("params", VDict p)] | None => [] end)%list.
Definition result (request_id : value) (payload : dict) : dict :=
  [("jsonrpc", VStr JSONRPC_VERSION); ("id", request_id); ("result", VDict payload)].
Definition error (request_id : value) (code : Z) (message : pystr) : dict :=
  [("jsonrpc", VStr JSONRPC_VERSION); ("id", request_id);
   ("error", VDict [("code", VInt code); ("message", VStr message)])].

Definition parse_line (line : pystr) : res (option dict) :=
  match loads line with
  | Ok (VDict message) => Ok (Some message)
  | Ok _ => Ok None
  | Raise e => if caught_by [JSONDecodeError] e then Ok None else Raise e
  end.

(** * The server *)

Definition PROTOCOL_VERSION : string := "2024-11-05".
Definition SERVER_NAME : string := "secure-agentic-sdlc".
Definition SERVER_VERSION : string := "0.1.0".
Definition _AUTH_FIELDS : list string := ["run_id"; "token"; "scope"].

(** A server's sequence numbers, and the world. *)
Record SState := mkSState {
  srv_world : World;
  srv_decision_seq : Z;
  srv_evidence_seq : Z
}.
Definition onWorld {A} (m : ST World A) : ST SState A :=
  zoom srv_world (λ w s, mkSState w (srv_decision_seq s) (srv_evidence_seq s)) m.
Definition next_decision_id : ST SState pystr := fun s =>
  let n := srv_decision_seq s + 1 in
  (Ok ("PD-" +:+ zfill 4 n), mkSState (srv_world s) n (srv_evidence_seq s)).
Definition next_evidence_id : ST SState pystr := fun s =>
  let n := srv_evidence_seq s + 1 in
  (Ok ("EV-" +:+ zfill 4 n), mkSState (srv_world s) (srv_decision_seq s) n).

Definition _initialize : dict :=
  [("protocolVersion", VStr PROTOCOL_VERSION);
   ("serverInfo", VDict [("name", VStr SERVER_NAME); ("version", VStr SERVER_VERSION)]);
   ("capabilities", VDict [("tools", VDict [])])].

(** A non-empty string field. *)
Definition text_field (params : dict) (field : string) : option pystr :=
  match dget_none params field with VStr s => if s ≟ "" then None else Some s | _ => None end.

(** The loop over [_AUTH_FIELDS]: the values, or the first missing field. *)
Fixpoint read_auth (params : dict) (fields : list string) : list pystr + string :=
  match fields with
  | [] => inl []
  | field :: fields =>
      match text_field params field with
      | None => inr field
      | Some v => match read_auth params fields with inl vs => inl (v :: vs) | inr f => inr f end
      end
  end.

Section server.
  Context `{Env} (policy : pystr → dict → ST World PolicyResult) (secret : bytes) (tools : Tools) (store : path).

Definition _list_tools : res dict :=
  entries ← mapR (λ name,
    spec ← get_tool name tools;
    mret (VDict [("name", VStr (spec_name spec)); ("description", VStr (spec_description spec));
                 ("inputSchema", VDict (spec_args_schema spec))])) (names tools);
  mret [("tools", VList entries)].

(** [_now] *)
Definition now_text : ST World pystr := (λ t, utc_text (of_unix t)) <$> reading env_utcnow.

(** The payload for an execution result. *)
Definition call_payload (r : ExecutionResult) : dict :=
  if negb (res_allowed r) then
    [("content", VList [VDict [("type", VStr "text"); ("text", VStr (res_reason r))]]);
     ("isError", VBool true); ("structuredContent", VDict [("reason", VStr (res_reason r))])]
  else
    let payload := default [] (res_output r) in
    [("content", VList [VDict [("type", VStr "text"); ("text", VStr (dumps plain_utf8 (VDict payload)))]]);
     ("isError", VBool false); ("structuredContent", VDict payload)].

(** The call that [tools/call] makes, once its parameters are read. *)
Definition execute_call (name : pystr) (arguments : dict) (run_id token scope : pystr) : ST SState ExecutionResult :=
  created_at ← onWorld now_text;
  decision_id ← next_decision_id;
  evidence_id ← next_evidence_id;
  onWorld (execute policy secret tools store
    (mkCall run_id token name arguments scope created_at decision_id evidence_id "")).

Definition _call (request_id : value) (params : dict) : ST SState dict :=
  match text_field params "name" with
  | None => mret (error request_id INVALID_PARAMS "missing tool name")
  | Some name =>
      match dget_or params "arguments" (VDict []) with
      | VDict arguments =>
          match read_auth params _AUTH_FIELDS with
          | inl [run_id; token; scope] =>
              r ← execute_call name arguments run_id token scope;
              mret (result request_id (call_payload r))
          | inl _ => mret (error request_id INVALID_PARAMS "missing capability field")
          | inr field => mret (error request_id INVALID_PARAMS ("missing capability field " +:+ repr_str field))
          end
      | _ => mret (error request_id INVALID_PARAMS "arguments must be an object")
      end
  end.

Definition handle (message : dict) : ST SState dict :=
  let request_id := dget_none message "id" in
  if negb (eq_str (dget_none message "jsonrpc") JSONRPC_VERSION) then
    mret (error request_id INVALID_REQUEST "jsonrpc must be 2.0") else
  match dget_none message "method" with
  | VStr method =>
      let params := match dget_none message "params" with VDict p => p | _ => [] end in
      if method ≟ "initialize" then mret (result request_id _initialize)
      else if bool_decide (method ∈ ["notifications/initialized"; "ping"]) then mret (result request_id [])
      else if method ≟ "tools/list" then
        listed ← lift _list_tools; mret (result request_id listed)
      else if method ≟ "tools/call" then _call request_id params
      else mret (error request_id METHOD_NOT_FOUND ("unknown method " +:+ repr_str method))
  | _ => mret (error request_id INVALID_REQUEST "missing method")
  end.

Definition handle_line (line : pystr) : ST SState pystr :=
  message ← lift (parse_line line);
  match message with
  | None => mret (dumps plain (VDict (error VNone PARSE_ERROR "invalid JSON")))
  | Some message => response ← handle message; mret (dumps plain_utf8 (VDict response))
  end.

(** * Capability bootstrap *)

Definition CAPABILITY_FIELDS : list string := ["run_id"; "token"; "scope"].
Definition has_capability (params : dict) : bool :=
  forallb (λ field, bool_decide (is_Some (text_field params field))) CAPABILITY_FIELDS.

(** The parameters with the missing fields added. *)
Definition with_capability (params : dict) (run_id scope token : pystr) : dict :=
  dsetdefault (dsetdefault (dsetdefault params "run_id" (VStr run_id)) "scope" (VStr scope)) "token" (VStr token).

(** The request of a line that needs a capability: message, parameters, tool. *)
Definition needs_capability (line : pystr) : res (option (dict * dict * pystr * ToolSpec)) :=
  match loads line with
  | Raise e => if caught_by [JSONDecodeError] e then Ok None else Raise e
  | Ok (VDict message) =>
      if negb (eq_str (dget_none message "method") "tools/call") then Ok None else
      match dget_none message "params" with
      | VDict params =>
          if has_capability params then Ok None else
          match dget_none params "name" with
          | VStr name =>
              Ok match tools !! name with Some spec => Some (message, params, name, spec) | None => None end
          | _ => Ok None
          end
      | _ => Ok None
      end
  | Ok _ => Ok None
  end.

Definition inject_capability (line : pystr) (run_id : pystr) : ST World pystr :=
  request ← lift (needs_capability line);
  match request with
  | None => mret line
  | Some (message, params, name, spec) =>
      token ← issue secret run_id name (spec_scope spec) DEFAULT_TTL_SECONDS None;
      let params := with_capability params run_id (spec_scope spec) token in
      mret (dumps plain (VDict (dset message "params" (VDict params))))
  end.

(** * The stdio loop of [cli.py] *)

(** The answer to one non-blank line: any exception becomes an internal error. *)
Definition answer_line (run_id : pystr) (line : pystr) : ST SState pystr :=
  catch_all
    (bridged ← onWorld (inject_capability line run_id); handle_line bridged)
    (λ _, mret (dumps plain (VDict (error VNone INTERNAL_ERROR "internal error")))).

(** [serve_stdio]: the lines written, for the lines read. *)
Fixpoint serve_stdio (run_id : pystr) (stdin : list pystr) : ST SState (list pystr) :=
  match stdin with
  | [] => mret []
  | line :: stdin =>
      let stripped := strip line in
      if stripped ≟ "" then serve_stdio run_id stdin
      else
        response ← answer_line run_id stripped;
        rest ← serve_stdio run_id stdin;
        mret ((response +:+ LF) :: rest)%list
  end.
End server.

(** * The in-process client *)

Module InProcessClient.
Section client.
  (** The server's [handle], over its state. *)
  Context {S : Type} (handle : dict → ST S dict).

(** The client's counter, and the server. *)
Definition _request (method : pystr) (params : option dict) : ST (Z * S) dict := fun '(counter, s) =>
  let counter := counter + 1 in
  let '(response, s) := handle (request (VInt counter) method params) s in
  (response ← response;
   match dget response "error" with
   | Some e =>
       code ← vitem e "code"; message ← vitem e "message";
       raise MCPError ("[" +:+ py_str code +:+ "] " +:+ py_str message)
   | None => r ← ditem response "result"; vdict r
   end, (counter, s)).

Definition initialize : ST (Z * S) dict := _request "initialize" None.
Definition list_tools : ST (Z * S) dict := _request "tools/list" None.
Definition call_tool (name : pystr) (arguments : dict) (run_id token scope : pystr) : ST (Z * S) dict :=
  _request "tools/call" (Some [("name", VStr name); ("arguments", VDict arguments); ("run_id", VStr run_id);
    ("token", VStr token); ("scope", VStr scope)]).
End client.
End InProcessClient.

(** * Responses *)

(** A response object for a request: a result or an error, not both. *)
Definition response_to (request_id : value) (r : dict) : Prop :=
  dget r "jsonrpc" = Some (VStr JSONRPC_VERSION) ∧ dget r "id" = Some request_id ∧
  (is_Some (dget r "result") ∧ dget r "error" = None ∨ is_Some (dget r "error") ∧ dget r "result" = None).

Lemma response_result id payload : response_to id (result id payload).
Proof. unfold response_to, result. cbn. naive_solver. Qed.
Lemma response_error id code message : response_to id (error id code message).
Proof. unfold response_to, error. cbn. naive_solver. Qed.
#[export] Hint Resolve response_result response_error : py.

(** A well-formed tool call: the tool's name, its arguments, and the capability. *)
Definition tool_call (message : dict) (name : pystr) (arguments : dict) (run_id token scope : pystr) : Prop :=
  ∃ params, dget_none message "jsonrpc" = VStr JSONRPC_VERSION ∧ dget_none message "method" = VStr "tools/call" ∧
    dget_none message "params" = VDict params ∧ text_field params "name" = Some name ∧
    dget_or params "arguments" (VDict []) = VDict arguments ∧ text_field params "run_id" = Some run_id ∧
    text_field params "token" = Some token ∧ text_field params "scope" = Some scope.

Section server_facts.
  Context `{Env} (policy : pystr → dict → ST World PolicyResult) (secret : bytes) (tools : Tools) (store : path).

(** A request answered without any effect; a tool call only by an error. *)
Definition answered (message : dict) (m : ST SState dict) (s : SState) : Prop :=
  let id := dget_none message "id" in
  ∃ r, m s = (r, s) ∧ (∀ d, r = Ok d → response_to id d) ∧
    (dget_none message "method" = VStr "tools/call" → ∃ code text, r = Ok (error id code text)).

Lemma answered_error message code text s :
  answered message (mret (error (dget_none message "id") code text)) s.
Proof. eexists. rewrite ST_ret_eq. split_and!; [done|intros d [= <-]; auto with py|eauto]. Qed.

Lemma answered_result message payload s :
  dget_none message "method" ≠ VStr "tools/call" →
  answered message (mret (result (dget_none message "id") payload)) s.
Proof. intros. eexists. rewrite ST_ret_eq. split_and!; [done|intros d [= <-]; auto with py|done]. Qed.

(** [handle] either makes one call of the executor, or has no effect. *)
Lemma handle_cases message s :
  (∃ name arguments run_id token scope, tool_call message name arguments run_id token scope ∧
    handle policy secret tools store message s =
      (r ← execute_call policy secret tools store name arguments run_id token scope;
       mret (result (dget_none message "id") (call_payload r))) s) ∨
  answered message (handle policy secret tools store message) s.
Proof.
  pose proof (answered_error message) as Herr. pose proof (answered_result message) as Hres.
  unfold handle. cbv zeta. set (id := dget_none message "id") in *.
  destruct (eq_str (dget_none message "jsonrpc") JSONRPC_VERSION) eqn:Hj; cbn [negb]; [|right; apply Herr].
  apply eq_str_true in Hj. destruct (dget_none message "method") as [| | | |method| |] eqn:Hm; try (right; apply Herr).
  case_bool_decide as H1; [right; apply Hres; by subst|].
  case_bool_decide as H2; [right; apply Hres; intros [= ->]; set_solver|].
  case_bool_decide as H3.
  { right. unfold answered. fold id. rewrite ST_bind_eq, lift_eq. subst method. rewrite Hm.
    destruct (_list_tools tools) as [listed|e]; eexists; rewrite ?ST_ret_eq;
      (split_and!; [done|intros d [= <-]; auto with py|done]). }
  case_bool_decide as H4; [subst method|right; apply Herr].
  set (params := match dget_none message "params" with VDict p => p | _ => [] end).
  unfold _call. destruct (text_field params "name") as [name|] eqn:Hn; [|right; apply Herr].
  destruct (dget_or params "arguments" (VDict [])) as [| | | | | |arguments] eqn:Ha; try (right; apply Herr).
  cbn [read_auth _AUTH_FIELDS].
  destruct (text_field params "run_id") as [run_id|] eqn:Hr; [|right; apply Herr].
  destruct (text_field params "token") as [token|] eqn:Ht; [|right; apply Herr].
  destruct (text_field params "scope") as [scope|] eqn:Hs; [|right; apply Herr].
  left. exists name, arguments, run_id, token, scope. split; [|done]. exists params. split_and!; try done.
  subst params. by destruct (dget_none message "params").
Qed.

(** The world in which the executor is called: reading the clock is one tick. *)
Definition called_in (s : SState) : World := set_tick (S (w_tick (srv_world s))) (srv_world s).

Lemma execute_call_eq name arguments run_id token scope s :
  ∃ created_at decision_id evidence_id,
    let c := mkCall run_id token name arguments scope created_at decision_id evidence_id "" in
    execute_call policy secret tools store name arguments run_id token scope s =
      ((execute policy secret tools store c (called_in s)).1,
       mkSState (execute policy secret tools store c (called_in s)).2 (srv_decision_seq s + 1) (srv_evidence_seq s + 1)).
Proof.
  eexists _, _, _. unfold execute_call. rewrite ST_bind_eq. unfold onWorld. rewrite zoom_eq.
  assert (∀ w, now_text w = (Ok (utc_text (of_unix (env_utcnow (w_tick w)))), set_tick (S (w_tick w)) w)) as ->
    by reflexivity.
  cbn [fst snd]. rewrite ST_bind_eq. unfold next_decision_id at 1. rewrite ST_bind_eq. unfold next_evidence_id at 1.
  rewrite zoom_eq. reflexivity.
Qed.

(** C29: the server is a single door.  A request either changes nothing at all, and
    then a tool call is answered with an error; or it is a tool call with a tool
    name, an object of arguments and the three capability fields, and the server
    makes exactly one call of the gated executor with just these, whose outcome is
    the answer. *)
Theorem mcp_single_door message s r s' :
  handle policy secret tools store message s = (r, s') →
  (s' = s ∧ (dget_none message "method" = VStr "tools/call" →
     ∃ code text, r = Ok (error (dget_none message "id") code text))) ∨
  ∃ name arguments run_id token scope c out w',
    tool_call message name arguments run_id token scope ∧
    call_tool c = name ∧ call_args c = arguments ∧ call_run_id c = run_id ∧ call_token c = token ∧ call_scope c = scope ∧
    execute policy secret tools store c (called_in s) = (out, w') ∧
    s' = mkSState w' (srv_decision_seq s + 1) (srv_evidence_seq s + 1) ∧
    r = (x ← out; Ok (result (dget_none message "id") (call_payload x))).
Proof.
  intros E. destruct (handle_cases message s) as [(name & args & run_id & token & scope & Ht & Hh)|(r0 & Hh & _ & He)].
  2: { rewrite Hh in E. injection E as <- <-. by left. }
  right. destruct (execute_call_eq name args run_id token scope s) as (ca & di & ei & Hx). cbv zeta in Hx.
  rewrite Hh, ST_bind_eq, Hx in E. set (c := mkCall _ _ _ _ _ _ _ _ _) in *.
  destruct (execute policy secret tools store c (called_in s)) as [out w'] eqn:Ec.
  exists name, args, run_id, token, scope, c, out, w'. cbn [fst snd] in E.
  destruct out as [x|e]; [rewrite ST_ret_eq in E|]; injection E as <- <-; by split_and!.
Qed.

(** every response carries the identifier of its request, and is either a result
    or an error. *)
Theorem response_echoes_id message s d s' :
  handle policy secret tools store message s = (Ok d, s') → response_to (dget_none message "id") d.
Proof.
  intros E. destruct (handle_cases message s) as [(name & args & run_id & token & scope & Ht & Hh)|(r0 & Hh & Hr & _)].
  - rewrite Hh, ST_bind_eq in E. destruct (execute_call _ _ _ _ _ _ _ _ _ s) as [[x|e] s1]; [|done].
    rewrite ST_ret_eq in E. injection E as <- <-. apply response_result.
  - rewrite Hh in E. injection E as -> <-. by apply Hr.
Qed.

(** C9: a tool call is answered with tool output only if it was authorised: its run
    is registered and the policy allowed this tool, scope and actor when it was asked,
    the token decodes under the registry's secret to a live, unexpired capability
    for this tool and scope, the tool is allowlisted with that scope, the arguments
    satisfy its schema, and the output is what its handler returned. *)
Theorem mcp_output_authorised `{!PolicyEvaluator policy} message s d payload s' :
  handle policy secret tools store message s = (Ok d, s') →
  dget_none message "method" = VStr "tools/call" →
  dget d "result" = Some (VDict payload) → dget payload "isError" = Some (VBool false) →
  ∃ name arguments run_id token scope run pr w1 cap spec w2 out w3,
    tool_call message name arguments run_id token scope ∧
    w_runs (srv_world s) !! run_id = Some run ∧
    policy POLICY_POINT [("tool", VStr name); ("path", VStr (policy_resource "" arguments));
      ("scope", VStr scope); ("actor", VDict (run_actor run))] (called_in s) = (Ok pr, w1) ∧ pr_allow pr = true ∧
    decode_token secret token = Ok (mkDecodeResult (Some cap) None) ∧
    live (srv_world s) (cap_run_id cap) ∧ env_clock (w_tick w1) ≤ cap_expires_at cap ∧
    cap_tool cap = name ∧ cap_scope cap = scope ∧
    tools !! name = Some spec ∧ spec_scope spec = scope ∧
    validate_instance (VDict arguments) (spec_args_schema spec) = Ok [] ∧
    w_fs w2 = w_fs (srv_world s) ∧ w_runs w2 = w_runs (srv_world s) ∧
    spec_handler spec arguments w2 = (Ok out, w3) ∧ dget payload "structuredContent" = Some (VDict out).
Proof.
  intros E Hm Hres Herr. destruct (handle_cases message s) as [(name & args & run_id & token & scope & Ht & Hh)|(r0 & Hh & _ & He)].
  2: { rewrite Hh in E. injection E as -> <-. destruct (He Hm) as (code & text & [= ->]). done. }
  destruct (execute_call_eq name args run_id token scope s) as (ca & di & ei & Hx). cbv zeta in Hx.
  rewrite Hh, ST_bind_eq, Hx in E. set (c := mkCall _ _ _ _ _ _ _ _ _) in *.
  destruct (execute policy secret tools store c (called_in s)) as [[x|e] w'] eqn:Ec; cbn [fst snd] in E; [|done].
  rewrite ST_ret_eq in E. injection E as <- <-. cbn in Hres. injection Hres as <-.
  assert (res_allowed x = true) as Hal by (unfold call_payload in Herr; by destruct (res_allowed x)).
  apply execute_spec in Ec. destruct Ec as [?????????|???????????|run pr spec w1 w2 out w3 Hrun Hpol Hg Hh' Hv _ Hout _ _ _]; [congruence..|].
  destruct Hg as (Hallow & (chk & Hchk & Hvalid) & Hspec & Hsc & Hargs).
  destruct (check_valid_live _ _ _ _ _ _ _ _ Hchk Hvalid) as (cap & Hd & Hlive & Hexp & Hct & Hcs & Hfs2 & Hruns2).
  pose proof (policy_frame _ _ _ _ _ _ Hpol) as [Hfs Hruns]. unfold live in *. rewrite Hruns in Hlive.
  exists name, args, run_id, token, scope, run, pr, w1, cap, spec, w2, out, w3.
  split_and!; try done; [by rewrite Hfs2|by rewrite Hruns2|]. unfold call_payload. by rewrite Hal, Hout.
Qed.
End server_facts.

(** * The bridge *)

Lemma dsetdefault_keeps d k v k' w : dget d k' = Some w → dget (dsetdefault d k v) k' = Some w.
Proof.
  intros H. destruct (decide (k = k')) as [->|Hk]; [by rewrite dget_dsetdefault, H|].
  by rewrite dget_dsetdefault_other.
Qed.

Lemma with_capability_keeps params run_id scope token k v :
  dget params k = Some v → dget (with_capability params run_id scope token) k = Some v.
Proof. intros H. unfold with_capability. by repeat apply dsetdefault_keeps. Qed.

Lemma with_capability_other params run_id scope token k :
  k ∉ CAPABILITY_FIELDS → dget (with_capability params run_id scope token) k = dget params k.
Proof.
  intros Hk. unfold CAPABILITY_FIELDS in Hk. unfold with_capability.
  rewrite !dget_dsetdefault_other by set_solver. done.
Qed.

Lemma with_capability_fields params run_id scope token :
  let params' := with_capability params run_id scope token in
  dget params' "run_id" = Some (dget_or params "run_id" (VStr run_id)) ∧
  dget params' "scope" = Some (dget_or params "scope" (VStr scope)) ∧
  dget params' "token" = Some (dget_or params "token" (VStr token)).
Proof.
  unfold with_capability, dget_or. split_and!.
  - rewrite !(dget_dsetdefault_other _ _ "run_id") by done. rewrite dget_dsetdefault. by destruct (dget params "run_id").
  - rewrite (dget_dsetdefault_other _ _ "scope") by done. rewrite dget_dsetdefault, dget_dsetdefault_other by done.
    by destruct (dget params "scope").
  - rewrite dget_dsetdefault, !dget_dsetdefault_other by done. by destruct (dget params "token").
Qed.

Lemma needs_capability_Some (tools : Tools) line message params name spec :
  needs_capability tools line = Ok (Some (message, params, name, spec)) →
  loads line = Ok (VDict message) ∧ dget_none message "method" = VStr "tools/call" ∧
  dget_none message "params" = VDict params ∧ has_capability params = false ∧
  dget_none params "name" = VStr name ∧ tools !! name = Some spec.
Proof.
  unfold needs_capability. destruct (loads line) as [[| | | | | |d]|e]; try done; [|by destruct (caught_by _ e)].
  destruct (eq_str _ _) eqn:Hm; [cbn [negb]|done]. apply eq_str_true in Hm.
  destruct (dget_none d "params") as [| | | | | |p] eqn:Hp; try done.
  destruct (has_capability p) eqn:Hc; [done|]. destruct (dget_none p "name") as [| | | |n| |] eqn:Hn; try done.
  destruct (tools !! n) as [s|] eqn:Hs; [|done]. intros [= <- <- <- <-]. by split_and!.
Qed.

Section bridge.
  Context `{Env} (policy : pystr → dict → ST World PolicyResult) (secret : bytes) (tools : Tools) (store : path).

(** the bridge only adds what is missing.  Unless a line is a call of a
    registered tool that lacks a capability field, it is passed through untouched.
    Otherwise the bridge issues a token of its own run for exactly this tool and
    the tool's scope, sets the missing fields and nothing else: no field the
    caller gave is overridden.  Files, runs and the call log stay as they are. *)
Theorem inject_capability_correct line run_id w line' w' :
  inject_capability secret tools line run_id w = (Ok line', w') →
  w_fs w' = w_fs w ∧ w_runs w' = w_runs w ∧ w_log w' = w_log w ∧
  (line' = line ∨
   ∃ message params name spec token expiry,
     loads line = Ok (VDict message) ∧ dget_none message "method" = VStr "tools/call" ∧
     dget_none message "params" = VDict params ∧ dget_none params "name" = VStr name ∧
     tools !! name = Some spec ∧ has_capability params = false ∧ live w run_id ∧
     issue_token secret (mkCapability run_id name (spec_scope spec) expiry) = Ok token ∧
     let params' := with_capability params run_id (spec_scope spec) token in
     line' = dumps plain (VDict (dset message "params" (VDict params'))) ∧
     (∀ k v, dget params k = Some v → dget params' k = Some v) ∧
     (∀ k, k ∉ CAPABILITY_FIELDS → dget params' k = dget params k) ∧
     dget params' "run_id" = Some (dget_or params "run_id" (VStr run_id)) ∧
     dget params' "scope" = Some (dget_or params "scope" (VStr (spec_scope spec))) ∧
     dget params' "token" = Some (dget_or params "token" (VStr token))).
Proof.
  unfold inject_capability. rewrite ST_bind_eq, lift_eq.
  destruct (needs_capability tools line) as [[[[[message params] name] spec]|]|e] eqn:Hn; [| |done].
  2: { rewrite ST_ret_eq. intros [= <- <-]. split_and!; auto. }
  apply needs_capability_Some in Hn as (Hl & Hm & Hp & Hc & Hname & Hs).
  rewrite ST_bind_eq. pose proof (issue_world secret run_id name (spec_scope spec) DEFAULT_TTL_SECONDS None w) as [k Hk].
  destruct (issue _ _ _ _ _ _ w) as [[token|e] w1] eqn:Ei; cbn [snd] in Hk; [|done]. rewrite ST_ret_eq. intros [= <- <-].
  subst w1. split_and!; [done..|]. right. rewrite issue_eq in Ei. unfold live.
  destruct (w_runs w !! run_id) as [[r1 r2 r3 []]|] eqn:Hrun; try done.
  destruct (or_now None w) as [[n|e] w2] eqn:Ho; [|done]. injection Ei as Htok _.
  pose proof (with_capability_fields params run_id (spec_scope spec) token) as (F1 & F2 & F3).
  exists message, params, name, spec, token, (n + DEFAULT_TTL_SECONDS). split_and!; try done.
  - by eexists.
  - intros k' v. apply with_capability_keeps.
  - intros k' Hk'. by apply with_capability_other.
Qed.

(** What one line is answered with; nothing a request does ends the loop. *)
Lemma answer_line_total run_id line s : ∃ text s', answer_line policy secret tools store run_id line s = (Ok text, s').
Proof.
  unfold answer_line, catch_all. destruct (mbind (M := ST SState) _ _ s) as [[text|e] s']; [by exists text, s'|].
  rewrite ST_ret_eq. eauto.
Qed.

(** The loop, by induction on the lines. *)
Lemma serve_stdio_total run_id stdin s :
  ∃ stdout s', serve_stdio policy secret tools store run_id stdin s = (Ok stdout, s') ∧
    length stdout = length (filter (λ line, strip line ≠ "") stdin) ∧
    Forall (λ response, ∃ text, response = text +:+ LF) stdout.
Proof.
  revert s. induction stdin as [|line stdin IH]; intros s; cbn [serve_stdio].
  { eexists [], s. rewrite ST_ret_eq. by split_and!. }
  rewrite filter_cons. case_bool_decide as Hb.
  - rewrite decide_False by (intros Hn; by apply Hn). apply IH.
  - rewrite decide_True by done. destruct (answer_line_total run_id (strip line) s) as (text & s1 & E).
    rewrite ST_bind_eq, E, ST_bind_eq. destruct (IH s1) as (rest & s2 & -> & Hlen & Hf).
    rewrite ST_ret_eq. eexists _, s2. split_and!; [done|cbn [length]; by rewrite Hlen|]. constructor; [by exists text|done].
Qed.

(** C35: the bridge never dies: whatever lines it reads - and whatever the tools, the
    policy and the files do - it answers every non-blank line, in order, with one
    newline-terminated response, and blank lines with none. *)
Theorem serve_stdio_answers_all run_id stdin s :
  ∃ stdout s', serve_stdio policy secret tools store run_id stdin s = (Ok stdout, s') ∧
    length stdout = length (filter (λ line, strip line ≠ "") stdin) ∧
    Forall (λ response, ∃ text, response = text +:+ LF) stdout.
Proof. apply serve_stdio_total. Qed.
End bridge.

(** * Witnesses *)

Definition demo_message : dict :=
  [("jsonrpc", VStr "2.0"); ("id", VInt 7); ("method", VStr "tools/call");
   ("params", VDict [("name", VStr "echo"); ("arguments", VDict [("x", VInt 1)]); ("run_id", VStr "B");
      ("token", VStr (token_for "B")); ("scope", VStr "s")])].
Definition demo_server : SState := mkSState two_runs 0 0.
Definition demo_handle : dict → ST SState dict :=
  handle (H := allow_env) (evaluate (H := allow_env) demo_client) "key" echo_tools demo_store.

Definition is_output (d : dict) : option value :=
  match dget d "result" with Some (VDict payload) => dget payload "isError" | _ => None end.

Lemma demo_handle_output : ∃ d s', demo_handle demo_message demo_server = (Ok d, s') ∧
  ∃ payload, dget d "result" = Some (VDict payload) ∧ dget payload "isError" = Some (VBool false).
Proof.
  assert (Hx : match (demo_handle demo_message demo_server).1 with Ok d => is_output d | Raise _ => None end
    = Some (VBool false)) by (vm_compute; reflexivity).
  destruct (demo_handle demo_message demo_server) as [[d|e] s']; [|discriminate Hx].
  exists d, s'. split; [reflexivity|]. cbn [fst] in Hx. unfold is_output in Hx.
  destruct (dget d "result") as [[| | | | | |payload]|]; try discriminate Hx. exists payload. by split.
Qed.

Lemma mcp_single_door_witness : ∃ r s', demo_handle demo_message demo_server = (r, s') ∧ is_ok r = true ∧
  (s' = demo_server → ∃ code text, r = Ok (error (VInt 7) code text)).
Proof.
  destruct demo_handle_output as (d & s' & E & _). exists (Ok d), s'. split; [exact E|split; [reflexivity|]].
  intros ->. destruct (mcp_single_door (H := allow_env) (evaluate (H := allow_env) demo_client) "key" echo_tools demo_store
    demo_message demo_server (Ok d) demo_server E) as [[_ He]|(? & ? & ? & ? & ? & ? & ? & w' & _ & _ & _ & _ & _ & _ & _ & Hs & _)].
  - exact (He eq_refl).
  - apply (f_equal srv_decision_seq) in Hs. cbn in Hs. discriminate Hs.
Defined.

Lemma response_echoes_id_witness : ∃ d s', demo_handle demo_message demo_server = (Ok d, s') ∧
  dget d "id" = Some (VInt 7).
Proof.
  destruct demo_handle_output as (d & s' & E & _). exists d, s'. split; [exact E|].
  apply (response_echoes_id (H := allow_env) (evaluate (H := allow_env) demo_client) "key" echo_tools demo_store
    demo_message demo_server d s' E).
Defined.

Lemma mcp_output_authorised_witness : ∃ run pr w1 spec cap,
  w_runs two_runs !! "B" = Some run ∧
  evaluate (H := allow_env) demo_client POLICY_POINT [("tool", VStr "echo"); ("path", VStr "");
    ("scope", VStr "s"); ("actor", VDict (run_actor run))] (called_in demo_server) = (Ok pr, w1) ∧
  pr_allow pr = true ∧ echo_tools !! "echo" = Some spec ∧ cap_tool cap = "echo" ∧ live two_runs (cap_run_id cap).
Proof.
  destruct demo_handle_output as (d & s' & E & payload & Hr & Hp).
  destruct (mcp_output_authorised (H := allow_env) (evaluate (H := allow_env) demo_client) "key" echo_tools demo_store
    demo_message demo_server d payload s' E eq_refl Hr Hp)
    as (name & args & r & t & sc & run & pr & w1 & cap & spec & w2 & out & w3
      & (params & _ & _ & Hparams & Hn & Ha & Hid & _ & Hsc) & Hrun & Hpol & Hal & _ & Hl & _ & Ht & _ & Hs & _).
  vm_compute in Hparams. injection Hparams as <-. vm_compute in Hn. injection Hn as <-.
  vm_compute in Ha. injection Ha as <-. vm_compute in Hid. injection Hid as <-. vm_compute in Hsc. injection Hsc as <-.
  exists run, pr, w1, spec, cap. split; [exact Hrun|]. split; [exact Hpol|]. split; [exact Hal|].
  split; [exact Hs|split; [exact Ht|exact Hl]].
Defined.

Lemma inject_capability_correct_witness :
  ∃ line' w', inject_capability (H := allow_env) "key" echo_tools "not json" "B" two_runs = (Ok line', w') ∧
    w_runs w' = w_runs two_runs.
Proof.
  eexists _, _. split; [vm_compute; reflexivity|].
  eapply (inject_capability_correct (H := allow_env) "key" echo_tools "not json" "B" two_runs).
  vm_compute. reflexivity.
Defined.

(** A whole exchange: the bridge adds the capability, the server runs the tool. *)
Definition bridged_line : pystr :=
  dumps plain (VDict [("jsonrpc", VStr "2.0"); ("id", VInt 1); ("method", VStr "tools/call");
    ("params", VDict [("name", VStr "echo"); ("arguments", VDict [])])]).
Example bridge_runs_tool :
  match (serve_stdio (H := allow_env) (evaluate (H := allow_env) demo_client) "key" echo_tools demo_store "B"
    [" "; bridged_line; "{"] demo_server).1 with
  | Ok [a; b] => option_map is_output (match loads a with Ok (VDict d) => Some d | _ => None end)
  | _ => None
  end = Some (Some (VBool false)).
Proof. vm_compute. reflexivity. Qed.
