(* ===== verification/Deploy.v ===== *)
(** [sdlc/deploy_verify/]: the release candidate ([candidate.py]), its
    content-addressed evidence bundle ([bundle.py]) and the independent
    verification of a release against the pre-deployment policy ([verify.py]). *)

From S2P Require Export Artifacts Policy.
From Stdlib Require Import Ascii.
#[local] Open Scope Z_scope.

(** * The candidate *)

Definition CANDIDATE_SCHEMA : string := "release-candidate.schema.json".
Definition CANDIDATE_TYPE : string := "release-candidate".

Definition canonical_json (data : dict) : pystr := dumps canonical (VDict data).
Definition sha256_digest (data : dict) : res string :=
  raw ← encode_utf8 (canonical_json data); mret (sha256_hex raw).

Definition validate_candidate `{Env} (fs : Fs) (instance : value) (repo_root : option path) : res unit :=
  match instance with
  | VDict instance =>
      errors ← validate_document fs instance CANDIDATE_SCHEMA repo_root;
      match errors with [] => Ok tt | _ => raise CandidateError (join "; " errors) end
  | _ => raise CandidateError "release candidate must be a JSON object"
  end.

(** [load_candidate]: [shown] is [str(path)]. *)
Definition load_candidate `{Env} (fs : Fs) (path : path) (shown : pystr) (repo_root : option (list string)) : res dict :=
  text ← read_text fs path;
  match loads text with
  | Raise e =>
      if caught_by [JSONDecodeError] e then raise CandidateError (shown +:+ ": invalid JSON: " +:+ exn_msg e)
      else Raise e
  | Ok (VDict instance) => _ ← validate_candidate fs (VDict instance) repo_root; Ok instance
  | Ok _ => raise CandidateError (shown +:+ ": top-level JSON value must be an object")
  end.

(** * The bundle *)

Definition BUNDLE_TYPE : string := "evidence-bundle".
Definition OBJECT_ITEMS : list string := ["signature"; "sbom"; "provenance"].

(** One entry of the item list. *)
Definition item (kind ref : pystr) (data : dict) : res dict :=
  digest ← sha256_digest data;
  mret [("kind", VStr kind); ("ref", VStr ref); ("digest", VStr digest)].

Definition object_item (candidate : dict) (kind : string) : res (list dict) :=
  match dget_none candidate kind with
  | VDict data => i ← item kind ("candidate:" +:+ kind) data; mret [i]
  | _ => Ok []
  end.
Definition decision_item (decision : value) : res (list dict) :=
  match decision with
  | VDict data => i ← item "policy-decision" (py_str (dget_or data "point" (VStr ""))) data; mret [i]
  | _ => Ok []
  end.
Definition approval_ref (approval : dict) : pystr :=
  let actor_id :=
    match dget_or approval "actor" (VDict []) with
    | VDict actor => py_str (dget_or actor "id" (VStr ""))
    | _ => ""
    end in
  py_str (dget_or approval "role" (VStr "")) +:+ ":" +:+ actor_id.
Definition approval_item (approval : value) : res (list dict) :=
  match approval with
  | VDict data => i ← item "approval" (approval_ref data) data; mret [i]
  | _ => Ok []
  end.

Definition _collect_items (candidate : dict) : res (list dict) :=
  objects ← mapR (object_item candidate) OBJECT_ITEMS;
  decisions ← viter (dget_or candidate "policy_decisions" (VList []));
  decision_items ← mapR decision_item decisions;
  approvals ← viter (dget_or candidate "approvals" (VList []));
  approval_items ← mapR approval_item approvals;
  mret (concat objects ++ concat decision_items ++ concat approval_items)%list.

Definition bundle_commitment (image : pystr) (candidate_digest : string) (items : list dict) : dict :=
  [("image", VStr image); ("candidate_digest", VStr candidate_digest); ("items", VList (VDict <$> items))].
Definition bundle_digest (image : pystr) (candidate_digest : string) (items : list dict) : res string :=
  sha256_digest (bundle_commitment image candidate_digest items).

Definition build_evidence_bundle (artifact_id created_at : pystr) (actor : dict) (run_id : pystr)
    (candidate : dict) (links : option (list dict)) : res dict :=
  let image := py_str (dget_or candidate "image" (VStr "")) in
  candidate_digest ← sha256_digest candidate;
  items ← _collect_items candidate;
  digest ← bundle_digest image candidate_digest items;
  let document :=
    [("schema_version", VStr "1.0.0"); ("artifact_type", VStr BUNDLE_TYPE); ("id", VStr artifact_id);
     ("created_at", VStr created_at); ("actor", VDict actor); ("run_id", VStr run_id); ("image", VStr image);
     ("candidate_digest", VStr candidate_digest); ("bundle_digest", VStr digest);
     ("items", VList (VDict <$> items))] in
  mret match default [] links with
       | [] => document
       | ls => dset document "links" (VList (VDict <$> ls))
       end.

(** * The verification *)

Record ReleaseVerification := mkReleaseVerification {
  rv_allow : bool;
  rv_reason_codes : list pystr;
  rv_decision : dict;
  rv_bundle : dict
}.

(** The arguments that [_deployment_input] picks, in [build_deployment_input]'s order. *)
Definition DEPLOYMENT_FIELDS : list string :=
  ["image"; "signature"; "sbom"; "provenance"; "policy_decisions"; "required_approver_role"; "approvals"].
Definition _deployment_input (candidate : dict) : res (list value) := mapR (ditem candidate) DEPLOYMENT_FIELDS.

(** [evaluate_deployment(policy, **_deployment_input(candidate))] *)
Definition evaluate_candidate `{Env} (policy : PolicyClient) (candidate : dict) : ST World PolicyResult :=
  arguments ← lift (_deployment_input candidate);
  match arguments with
  | [image; signature; sbom; provenance; policy_decisions; required_approver_role; approvals] =>
      PreDeployment.evaluate_deployment policy image signature sbom provenance policy_decisions
        required_approver_role approvals
  | _ => raiseS TypeError "missing arguments"
  end.

Definition verify_release `{Env} (policy : PolicyClient) (candidate : dict) (bundle_id decision_id created_at : pystr)
    (actor : dict) (run_id : pystr) (repo_root : option path) : ST World ReleaseVerification :=
  _ ← liftFs (λ fs, validate_candidate fs (VDict candidate) repo_root);
  bundle ← lift (build_evidence_bundle bundle_id created_at actor run_id candidate None);
  result ← evaluate_candidate policy candidate;
  let decision := PreDeployment.build_deployment_decision result decision_id created_at actor run_id
    (Some [[("rel", VStr "evidence"); ("href", VStr bundle_id)]]) in
  let bundle := dset bundle "policy_decision_ref" (VStr decision_id) in
  mret (mkReleaseVerification (pr_allow result) (pr_reason_codes result) decision bundle).

(** * Lemmas *)

(** The payload of the pre-deployment evaluation of a candidate. *)
Definition deployment_payload (candidate : dict) : res dict :=
  arguments ← _deployment_input candidate;
  match arguments with
  | [image; signature; sbom; provenance; policy_decisions; required_approver_role; approvals] =>
      PreDeployment.build_deployment_input image signature sbom provenance policy_decisions
        required_approver_role approvals
  | _ => raise TypeError "missing arguments"
  end.

Lemma evaluate_candidate_eq `{Env} policy candidate w :
  evaluate_candidate policy candidate w =
    match deployment_payload candidate with
    | Ok payload => evaluate policy PreDeployment.POINT payload w
    | Raise e => (Raise e, w)
    end.
Proof.
  unfold evaluate_candidate, deployment_payload. rewrite ST_bind_eq, lift_eq.
  destruct (_deployment_input candidate) as [arguments|e]; [|done]. cbn [mbind res_bind].
  do 7 (destruct arguments as [|? arguments]; [done|]). by destruct arguments.
Qed.

(** With its seven fields at hand, the payload holds them as they are. *)
Lemma deployment_payload_fields candidate payload :
  deployment_payload candidate = Ok payload →
  dkeys payload = DEPLOYMENT_FIELDS ∧
  dget payload "image" = dget candidate "image" ∧
  dget payload "required_approver_role" = dget candidate "required_approver_role" ∧
  (∀ k d, k ∈ OBJECT_ITEMS → dget candidate k = Some (VDict d) → dget payload k = Some (VDict d)) ∧
  (∀ k ds, k ∈ ["policy_decisions"; "approvals"] → dget candidate k = Some (VList (VDict <$> ds)) →
    dget payload k = Some (VList (VDict <$> ds))).
Proof.
  unfold deployment_payload, _deployment_input, DEPLOYMENT_FIELDS. intros (arguments & Ha & Hp)%res_bind_Ok.
  cbn [mapR] in Ha. repeat (apply res_bind_Ok in Ha as (? & ?%ditem_Ok & Ha); apply res_bind_Ok in Ha as (? & Ha & [= <-])).
  injection Ha as <-. unfold PreDeployment.build_deployment_input in Hp. inv_bind.
  assert (∀ ds : list dict, mapR vdict (VDict <$> ds) = Ok ds) as Hds.
  { intros ds. induction ds as [|d ds IH]; [done|]. cbn. by rewrite IH. }
  split_and!; try done.
  - intros k d Hk E. unfold OBJECT_ITEMS in Hk. set_unfold.
    destruct Hk as [->|[->|[->|[]]]]; cbn; by simplify_eq/=.
  - intros k ds Hk E. set_unfold. destruct Hk as [->|[->|[]]]; cbn; simplify_eq/=;
      match goal with H : context [mapR vdict (VDict <$> ?l)] |- _ => rewrite Hds in H; by simplify_eq end.
Qed.

Lemma ustr_item kind ref data i : ustr kind → ustr ref → item kind ref data = Ok i → json_ok (VDict i).
Proof.
  intros Hk Hr. unfold item, sha256_digest. intros (dg & (raw & _ & [= <-])%res_bind_Ok & [= <-])%res_bind_Ok.
  assert (ustr (sha256_hex raw)) by apply ustr_sha256_hex.
  constructor; [apply (bool_decide_unpack _); by vm_compute|].
  repeat constructor; try done; by apply ustr_ascii.
Qed.

Lemma dget_json_ok d k v : json_ok (VDict d) → json_ok v → json_ok (dget_or d k v).
Proof.
  intros Hok Hv. assert (Forall (λ kv, ustr kv.1 ∧ json_ok kv.2) d) as Hd by (by inversion Hok). clear Hok.
  unfold dget_or. induction Hd as [|[k' x] d [_ Hx] _ IH]; [done|].
  cbn [dget]. by destruct (bool_decide _).
Qed.

Lemma json_ok_empty : json_ok (VList []) ∧ json_ok (VDict []) ∧ json_ok (VStr "").
Proof. split_and!; constructor; try done; [by apply NoDup_nil|by apply is_ascii_ustr]. Qed.

Lemma json_ok_elem v l x : json_ok v → viter v = Ok l → x ∈ l → json_ok x.
Proof.
  destruct 1 as [|b|n|s Hs|l' Hl|d _ Hd]; cbn; try done; intros [= <-].
  - rewrite list_elem_of_fmap. intros (cp & -> & Hcp). constructor. destruct Hs as (cps & Hs & ->).
    rewrite utf8_decode_encode in Hcp by (by apply (Forall_impl _ _ _ Hs), scalar_cp).
    rewrite Forall_forall in Hs. by apply ustr_enc, Hs.
  - rewrite Forall_forall in Hl. auto.
  - unfold dkeys. rewrite list_elem_of_fmap. intros (k & -> & ([k' y] & -> & Hy)%list_elem_of_fmap). constructor.
    rewrite Forall_forall in Hd. by destruct (Hd _ Hy).
Qed.

Lemma collect_ok {A} (f : A → res (list dict)) l rs :
  (∀ x i, x ∈ l → f x = Ok i → Forall (λ d, json_ok (VDict d)) i) → mapR f l = Ok rs →
  Forall (λ d, json_ok (VDict d)) (concat rs).
Proof.
  intros Hf H. apply Forall_concat. apply mapR_Ok in H. rewrite Forall_forall. intros i Hi.
  apply list_elem_of_lookup in Hi as [n Hn]. destruct (Forall2_lookup_r _ _ _ _ _ H Hn) as (x & Hx & E).
  eapply Hf; [|exact E]. by eapply list_elem_of_lookup_2.
Qed.

(** The entries of a bundle can be written down and read back. *)
Lemma collect_items_ok candidate items :
  json_ok (VDict candidate) → _collect_items candidate = Ok items → Forall (λ d, json_ok (VDict d)) items.
Proof.
  intros Hok. assert (∀ s, is_ascii s = true → ustr s) as Ha by apply is_ascii_ustr.
  unfold _collect_items. intros (os & Ho & (dl & Hdl & (ds & Hd & (al & Hal & (ats & Hat & [= <-])%res_bind_Ok)
    %res_bind_Ok)%res_bind_Ok)%res_bind_Ok)%res_bind_Ok.
  rewrite !Forall_app. split_and!; (eapply collect_ok; [|eassumption]); intros x i Hx; cbn beta.
  - unfold object_item. destruct (dget_none _ _); try (by intros [= <-]).
    intros (y & Hy & [= <-])%res_bind_Ok. constructor; [|done]. eapply ustr_item; [..|exact Hy].
    + unfold OBJECT_ITEMS in Hx. set_unfold. destruct Hx as [->|[->|[->|[]]]]; by apply Ha.
    + unfold OBJECT_ITEMS in Hx. set_unfold. destruct Hx as [->|[->|[->|[]]]]; by apply Ha.
  - pose proof (json_ok_elem _ _ x (dget_json_ok _ _ _ Hok (proj1 json_ok_empty)) Hdl Hx) as Hv.
    unfold decision_item. destruct x; try (by intros [= <-]).
    intros (y & Hy & [= <-])%res_bind_Ok. constructor; [|done]. eapply ustr_item; [..|exact Hy]; [by apply Ha|].
    apply ustr_py_str, dget_json_ok; [done|]. apply json_ok_empty.
  - pose proof (json_ok_elem _ _ x (dget_json_ok _ _ _ Hok (proj1 json_ok_empty)) Hal Hx) as Hv.
    unfold approval_item. destruct x as [| | | | | |data]; try (by intros [= <-]).
    intros (y & Hy & [= <-])%res_bind_Ok. constructor; [|done]. eapply ustr_item; [..|exact Hy]; [by apply Ha|].
    assert (∀ d k, json_ok (VDict d) → ustr (py_str (dget_or d k (VStr "")))) as Hp.
    { intros d k Hd'. apply ustr_py_str, dget_json_ok; [done|]. apply json_ok_empty. }
    unfold approval_ref. apply ustr_app; [by apply Hp|]. apply ustr_app; [by apply Ha|].
    pose proof (dget_json_ok data "actor" _ Hv (proj1 (proj2 json_ok_empty))) as Hactor.
    destruct (dget_or data "actor" _); try (by apply Ha). by apply Hp.
Qed.

Lemma commitment_ok image digest items :
  ustr image → ustr digest → Forall (λ d, json_ok (VDict d)) items →
  json_ok (VDict (bundle_commitment image digest items)).
Proof.
  intros Hi Hd Hl. constructor; [apply (bool_decide_unpack _); by vm_compute|].
  repeat constructor; cbn; try done; try (by apply is_ascii_ustr). by rewrite Forall_fmap.
Qed.

(** What a bundle holds. *)
Lemma build_evidence_bundle_Ok artifact_id created_at actor run_id candidate links bundle :
  build_evidence_bundle artifact_id created_at actor run_id candidate links = Ok bundle →
  let image := py_str (dget_or candidate "image" (VStr "")) in
  ∃ cd items dg, sha256_digest candidate = Ok cd ∧ _collect_items candidate = Ok items ∧
    bundle_digest image cd items = Ok dg ∧
    dget bundle "image" = Some (VStr image) ∧ dget bundle "candidate_digest" = Some (VStr cd) ∧
    dget bundle "items" = Some (VList (VDict <$> items)) ∧ dget bundle "bundle_digest" = Some (VStr dg) ∧
    dget bundle "id" = Some (VStr artifact_id) ∧ dget bundle "run_id" = Some (VStr run_id).
Proof.
  unfold build_evidence_bundle. cbv zeta.
  intros (cd & Hcd & (items & Hi & (dg & Hdg & [= <-])%res_bind_Ok)%res_bind_Ok)%res_bind_Ok.
  exists cd, items, dg. split_and!; try done; by destruct (default [] links).
Qed.

(** * Properties *)

(** What a bundle of a candidate is computed from: the candidate's image, the digest of
    the candidate and the entries of its evidence. *)
Definition bundle_source (candidate : dict) (commitment : dict) : Prop :=
  ∃ cd items, sha256_digest candidate = Ok cd ∧ _collect_items candidate = Ok items ∧
    commitment = bundle_commitment (py_str (dget_or candidate "image" (VStr ""))) cd items.

Lemma bundle_source_ok candidate commitment :
  json_ok (VDict candidate) → bundle_source candidate commitment → json_ok (VDict commitment).
Proof.
  intros Hok (cd & items & Hcd & Hit & ->). apply commitment_ok; [|..|by eapply collect_items_ok].
  - apply ustr_py_str, dget_json_ok; [done|]. apply json_ok_empty.
  - unfold sha256_digest in Hcd. apply res_bind_Ok in Hcd as (raw & _ & [= <-]). apply ustr_sha256_hex.
Qed.

(** C39: the digest of an evidence bundle commits to the candidate and its evidence: two
    bundles with the same bundle digest were built from the same image and the same
    candidate, up to the order of its keys, and list the same evidence - unless two
    texts that the bundles were computed from are themselves a SHA-256 collision: the
    canonical texts of the two commitments, or those of the two candidates. *)
Theorem bundle_commits id1 id2 at1 at2 actor1 actor2 run1 run2 c1 c2 links1 links2 b1 b2 :
  json_ok (VDict c1) → json_ok (VDict c2) →
  build_evidence_bundle id1 at1 actor1 run1 c1 links1 = Ok b1 →
  build_evidence_bundle id2 at2 actor2 run2 c2 links2 = Ok b2 →
  dget b1 "bundle_digest" = dget b2 "bundle_digest" →
  (sort_value (VDict c1) = sort_value (VDict c2) ∧ dget b1 "image" = dget b2 "image" ∧
   dget b1 "candidate_digest" = dget b2 "candidate_digest" ∧
   sort_value <$> dget b1 "items" = sort_value <$> dget b2 "items") ∨
  collision (canonical_json c1) (canonical_json c2) ∨
  (∃ m1 m2, bundle_source c1 m1 ∧ bundle_source c2 m2 ∧ collision (canonical_json m1) (canonical_json m2)).
Proof.
  intros Ok1 Ok2 (cd1 & items1 & dg1 & Hc1 & Hi1 & Hd1 & -> & -> & -> & -> & _)%build_evidence_bundle_Ok
    (cd2 & items2 & dg2 & Hc2 & Hi2 & Hd2 & -> & -> & -> & -> & _)%build_evidence_bundle_Ok [= <-].
  assert (Hs1 : bundle_source c1 (bundle_commitment (py_str (dget_or c1 "image" (VStr ""))) cd1 items1)) by (by exists cd1, items1).
  assert (Hs2 : bundle_source c2 (bundle_commitment (py_str (dget_or c2 "image" (VStr ""))) cd2 items2)) by (by exists cd2, items2).
  set (im1 := py_str _) in *. set (im2 := py_str (dget_or c2 _ _)) in *.
  destruct (input_digest_commits _ _ _ (bundle_source_ok _ _ Ok1 Hs1) (bundle_source_ok _ _ Ok2 Hs2) Hd1 Hd2) as [E|];
    [|by right; right; eauto].
  injection E as Hcd Him Hit. fold im1 im2 in Him. rewrite <-Hcd in Hc2.
  destruct (input_digest_commits _ _ _ Ok1 Ok2 Hc1 Hc2) as [Hs|]; [left|by right; left].
  split_and!; [done|by rewrite Him|by rewrite Hcd|]. cbn. by rewrite Hit.
Qed.

(** One digest, of the canonical text of the evidence. *)
Lemma item_digest kind ref data i :
  item kind ref data = Ok i → dget_none i "digest" = VStr (sha256_hex (canonical_json data)).
Proof.
  unfold item, sha256_digest. intros (dg & (raw & Hr & [= <-])%res_bind_Ok & [= <-])%res_bind_Ok.
  apply encode_utf8_Ok in Hr as ->. done.
Qed.

Lemma collect_digests (f : value → res (list dict)) ds rs :
  (∀ d i, f (VDict d) = Ok i → ∃ kind ref x, i = [x] ∧ item kind ref d = Ok x) →
  mapR f (VDict <$> ds) = Ok rs →
  (λ i, dget_none i "digest") <$> concat rs = (λ d, VStr (sha256_hex (canonical_json d))) <$> ds.
Proof.
  intros Hf. revert rs. induction ds as [|d ds IH]; intros rs; cbn [fmap list_fmap mapR].
  - by intros [= <-].
  - intros (i & (kind & ref & x & -> & Hx)%Hf & (rs' & Hrs & [= <-])%res_bind_Ok)%res_bind_Ok.
    cbn [concat app fmap list_fmap]. rewrite (item_digest _ _ _ _ Hx). f_equal. by apply IH.
Qed.

(** no evidence is left out of the bundle: for a candidate of the shape its schema
    asks for, the item list has the digest of the signature, the SBOM and the
    provenance, of every policy decision and of every approval, once each and in
    the candidate's order. *)
Theorem evidence_complete candidate signature sbom provenance decisions approvals items :
  dget candidate "signature" = Some (VDict signature) → dget candidate "sbom" = Some (VDict sbom) →
  dget candidate "provenance" = Some (VDict provenance) →
  dget candidate "policy_decisions" = Some (VList (VDict <$> decisions)) →
  dget candidate "approvals" = Some (VList (VDict <$> approvals)) →
  _collect_items candidate = Ok items →
  (λ i, dget_none i "digest") <$> items =
    (λ d, VStr (sha256_hex (canonical_json d))) <$> ([signature; sbom; provenance] ++ decisions ++ approvals)%list.
Proof.
  intros Hsig Hsbom Hprov Hdec Happ. unfold _collect_items, OBJECT_ITEMS. cbn [mapR].
  unfold object_item, dget_none at 1 2 3, dget_or. rewrite Hsig, Hsbom, Hprov, Hdec, Happ. cbn [from_option id viter].
  intros (os & Ho & (_ & [= <-] & (ds & Hd & (_ & [= <-] & (ats & Ha & [= <-])%res_bind_Ok)
    %res_bind_Ok)%res_bind_Ok)%res_bind_Ok)%res_bind_Ok.
  apply collect_digests in Hd, Ha.
  - rewrite !fmap_app, Hd, Ha. f_equal. inv_bind. cbn.
    by repeat match goal with H : item _ _ _ = Ok _ |- _ => apply item_digest in H as -> end.
  - intros d i (x & Hx & [= <-])%res_bind_Ok. by eexists _, _, _.
  - intros d i (x & Hx & [= <-])%res_bind_Ok. by eexists _, _, _.
Qed.

(** The invariant part of a verification that returns. *)
Lemma verify_release_Ok `{Env} policy candidate bundle_id decision_id created_at actor run_id root w v w' :
  verify_release policy candidate bundle_id decision_id created_at actor run_id root w = (Ok v, w') →
  ∃ bundle payload result,
    validate_document (w_fs w) candidate CANDIDATE_SCHEMA root = Ok [] ∧
    build_evidence_bundle bundle_id created_at actor run_id candidate None = Ok bundle ∧
    deployment_payload candidate = Ok payload ∧
    evaluate policy PreDeployment.POINT payload w = (Ok result, w') ∧
    v = mkReleaseVerification (pr_allow result) (pr_reason_codes result)
      (PreDeployment.build_deployment_decision result decision_id created_at actor run_id
        (Some [[("rel", VStr "evidence"); ("href", VStr bundle_id)]]))
      (dset bundle "policy_decision_ref" (VStr decision_id)).
Proof.
  unfold verify_release. rewrite ST_bind_eq. unfold liftFs at 1. unfold validate_candidate at 1.
  destruct (validate_document _ _ _ _) as [[|e es]|e]; try done. cbn [mbind res_bind]. rewrite ST_bind_eq, lift_eq.
  destruct (build_evidence_bundle _ _ _ _ _ _) as [bundle|e]; [|done]. rewrite ST_bind_eq, evaluate_candidate_eq.
  destruct (deployment_payload candidate) as [payload|e]; [|done].
  destruct (evaluate _ _ payload w) as [[result|e] w1] eqn:E; [|done]. rewrite ST_ret_eq. intros [= <- <-].
  by exists bundle, payload, result.
Qed.

Section release.
  Context `{Env} (policy : PolicyClient).

(** C10: a release is allowed only through the pre-deployment gate.  A verification that
    returns was of a candidate its schema accepts, and made exactly one request: a
    POST of the candidate's image, evidence, decisions and approvals to the
    pre-deployment policy; it allows exactly when OPA's answer allows.  The
    decision artifact says the same, carries the digest of that very input and
    names the bundle; the bundle is the candidate's and names the decision.
    Nothing is written. *)
Theorem release_gated candidate bundle_id decision_id created_at actor run_id root w v w' :
  verify_release policy candidate bundle_id decision_id created_at actor run_id root w = (Ok v, w') →
  validate_document (w_fs w) candidate CANDIDATE_SCHEMA root = Ok [] ∧
  w_fs w' = w_fs w ∧ w_runs w' = w_runs w ∧
  ∃ payload bundle request input_digest,
    deployment_payload candidate = Ok payload ∧ dkeys payload = DEPLOYMENT_FIELDS ∧
    dget payload "image" = dget candidate "image" ∧
    (∀ k d, k ∈ OBJECT_ITEMS → dget candidate k = Some (VDict d) → dget payload k = Some (VDict d)) ∧
    w_log w' = EvHttp request :: w_log w ∧ http_method request = "POST" ∧
    http_url request = pc_base_url policy +:+ "/v1/data/sdlc/pre_deployment/decision" ∧
    http_body request = Some (dumps plain (VDict [("input", VDict payload)])) ∧
    (rv_allow v = true ↔ ∃ raw, env_http (w_tick w) request = Ok raw ∧ opa_allows raw) ∧
    rv_reason_codes v ≠ [] ∧
    dget (rv_decision v) "decision" = Some (VStr (if rv_allow v then "allow" else "deny")) ∧
    compute_input_digest payload = Ok input_digest ∧
    dget (rv_decision v) "input_digest" = Some (VStr input_digest) ∧
    dget (rv_decision v) "links" = Some (VList [VDict [("rel", VStr "evidence"); ("href", VStr bundle_id)]]) ∧
    build_evidence_bundle bundle_id created_at actor run_id candidate None = Ok bundle ∧
    rv_bundle v = dset bundle "policy_decision_ref" (VStr decision_id).
Proof.
  intros (bundle & payload & result & Hv & Hb & Hp & He & ->)%verify_release_Ok.
  apply evaluate_Ok in He as ((request & Hm & Hu & Hbody & Hl & Ha) & Hr & Hd & Hfs & Hruns).
  pose proof (deployment_payload_fields _ _ Hp) as (Hk & Him & _ & Ho & _).
  split_and!; try done. exists payload, bundle, request, (pr_input_digest result). by split_and!.
Qed.
End release.

(** * Witnesses *)

Definition demo_candidate (verified : bool) : dict :=
  [("image", VStr "registry/app:1"); ("signature", VDict [("verified", VBool verified)]);
   ("sbom", VDict [("present", VBool true)]); ("provenance", VDict [("verified", VBool true)]);
   ("policy_decisions", VList [VDict [("point", VStr "tool-call"); ("decision", VStr "allow")]]);
   ("required_approver_role", VStr "release_manager");
   ("approvals", VList [VDict [("role", VStr "release_manager"); ("actor", VDict [("id", VStr "alice")])]])].
Definition demo_release (E : Env) : ST World ReleaseVerification :=
  verify_release (H := E) demo_client (demo_candidate true) "EB-1" "PD-1" "t" [("id", VStr "ci")] "R" (Some ["repo"]).
Definition release_world : World :=
  set_fs (<[["repo"; "contracts"; "schemas"; "release-candidate.schema.json"] := File "{}"]> repo_fs) empty_world.

(** The same candidate is released or not, as OPA says. *)
Example opa_decides :
  (match (demo_release allow_env release_world).1 with Ok v => Some (rv_allow v) | Raise _ => None end,
   match (demo_release idle_env release_world).1 with Ok v => Some (rv_allow v) | Raise _ => None end)
  = (Some true, Some false).
Proof. vm_compute. reflexivity. Qed.

Lemma release_gated_witness : ∃ v w', demo_release allow_env release_world = (Ok v, w') ∧
  dget (rv_decision v) "decision" = Some (VStr "allow") ∧ w_fs w' = w_fs release_world.
Proof.
  assert (Hx : match (demo_release allow_env release_world).1 with Ok v => Some (rv_allow v) | Raise _ => None end
    = Some true) by (vm_compute; reflexivity).
  destruct (demo_release allow_env release_world) as [[v|e] w'] eqn:E; [|discriminate Hx].
  injection Hx as Hx.
  destruct (release_gated (H := allow_env) demo_client (demo_candidate true) "EB-1" "PD-1" "t" [("id", VStr "ci")] "R"
    (Some ["repo"]) release_world v w' E)
    as (_ & Hfs & _ & payload & bundle & request & dg & _ & _ & _ & _ & _ & _ & _ & _ & _ & _ & Hd & _).
  exists v, w'. split; [reflexivity|]. split; [rewrite Hx in Hd; exact Hd|exact Hfs].
Defined.

Definition demo_bundle (id : pystr) : res dict := build_evidence_bundle id "t" [] "R" (demo_candidate true) None.

Lemma bundle_commits_witness : ∃ b1 b2, demo_bundle "EB-1" = Ok b1 ∧ demo_bundle "EB-2" = Ok b2 ∧ b1 ≠ b2 ∧
  sort_value <$> dget b1 "items" = sort_value <$> dget b2 "items".
Proof.
  assert (Hx : match demo_bundle "EB-1", demo_bundle "EB-2" with
    | Ok b1, Ok b2 => bool_decide (dget_none b1 "id" ≠ dget_none b2 "id" ∧ dget b1 "bundle_digest" = dget b2 "bundle_digest")
    | _, _ => false end = true) by (vm_compute; reflexivity).
  destruct (demo_bundle "EB-1") as [b1|] eqn:E1; [|discriminate Hx].
  destruct (demo_bundle "EB-2") as [b2|] eqn:E2; [|discriminate Hx].
  apply bool_decide_eq_true in Hx as [Hne Heq]. exists b1, b2. split; [reflexivity|]. split; [reflexivity|].
  split; [intros ->; exact (Hne eq_refl)|].
  assert (json_ok (VDict (demo_candidate true))) as Hok by (apply json_okb_ok; vm_compute; reflexivity).
  destruct (bundle_commits "EB-1" "EB-2" "t" "t" [] [] "R" "R" (demo_candidate true) (demo_candidate true) None None
    b1 b2 Hok Hok E1 E2 Heq) as [(_ & _ & _ & Hi)|[[Hc _]|(m1 & m2 & (cd1 & it1 & Hd1 & Hi1 & ->) & (cd2 & it2 & Hd2 & Hi2 & ->) & [Hc _])]].
  - exact Hi.
  - destruct (Hc eq_refl).
  - rewrite Hd1 in Hd2. injection Hd2 as <-. rewrite Hi1 in Hi2. injection Hi2 as <-. destruct (Hc eq_refl).
Defined.

Lemma evidence_complete_witness : ∃ items, _collect_items (demo_candidate true) = Ok items ∧
  length ((λ i, dget_none i "digest") <$> items) = 5%nat.
Proof.
  assert (Hx : is_ok (_collect_items (demo_candidate true)) = true) by (vm_compute; reflexivity).
  destruct (_collect_items (demo_candidate true)) as [items|] eqn:E; [|discriminate Hx].
  exists items. split; [reflexivity|].
  rewrite (evidence_complete (demo_candidate true) [("verified", VBool true)] [("present", VBool true)]
    [("verified", VBool true)] [[("point", VStr "tool-call"); ("decision", VStr "allow")]]
    [[("role", VStr "release_manager"); ("actor", VDict [("id", VStr "alice")])]] items eq_refl eq_refl eq_refl
    eq_refl eq_refl E). reflexivity.
Defined.
