(* ===== verification/Gate.v ===== *)
(** The program together with the policies: what the gates guarantee when OPA
    serves the policies of the repository.  That it does is the one assumption,
    the class [OpaServes]; it need not answer, or answer in time. *)

From S2P Require Export Rules Executor Builtin Deploy.
#[local] Open Scope Z_scope.

(** The policies OPA serves, by enforcement point. *)
Definition POLICIES (parse : pystr → option Z) : list (pystr * (dict → list (string * bool))) :=
  [(POLICY_POINT, ToolRules.rules);
   (ArtifactTransition.POINT, TransitionRules.rules parse);
   (PreDeployment.POINT, ReleaseRules.rules)].

(** Whenever OPA answers a query at one of the points, the [result] of its answer is
    the decision of that point's rules on the [input] of the query. *)
Class OpaServes `{Env} (parse : pystr → option Z) (client : PolicyClient) : Prop :=
  opa_answers tick request point rules body query input raw :
    (point, rules) ∈ POLICIES parse →
    http_method request = "POST" → http_url request = pc_base_url client +:+ "/" +:+ _decision_path point →
    http_body request = Some body → loads_bytes body = Ok (VDict query) → dget query "input" = Some (VDict input) →
    json_ok (VDict input) → env_http tick request = Ok raw →
    ∃ reply, loads_bytes raw = Ok (VDict reply) ∧ dget reply "result" = Some (decision (rules input)).

(** * The client at a point OPA serves *)

(** A JSON object of one member is read back from its text. *)
Lemma loads_bytes_member k v :
  ustr k → json_ok v → loads_bytes (dumps plain (VDict [(k, v)])) = Ok (VDict [(k, v)]).
Proof.
  intros Hk Hok. assert (Hq : json_ok (VDict [(k, v)])).
  { constructor; [apply NoDup_singleton|]. by constructor. }
  assert (Hl : loads (dumps plain (VDict [(k, v)])) = Ok (VDict [(k, v)]))
    by (rewrite loads_dumps_gen; [done|apply sep_ok_canonical|done]).
  assert (Hu : ustr (dumps plain (VDict [(k, v)]))) by (apply ustr_dumps; [apply ustr_seps_std|done]).
  assert (∃ rest, dumps plain (VDict [(k, v)]) = String (chr 123) (String DQ rest)) as [rest E]
    by (eexists; reflexivity).
  rewrite E in *. rewrite <- Hl. by apply loads_bytes_text.
Qed.

Section client.
  Context `{Env} (parse : pystr → option Z) (client : PolicyClient) `{!OpaServes parse client}.

(** The client allows exactly when OPA answers and the rules allow. *)
Lemma served_decision point rules payload w r w' :
  (point, rules) ∈ POLICIES parse → json_ok (VDict payload) → evaluate client point payload w = (Ok r, w') →
  ∃ request, w_log w' = EvHttp request :: w_log w ∧
    pr_allow r = is_ok (env_http (w_tick w) request) && allowed (rules payload).
Proof.
  intros Hin Hok ((request & Hm & Hu & Hb & Hl & Ha) & _)%evaluate_Ok. exists request. split; [done|].
  apply eq_true_iff_eq. rewrite Ha, andb_true_iff. unfold opa_allows.
  destruct (env_http (w_tick w) request) as [raw|e] eqn:Eh; [|split; [by intros (raw & ? & _)|by intros [? _]]].
  destruct (opa_answers (w_tick w) request point rules _ _ payload raw Hin Hm Hu Hb (loads_bytes_member "input" _ (is_ascii_ustr "input" eq_refl) Hok) eq_refl Hok Eh)
    as (reply & Hr & Hres).
  destruct (decision_spec (rules payload)) as (d & reasons & Hd & Hal & _). rewrite Hd in Hres. split.
  - intros (raw' & [= <-] & d' & Hr' & Hx). split; [done|]. assert (d' = reply) as -> by congruence.
    destruct Hx as [Hx|(rd & Hx & Hy)]; [congruence|]. assert (rd = d) as -> by congruence. congruence.
  - intros [_ Hx]. exists raw. split; [done|]. exists reply. split; [done|]. right. exists d. split; [done|]. by rewrite Hal, Hx.
Qed.
End client.

(** * Releases *)

(** A candidate of the shape its schema prescribes. *)
Record candidate_shape (candidate : dict) (image role : value) (signature sbom provenance : dict)
    (decisions approvals : list dict) : Prop := {
  shape_image : dget candidate "image" = Some image;
  shape_role : dget candidate "required_approver_role" = Some role;
  shape_signature : dget candidate "signature" = Some (VDict signature);
  shape_sbom : dget candidate "sbom" = Some (VDict sbom);
  shape_provenance : dget candidate "provenance" = Some (VDict provenance);
  shape_decisions : dget candidate "policy_decisions" = Some (VList (VDict <$> decisions));
  shape_approvals : dget candidate "approvals" = Some (VList (VDict <$> approvals))
}.

Lemma mapR_vdicts (l : list dict) : mapR vdict (VDict <$> l) = Ok l.
Proof. induction l as [|d l IH]; [done|]. cbn. by rewrite IH. Qed.

Lemma shape_payload candidate image role signature sbom provenance decisions approvals :
  candidate_shape candidate image role signature sbom provenance decisions approvals →
  deployment_payload candidate =
    Ok [("image", image); ("signature", VDict signature); ("sbom", VDict sbom); ("provenance", VDict provenance);
        ("policy_decisions", VList (VDict <$> decisions)); ("required_approver_role", role);
        ("approvals", VList (VDict <$> approvals))].
Proof.
  intros [Hi Hr Hs Hb Hp Hd Ha]. unfold deployment_payload, _deployment_input, DEPLOYMENT_FIELDS.
  cbn [mapR]. unfold ditem. rewrite Hi, Hr, Hs, Hb, Hp, Hd, Ha. cbn [mbind res_bind mret res_ret].
  unfold PreDeployment.build_deployment_input. cbn [vdict viter mbind res_bind]. by rewrite !mapR_vdicts.
Qed.

Lemma dget_json d k v : json_ok (VDict d) → dget d k = Some v → json_ok v.
Proof. intros Hok Hv. pose proof (dget_json_ok d k VNone Hok ok_none) as H. unfold dget_or in H. by rewrite Hv in H. Qed.

(** The payload of a candidate is JSON if the candidate is. *)
Lemma shape_payload_ok candidate image role signature sbom provenance decisions approvals payload :
  candidate_shape candidate image role signature sbom provenance decisions approvals →
  json_ok (VDict candidate) → deployment_payload candidate = Ok payload → json_ok (VDict payload).
Proof.
  intros Hs Hok Hp. rewrite (shape_payload _ _ _ _ _ _ _ _ Hs) in Hp. injection Hp as <-.
  destruct Hs as [Hi Hr Hs Hb Hv Hd Ha]. constructor; [apply (bool_decide_unpack _); by vm_compute|].
  repeat (apply Forall_cons_2; [split; [by apply is_ascii_ustr|by eapply dget_json]|]). apply Forall_nil_2.
Qed.

Section release.
  Context `{Env} (parse : pystr → option Z) (policy : PolicyClient) `{!OpaServes parse policy}.

(** A verification, when OPA serves the policy. *)
Lemma verify_release_served candidate image role signature sbom provenance decisions approvals
    bundle_id decision_id created_at actor run_id root w v w' :
  json_ok (VDict candidate) → candidate_shape candidate image role signature sbom provenance decisions approvals →
  verify_release policy candidate bundle_id decision_id created_at actor run_id root w = (Ok v, w') →
  ∃ request, w_log w' = EvHttp request :: w_log w ∧
    (rv_allow v = true ↔
     is_ok (env_http (w_tick w) request) = true ∧
     release_ready image role signature sbom provenance decisions approvals).
Proof using All.
  intros Hok Hs (bundle & payload & result & _ & _ & Hp & He & ->)%verify_release_Ok.
  assert (Hin : (PreDeployment.POINT, ReleaseRules.rules) ∈ POLICIES parse) by (unfold POLICIES; set_solver).
  destruct (served_decision parse policy _ _ _ _ _ _ Hin (shape_payload_ok _ _ _ _ _ _ _ _ _ Hs Hok Hp) He)
    as (request & Hl & Ha).
  exists request. split; [done|]. cbn [rv_allow]. rewrite Ha, andb_true_iff.
  rewrite (shape_payload _ _ _ _ _ _ _ _ Hs) in Hp. injection Hp as <-.
  by rewrite (release_rules_allowed _ image role signature sbom provenance decisions approvals).
Qed.

(** end to end, a release is allowed exactly when OPA answers and the
    candidate is ready: it names an image; signature, SBOM and provenance are
    verified; the transition and CI policies allowed it; a human of the required
    role approved it and no agent did. *)
Theorem release_only_if_ready candidate image role signature sbom provenance decisions approvals
    bundle_id decision_id created_at actor run_id root w v w' :
  json_ok (VDict candidate) → candidate_shape candidate image role signature sbom provenance decisions approvals →
  verify_release policy candidate bundle_id decision_id created_at actor run_id root w = (Ok v, w') →
  ∃ request, w_log w' = EvHttp request :: w_log w ∧
    (rv_allow v = true ↔
     is_ok (env_http (w_tick w) request) = true ∧
     release_ready image role signature sbom provenance decisions approvals).
Proof using All. apply verify_release_served. Qed.

(** * Transitions *)

(** What the transition policy asks: a transition of the tables, no approval by an
    agent, no finding that is not cleared: none critical or high, and every medium one
    that names a risk waived. *)
Definition transition_permitted (kind from to : pystr) (actor : dict) (now : option pystr) (findings waivers : option (list dict)) : Prop :=
  legal kind from to ∧
  (dget actor "type" = Some (VStr "agent") → to ∉ TransitionRules.approval_statuses) ∧
  Forall (cleared parse now waivers) (default [] findings).

(** C21: end to end, a transition is allowed exactly when OPA answers, the tables permit
    it, no agent approves, no finding is critical or high, and every medium finding
    that names a risk has an active, unexpired medium waiver of it.  (A medium finding
    that names none passes, against the policy's description: see
    [medium_without_risk_id_passes].) *)
Theorem transition_only_if_legal kind from to actor now findings waivers w r w' :
  json_ok (VDict (ArtifactTransition.build_transition_input kind from to actor now findings waivers)) →
  ArtifactTransition.evaluate_transition policy kind from to actor now findings waivers w = (Ok r, w') →
  ∃ request, w_log w' = EvHttp request :: w_log w ∧
    (pr_allow r = true ↔
     is_ok (env_http (w_tick w) request) = true ∧ transition_permitted kind from to actor now findings waivers).
Proof using All.
  intros Hok He.
  assert (Hin : (ArtifactTransition.POINT, TransitionRules.rules parse) ∈ POLICIES parse) by (unfold POLICIES; set_solver).
  destruct (served_decision parse policy _ _ _ _ _ _ Hin Hok He) as (request & Hl & Ha).
  exists request. split; [done|]. unfold transition_permitted. rewrite Ha, andb_true_iff. by rewrite <- transition_rules_allowed.
Qed.
End release.

(** * Protected zones *)

(** The zones of [protected_paths] that [write_file] must not touch, and [.env]: the
    directories and the files that are one component of a path, and the documents,
    which are two. *)
Definition PROTECTED_DIRS : list string :=
  [".github"; "contracts"; "policies"; "security"; "infra"; "specs"; ".opencode"].
Definition PROTECTED_FILES : list string := ["baseline.json"; "ARCHITECTURE_BASELINE.md"; ".env"].
Definition PROTECTED_DOCUMENTS : list string := ["docs/adr/"; "docs/roadmap.md"].

(** A path that goes through a protected directory or names a protected file,
    whatever else its components are, or that has a protected document written out
    in it: [docs/./roadmap.md] has not ([protected_document_overwritten]), nor has a
    path that reaches a zone through a symbolic link. *)
Definition in_zone (s : pystr) : Prop :=
  (∃ zone, zone ∈ PROTECTED_DIRS ∧ zone ∈ removelast (path_parts s)) ∨
  (∃ file, file ∈ PROTECTED_FILES ∧ file ∈ path_parts s) ∨
  (∃ document, document ∈ PROTECTED_DOCUMENTS ∧ contains s document = true).

(** Every path the policy protects is one of the zones. *)
Example zones_complete : ToolRules.protected_paths ≡ₚ
  ((λ zone, zone +:+ "/") <$> PROTECTED_DIRS) ++ PROTECTED_DOCUMENTS ++ removelast PROTECTED_FILES.
Proof. apply (bool_decide_unpack _). vm_compute. exact I. Qed.

Lemma contains_app a s b : contains (a +:+ (s +:+ b)) s = true.
Proof. apply contains_spec. by exists a, b. Qed.

Lemma contains_trans s t u : contains s t = true → contains t u = true → contains s u = true.
Proof.
  rewrite !contains_spec. intros (a & b & ->) (c & d & ->). exists (a +:+ c), (d +:+ b). by rewrite !app_str_assoc.
Qed.

(** A component of a text is in it, and with its slash unless it is the last. *)
Lemma component_contained c l : c ∈ l → contains (join "/" l) c = true.
Proof.
  induction l as [|x [|y l] IH]; intros Hin.
  - by apply elem_of_nil in Hin.
  - apply list_elem_of_singleton in Hin as ->. cbn [join]. apply contains_spec. exists "", "". by rewrite app_str_nil_r.
  - rewrite join_cons2. apply elem_of_cons in Hin as [->|Hin].
    + apply (contains_app "").
    + eapply contains_trans; [|by apply IH]. apply contains_spec.
      exists (x +:+ "/"), "". by rewrite app_str_nil_r, app_str_assoc.
Qed.
Lemma inner_component_contained c l : c ∈ removelast l → contains (join "/" l) (c +:+ "/") = true.
Proof.
  induction l as [|x [|y l] IH]; intros Hin; [by apply elem_of_nil in Hin..|].
  rewrite join_cons2. cbn [removelast] in Hin. apply elem_of_cons in Hin as [->|Hin].
  - rewrite <- app_str_assoc. apply (contains_app "").
  - eapply contains_trans; [|by apply IH]. apply contains_spec.
    exists (x +:+ "/"), "". by rewrite app_str_nil_r, app_str_assoc.
Qed.
Lemma removelast_filter {A} (P : A → Prop) `{∀ x, Decision (P x)} (l : list A) c :
  c ∈ removelast (filter P l) → c ∈ removelast l.
Proof.
  induction l as [|x l IH]; [done|]. rewrite filter_cons. destruct (decide (P x)) as [Hx|Hx].
  - destruct (filter P l) as [|y k] eqn:E; [intros Hc; by apply elem_of_nil in Hc|].
    destruct l as [|z l]; [done|]. intros [->|Hc]%elem_of_cons; [apply list_elem_of_here|].
    apply list_elem_of_further. by apply IH.
  - intros Hc%IH. destruct l as [|z l]; [done|]. by apply list_elem_of_further.
Qed.

(** The rules see every zone in the text of the path. *)
Lemma in_zone_contains s :
  in_zone s → (∃ marker, marker ∈ ToolRules.protected_paths ∧ contains s marker = true) ∨
              (∃ marker, marker ∈ ToolRules.sensitive_markers ∧ contains s marker = true).
Proof.
  pose proof (split_char_join (chr 47) s) as Hj. change (String (chr 47) "") with "/" in Hj.
  intros [(zone & Hz & Hin)|[(file & Hf & Hin)|(document & Hd & Hc)]].
  3: { left. exists document. split; [|done]. unfold PROTECTED_DOCUMENTS in Hd.
    repeat (apply elem_of_cons in Hd as [->|Hd]; [by apply (bool_decide_unpack _); vm_compute|]). by apply elem_of_nil in Hd. }
  - left. exists (zone +:+ "/"). apply removelast_filter, inner_component_contained in Hin. rewrite Hj in Hin.
    split; [|done]. clear -Hz. unfold PROTECTED_DIRS in Hz.
    repeat (apply elem_of_cons in Hz as [->|Hz]; [by apply (bool_decide_unpack _); vm_compute|]). by apply elem_of_nil in Hz.
  - apply list_elem_of_filter in Hin as [_ Hin]. apply component_contained in Hin. rewrite Hj in Hin.
    unfold PROTECTED_FILES in Hf. repeat (apply elem_of_cons in Hf as [->|Hf]); [left|left|right|by apply elem_of_nil in Hf];
      (eexists; split; [|exact Hin]; by apply (bool_decide_unpack _); vm_compute).
Qed.

Section tools.
  Context `{Env} (parse : pystr → option Z) (client : PolicyClient) `{!OpaServes parse client}.
  Context (secret : bytes) (tools : Tools) (store : path).

(** An executed call whose handler ran, or whose output is returned, is one the rules allow. *)
Lemma executed_allowed c run w r w' :
  w_runs w !! call_run_id c = Some run → json_ok (VDict (tool_payload c (run_actor run))) →
  allowed (ToolRules.rules (tool_payload c (run_actor run))) = false →
  execute (evaluate client) secret tools store c w = (Ok r, w') →
  res_allowed r = false ∧ res_output r = None ∧ w_runs w' = w_runs w ∧
  ∃ text w2, w_fs w2 = w_fs w ∧ EvidenceStore.put store text w2 = (Ok (sha256_hex text), w').
Proof using All.
  intros Hrun Hok Hno Hex%execute_spec.
  assert (Hin : (POLICY_POINT, ToolRules.rules) ∈ POLICIES parse) by (unfold POLICIES; set_solver).
  assert (Hdeny : ∀ pr w1, evaluate client POLICY_POINT (tool_payload c (run_actor run)) w = (Ok pr, w1) → pr_allow pr = false).
  { intros pr w1 He. destruct (served_decision parse client _ _ _ _ _ _ Hin Hok He) as (request & _ & ->).
    by rewrite Hno, andb_false_r. }
  destruct Hex as [run' pr w1 w2 Hr Hpol Hw2 _ Hal Hout _ Hrec|run' pr spec w1 w2 out w3 Hr Hpol Hg|
    run' pr spec w1 w2 out w3 Hr Hpol Hg]; rewrite Hrun in Hr; injection Hr as <-;
    [|destruct Hg as (Hg & _); rewrite (Hdeny _ _ Hpol) in Hg; done..].
  apply recorded_put in Hrec as [text Hput].
  pose proof (policy_frame (evaluate client) _ _ _ _ _ Hpol) as [Hfs Hruns].
  pose proof (check_frame secret (call_token c) (call_tool c) (call_scope c) None w1) as (Hfs2 & Hruns2 & _).
  assert (w_fs w2 = w_fs w ∧ w_runs w2 = w_runs w) as [? ?] by (destruct Hw2 as [-> | ->]; split; congruence).
  split_and!; [done|done| |by exists text, w2].
  pose proof (put_runs store text w2) as Hp. rewrite Hput in Hp. simpl in Hp. congruence.
Qed.

(** The path the policy is asked about is the one the call gives as its resource, or
    else the one among its arguments. *)
Lemma resource_path c s :
  s ≠ "" → call_resource c = s ∨ (call_resource c = "" ∧ dget (call_args c) "path" = Some (VStr s)) →
  policy_resource (call_resource c) (call_args c) = s.
Proof.
  intros Hs Hp. unfold policy_resource. destruct Hp as [Hp|[Hp Ha]]; rewrite Hp.
  - by rewrite !(bool_decide_false (s = "")).
  - assert (Hv : py_str (vor (VStr s) (VStr "")) = s) by (unfold vor; cbn; by rewrite bool_decide_false).
    unfold dget_or. rewrite Ha. cbn [from_option id]. rewrite Hv, (bool_decide_true ("" = "")) by done.
    by rewrite (bool_decide_false (s = "")).
Qed.

(** C14: end to end, a call of [write_file] whose path, as it is written, lies in a
    protected zone is refused and changes nothing but the evidence store - whatever
    token it carries.  The path is the argument [path], as the server's calls have
    it, or the resource, where the call gives one.  The zones are those of the
    policy; what escapes is a path that does not show its zone, by a dot component
    between [docs] and the document or by a symbolic link. *)
Theorem protected_zones_unwritten c run s w r w' :
  call_tool c = "write_file" → in_zone s →
  call_resource c = s ∨ (call_resource c = "" ∧ dget (call_args c) "path" = Some (VStr s)) →
  w_runs w !! call_run_id c = Some run → json_ok (VDict (tool_payload c (run_actor run))) →
  execute (evaluate client) secret tools store c w = (Ok r, w') →
  res_allowed r = false ∧ res_output r = None ∧ w_runs w' = w_runs w ∧
  ∃ text w2, w_fs w2 = w_fs w ∧ EvidenceStore.put store text w2 = (Ok (sha256_hex text), w').
Proof using All.
  intros Ht Hzone Hpath Hrun Hok. apply (executed_allowed c run); [done|done|].
  assert (Hs : s ≠ "").
  { intros ->. destruct Hzone as [(z & _ & Hin)|[(f & _ & Hin)|(d & Hd & Hin)]]; [vm_compute in Hin; by apply elem_of_nil in Hin..|].
    unfold PROTECTED_DOCUMENTS in Hd. set_unfold in Hd. destruct Hd as [->|[->|[]]]; by vm_compute in Hin. }
  assert (Hp : dget (tool_payload c (run_actor run)) "path" = Some (VStr s))
    by (unfold tool_payload; by rewrite (resource_path c s Hs Hpath)).
  apply not_true_iff_false. rewrite (tool_rules_allowed (tool_payload c (run_actor run)) (call_tool c) s eq_refl Hp). intros (_ & Hsens & Hprot).
  destruct (in_zone_contains s Hzone) as [(m & Hm & Hc)|(m & Hm & Hc)].
  - by rewrite (Hprot Ht m Hm) in Hc.
  - by rewrite (Hsens m Hm) in Hc.
Qed.
End tools.

(** * An OPA that serves the policies *)

Lemma json_ok_decision rules : Forall ustr rules.*1 → json_ok (decision rules).
Proof.
  intros Hr. assert (Hx : ∀ b l, Forall ustr l →
    json_ok (VDict [("allow", VBool b); ("reason_codes", VList (VStr <$> l))])).
  { intros b l Hl. constructor; [apply (bool_decide_unpack _); by vm_compute|].
    apply Forall_cons_2; [split; [by apply is_ascii_ustr|constructor]|].
    apply Forall_cons_2; [split; [by apply is_ascii_ustr|]|apply Forall_nil_2].
    constructor. apply Forall_fmap. eapply Forall_impl; [exact Hl|]. intros s Hs. by constructor. }
  unfold decision. destruct (deny_reasons rules) as [|reason l] eqn:E.
  - apply (Hx true ["ALLOWED"]). apply Forall_cons_2; [by apply is_ascii_ustr|apply Forall_nil_2].
  - apply Hx. rewrite Forall_forall in Hr |- *. intros x Hin. rewrite merge_sort_Permutation, <- E in Hin.
    apply elem_of_remove_dups, list_elem_of_fmap in Hin as (y & -> & [_ Hy]%list_elem_of_filter).
    apply Hr, list_elem_of_fmap. by exists y.
Qed.

Lemma policies_ascii parse point rules input : (point, rules) ∈ POLICIES parse → Forall ustr (rules input).*1.
Proof.
  unfold POLICIES. intros Hin.
  repeat (apply elem_of_cons in Hin as [[= _ ->]|Hin]; [cbn; repeat constructor; by apply is_ascii_ustr|]).
  by apply elem_of_nil in Hin.
Qed.

Section opa.
  Context (parse : pystr → option Z) (client : PolicyClient).

(** The policy at a URL. *)
Definition rules_at (url : pystr) : option (dict → list (string * bool)) :=
  snd <$> find (λ p : pystr * _, bool_decide (url = pc_base_url client +:+ "/" +:+ _decision_path p.1)) (POLICIES parse).
Definition opa_http (request : HttpRequest) : res bytes :=
  match http_body request, rules_at (http_url request) with
  | Some body, Some rules =>
      query ← loads_bytes body;
      match as_dict query ≫= (λ d, dget d "input") with
      | Some (VDict input) => Ok (dumps plain (VDict [("result", decision (rules input))]))
      | _ => Ok "{}"
      end
  | _, _ => raise URLError "not found"
  end.
(** The environment [E], with this OPA behind HTTP. *)
Definition opa_env (E : Env) : Env := {|
  env_clock := env_clock; env_utcnow := env_utcnow; env_uuid := env_uuid; env_http _ := opa_http; env_run := env_run;
  env_llm := env_llm; env_iter_errors := env_iter_errors; env_zlib := env_zlib; env_cwd := env_cwd;
  env_module_file := env_module_file; env_environ := env_environ; env_urandom := env_urandom
|}.

Lemma rules_at_point point rules :
  (point, rules) ∈ POLICIES parse → rules_at (pc_base_url client +:+ "/" +:+ _decision_path point) = Some rules.
Proof.
  unfold POLICIES, rules_at. intros Hin.
  assert (Hne : ∀ a b, a ≠ b → bool_decide (pc_base_url client +:+ "/" +:+ a = pc_base_url client +:+ "/" +:+ b) = false).
  { intros a b Hab. apply bool_decide_false. intros H%app_str_inj_l%app_str_inj_l. done. }
  repeat (apply elem_of_cons in Hin as [[= -> ->]|Hin]; [cbn [find POLICIES fst]|]); [..|by apply elem_of_nil in Hin];
    repeat first [rewrite bool_decide_true by done; done | rewrite Hne by (by vm_compute)].
Qed.

#[export] Instance opa_env_serves (E : Env) : OpaServes (H := opa_env E) parse client.
Proof.
  intros tick request point rules body query input raw Hin _ Hu Hb Hq Hi Hok Hraw.
  cbn [env_http opa_env] in Hraw. unfold opa_http in Hraw. rewrite Hb, Hu, (rules_at_point _ _ Hin), Hq in Hraw.
  cbn [mbind res_bind as_dict option_bind] in Hraw. rewrite Hi in Hraw. injection Hraw as <-.
  exists [("result", decision (rules input))]. split; [|done].
  apply loads_bytes_member; [by apply is_ascii_ustr|]. by eapply json_ok_decision, policies_ascii.
Qed.
End opa.

(** * Witnesses *)

Definition gate_client : PolicyClient := demo_client.
Definition gate_env : Env := opa_env demo_clock gate_client allow_env.

Definition ready_candidate : dict :=
  [("image", VStr "registry/app:1"); ("signature", VDict [("verified", VBool true)]);
   ("sbom", VDict [("present", VBool true)]); ("provenance", VDict [("verified", VBool true)]);
   ("policy_decisions", VList (VDict <$> [[("point", VStr "artifact-transition"); ("decision", VStr "allow")];
      [("point", VStr "pr-ci"); ("decision", VStr "allow")]]));
   ("required_approver_role", VStr "release-approver");
   ("approvals", VList (VDict <$> [[("role", VStr "release-approver"); ("actor", VDict human_actor)]]))].
Definition gate_release : ST World ReleaseVerification :=
  verify_release (H := gate_env) gate_client ready_candidate "EB-1" "PD-1" "t" [("id", VStr "ci")] "R" (Some ["repo"]).

Lemma ready_shape : candidate_shape ready_candidate (VStr "registry/app:1") (VStr "release-approver")
  [("verified", VBool true)] [("present", VBool true)] [("verified", VBool true)]
  [[("point", VStr "artifact-transition"); ("decision", VStr "allow")]; [("point", VStr "pr-ci"); ("decision", VStr "allow")]]
  [[("role", VStr "release-approver"); ("actor", VDict human_actor)]].
Proof. by split. Qed.

Lemma release_only_if_ready_witness :
  ∃ v w', gate_release release_world = (Ok v, w') ∧ rv_allow v = true ∧
    release_ready (VStr "registry/app:1") (VStr "release-approver") [("verified", VBool true)] [("present", VBool true)]
      [("verified", VBool true)]
      [[("point", VStr "artifact-transition"); ("decision", VStr "allow")];
       [("point", VStr "pr-ci"); ("decision", VStr "allow")]]
      [[("role", VStr "release-approver"); ("actor", VDict human_actor)]].
Proof.
  assert (Hx : match (gate_release release_world).1 with Ok v => rv_allow v | Raise _ => false end = true)
    by (vm_compute; reflexivity).
  destruct (gate_release release_world) as [[v|e] w'] eqn:E; [|discriminate Hx]. cbn in Hx.
  exists v, w'. split; [reflexivity|]. split; [exact Hx|].
  assert (Hok : json_ok (VDict ready_candidate)) by (apply json_okb_ok; vm_compute; reflexivity).
  destruct (release_only_if_ready (H := gate_env) demo_clock gate_client ready_candidate _ _ _ _ _ _ _ "EB-1" "PD-1" "t"
    [("id", VStr "ci")] "R" (Some ["repo"]) release_world v w' Hok ready_shape E) as (request & _ & Hr).
  apply Hr. exact Hx.
Defined.

Lemma transition_only_if_legal_witness :
  ∃ r w', ArtifactTransition.evaluate_transition (H := gate_env) gate_client "task" "in_review" "done" human_actor None None None
      empty_world = (Ok r, w') ∧ pr_allow r = true ∧ legal "task" "in_review" "done".
Proof.
  eexists _, _. split; [vm_compute; reflexivity|]. split; [reflexivity|].
  assert (Hok : json_ok (VDict (ArtifactTransition.build_transition_input "task" "in_review" "done" human_actor None None None)))
    by (apply json_okb_ok; vm_compute; reflexivity).
  destruct (transition_only_if_legal (H := gate_env) demo_clock gate_client "task" "in_review" "done" human_actor None None None
    empty_world _ _ Hok ltac:(vm_compute; reflexivity)) as (request & _ & Hr).
  apply Hr. reflexivity.
Defined.

(** The bridge's [write_file], confined to ["/work"], with a token for it. *)
Definition file_tools : Tools :=
  match (register_file_tools ∅ ["work"] two_runs).1 with Ok t => t | Raise _ => ∅ end.
Definition write_token : pystr :=
  match issue_token "key" (mkCapability "B" "write_file" "workspace" 1800000000) with Ok t => t | Raise _ => "" end.
Definition write_call (p : pystr) : Call :=
  mkCall "B" write_token "write_file" [("path", VStr p); ("content", VStr "text")] "workspace" "t" "PD-1" "EV-1" "".
Definition gate_execute : Call → ST World ExecutionResult :=
  execute (H := gate_env) (evaluate (H := gate_env) gate_client) "key" file_tools demo_store.

Lemma protected_zones_unwritten_witness :
  ∃ r w', gate_execute (write_call "policies/pre_tool_call.rego") two_runs = (Ok r, w') ∧ res_allowed r = false.
Proof.
  assert (Hx : is_ok (gate_execute (write_call "policies/pre_tool_call.rego") two_runs).1 = true) by (vm_compute; reflexivity).
  destruct (gate_execute (write_call "policies/pre_tool_call.rego") two_runs) as [[r|e] w'] eqn:E; [|discriminate Hx].
  exists r, w'. split; [reflexivity|].
  apply (protected_zones_unwritten (H := gate_env) demo_clock gate_client "key" file_tools demo_store
    (write_call "policies/pre_tool_call.rego") (mkRun "B" [("id", VStr "bob")] 0 false) "policies/pre_tool_call.rego"
    two_runs r w'); [reflexivity| |right; split; reflexivity|reflexivity| |exact E].
  - left. exists "policies". split; apply (bool_decide_unpack _); vm_compute; exact I.
  - apply json_okb_ok. vm_compute. reflexivity.
Defined.

(** the rules compare the text of a path and not the file it names: written with
    a [.] component, a protected document of the second level is not recognised,
    and the call overwrites it. *)
Theorem protected_document_overwritten :
  match gate_execute (write_call "docs/roadmap.md") two_runs, gate_execute (write_call "docs/./roadmap.md") two_runs with
  | (Ok r1, _), (Ok r2, w2) => res_allowed r1 = false ∧ res_allowed r2 = true ∧
      w_fs w2 !! ["work"; "docs"; "roadmap.md"] = Some (File "text")
  | _, _ => False
  end.
Proof. vm_compute. by split_and!. Qed.
