(* ===== verification/Render.v ===== *)
(** [sdlc/artifacts/render.py]: the Markdown view of an artifact, and the shapes -
    the part of the contracts in [contracts/schemas/] - that make it total. *)

From S2P Require Export PyValue.
#[local] Open Scope Z_scope.

(** * Format strings *)

(** [sep.join(vs)]: every element must be a string. *)
Definition py_join (sep : pystr) (vs : list value) : res pystr :=
  ss ← mapR (λ v, match v with VStr s => Ok s | _ => raise TypeError "sequence item: expected str instance" end) vs;
  mret (join sep ss).

(** The parts of an f-string over a value [x]. *)
Inductive frag :=
  | T (s : pystr)  (** text *)
  | X  (** [{x}] *)
  | F (k : string)  (** [{x[k]}] *)
  | G (k : string) (d : value)  (** [{x.get(k, d)}] *)
  | J (k : string)  (** [{', '.join(x[k])}] *)
  | JG (k : string)  (** [{', '.join(x.get(k, []))}] *)
  | Q (k : string)  (** [{', '.join('`' + r + '`' for r in x[k])}] *)
  | At (k : string) (f : frag)  (** [f] over [x[k]] *)
  | AtOr (k : string) (f : frag).  (** [f] over [(x[k] or {})] *)

Definition BACKTICK : string := "`".
Definition ticked (v : value) : res value :=
  match v with VStr s => Ok (VStr (BACKTICK +:+ s +:+ BACKTICK)) | _ => raise TypeError "can only concatenate str" end.

Fixpoint fill_frag (x : value) (f : frag) : res pystr :=
  match f with
  | T s => Ok s
  | X => Ok (py_str x)
  | F k => v ← vitem x k; Ok (py_str v)
  | G k d => v ← vget x k d; Ok (py_str v)
  | J k => v ← vitem x k; l ← viter v; py_join ", " l
  | JG k => v ← vget x k (VList []); l ← viter v; py_join ", " l
  | Q k => v ← vitem x k; l ← viter v; l ← mapR ticked l; py_join ", " l
  | At k f => v ← vitem x k; fill_frag v f
  | AtOr k f => v ← vitem x k; fill_frag (vor v (VDict [])) f
  end.
Definition fill (x : value) (fs : list frag) : res pystr :=
  ss ← mapR (fill_frag x) fs; mret (join "" ss).

(** The elements of a list of lines, in the order in which they are evaluated. *)
Definition text (ss : list pystr) : res (list value) := Ok (VStr <$> ss).
Definition line (x : value) (fs : list frag) : res (list value) := s ← fill x fs; Ok [VStr s].
Definition raw (x : value) (k : string) : res (list value) := v ← vitem x k; Ok [v].
(** [[f"..." for r in x[k]]] *)
Definition rows (x : value) (k : string) (fs : list frag) : res (list value) :=
  v ← vitem x k; l ← viter v; ss ← mapR (λ r, fill r fs) l; text ss.
(** [if x[k]:] *)
Definition if_item (x : value) (k : string) (m : res (list value)) : res (list value) :=
  v ← vitem x k; if truthy v then m else Ok [].
(** [if x.get(k):] *)
Definition if_get (x : value) (k : string) (m : res (list value)) : res (list value) :=
  v ← vget x k VNone; if truthy v then m else Ok [].
(** Python's newline-joined list of lines. *)
Definition lines (parts : list (res (list value))) : res pystr :=
  ps ← mapR id parts; py_join LF (concat ps).
Definition part (m : res pystr) : res (list value) := s ← m; Ok [VStr s].

(** * Sections *)

Definition GENERATED_HEADER (source : pystr) : pystr :=
  "<!-- GENERATED FILE. DO NOT EDIT. Source of truth: " +:+ source +:+ ". Regenerate with `sdlc render`. -->".

Definition _meta (x : value) : res pystr := lines [
  text ["| Поле | Значение |"; "|---|---|"];
  line x [T "| Artifact | `"; G "artifact_type" VNone; T "` |"];
  line x [T "| ID | `"; G "id" VNone; T "` |"];
  line x [T "| Schema | `"; G "schema_version" VNone; T "` |"];
  line x [T "| Created at | "; G "created_at" VNone; T " |"];
  (created_by ← vget x "created_by" VNone;
   let created_by := vor created_by (VDict []) in
   if truthy created_by then
     line created_by [T "| Created by | "; G "id" VNone; T " ("; G "role" VNone; T ") |"]
   else Ok []);
  if_get x "run_id" (line x [T "| Run ID | `"; F "run_id"; T "` |"]);
  if_get x "status" (line x [T "| Status | `"; F "status"; T "` |"])].

Definition _links (x : value) : res pystr :=
  links ← vget x "links" VNone;
  let links := vor links (VList []) in
  if negb (truthy links) then Ok "" else
  lines [text ["## Links"; ""; "| Relation | Reference |"; "|---|---|"];
         (l ← viter links; ss ← mapR (λ link, fill link [T "| "; F "rel"; T " | `"; F "href"; T "` |"]) l;
          text ss)].

Definition _approval (x : value) : res pystr :=
  approval ← vget x "approval" VNone;
  if negb (truthy approval) then Ok "" else
  approved ← vget approval "approved" VNone;
  by_ ← vget approval "by" VNone;
  who ← vget (vor by_ (VDict [])) "id" (VStr "?");
  lines [text ["## Approval"; "";
               "- State: **" +:+ (if truthy approved then "approved" else "not approved") +:+ "**"];
         line approval [T ("- By: " +:+ py_str who +:+ " at "); G "at" VNone];
         if_get approval "solo_override"
           (line approval [T "- `solo_override=true`: "; G "solo_override_reason" (VStr "")]);
         if_get approval "note" (line approval [T "- Note: "; F "note"])].

(** * Renderers *)

Definition _render_idea (x : value) : res pystr := lines [
  line x [T "# Idea: "; F "title"]; text [""]; part (_meta x); text [""; "## Problem"]; raw x "problem";
  text [""; "## Actor & goal"]; raw x "actor_goal"; text [""];
  line x [T "Source: `"; At "source" (G "kind" VNone); T "` (trust tier: `"; At "source" (G "trust_tier" VNone); T "`)"]].

Definition _render_specification (x : value) : res pystr := lines [
  line x [T "# Specification: "; F "id"]; text [""]; part (_meta x); text [""];
  text ["## Actor & goal"];
  line x [T "- Actors: "; At "actor_goal" (J "actors")]; line x [T "- Goal: "; At "actor_goal" (F "goal")]; text [""];
  text ["## Scope boundary"; "**In scope**"];
  (scope ← vitem x "scope_boundary"; rows scope "in_scope" [T "- "; X]); text [""; "**Out of scope**"];
  (scope ← vitem x "scope_boundary"; rows scope "out_of_scope" [T "- "; X]); text [""];
  text ["## Data model"; "| Entity | Fields |"; "|---|---|"];
  rows x "data_model" [T "| "; F "entity"; T " | "; J "fields"; T " |"];
  text [""; "## API contract"; "| Operation | Kind | Summary |"; "|---|---|---|"];
  rows x "api_contract" [T "| `"; F "operation_id"; T "` | "; F "kind"; T " | "; F "summary"; T " |"];
  text [""; "## State / lifecycle"; "| From | To | Actor |"; "|---|---|---|"];
  rows x "state_lifecycle" [T "| "; F "from"; T " | "; F "to"; T " | "; F "actor"; T " |"];
  text [""; "## Acceptance criteria"; "| Requirement | Criterion | Verification |"; "|---|---|---|"];
  rows x "acceptance_criteria"
    [T "| `"; F "requirement_id"; T "` | "; F "criterion"; T " | "; G "verification" (VStr ""); T " |"];
  text [""; "## Non-goals"]; rows x "non_goals" [T "- "; X]].

Definition _render_threat_model (x : value) : res pystr := lines [
  line x [T "# Threat Model: "; F "id"]; text [""]; part (_meta x); text [""];
  line x [T "Method: **"; F "method"; T "**"]; text [""];
  text ["## Data flows"; "| ID | From | To | Data | Crosses trust boundary |"; "|---|---|---|---|---|"];
  rows x "data_flows" [T "| "; F "id"; T " | "; F "from"; T " | "; F "to"; T " | "; J "data"; T " | ";
    F "crosses_trust_boundary"; T " |"];
  text [""; "## Risks (STRIDE)"; "| ID | Category | Severity | Scenario | Control | Verification test |";
    "|---|---|---|---|---|---|"];
  rows x "risks" [T "| `"; F "id"; T "` | "; F "category"; T " | **"; F "severity"; T "** | "; F "scenario"; T " | `";
    F "control_id"; T "` | "; F "verification_test"; T " |"]].

Definition _render_plan (x : value) : res pystr := lines [
  line x [T "# Implementation Plan: "; F "id"]; text [""]; part (_meta x);
  text [""; "## Slices"; "| Slice | Title | Requirements | Controls | Depends on |"; "|---|---|---|---|---|"];
  rows x "slices" [T "| "; F "slice_id"; T " | "; F "title"; T " | "; Q "requirement_ids"; T " | "; Q "control_ids";
    T " | "; JG "depends_on"; T " |"]].

Definition _render_task (x : value) : res pystr := lines [
  line x [T "# Task: "; F "title"]; text [""]; part (_meta x); text [""];
  line x [T "- Feature: `"; F "feature_id"; T "`"]; line x [T "- Plan: `"; F "plan_id"; T "`"];
  line x [T "- Branch: `"; G "branch" (VStr "n/a"); T "`"]; text [""];
  text ["## Requirements"]; rows x "requirement_ids" [T "- `"; X; T "`"]; text [""];
  if_item x "control_ids"
    (ss ← rows x "control_ids" [T "- `"; X; T "`"]; Ok ([VStr "## Controls"] ++ ss ++ [VStr ""])%list);
  text ["## Contract changes"]; rows x "contract_changes" [T "- "; X]; text [""];
  text ["## Code changes"]; rows x "code_changes" [T "- "; X]; text [""];
  text ["## Tests"; "| Kind | Ref | Requirement |"; "|---|---|---|"];
  rows x "tests" [T "| "; F "kind"; T " | `"; F "ref"; T "` | `"; F "requirement_id"; T "` |"]].

Definition _render_review (x : value) : res pystr := lines [
  line x [T "# Review: "; F "id"]; text [""]; part (_meta x); text [""];
  line x [T "Task: `"; F "task_id"; T "`  "]; line x [T "Subject digest: `"; F "subject_digest"; T "`"]; text [""];
  line x [T "**Verdict: "; F "verdict"; T "**"];
  text [""; "## Findings"; "| ID | Severity | Summary |"; "|---|---|---|"];
  (found ← rows x "findings" [T "| `"; F "id"; T "` | "; F "severity"; T " | "; F "summary"; T " |"];
   Ok match found with [] => [VStr "| - | - | none |"] | _ => found end)].

Definition _render_security_review (x : value) : res pystr := lines [
  line x [T "# Security Review: "; F "id"]; text [""]; part (_meta x); text [""];
  line x [T "Threat model: `"; F "threat_model_id"; T "`"]; text [""];
  line x [T "**Verdict: "; F "verdict"; T "**"];
  text [""; "## Risk dispositions"; "| Risk | Severity | Disposition | Waiver |"; "|---|---|---|---|"];
  rows x "risk_dispositions" [T "| `"; F "risk_id"; T "` | "; F "severity"; T " | "; F "disposition"; T " | `";
    G "waiver_id" (VStr "-"); T "` |"]].

Definition _render_policy_decision (x : value) : res pystr := lines [
  line x [T "# Policy Decision: "; F "id"]; text [""]; part (_meta x); text [""];
  line x [T "- Point: `"; F "point"; T "`"]; line x [T "- Decision: **"; F "decision"; T "**"];
  line x [T "- Reason codes: "; Q "reason_codes"]; line x [T "- Bundle: `"; F "policy_bundle_version"; T "`"];
  line x [T "- Input digest: `"; F "input_digest"; T "`"]].

Definition _render_evidence_record (x : value) : res pystr := lines [
  line x [T "# Evidence Record: "; F "id"]; text [""]; part (_meta x); text [""];
  line x [T "- Action: "; F "action"]; line x [T "- Trust tier: `"; F "trust_tier"; T "`"];
  line x [T "- Sensitivity: `"; F "sensitivity"; T "`"];
  if_get x "artifact_digest" (line x [T "- Artifact digest: `"; F "artifact_digest"; T "`"]);
  (compression ← vget x "compression" VNone;
   if truthy compression then
     if_get compression "applied" (line compression [T "- Compression: `"; G "original_size_bytes" VNone; T "` -> `";
       G "compressed_size_bytes" VNone; T "` bytes, handle `"; G "recovery_handle" VNone; T "`"])
   else Ok [])].

Definition _render_waiver (x : value) : res pystr := lines [
  line x [T "# Waiver: "; F "id"]; text [""]; part (_meta x); text [""];
  line x [T "- Risk: `"; F "risk_id"; T "` (severity: "; F "severity"; T ")"];
  line x [T "- Justification: "; F "justification"]; line x [T "- Compensating control: "; F "compensating_control"];
  line x [T "- Owner: "; AtOr "owner" (G "id" VNone)]; line x [T "- Expires at: "; F "expires_at"];
  line x [T "- Approved by: "; AtOr "approved_by" (G "id" VNone)]].

Definition _render_baseline (x : value) : res pystr := lines [
  line x [T "# Architecture Baseline: "; F "baseline_id"]; text [""];
  line x [T "- Version: "; F "version"]; line x [T "- Status: "; F "status"]; line x [T "- Profile: **"; F "profile"; T "**"];
  line x [T "- Approved by: "; J "approved_by"]; line x [T "- Approved at: "; F "approved_at"]; text [""];
  text ["Машиночитаемый источник: `baseline.json`."]].

Definition _RENDERERS : list (string * (value → res pystr)) :=
  [("idea", _render_idea); ("specification", _render_specification); ("threat-model", _render_threat_model);
   ("plan", _render_plan); ("task", _render_task); ("review", _render_review);
   ("security-review", _render_security_review); ("policy-decision", _render_policy_decision);
   ("evidence-record", _render_evidence_record); ("waiver", _render_waiver); ("baseline", _render_baseline)].

Definition artifact_type_of (instance : dict) : value :=
  if negb (dhas instance "artifact_type") && dhas instance "baseline_id" then VStr "baseline"
  else dget_none instance "artifact_type".

Definition render_artifact (instance : dict) (source : pystr) : res pystr :=
  let artifact_type := artifact_type_of instance in
  match list_find (λ kr, kr.1 = py_str artifact_type) _RENDERERS with
  | None => raise ValueError ("no renderer for artifact_type=" +:+ repr artifact_type)
  | Some (_, (_, renderer)) =>
      body ← renderer (VDict instance);
      links ← _links (VDict instance);
      approval ← _approval (VDict instance);
      let body := match filter (λ section, section ≠ "") [links; approval] with
        | [] => body
        | extras => body +:+ LF +:+ LF +:+ join (LF +:+ LF) extras
        end in
      mret (GENERATED_HEADER source +:+ LF +:+ LF +:+ body +:+ LF)
  end.

(** * Shapes

    The part of a contract's JSON Schema that rendering relies on: which fields are
    required, and which values must be objects, lists or strings. *)

#[warnings="-register-all"]
Inductive ty :=
  | Any
  | Str
  | ListOf (t : ty)
  | OrFalsy (t : ty)  (** [t], or a value that [or] replaces *)
  | Obj (required optional : list (string * ty)).

Fixpoint has_ty (t : ty) (v : value) : bool :=
  match t with
  | Any => true
  | Str => match v with VStr _ => true | _ => false end
  | ListOf t => match v with VList l => forallb (has_ty t) l | _ => false end
  | OrFalsy t => negb (truthy v) || has_ty t v
  | Obj required optional =>
      match v with
      | VDict d =>
          forallb (λ kt, match dget d kt.1 with Some v => has_ty kt.2 v | None => false end) required
          && forallb (λ kt, match dget d kt.1 with Some v => has_ty kt.2 v | None => true end) optional
      | _ => false
      end
  end.

Definition strs (k : string) : string * ty := (k, ListOf Str).
Definition anys (ks : list string) : list (string * ty) := (λ k, (k, Any)) <$> ks.
Definition entries (k : string) (ks : list string) : string * ty := (k, ListOf (Obj (anys ks) [])).

(** [common.schema.json]: actor, link, approval. *)
Definition ENVELOPE : list (string * ty) :=
  [("created_by", OrFalsy (Obj [] [])); ("links", OrFalsy (ListOf (Obj (anys ["rel"; "href"]) [])));
   ("approval", OrFalsy (Obj [] [("by", OrFalsy (Obj [] []))]))].

Definition required_of (artifact_type : string) : option (list (string * ty)) :=
  list_to_map (M := gmap string (list (string * ty)))
    [("idea", [("title", Any); ("problem", Str); ("actor_goal", Str); ("source", Obj [] [])]);
     ("specification", anys ["id"] ++
       [("actor_goal", Obj [strs "actors"; ("goal", Any)] []);
        ("scope_boundary", Obj [strs "in_scope"; strs "out_of_scope"] []);
        ("data_model", ListOf (Obj [("entity", Any); strs "fields"] []));
        entries "api_contract" ["operation_id"; "kind"; "summary"]; entries "state_lifecycle" ["from"; "to"; "actor"];
        entries "acceptance_criteria" ["requirement_id"; "criterion"]; strs "non_goals"]);
     ("threat-model", anys ["id"; "method"] ++
       [("data_flows", ListOf (Obj (anys ["id"; "from"; "to"; "crosses_trust_boundary"] ++ [strs "data"]) []));
        entries "risks" ["id"; "category"; "severity"; "scenario"; "control_id"; "verification_test"]]);
     ("plan", [("id", Any); ("slices", ListOf (Obj [("slice_id", Any); ("title", Any); strs "requirement_ids";
        strs "control_ids"] [strs "depends_on"]))]);
     ("task", anys ["title"; "feature_id"; "plan_id"] ++ [strs "requirement_ids"; strs "control_ids";
        strs "contract_changes"; strs "code_changes"; entries "tests" ["kind"; "ref"; "requirement_id"]]);
     ("review", anys ["id"; "task_id"; "subject_digest"; "verdict"] ++ [entries "findings" ["id"; "severity"; "summary"]]);
     ("security-review", anys ["id"; "threat_model_id"; "verdict"] ++
       [entries "risk_dispositions" ["risk_id"; "severity"; "disposition"]]);
     ("policy-decision", anys ["id"; "point"; "decision"; "policy_bundle_version"; "input_digest"] ++ [strs "reason_codes"]);
     ("evidence-record", anys ["id"; "action"; "trust_tier"; "sensitivity"]);
     ("waiver", anys ["id"; "risk_id"; "severity"; "justification"; "compensating_control"; "expires_at"] ++
       [("owner", OrFalsy (Obj [] [])); ("approved_by", OrFalsy (Obj [] []))]);
     ("baseline", anys ["baseline_id"; "version"; "status"; "profile"; "approved_at"] ++ [strs "approved_by"])]%list
  !! artifact_type.

Definition optional_of (artifact_type : string) : list (string * ty) :=
  if artifact_type ≟ "evidence-record" then ("compression", OrFalsy (Obj [] [])) :: ENVELOPE else ENVELOPE.

(** The documents of a type that rendering is made for. *)
Definition conforms (artifact_type : string) (instance : dict) : bool :=
  match required_of artifact_type with
  | Some required => has_ty (Obj required (optional_of artifact_type)) (VDict instance)
  | None => false
  end.

(** * Soundness *)

(** A list of lines of text. *)
Definition good (m : res (list value)) : Prop := ∃ ss, m = Ok (VStr <$> ss).
Definition fine (m : res pystr) : Prop := ∃ s, m = Ok s.

Lemma py_join_strs sep ss : py_join sep (VStr <$> ss) = Ok (join sep ss).
Proof.
  unfold py_join. rewrite (mapR_pure _ (λ v, match v with VStr s => s | _ => "" end)).
  - cbn. do 2 f_equal. rewrite <-list_fmap_compose. by apply list_fmap_id.
  - intros v (s & -> & _)%list_elem_of_fmap. done.
Qed.

Lemma lines_fine ps : Forall good ps → fine (lines ps).
Proof.
  intros H. assert (∃ ss, mapR id ps = Ok ((λ l : list pystr, VStr <$> l) <$> ss)) as [ss E].
  { induction H as [|p ps [s Hs] _ [ss E]]; [by exists []|]. exists (s :: ss). cbn. by rewrite Hs, E. }
  unfold lines. rewrite E. cbn [mbind res_bind]. eexists.
  assert (concat ((λ l : list pystr, VStr <$> l) <$> ss) = VStr <$> concat ss) as ->; [|apply py_join_strs].
  clear E. induction ss as [|s ss IH]; [done|]. cbn. by rewrite IH, fmap_app.
Qed.

Lemma text_good ss : good (text ss).
Proof. by exists ss. Qed.
Lemma part_good m : fine m → good (part m).
Proof. intros [s ->]. by exists [s]. Qed.
Create HintDb render discriminated.
#[export] Hint Resolve text_good part_good lines_fine : render.

Lemma has_ty_obj required optional v :
  has_ty (Obj required optional) v = true → ∃ d, v = VDict d ∧
    (∀ k t, (k, t) ∈ required → ∃ w, dget d k = Some w ∧ has_ty t w = true) ∧
    (∀ k t w, (k, t) ∈ optional → dget d k = Some w → has_ty t w = true).
Proof.
  destruct v as [| | | | | |d]; try done. intros [Hr Ho]%andb_true_iff. exists d. rewrite forallb_forall in Hr, Ho.
  split_and!; [done| |].
  - intros k t Hk. apply list_elem_of_In, Hr in Hk. cbn in Hk. destruct (dget d k) as [w|]; [by exists w|done].
  - intros k t w Hk Hw. apply list_elem_of_In, Ho in Hk. cbn in Hk. by rewrite Hw in Hk.
Qed.

(** What a fragment needs of the fields of its value. *)
Fixpoint fits (required optional : list (string * ty)) (f : frag) : Prop :=
  match f with
  | T _ | X | G _ _ => True
  | F k => ∃ t, (k, t) ∈ required
  | J k | Q k => strs k ∈ required
  | JG k => strs k ∈ optional
  | At k f => ∃ r o, (k, Obj r o) ∈ required ∧ fits r o f
  | AtOr k (G _ _) => ∃ r o, (k, OrFalsy (Obj r o)) ∈ required
  | AtOr _ _ => False
  end.

Lemma str_list_Ok v : has_ty (ListOf Str) v = true → ∃ ss, v = VList (VStr <$> ss).
Proof.
  destruct v as [| | | | |l|]; try done. cbn. intros H. exists (omap as_str l). f_equal.
  induction l as [|[| | | |s| |] l IH]; cbn in *; try done. by rewrite <-IH.
Qed.

Lemma fill_frag_fine f required optional v :
  has_ty (Obj required optional) v = true → fits required optional f → fine (fill_frag v f).
Proof.
  revert required optional v. induction f as [s| |k|k d|k|k|k|k f IH|k f IH]; intros required optional v Hv;
    cbn [fits fill_frag]; unfold fine; try (by eauto);
    apply has_ty_obj in Hv as (d' & -> & Hr & Ho); cbn [vitem vget]; unfold ditem, dget_or.
  - intros [t Hk]. destruct (Hr _ _ Hk) as (w & -> & _). by eexists.
  - intros _. by eexists.
  - intros Hk. destruct (Hr _ _ Hk) as (w & -> & (ss & ->)%str_list_Ok). cbn [mbind res_bind viter].
    rewrite py_join_strs. by eexists.
  - intros Hk. destruct (dget d' k) as [w|] eqn:Ew; [|by eexists]. destruct (str_list_Ok _ (Ho _ _ _ Hk Ew)) as [ss ->].
    cbn [mbind res_bind viter from_option id]. rewrite py_join_strs. by eexists.
  - intros Hk. destruct (Hr _ _ Hk) as (w & -> & (ss & ->)%str_list_Ok). cbn [mbind res_bind viter].
    assert (mapR ticked (VStr <$> ss) = Ok (VStr <$> ((λ s, BACKTICK +:+ s +:+ BACKTICK) <$> ss))) as ->.
    { induction ss as [|s ss IHs]; [done|]. cbn [fmap list_fmap mapR ticked mbind res_bind]. by rewrite IHs. }
    cbn [mbind res_bind]. rewrite py_join_strs. by eexists.
  - intros (r & o & Hk & Hf). destruct (Hr _ _ Hk) as (w & -> & Hw). cbn [mbind res_bind]. by eapply IH.
  - destruct f as [| | |k' d| | | | |]; try done. intros (r & o & Hk). destruct (Hr _ _ Hk) as (w & -> & Hw).
    cbn [mbind res_bind fill_frag]. unfold vor. cbn [has_ty] in Hw.
    destruct (truthy w) eqn:Et; [|by eexists]. cbn [negb orb] in Hw. destruct w; try done. by eexists.
Qed.

Lemma fill_fine fs required optional v :
  has_ty (Obj required optional) v = true → Forall (fits required optional) fs → fine (fill v fs).
Proof.
  intros Hv H. assert (∃ ss, mapR (fill_frag v) fs = Ok ss) as [ss E].
  { induction H as [|f fs Hf _ [ss E]]; [by exists []|]. destruct (fill_frag_fine _ _ _ _ Hv Hf) as [s Hs].
    exists (s :: ss). cbn. by rewrite Hs, E. }
  unfold fill. rewrite E. by eexists.
Qed.

Lemma line_good fs required optional v :
  has_ty (Obj required optional) v = true → Forall (fits required optional) fs → good (line v fs).
Proof. intros Hv [s E]%(fill_fine _ _ _ _ Hv). unfold line. rewrite E. by exists [s]. Qed.

Lemma mapR_fine {A} (f : A → res pystr) l : (∀ x, x ∈ l → fine (f x)) → ∃ ss, mapR f l = Ok ss.
Proof.
  induction l as [|x l IH]; intros H; [by exists []|]. destruct (H x) as [s Hs]; [set_solver|].
  destruct IH as [ss E]; [set_solver|]. exists (s :: ss). cbn. by rewrite Hs, E.
Qed.

Lemma rows_of_good (fs : list frag) t v :
  has_ty (ListOf t) v = true → (∀ w, has_ty t w = true → fine (fill w fs)) →
  good (l ← viter v; ss ← mapR (λ r, fill r fs) l; text ss).
Proof.
  destruct v as [| | | | |l|]; try done. cbn. rewrite forallb_forall. intros H Hf.
  destruct (mapR_fine (λ r, fill r fs) l) as [ss ->]; [|by exists ss].
  intros w Hw%list_elem_of_In. by apply Hf, H.
Qed.

Lemma item_Ok required optional v k t :
  has_ty (Obj required optional) v = true → (k, t) ∈ required → ∃ w, vitem v k = Ok w ∧ has_ty t w = true.
Proof.
  intros (d & -> & Hr & _)%has_ty_obj (w & E & Hw)%Hr. exists w. cbn [vitem]. unfold ditem. by rewrite E.
Qed.

Lemma rows_good fs required optional v k t :
  has_ty (Obj required optional) v = true → (k, ListOf t) ∈ required →
  (∀ w, has_ty t w = true → fine (fill w fs)) → good (rows v k fs).
Proof. intros Hv Hk Hf. destruct (item_Ok _ _ _ _ _ Hv Hk) as (w & E & Hw). unfold rows. rewrite E. by eapply rows_of_good. Qed.

(** Rows of objects, and rows of plain values. *)
Lemma obj_rows_good fs required optional v k r o :
  has_ty (Obj required optional) v = true → (k, ListOf (Obj r o)) ∈ required → Forall (fits r o) fs →
  good (rows v k fs).
Proof. intros Hv Hk Hf. eapply rows_good; [done..|]. intros w Hw. by eapply fill_fine. Qed.
Definition plain_frag (f : frag) : Prop := match f with T _ | X => True | _ => False end.
Lemma plain_rows_good fs required optional v k t :
  has_ty (Obj required optional) v = true → (k, ListOf t) ∈ required → Forall plain_frag fs → good (rows v k fs).
Proof.
  intros Hv Hk Hf. eapply rows_good; [done..|]. intros w _.
  assert (∃ ss, mapR (fill_frag w) fs = Ok ss) as [ss E]; [|unfold fill; rewrite E; by eexists].
  apply mapR_fine. intros f Hx. rewrite Forall_forall in Hf. specialize (Hf f Hx). destruct f; try done; by eexists.
Qed.

Lemma if_get_good required optional v k m :
  has_ty (Obj required optional) v = true →
  (has_ty (Obj ((k, Any) :: required) optional) v = true → good m) → good (if_get v k m).
Proof.
  intros Hv Hm. pose proof (has_ty_obj _ _ _ Hv) as (d & -> & _). unfold if_get. cbn [vget]. unfold dget_or.
  cbn [mbind res_bind has_ty forallb fst snd] in *. destruct (dget d k) as [w|]; [|by exists []].
  cbn. destruct (truthy w); [by apply Hm|by exists []].
Qed.
Lemma if_item_good required optional v k t m :
  has_ty (Obj required optional) v = true → (k, t) ∈ required → good m → good (if_item v k m).
Proof.
  intros Hv Hk Hm. destruct (item_Ok _ _ _ _ _ Hv Hk) as (w & E & _). unfold if_item. rewrite E.
  cbn [mbind res_bind]. destruct (truthy w); [done|by exists []].
Qed.

(** An optional part that must be of a type unless it is falsy. *)
Lemma get_or_falsy required optional v k t :
  has_ty (Obj required optional) v = true → (k, OrFalsy t) ∈ optional →
  ∃ w, vget v k VNone = Ok w ∧ (truthy w = true → has_ty t w = true).
Proof.
  intros (d & -> & _ & Ho)%has_ty_obj Hk. cbn [vget]. unfold dget_or. destruct (dget d k) as [w|] eqn:E.
  - exists w. split; [done|]. intros Ht. specialize (Ho _ _ _ Hk E). cbn [has_ty] in Ho. by rewrite Ht in Ho.
  - by exists VNone.
Qed.

(** Fields that a template needs, looked up in a shape. *)
Definition field (k : string) (fs : list (string * ty)) : option ty :=
  snd <$> head (filter (λ kt, kt.1 = k) fs).
Lemma field_elem k fs t : field k fs = Some t → (k, t) ∈ fs.
Proof.
  unfold field. destruct (filter _ fs) as [|[k' t'] l] eqn:E; [done|]. intros [= <-].
  assert ((k', t') ∈ filter (λ kt : string * ty, kt.1 = k) fs) as [Hk Hi]%list_elem_of_filter by (rewrite E; set_solver).
  cbn in Hk. by subst.
Qed.
Ltac in_shape := apply field_elem; reflexivity.
Ltac fits_one :=
  cbn [fits];
  lazymatch goal with
  | |- True => exact I
  | |- ∃ t, _ ∈ _ => eexists; in_shape
  | |- ∃ r o, _ ∈ _ => do 2 eexists; in_shape
  | |- ∃ r o, _ ∈ _ ∧ _ => do 2 eexists; split; [in_shape|fits_one]
  | |- _ => in_shape
  end.
Ltac fits_shape := repeat first [apply Forall_nil_2|apply Forall_cons; split]; fits_one.
Ltac each_line := apply lines_fine; repeat first [apply Forall_nil_2|apply Forall_cons; split]; auto with render.

(** ** The sections every document has *)

Section sections.
  Context (required optional : list (string * ty)) (v : value).
  Hypothesis Hv : has_ty (Obj required optional) v = true.
  Hypothesis Henv : ENVELOPE ⊆ optional.

Lemma meta_fine : fine (_meta v).
Proof.
  destruct (get_or_falsy _ _ _ "created_by" (Obj [] []) Hv) as (w & E & Hw); [apply Henv; set_solver|].
  each_line; try (by eapply line_good; [exact Hv|fits_shape]);
    try (by eapply if_get_good; [exact Hv|]; intros Hv'; eapply line_good; [exact Hv'|fits_shape]).
  rewrite E. cbn [mbind res_bind]. unfold vor. destruct (truthy w) eqn:Et; [|by exists []]. rewrite Et.
  eapply line_good; [by apply Hw|fits_shape].
Qed.

Lemma links_fine : fine (_links v).
Proof.
  destruct (get_or_falsy _ _ _ "links" (ListOf (Obj (anys ["rel"; "href"]) [])) Hv) as (w & E & Hw); [apply Henv; set_solver|].
  unfold _links. rewrite E. cbn [mbind res_bind]. unfold vor. destruct (truthy w) eqn:Et; [|by eexists]. rewrite Et.
  apply lines_fine. apply Forall_cons. split; [auto with render|]. apply Forall_singleton.
  eapply rows_of_good; [by apply Hw|]. intros r Hr. eapply fill_fine; [exact Hr|fits_shape].
Qed.

Lemma approval_fine : fine (_approval v).
Proof.
  destruct (get_or_falsy _ _ _ "approval" (Obj [] [("by", OrFalsy (Obj [] []))]) Hv) as (w & E & Hw); [apply Henv; set_solver|].
  unfold _approval. rewrite E. cbn [mbind res_bind]. destruct (truthy w); [|by eexists]. specialize (Hw eq_refl). cbn [negb].
  destruct (get_or_falsy _ _ _ "by" (Obj [] []) Hw) as (b & Eb & Hb); [set_solver|].
  pose proof (has_ty_obj _ _ _ Hw) as (d & -> & _). cbn [vget mbind res_bind] in *.
  injection Eb as <-. set (b := dget_or d "by" VNone) in *.
  assert (∃ who, vget (vor b (VDict [])) "id" (VStr "?") = Ok who) as [who ->].
  { unfold vor. destruct (truthy b); [|by eexists]. specialize (Hb eq_refl). destruct b; try done. by eexists. }
  cbn [mbind res_bind]. each_line; try (by eapply line_good; [exact Hw|fits_shape]);
    (eapply if_get_good; [exact Hw|]; intros Hv'; eapply line_good; [exact Hv'|fits_shape]).
Qed.
End sections.

(** ** Each renderer *)

Lemma envelope_optional t : ENVELOPE ⊆ optional_of t.
Proof. unfold optional_of. case_bool_decide; set_solver. Qed.

(** The elements of a renderer's list of lines, over a value [Hv] of its shape. *)
Ltac render_part Hv :=
  first
    [ apply part_good; eapply meta_fine; [exact Hv|apply envelope_optional]
    | eapply line_good; [exact Hv|fits_shape]
    | eapply obj_rows_good; [exact Hv|in_shape|fits_shape]
    | eapply plain_rows_good; [exact Hv|in_shape|by repeat constructor]
    | eapply if_get_good; [exact Hv|]; let H := fresh in intros H; eapply line_good; [exact H|fits_shape] ].
Ltac render_lines Hv := each_line; try (render_part Hv).

Definition shape_of (artifact_type : string) : ty :=
  Obj (default [] (required_of artifact_type)) (optional_of artifact_type).

Lemma conforms_shape t d : conforms t d = true → has_ty (shape_of t) (VDict d) = true.
Proof. unfold conforms, shape_of. destruct (required_of t); [done|by intros [=]]. Qed.

Section renderers.
  Context (v : value).

Lemma threat_model_fine : has_ty (shape_of "threat-model") v = true → fine (_render_threat_model v).
Proof. intros Hv. render_lines Hv. Qed.
Lemma plan_fine : has_ty (shape_of "plan") v = true → fine (_render_plan v).
Proof. intros Hv. render_lines Hv. Qed.
Lemma security_review_fine : has_ty (shape_of "security-review") v = true → fine (_render_security_review v).
Proof. intros Hv. render_lines Hv. Qed.
Lemma policy_decision_fine : has_ty (shape_of "policy-decision") v = true → fine (_render_policy_decision v).
Proof. intros Hv. render_lines Hv. Qed.
Lemma waiver_fine : has_ty (shape_of "waiver") v = true → fine (_render_waiver v).
Proof. intros Hv. render_lines Hv. Qed.
Lemma raw_good required optional k :
  has_ty (Obj required optional) v = true → (k, Str) ∈ required → good (raw v k).
Proof.
  intros Hv Hk. destruct (item_Ok _ _ _ _ _ Hv Hk) as (w & E & Hw). unfold raw. rewrite E.
  destruct w; try done. by eexists [_].
Qed.

Lemma idea_fine : has_ty (shape_of "idea") v = true → fine (_render_idea v).
Proof. intros Hv. render_lines Hv; (eapply raw_good; [exact Hv|in_shape]). Qed.

Lemma specification_fine : has_ty (shape_of "specification") v = true → fine (_render_specification v).
Proof.
  intros Hv. render_lines Hv;
    (destruct (item_Ok _ _ _ "scope_boundary" (Obj [strs "in_scope"; strs "out_of_scope"] []) Hv) as (w & -> & Hw);
     [in_shape|cbn [mbind res_bind]; render_part Hw]).
Qed.

Lemma task_fine : has_ty (shape_of "task") v = true → fine (_render_task v).
Proof.
  intros Hv. render_lines Hv. eapply if_item_good; [exact Hv|in_shape|].
  assert (good (rows v "control_ids" [T "- `"; X; T "`"])) as [ss ->] by (render_part Hv).
  exists ("## Controls" :: ss ++ [""])%list. cbn. by rewrite fmap_app.
Qed.

Lemma review_fine : has_ty (shape_of "review") v = true → fine (_render_review v).
Proof.
  intros Hv. render_lines Hv.
  assert (good (rows v "findings" [T "| `"; F "id"; T "` | "; F "severity"; T " | "; F "summary"; T " |"])) as [ss ->]
    by (render_part Hv).
  destruct ss as [|s ss]; [by exists ["| - | - | none |"]|by exists (s :: ss)].
Qed.

Lemma evidence_record_fine : has_ty (shape_of "evidence-record") v = true → fine (_render_evidence_record v).
Proof.
  intros Hv. render_lines Hv.
  destruct (get_or_falsy _ _ _ "compression" (Obj [] []) Hv) as (w & -> & Hw); [in_shape|]. cbn [mbind res_bind].
  destruct (truthy w); [|by exists []]. specialize (Hw eq_refl). render_part Hw.
Qed.

Lemma baseline_fine : has_ty (shape_of "baseline") v = true → fine (_render_baseline v).
Proof. intros Hv. render_lines Hv. Qed.
End renderers.

(** The renderer of a type with a shape, and that it renders documents of that shape. *)
Lemma renderer_fine t : is_Some (required_of t) →
  ∃ i renderer, list_find (λ kr, kr.1 = t) _RENDERERS = Some (i, (t, renderer)) ∧
    ∀ d, has_ty (shape_of t) (VDict d) = true → fine (renderer (VDict d)).
Proof.
  intros [r Hr]. unfold required_of in Hr. apply elem_of_list_to_map_2 in Hr.
  rewrite !elem_of_cons, elem_of_nil in Hr.
  repeat (destruct Hr as [[= -> _]|Hr];
    [eexists _, _; split; [reflexivity|];
     eauto using idea_fine, specification_fine, threat_model_fine, plan_fine, task_fine, review_fine,
       security_review_fine, policy_decision_fine, evidence_record_fine, waiver_fine, baseline_fine|]).
  done.
Qed.

(** * Properties *)

(** C40: well-typed documents always render.  A document that has the fields and the
    types its contract asks for - of any of the eleven artifact types, a baseline
    recognised by its [baseline_id] - is rendered without an exception, whatever
    else it contains, to Markdown that opens with the generated-file notice and
    ends with a line feed. *)
Theorem well_typed_renders artifact_type instance source :
  artifact_type_of instance = VStr artifact_type → conforms artifact_type instance = true →
  ∃ body, render_artifact instance source = Ok (GENERATED_HEADER source +:+ LF +:+ LF +:+ body +:+ LF).
Proof.
  intros Ht Hc. pose proof (conforms_shape _ _ Hc) as Hv. unfold render_artifact. rewrite Ht. cbn [py_str].
  destruct (renderer_fine artifact_type) as (i & renderer & -> & Hf).
  { unfold conforms in Hc. by destruct (required_of artifact_type). }
  destruct (Hf _ Hv) as [body ->]. unfold shape_of in Hv.
  pose proof (envelope_optional artifact_type) as Henv.
  destruct (links_fine _ _ _ Hv Henv) as [links ->]. destruct (approval_fine _ _ _ Hv Henv) as [approval ->].
  cbn [mbind res_bind]. destruct (filter _ [links; approval]); by eexists.
Qed.

(** A type that has no contract is refused with a [ValueError]. *)
Theorem unknown_type_refused instance source t :
  artifact_type_of instance = VStr t → required_of t = None →
  render_artifact instance source = raise ValueError ("no renderer for artifact_type=" +:+ repr_str t).
Proof.
  intros Ht Hn. unfold render_artifact. rewrite Ht. cbn [py_str repr].
  destruct (list_find _ _RENDERERS) as [[i [t' r]]|] eqn:E; [|done].
  apply list_find_Some in E as (Hi & Hk & _). cbn in Hk. subst t'. exfalso.
  assert (t ∈ _RENDERERS.*1) as Hin by (apply list_elem_of_lookup_2 in Hi; by apply (list_elem_of_fmap_2 fst) in Hi).
  unfold required_of in Hn. apply not_elem_of_list_to_map in Hn. by apply Hn.
Qed.

(** * Witnesses *)

Definition demo_plan : dict :=
  [("schema_version", VStr "1.0.0"); ("artifact_type", VStr "plan"); ("id", VStr "PLAN-0001"); ("created_at", VStr "t");
   ("created_by", VDict [("id", VStr "alice"); ("role", VStr "author")]); ("status", VStr "draft");
   ("links", VList [VDict [("rel", VStr "threat"); ("href", VStr "specs/F/TM.json")]]);
   ("slices", VList [VDict [("slice_id", VStr "S1"); ("title", VStr "First"); ("requirement_ids", VList [VStr "REQ-0001"]);
      ("control_ids", VList [])]])].

Lemma well_typed_renders_witness : ∃ body,
  render_artifact demo_plan "plan.json" = Ok (GENERATED_HEADER "plan.json" +:+ LF +:+ LF +:+ body +:+ LF).
Proof. apply (well_typed_renders "plan" demo_plan "plan.json"); vm_compute; reflexivity. Defined.

Example plan_row :
  rows (VDict demo_plan) "slices" [T "| "; F "slice_id"; T " | "; Q "requirement_ids"; T " | "; Q "control_ids";
    T " | "; JG "depends_on"; T " |"] = Ok [VStr "| S1 | `REQ-0001` |  |  |"].
Proof. vm_compute. reflexivity. Qed.
