(* ===== verification/Cli.v ===== *)
(** [sdlc/cli.py]: the commands [validate], [render], [waiver], [deploy-verify],
    [trace] and [mcp], from their parsed arguments on.  A command runs over the
    world and what it prints. *)

From S2P Require Export Mcp Deploy Render Trace Waiver Builtin Commands Vcs.
From Stdlib Require Import Ascii.
#[local] Open Scope Z_scope.

(** * The console *)

Record Console := mkConsole {
  con_world : World;
  con_out : pystr;
  con_err : pystr
}.
Definition onConsole {A} (m : ST World A) : ST Console A :=
  zoom con_world (λ w c, mkConsole w (con_out c) (con_err c)) m.

(** Standard output is strict UTF-8; standard error writes a surrogate as an escape. *)
Definition write_out (text : pystr) : ST Console unit :=
  data ← lift (encode_utf8 text);
  modifyS (λ c, mkConsole (con_world c) (con_out c +:+ data) (con_err c)).
Definition print (text : pystr) : ST Console unit := write_out (text +:+ LF).
Definition backslashreplace (text : pystr) : pystr :=
  join "" ((λ cp, if is_surrogate cp then String BS ("u" +:+ hex_pad 4 cp) else utf8_enc cp) <$> utf8_decode text).
Definition print_err (text : pystr) : ST Console unit :=
  modifyS (λ c, mkConsole (con_world c) (con_out c) (con_err c +:+ backslashreplace (text +:+ LF))).
(** [for error in errors: print(f"  - {error}", file=sys.stderr)] *)
Fixpoint print_items (items : list pystr) : ST Console unit :=
  match items with
  | [] => mret tt
  | i :: items => _ ← print_err ("  - " +:+ i); print_items items
  end.

(** * Paths given on the command line *)

(** Where [Path(raw)] leads, its [str], and its [name]. *)
Definition path_text (raw : pystr) : pystr :=
  let parts := path_parts raw in
  if startswith raw "/" then
    (if startswith raw "//" && negb (startswith raw "///") then "//" else "/") +:+ join "/" parts
  else match parts with [] => "." | _ => join "/" parts end.
Definition path_name (raw : pystr) : pystr := default "" (last (path_parts raw)).

(** [path.write_text(text, encoding="utf-8")]: the file is opened before the text is
    encoded. *)
Definition write_text (p : path) (text : pystr) : ST World unit :=
  match encode_utf8 text with
  | Ok data => onFs (write_bytes p data)
  | Raise e => _ ← onFs (write_bytes p ""); lift (Raise e)
  end.

Section commands.
  Context `{Env}.

Definition cli_path (raw : pystr) : path := path_join env_cwd raw.
Definition utcnow : ST World Z := of_unix <$> reading env_utcnow.

(** [moment.astimezone(UTC)] overflows outside the years 1 to 9999. *)
Definition _rfc3339 (moment : Z) : res pystr :=
  if (DAY_US <=? moment) && (moment <? (MAX_ORDINAL + 1) * DAY_US) then Ok (utc_text moment)
  else raise OverflowError "date value out of range".

(** [parse_timestamp(args.now) if args.now else datetime.now(UTC)] *)
Definition moment_of (now : option pystr) : ST World Z :=
  match now with
  | Some text => if text ≟ "" then utcnow else lift (parse_timestamp text)
  | None => utcnow
  end.

(** * [validate] *)

Definition validate_path (repo_root : path) (raw : pystr) : ST Console bool :=
  let shown := path_text raw in
  file ← onConsole (askFs (λ fs, is_file fs (cli_path raw)));
  if negb file then _ ← print_err ("SKIP " +:+ shown +:+ ": not a file"); mret false
  else
    errors ← onConsole (liftFs (λ fs, validate_file fs (cli_path raw) shown (Some repo_root)));
    match errors with
    | [] => _ ← print ("OK      " +:+ shown); mret true
    | _ => _ ← print_err ("INVALID " +:+ shown); _ ← print_items errors; mret false
    end.

Fixpoint validate_paths (repo_root : path) (failures : Z) (paths : list pystr) : ST Console Z :=
  match paths with
  | [] => mret failures
  | raw :: paths =>
      ok ← validate_path repo_root raw;
      validate_paths repo_root (if (ok : bool) then failures else failures + 1) paths
  end.

Definition _cmd_validate (paths : list pystr) : ST Console Z :=
  repo_root ← onConsole (liftFs (λ fs, find_repo_root fs None));
  failures ← validate_paths repo_root 0 paths;
  mret (if failures =? 0 then 0 else 1).

(** * [render] *)

(** [render_artifact] of a value that may not be a dictionary: [in] is defined for
    lists and strings too, [.get] and indexing by a string are not. *)
Definition render_value (instance : value) (source : pystr) : res pystr :=
  let no_dict (has : string → bool) :=
    if negb (has "artifact_type") && has "baseline_id" then raise TypeError "indices must be integers"
    else raise AttributeError "get" in
  match instance with
  | VDict instance => render_artifact instance source
  | VList l => no_dict (λ k, bool_decide (VStr k ∈ l))
  | VStr s => no_dict (λ k, contains s k)
  | _ => raise TypeError "argument is not iterable"
  end.

Definition _cmd_render (raw : pystr) (output : option pystr) : ST Console Z :=
  instance ← onConsole (liftFs (λ fs, read_json fs (cli_path raw)));
  markdown ← lift (render_value instance (path_name raw));
  let output := default "" output in
  if output ≟ "" then _ ← write_out markdown; mret 0
  else
    _ ← onConsole (write_text (cli_path output) markdown);
    _ ← print ("wrote " +:+ output); mret 0.

(** * [waiver] *)

Definition _cmd_waiver (raw : pystr) (now : option pystr) : ST Console Z :=
  let shown := path_text raw in
  file ← onConsole (askFs (λ fs, is_file fs (cli_path raw)));
  if negb file then _ ← print_err ("SKIP " +:+ shown +:+ ": not a file"); mret 1 else
  instance ← onConsole (liftFs (λ fs, read_json fs (cli_path raw)));
  repo_root ← onConsole (liftFs (λ fs, find_repo_root fs None));
  match instance with
  | VDict instance =>
      schema_errors ← onConsole (liftFs (λ fs, validate_artifact fs instance (Some repo_root)));
      match schema_errors with
      | _ :: _ => _ ← print_err ("INVALID " +:+ shown); _ ← print_items schema_errors; mret 1
      | [] =>
          now ← onConsole (moment_of now);
          chk ← lift (check_waiver instance now);
          if wc_valid chk then _ ← print ("OK      " +:+ shown +:+ " (active)"); mret 0
          else
            _ ← print_err ("BLOCKED " +:+ shown +:+ " state=" +:+ wc_state chk);
            _ ← print_items (wc_reason_codes chk); mret 1
      end
  | _ => raiseS AttributeError "get"
  end.

(** * [deploy-verify] *)

Record DeployArgs := mkDeployArgs {
  da_path : pystr;
  da_opa_url : pystr;
  da_bundle_version : pystr;
  da_run_id : pystr;
  da_now : option pystr;
  da_output_dir : option pystr;
  da_bundle_id : pystr;
  da_decision_id : pystr;
  da_actor_id : pystr;
  da_actor_role : pystr
}.

(** What [build_parser] fills in when only the path is given. *)
Definition default_deploy_args (path : pystr) : DeployArgs :=
  mkDeployArgs path "http://localhost:8181" "unknown" "RUN-deploy-verify" None None "EB-0001" "PD-0001"
    "deploy-verify" "release-approver".

(** [json.dumps(document, indent=2, ensure_ascii=False) + "\n"] *)
Definition document_text (document : dict) : pystr := dumps_indent 2 (VDict document) +:+ LF.

Definition deploy_actor (args : DeployArgs) : dict :=
  [("type", VStr "ci"); ("id", VStr (da_actor_id args)); ("role", VStr (da_actor_role args))].

Definition write_outputs (output_dir : option pystr) (v : ReleaseVerification) : ST World unit :=
  let output_dir := default "" output_dir in
  if output_dir ≟ "" then mret tt
  else
    let output := cli_path output_dir in
    _ ← onFs (mkdir_parents output);
    _ ← write_text (output ++ ["evidence-bundle.json"])%list (document_text (rv_bundle v));
    write_text (output ++ ["policy-decision.json"])%list (document_text (rv_decision v)).

(** From the candidate that was loaded, to the verdict. *)
Definition verify_candidate (args : DeployArgs) (repo_root : path) (candidate : dict) : ST Console Z :=
  let shown := path_text (da_path args) in
  now ← onConsole (moment_of (da_now args));
  created_at ← lift (_rfc3339 now);
  verification ← onConsole (verify_release (new_client (da_opa_url args) (da_bundle_version args)) candidate
    (da_bundle_id args) (da_decision_id args) created_at (deploy_actor args) (da_run_id args) (Some repo_root));
  _ ← onConsole (write_outputs (da_output_dir args) verification);
  if rv_allow verification then _ ← print ("ALLOW   " +:+ shown); mret 0
  else
    _ ← print_err ("DENY    " +:+ shown);
    _ ← print_items (rv_reason_codes verification); mret 1.

Definition _cmd_deploy_verify (args : DeployArgs) : ST Console Z :=
  let shown := path_text (da_path args) in
  file ← onConsole (askFs (λ fs, is_file fs (cli_path (da_path args))));
  if negb file then _ ← print_err ("SKIP " +:+ shown +:+ ": not a file"); mret 1 else
  repo_root ← onConsole (liftFs (λ fs, find_repo_root fs None));
  candidate ← onConsole (askFs (λ fs, load_candidate fs (cli_path (da_path args)) shown (Some repo_root)));
  match candidate with
  | Raise e =>
      if caught_by [CandidateError] e then
        _ ← print_err ("INVALID " +:+ shown);
        _ ← print_err ("  - " +:+ exn_msg e); mret 1
      else lift (Raise e)
  | Ok candidate => verify_candidate args repo_root candidate
  end.

(** * [trace] *)

(** [asdict(report)] *)
Definition asdict_node (node : TraceNode) : value :=
  VDict [("artifact_id", VStr (tn_artifact_id node)); ("artifact_type", VStr (tn_artifact_type node));
         ("path", VStr (tn_path node)); ("feature_id", tn_feature_id node)].
Definition asdict (report : Traceability) : dict :=
  [("feature_id", VStr (tr_feature_id report)); ("nodes", VList (asdict_node <$> tr_nodes report));
   ("ordered_types", VList (VStr <$> tr_ordered_types report));
   ("missing_types", VList (VStr <$> tr_missing_types report)); ("dangling", VList (VStr <$> tr_dangling report))].

Definition _cmd_trace (set_order : list path → list path) (feature : pystr) (repo_root : option pystr)
    (as_json : bool) : ST Console Z :=
  let repo_root := default "" repo_root in
  root ← onConsole (liftFs (λ fs,
    if repo_root ≟ "" then find_repo_root fs None else World.resolve fs (cli_path repo_root)));
  report ← onConsole (liftFs (λ fs, trace_feature set_order fs root feature None));
  _ ← print (if as_json then dumps_indent 2 (VDict (asdict report)) else format_report report);
  mret (if complete report then 0 else 1).

(** * [mcp] *)

(** [bytes.fromhex]: white space may separate the bytes. *)
Fixpoint fromhex_chars (l : list ascii) : option (list ascii) :=
  match l with
  | [] => Some []
  | a :: l =>
      if bool_decide (byte_of a ∈ [32; 9; 10; 11; 12; 13]) then fromhex_chars l
      else match l with
           | b :: l => x ← hex_val a; y ← hex_val b; cs ← fromhex_chars l; Some (chr (16 * x + y) :: cs)
           | [] => None
           end
  end.
Definition fromhex (s : pystr) : option bytes := of_chars <$> fromhex_chars (chars s).

Definition DEFAULT_ACTOR : pystr :=
  dumps plain (VDict [("type", VStr "agent"); ("id", VStr "opencode"); ("role", VStr "implementer")]).

(** The bridge's secret; [None] if [SDLC_MCP_SECRET] is not hexadecimal. *)
Definition bridge_secret : option bytes :=
  let secret_hex := default "" (env_environ "SDLC_MCP_SECRET") in
  if secret_hex ≟ "" then Some env_urandom else fromhex secret_hex.

(** The tools the bridge offers. *)
Definition bridge_tools (artifacts_dir root : path) : ST World Tools :=
  tools ← lift (register_artifact_tools artifacts_dir ∅);
  tools ← register_file_tools tools root;
  tools ← register_test_tools tools root DEFAULT_ALLOWED_PROGRAMS;
  if default "" (env_environ "SDLC_GITHUB_TOKEN") ≟ "" then mret tools
  else register_vcs_tools tools root None None.

(** The bridge's output stream has [errors="replace"]. *)
Definition encode_replace (text : pystr) : pystr :=
  join "" ((λ cp, if is_surrogate cp then "?" else utf8_enc cp) <$> utf8_decode text).
Definition write_replace (text : pystr) : ST Console unit :=
  modifyS (λ c, mkConsole (con_world c) (con_out c +:+ encode_replace text) (con_err c)).

Record McpArgs := mkMcpArgs {
  ma_opa_url : pystr;
  ma_artifacts_dir : pystr;
  ma_evidence_dir : pystr;
  ma_root : pystr
}.

Definition default_mcp_args : McpArgs :=
  mkMcpArgs "http://localhost:8181" "specs/artifacts" "specs/evidence" ".".

(** The server over its own counters. *)
Definition serve (args : McpArgs) (secret : bytes) (tools : Tools) (run_id : pystr) (stdin : list pystr) :
    ST World (list pystr) := fun w =>
  let '(lines, s) := serve_stdio (evaluate (new_client (ma_opa_url args) "unknown")) secret tools
    (cli_path (ma_evidence_dir args)) run_id stdin (mkSState w 0 0) in
  (lines, srv_world s).

Definition _cmd_mcp (args : McpArgs) (stdin : list pystr) : ST Console Z :=
  match bridge_secret with
  | None => _ ← print_err "SDLC_MCP_SECRET must be hex-encoded"; mret 1
  | Some secret =>
      match loads (default DEFAULT_ACTOR (env_environ "SDLC_ACTOR_JSON")) with
      | Raise e =>
          if caught_by [JSONDecodeError] e then _ ← print_err "SDLC_ACTOR_JSON must be valid JSON"; mret 1
          else lift (Raise e)
      | Ok actor =>
          actor ← lift (vdict actor);
          run ← onConsole (start actor (env_environ "SDLC_RUN_ID"));
          tools ← onConsole (bridge_tools (cli_path (ma_artifacts_dir args)) (cli_path (ma_root args)));
          lines ← onConsole (serve args secret tools (run_run_id run) stdin);
          _ ← write_replace (join "" lines); mret 0
      end
  end.
End commands.

(** * Lemmas *)

(** Printing to standard error changes nothing else, and never fails. *)
Definition same_but_err (c c' : Console) : Prop := con_world c' = con_world c ∧ con_out c' = con_out c.

Lemma print_err_eq text c : ∃ c', print_err text c = (Ok tt, c') ∧ same_but_err c c'.
Proof. by eexists. Qed.
Lemma print_items_eq items c : ∃ c', print_items items c = (Ok tt, c') ∧ same_but_err c c'.
Proof.
  revert c. induction items as [|i items IH]; intros c; cbn [print_items]; [by exists c|].
  rewrite ST_bind_eq. destruct (print_err_eq ("  - " +:+ i) c) as (c1 & -> & Hw & Ho).
  destruct (IH c1) as (c2 & -> & Hw2 & Ho2). exists c2. split; [done|]. split; congruence.
Qed.

(** A report on standard error, and a result. *)
Lemma report_eq {A} text items (a : A) c :
  ∃ c', (_ ← print_err text; _ ← print_items items; mret a) c = (Ok a, c') ∧ same_but_err c c'.
Proof.
  rewrite ST_bind_eq. destruct (print_err_eq text c) as (c1 & -> & Hw & Ho).
  rewrite ST_bind_eq. destruct (print_items_eq items c1) as (c2 & -> & Hw2 & Ho2). rewrite ST_ret_eq.
  exists c2. split; [done|]. split; congruence.
Qed.
Lemma report_line_eq {A} text (a : A) c :
  ∃ c', (_ ← print_err text; mret a) c = (Ok a, c') ∧ same_but_err c c'.
Proof. rewrite ST_bind_eq. destruct (print_err_eq text c) as (c1 & -> & ?). rewrite ST_ret_eq. by exists c1. Qed.

(** A line on standard output, and a result. *)
Lemma announce_Ok {A} text (a b : A) c c' :
  (_ ← print text; mret a) c = (Ok b, c') →
  b = a ∧ con_world c' = con_world c ∧ con_out c' = con_out c +:+ (text +:+ LF) ∧ con_err c' = con_err c.
Proof.
  rewrite ST_bind_eq. unfold print, write_out. rewrite ST_bind_eq, lift_eq.
  destruct (encode_utf8 (text +:+ LF)) as [data|e] eqn:E; [|done]. apply encode_utf8_Ok in E as ->.
  rewrite modifyS_eq, ST_ret_eq. by intros [= <- <-].
Qed.

Lemma ask_eq {A} (f : Fs → A) c : onConsole (askFs f) c = (Ok (f (w_fs (con_world c))), c).
Proof. by destruct c. Qed.
Lemma liftFs_console {A} (f : Fs → res A) c : onConsole (liftFs f) c = (f (w_fs (con_world c)), c).
Proof. by destruct c. Qed.

Section facts.
  Context `{Env}.

Lemma moment_of_world now w : ∃ k, (moment_of now w).2 = set_tick k w.
Proof.
  assert (∃ k, (utcnow w).2 = set_tick k w) by (by exists (S (w_tick w))).
  unfold moment_of. destruct now as [text|]; [|done]. case_bool_decide; [done|]. exists (w_tick w). by destruct w.
Qed.

(** ** [waiver] *)

(** What exit code 0 of [sdlc waiver] means. *)
Definition waiver_in_force_at (raw : pystr) (now : option pystr) (w : World) : Prop :=
  is_file (w_fs w) (cli_path raw) = true ∧
  ∃ waiver root t, read_json (w_fs w) (cli_path raw) = Ok (VDict waiver) ∧ find_repo_root (w_fs w) None = Ok root ∧
    validate_artifact (w_fs w) waiver (Some root) = Ok [] ∧ (moment_of now w).1 = Ok t ∧ in_force waiver t.

Lemma cmd_waiver_Ok raw now c code c' :
  _cmd_waiver raw now c = (Ok code, c') →
  w_fs (con_world c') = w_fs (con_world c) ∧
  ((code = 0 ∧ waiver_in_force_at raw now (con_world c) ∧
      con_out c' = con_out c +:+ ("OK      " +:+ path_text raw +:+ " (active)" +:+ LF)) ∨
   (code = 1 ∧ ¬ waiver_in_force_at raw now (con_world c) ∧ con_out c' = con_out c)).
Proof.
  unfold _cmd_waiver, waiver_in_force_at. cbv zeta. rewrite ST_bind_eq, ask_eq.
  destruct (is_file _ _) eqn:Hf; cbn [negb].
  2: { destruct (report_line_eq ("SKIP " +:+ path_text raw +:+ ": not a file") 1 c) as (c1 & E & Hw & Ho).
    rewrite E. intros [= <- <-]. rewrite Hw, Ho. split; [done|]. right. split_and!; [done|by intros [? _]|done]. }
  rewrite ST_bind_eq, liftFs_console. destruct (read_json _ _) as [instance|e] eqn:Hr; [|done].
  rewrite ST_bind_eq, liftFs_console. destruct (find_repo_root _ None) as [root|e] eqn:Hroot; [|done].
  destruct instance as [| | | | | |waiver]; try (by rewrite raiseS_eq).
  rewrite ST_bind_eq, liftFs_console. destruct (validate_artifact _ _ _) as [[|e es]|e] eqn:Hv; [|..|done].
  2: { destruct (report_eq ("INVALID " +:+ path_text raw) (e :: es) 1 c) as (c1 & E & Hw & Ho).
    intros Hx. rewrite E in Hx. injection Hx as <- <-. rewrite Hw, Ho.
    split; [done|]. right. split_and!; [done| |done]. intros (_ & w' & r' & t & [= <-] & [= <-] & ? & _). congruence. }
  rewrite ST_bind_eq. unfold onConsole at 1. rewrite zoom_eq. destruct (moment_of_world now (con_world c)) as [k Hk].
  rewrite Hk. destruct (moment_of now (con_world c)).1 as [t|e] eqn:Ht; [|done].
  rewrite ST_bind_eq, lift_eq. destruct (check_waiver waiver t) as [chk|e] eqn:Hchk; [|done].
  destruct (check_waiver_spec waiver t) as (Hspec & _). destruct (Hspec _ Hchk) as [Hval _].
  destruct (wc_valid chk) eqn:Evalid.
  - intros (-> & Hw & Ho & _)%announce_Ok. rewrite Hw, Ho. cbn [con_world con_out]. rewrite !app_str_assoc. split; [done|].
    left. split; [done|]. split; [|done]. split; [done|]. exists waiver, root, t. split_and!; try done. by apply Hval.
  - intros Hx. destruct (report_eq ("BLOCKED " +:+ path_text raw +:+ " state=" +:+ wc_state chk) (wc_reason_codes chk) 1
      (mkConsole (set_tick k (con_world c)) (con_out c) (con_err c))) as (c1 & E & Hw & Ho).
    rewrite E in Hx. injection Hx as <- <-. rewrite Hw, Ho. split; [done|]. right. split_and!; [done| |done].
    intros (_ & w' & r' & t' & [= <-] & _ & _ & [= <-] & Hforce). apply Hval in Hforce. congruence.
Qed.
(** ** [deploy-verify] *)

Lemma write_text_Ok p text w w' :
  write_text p text w = (Ok tt, w') →
  write_bytes p text (w_fs w) = (Ok tt, w_fs w') ∧ w' = set_fs (w_fs w') w.
Proof.
  unfold write_text. destruct (encode_utf8 text) as [data|e] eqn:E.
  - apply encode_utf8_Ok in E as ->. unfold onFs. rewrite zoom_eq.
    destruct (write_bytes p text (w_fs w)) as [r fs]. cbn [fst snd]. intros [= -> <-]. done.
  - rewrite ST_bind_eq. by destruct (onFs _ w) as [[[]|?] ?].
Qed.

(** The decision that was written is there, whatever links the directory holds. *)
Lemma write_outputs_Ok output_dir v w w' :
  fs_wf (w_fs w) → write_outputs output_dir v w = (Ok tt, w') →
  w' = set_fs (w_fs w') w ∧
  (default "" output_dir ≠ "" →
   read_bytes (w_fs w') (cli_path (default "" output_dir) ++ ["policy-decision.json"])%list =
     Ok (document_text (rv_decision v))).
Proof.
  intros Hwf. unfold write_outputs. cbv zeta. case_bool_decide as Ho; [rewrite ST_ret_eq; intros [= <-]; split; [by destruct w|done]|].
  rewrite ST_bind_eq. unfold onFs at 1. rewrite zoom_eq. set (output := cli_path _).
  destruct (mkdir_parents output (w_fs w)) as [[[]|e] fs1] eqn:Em; cbn [fst snd]; [|done].
  pose proof (mkdir_parents_wf _ _ _ _ Hwf Em) as Hwf1.
  rewrite ST_bind_eq. destruct (write_text (output ++ ["evidence-bundle.json"])%list _ _) as [[[]|e] w2] eqn:E2; [|done].
  apply write_text_Ok in E2 as [E2 Hw2]. pose proof (write_bytes_wf _ _ _ _ _ Hwf1 E2) as Hwf2.
  intros [E3 Hw3]%write_text_Ok. split; [by rewrite Hw3, Hw2|]. intros _. by eapply write_read.
Qed.

(** What happened when a candidate was verified, from the world [w] on. *)
Definition verified_release (args : DeployArgs) (w : World) (root : path) (candidate : dict) (t : Z)
    (v : ReleaseVerification) (w1 w2 w3 : World) : Prop :=
  moment_of (da_now args) w = (Ok t, w1) ∧
  verify_release (new_client (da_opa_url args) (da_bundle_version args)) candidate (da_bundle_id args)
    (da_decision_id args) (utc_text t) (deploy_actor args) (da_run_id args) (Some root) w1 = (Ok v, w2) ∧
  write_outputs (da_output_dir args) v w2 = (Ok tt, w3).

Lemma verify_candidate_Ok args root candidate c code c' :
  verify_candidate args root candidate c = (Ok code, c') →
  ∃ t v w1 w2, verified_release args (con_world c) root candidate t v w1 w2 (con_world c') ∧
    code = (if rv_allow v then 0 else 1) ∧
    con_out c' = con_out c +:+ (if rv_allow v then "ALLOW   " +:+ path_text (da_path args) +:+ LF else "").
Proof.
  unfold verify_candidate, verified_release. cbv zeta. rewrite ST_bind_eq. unfold onConsole at 1. rewrite zoom_eq.
  destruct (moment_of (da_now args) (con_world c)) as [[t|e] w1]; cbn [fst snd]; [|done].
  rewrite ST_bind_eq, lift_eq. unfold _rfc3339. destruct (_ && _); [|done].
  rewrite ST_bind_eq. unfold onConsole at 1. rewrite zoom_eq. cbn [con_world con_out con_err].
  destruct (verify_release _ _ _ _ _ _ _ _ w1) as [[v|e] w2] eqn:Ev; cbn [fst snd]; [|done].
  rewrite ST_bind_eq. unfold onConsole at 1. rewrite zoom_eq. cbn [con_world con_out con_err].
  destruct (write_outputs (da_output_dir args) v w2) as [[[]|e] w3] eqn:Eo; cbn [fst snd]; [|done].
  intros Hx. exists t, v, w1, w2. destruct (rv_allow v).
  - apply announce_Ok in Hx as (-> & -> & -> & _). cbn [con_world con_out]. by rewrite !app_str_assoc.
  - match type of Hx with context [print_items ?items] =>
      destruct (report_eq ("DENY    " +:+ path_text (da_path args)) items 1 (mkConsole w3 (con_out c) (con_err c)))
        as (c1 & E & Hw & Ho) end.
    rewrite E in Hx. injection Hx as <- <-. rewrite Hw, Ho. cbn [con_world con_out]. by rewrite app_str_nil_r.
Qed.

Lemma cmd_deploy_verify_Ok args c code c' :
  _cmd_deploy_verify args c = (Ok code, c') →
  (code = 1 ∧ con_out c' = con_out c ∧ con_world c' = con_world c ∧
   ∀ root candidate, is_file (w_fs (con_world c)) (cli_path (da_path args)) = true →
     find_repo_root (w_fs (con_world c)) None = Ok root →
     load_candidate (w_fs (con_world c)) (cli_path (da_path args)) (path_text (da_path args)) (Some root) ≠ Ok candidate) ∨
  ∃ root candidate, find_repo_root (w_fs (con_world c)) None = Ok root ∧
    load_candidate (w_fs (con_world c)) (cli_path (da_path args)) (path_text (da_path args)) (Some root) = Ok candidate ∧
    verify_candidate args root candidate c = (Ok code, c').
Proof.
  unfold _cmd_deploy_verify. cbv zeta. rewrite ST_bind_eq, ask_eq. destruct (is_file _ _) eqn:Hf; cbn [negb].
  2: { destruct (report_line_eq ("SKIP " +:+ path_text (da_path args) +:+ ": not a file") 1 c) as (c1 & E & Hw & Ho).
    rewrite E. intros [= <- <-]. by left. }
  rewrite ST_bind_eq, liftFs_console. destruct (find_repo_root _ None) as [root|e] eqn:Hroot; [|done].
  rewrite ST_bind_eq, ask_eq. destruct (load_candidate _ _ _ _) as [candidate|e] eqn:Hl; [by right; exists root, candidate|].
  destruct (caught_by _ e); [|done]. rewrite ST_bind_eq.
  destruct (print_err_eq ("INVALID " +:+ path_text (da_path args)) c) as (c1 & -> & Hw & Ho).
  destruct (report_line_eq ("  - " +:+ exn_msg e) 1 c1) as (c2 & E & Hw2 & Ho2). rewrite E. intros [= <- <-]. left.
  split_and!; [done|congruence|congruence|]. intros root' candidate _ [= <-]. by rewrite Hl.
Qed.
(** ** [validate] *)

(** A path that [sdlc validate] accepts. *)
Definition accepted (fs : Fs) (root : path) (raw : pystr) : Prop :=
  is_file fs (cli_path raw) = true ∧ validate_file fs (cli_path raw) (path_text raw) (Some root) = Ok [].

Lemma validate_path_Ok root raw c ok c' :
  validate_path root raw c = (Ok ok, c') →
  con_world c' = con_world c ∧ (ok = true ↔ accepted (w_fs (con_world c)) root raw) ∧
  con_out c' = con_out c +:+ (if ok then "OK      " +:+ path_text raw +:+ LF else "").
Proof.
  unfold validate_path, accepted. cbv zeta. rewrite ST_bind_eq, ask_eq. destruct (is_file _ _) eqn:Hf; cbn [negb].
  2: { destruct (report_line_eq ("SKIP " +:+ path_text raw +:+ ": not a file") false c) as (c1 & E & Hw & Ho).
    rewrite E. intros [= <- <-]. rewrite Hw, Ho, app_str_nil_r. split_and!; [done|by split; [|intros [? _]]|done]. }
  rewrite ST_bind_eq, liftFs_console. destruct (validate_file _ _ _ _) as [[|e es]|e] eqn:Hv; [..|done].
  - intros (-> & -> & -> & _)%announce_Ok. by rewrite !app_str_assoc.
  - intros Hx. destruct (report_eq ("INVALID " +:+ path_text raw) (e :: es) false c) as (c1 & E & Hw & Ho).
    rewrite E in Hx. injection Hx as <- <-. rewrite Hw, Ho, app_str_nil_r.
    split_and!; [done|by split; [|intros [_ ?]]|done].
Qed.

Lemma validate_paths_Ok root paths : ∀ failures c n c',
  validate_paths root failures paths c = (Ok n, c') →
  con_world c' = con_world c ∧ failures ≤ n ∧
  (n = failures ↔ Forall (accepted (w_fs (con_world c)) root) paths).
Proof.
  induction paths as [|raw paths IH]; intros failures c n c'; cbn [validate_paths].
  - rewrite ST_ret_eq. intros [= <- <-]. split_and!; [done|lia|done].
  - rewrite ST_bind_eq. destruct (validate_path root raw c) as [[ok|e] c1] eqn:E; [|done].
    apply validate_path_Ok in E as (Hw & Hok & _). intros (Hw' & Hle & Hn)%IH. rewrite Hw in *.
    destruct ok; split_and!; try done; try lia; rewrite Forall_cons.
    + rewrite Hn. naive_solver.
    + split; [lia|]. intros [Ha _]. by apply Hok in Ha.
Qed.

(** ** [mcp] *)

(** The names of the tools that need no token. *)
Definition LOCAL_TOOLS : list string := ["read_artifact"; "write_artifact"; "list_artifacts"; "write_file"; "run_tests"].

Lemma register_names spec tools tools' :
  register spec tools = Ok tools' → dom tools' = {[spec_name spec]} ∪ dom tools.
Proof.
  intros Hreg. destruct (register_cases spec tools) as [(? & E & _)|(_ & _ & E)]; rewrite E in Hreg; [done|].
  injection Hreg as <-. by rewrite dom_insert_L.
Qed.

(** Resolving a root and registering one tool for it. *)
Lemma register_after_Ok {A} (m : Fs → res A) (spec : A → ToolSpec) tools w tools' w' name :
  (∀ a, spec_name (spec a) = name) →
  (a ← liftFs m; lift (register (spec a) tools)) w = (Ok tools', w') →
  w' = w ∧ dom tools' = {[name]} ∪ dom tools.
Proof.
  intros Hn. rewrite ST_bind_eq. unfold liftFs. destruct (m (w_fs w)) as [a|e]; [|done]. rewrite lift_eq.
  intros [= Hr <-]. apply register_names in Hr. by rewrite Hn in Hr.
Qed.

Lemma artifact_tools_names store tools tools' :
  register_artifact_tools store tools = Ok tools' →
  dom tools' = {["list_artifacts"]} ∪ ({["write_artifact"]} ∪ ({["read_artifact"]} ∪ dom tools)).
Proof.
  unfold register_artifact_tools.
  intros (ta & Ea%register_names & (tb & Eb%register_names & Ec%register_names)%res_bind_Ok)%res_bind_Ok.
  rewrite Ec, Eb, Ea. reflexivity.
Qed.

Lemma file_tools_names tools root w tools' w' :
  register_file_tools tools root w = (Ok tools', w') → w' = w ∧ dom tools' = {["write_file"]} ∪ dom tools.
Proof. by apply register_after_Ok. Qed.

Lemma test_tools_names tools root allowlist w tools' w' :
  register_test_tools tools root allowlist w = (Ok tools', w') → w' = w ∧ dom tools' = {["run_tests"]} ∪ dom tools.
Proof.
  unfold register_test_tools, CommandRunner.new. rewrite !ST_bind_eq. unfold liftFs.
  destruct (World.resolve (w_fs w) root) as [target|e]; [|done]. rewrite ST_ret_eq, lift_eq.
  intros [= Hr <-]. by apply register_names in Hr.
Qed.

Lemma vcs_tools_names tools root w tools' w' :
  register_vcs_tools tools root None None w = (Ok tools', w') → w' = w ∧ dom tools' = {["open_pr"]} ∪ dom tools.
Proof.
  unfold register_vcs_tools, OpenPRTool.new. rewrite !ST_bind_eq. unfold liftFs.
  destruct (World.resolve (w_fs w) root) as [target|e]; [|done]. rewrite ST_ret_eq, lift_eq.
  intros [= Hr <-]. by apply register_names in Hr.
Qed.

Lemma bridge_tools_Ok artifacts_dir root w tools w' :
  bridge_tools artifacts_dir root w = (Ok tools, w') →
  w' = w ∧ (∀ name, is_Some (tools !! name) ↔
    name ∈ LOCAL_TOOLS ∨ (name = "open_pr" ∧ default "" (env_environ "SDLC_GITHUB_TOKEN") ≠ "")).
Proof.
  unfold bridge_tools. rewrite ST_bind_eq, lift_eq.
  destruct (register_artifact_tools artifacts_dir ∅) as [t1|e] eqn:E1; [|intros [=]]. apply artifact_tools_names in E1.
  rewrite ST_bind_eq. destruct (register_file_tools t1 root w) as [[t2|e] w2] eqn:E2; [|intros [=]].
  apply file_tools_names in E2 as [-> E2].
  rewrite ST_bind_eq. destruct (register_test_tools t2 root _ w) as [[t3|e] w3] eqn:E3; [|intros [=]].
  apply test_tools_names in E3 as [-> E3].
  assert (∀ name, is_Some (t3 !! name) ↔ name ∈ LOCAL_TOOLS) as H3.
  { intros name. rewrite <-elem_of_dom, E3, E2, E1, dom_empty_L. unfold LOCAL_TOOLS.
    rewrite !elem_of_union, !elem_of_singleton, elem_of_empty, !elem_of_cons, elem_of_nil. tauto. }
  case_bool_decide as Ht.
  - rewrite ST_ret_eq. intros [= <- <-]. split; [reflexivity|]. intros name. rewrite H3. naive_solver.
  - intros [-> E4]%vcs_tools_names. split; [reflexivity|]. intros name.
    rewrite <-elem_of_dom, E4, elem_of_union, elem_of_singleton, elem_of_dom, H3. naive_solver.
Qed.
End facts.

(** * Properties *)

Section properties.
  Context `{Env}.

(** the exit code of [sdlc validate] is 0 exactly when every path names a file that
    validates; nothing is written, and no path is skipped after a failure. *)
Theorem validate_exit_code paths c code c' :
  _cmd_validate paths c = (Ok code, c') →
  con_world c' = con_world c ∧ (code = 0 ∨ code = 1) ∧
  ∃ root, find_repo_root (w_fs (con_world c)) None = Ok root ∧
    (code = 0 ↔ Forall (accepted (w_fs (con_world c)) root) paths).
Proof.
  unfold _cmd_validate. rewrite ST_bind_eq, liftFs_console. destruct (find_repo_root _ None) as [root|e]; [|done].
  rewrite ST_bind_eq. destruct (validate_paths root 0 paths c) as [[n|e] c1] eqn:E; [|done].
  apply validate_paths_Ok in E as (Hw & _ & Hn). rewrite ST_ret_eq. intros [= <- <-].
  split; [done|]. destruct (Z.eqb_spec n 0); (split; [auto|]); exists root; (split; [done|]); rewrite <-Hn; lia.
Qed.

(** the exit code of [sdlc waiver] is 0 exactly when the file is a waiver that its
    schema accepts and that is in force at the moment asked for - now, unless
    [--now] says otherwise; only then does it print [OK].  Nothing is written. *)
Theorem waiver_exit_code raw now c code c' :
  _cmd_waiver raw now c = (Ok code, c') →
  w_fs (con_world c') = w_fs (con_world c) ∧ (code = 0 ∨ code = 1) ∧
  (code = 0 ↔ waiver_in_force_at raw now (con_world c)) ∧
  con_out c' = con_out c +:+
    (if code =? 0 then "OK      " +:+ path_text raw +:+ " (active)" +:+ LF else "").
Proof.
  intros [Hw [(-> & Hin & Ho)|(-> & Hout & Ho)]]%cmd_waiver_Ok; rewrite Ho, ?app_str_nil_r; split_and!; auto; by split.
Qed.

(** [sdlc deploy-verify] exits with 0 only through the gate.  A command that ends
    either loaded no valid candidate, and then it exits with 1 having asked nobody and
    written nothing; or it verified the candidate with one request to OPA, and exits
    with 0 - and prints [ALLOW] - exactly when OPA allowed.  Allowed or denied, if an
    output directory is given the decision is in the file there. *)
Theorem deploy_verify_exit_code args c code c' :
  fs_wf (w_fs (con_world c)) → _cmd_deploy_verify args c = (Ok code, c') →
  (code = 1 ∧ con_out c' = con_out c ∧ con_world c' = con_world c) ∨
  ∃ root candidate t v w1 w2 request,
    load_candidate (w_fs (con_world c)) (cli_path (da_path args)) (path_text (da_path args)) (Some root) = Ok candidate ∧
    validate_document (w_fs (con_world c)) candidate CANDIDATE_SCHEMA (Some root) = Ok [] ∧
    verified_release args (con_world c) root candidate t v w1 w2 (con_world c') ∧
    w_log (con_world c') = EvHttp request :: w_log (con_world c) ∧
    (code = 0 ∨ code = 1) ∧ (code = 0 ↔ ∃ raw, env_http (w_tick w1) request = Ok raw ∧ opa_allows raw) ∧
    con_out c' = con_out c +:+ (if code =? 0 then "ALLOW   " +:+ path_text (da_path args) +:+ LF else "") ∧
    (default "" (da_output_dir args) ≠ "" →
     read_bytes (w_fs (con_world c')) (cli_path (default "" (da_output_dir args)) ++ ["policy-decision.json"])%list =
       Ok (document_text (rv_decision v))).
Proof.
  intros Hwf [(-> & ? & ? & _)|(root & candidate & _ & Hl & Hv)]%cmd_deploy_verify_Ok; [by left|right].
  apply verify_candidate_Ok in Hv as (t & v & w1 & w2 & Hver & Hcode & Hout). pose proof Hver as (Hm & Hrel & Hwr).
  destruct (moment_of_world (da_now args) (con_world c)) as [k Hk]. rewrite Hm in Hk. cbn [snd] in Hk.
  pose proof (verify_release_Ok _ _ _ _ _ _ _ _ _ _ _ Hrel) as (bundle & payload & result & Hval & _ & _ & He & ->).
  apply evaluate_Ok in He as ((request & _ & _ & _ & Hlog & Ha) & _ & _ & Hfs & _).
  assert (Hwf2 : fs_wf (w_fs w2)) by (by rewrite Hfs, Hk).
  destruct (write_outputs_Ok _ _ _ _ Hwf2 Hwr) as [Hw3 Hread]. rewrite Hk in Hval, Hlog.
  eexists root, candidate, t, _, w1, w2, request. split_and!; try done.
  - transitivity (w_log w2); [rewrite Hw3; reflexivity|exact Hlog].
  - rewrite Hcode. destruct (rv_allow _); auto.
  - rewrite Hcode. cbn [rv_allow]. rewrite <-Ha. by destruct (pr_allow result).
  - rewrite Hout, Hcode. by destruct (rv_allow _).
Qed.

(** a bridge session.  Once the secret and the actor of [sdlc mcp] are readable and
    the workspace root resolves, the command serves the agent to the end of its
    input and exits with 0: every non-blank line is answered with one line, and
    the tools offered are the five local ones - and [open_pr] exactly when a GitHub
    token is set. *)
Theorem bridge_session args stdin c secret actor run w1 tools w2 :
  bridge_secret = Some secret → loads (default DEFAULT_ACTOR (env_environ "SDLC_ACTOR_JSON")) = Ok (VDict actor) →
  start actor (env_environ "SDLC_RUN_ID") (con_world c) = (Ok run, w1) →
  bridge_tools (cli_path (ma_artifacts_dir args)) (cli_path (ma_root args)) w1 = (Ok tools, w2) →
  (∀ name, is_Some (tools !! name) ↔
    name ∈ LOCAL_TOOLS ∨ (name = "open_pr" ∧ default "" (env_environ "SDLC_GITHUB_TOKEN") ≠ "")) ∧
  ∃ lines c', _cmd_mcp args stdin c = (Ok 0, c') ∧
    serve args secret tools (run_run_id run) stdin w1 = (Ok lines, con_world c') ∧
    con_out c' = con_out c +:+ encode_replace (join "" lines) ∧ con_err c' = con_err c ∧
    length lines = length (filter (λ line, strip line ≠ "") stdin).
Proof.
  intros Hs Ha Hrun Ht. destruct (bridge_tools_Ok _ _ _ _ _ Ht) as [-> Hnames]. split; [done|].
  unfold _cmd_mcp. rewrite Hs, Ha, ST_bind_eq, lift_eq. cbn [vdict].
  rewrite ST_bind_eq. unfold onConsole at 1. rewrite zoom_eq, Hrun. cbn [fst snd].
  rewrite ST_bind_eq. unfold onConsole at 1. rewrite zoom_eq. cbn [con_world con_out con_err]. rewrite Ht. cbn [fst snd].
  rewrite ST_bind_eq. unfold onConsole at 1. rewrite zoom_eq. cbn [con_world con_out con_err].
  unfold serve. destruct (serve_stdio_total (evaluate (new_client (ma_opa_url args) "unknown")) secret tools
    (cli_path (ma_evidence_dir args)) (run_run_id run) stdin (mkSState w1 0 0)) as (lines & s & E & Hlen & _).
  rewrite E. cbn [fst snd]. rewrite ST_bind_eq. unfold write_replace. rewrite modifyS_eq, ST_ret_eq.
  eexists lines, _. split; [reflexivity|]. by split_and!.
Qed.
End properties.

(** * Witnesses *)

(** A repository with two schemas, and a work directory with a candidate, a waiver and a
    document that is no object. *)
Definition cli_fs : Fs :=
  list_to_map
    [(["repo"], Dir); (["repo"; "contracts"], Dir); (["repo"; "contracts"; "schemas"], Dir);
     (["repo"; "contracts"; "schemas"; "common.schema.json"], File "{}");
     (["repo"; "contracts"; "schemas"; "release-candidate.schema.json"], File "{}");
     (["repo"; "contracts"; "schemas"; "waiver.schema.json"], File "{}");
     (["work"], Dir); (["work"; "out"], Dir);
     (["work"; "rc.json"], File (dumps plain (VDict (demo_candidate true))));
     (["work"; "w.json"], File (dumps plain (VDict (dset demo_waiver "artifact_type" (VStr "waiver")))));
     (["work"; "bad.json"], File "[1]")].
Definition cli_console : Console := mkConsole (set_fs cli_fs empty_world) "" "".
Definition exit_code {A} (run : res A * Console) : option A := match run.1 with Ok a => Some a | Raise _ => None end.

Lemma validate_exit_code_witness : ∃ c',
  _cmd_validate (H := idle_env) ["w.json"; "bad.json"; "nowhere"] cli_console = (Ok 1, c') ∧
  con_world c' = con_world cli_console.
Proof.
  assert (Hx : exit_code (_cmd_validate (H := idle_env) ["w.json"; "bad.json"; "nowhere"] cli_console) = Some 1)
    by (vm_compute; reflexivity).
  destruct (_cmd_validate (H := idle_env) ["w.json"; "bad.json"; "nowhere"] cli_console) as [[n|e] c'] eqn:E; [|discriminate Hx].
  injection Hx as ->. exists c'. split; [reflexivity|].
  apply (validate_exit_code (H := idle_env) ["w.json"; "bad.json"; "nowhere"] cli_console 1 c' E).
Defined.

Lemma waiver_exit_code_witness : ∃ c',
  _cmd_waiver (H := idle_env) "w.json" (Some "2026-01-15T00:00:00Z") cli_console = (Ok 0, c') ∧
  waiver_in_force_at (H := idle_env) "w.json" (Some "2026-01-15T00:00:00Z") (con_world cli_console).
Proof.
  assert (Hx : exit_code (_cmd_waiver (H := idle_env) "w.json" (Some "2026-01-15T00:00:00Z") cli_console) = Some 0)
    by (vm_compute; reflexivity).
  destruct (_cmd_waiver (H := idle_env) "w.json" (Some "2026-01-15T00:00:00Z") cli_console) as [[n|e] c'] eqn:E; [|discriminate Hx].
  injection Hx as ->. exists c'. split; [reflexivity|].
  apply (waiver_exit_code (H := idle_env) "w.json" (Some "2026-01-15T00:00:00Z") cli_console 0 c' E). reflexivity.
Defined.

(** With the defaults OPA is asked about the candidate, and nothing is written. *)
Example default_deploy_verify :
  match _cmd_deploy_verify (H := allow_env) (default_deploy_args "rc.json") cli_console with
  | (Ok code, c') => Some (code, con_out c', length (w_log (con_world c')), bool_decide (w_fs (con_world c') = cli_fs))
  | _ => None
  end = Some (0, "ALLOW   rc.json" +:+ LF, 1%nat, true).
Proof. vm_compute. reflexivity. Qed.

Definition demo_deploy : DeployArgs :=
  mkDeployArgs "rc.json" "http://localhost:8181" "b1" "RUN-deploy" (Some "2026-01-15T00:00:00Z") (Some "out")
    "EB-0001" "PD-0001" "deploy-verify" "release-approver".

Lemma deploy_verify_exit_code_witness : ∃ c' v,
  _cmd_deploy_verify (H := allow_env) demo_deploy cli_console = (Ok 0, c') ∧
  read_bytes (w_fs (con_world c')) ["work"; "out"; "policy-decision.json"] = Ok (document_text (rv_decision v)).
Proof.
  assert (Hx : exit_code (_cmd_deploy_verify (H := allow_env) demo_deploy cli_console) = Some 0) by (vm_compute; reflexivity).
  destruct (_cmd_deploy_verify (H := allow_env) demo_deploy cli_console) as [[n|e] c'] eqn:E; [|discriminate Hx].
  injection Hx as ->. assert (fs_wf (w_fs (con_world cli_console))) as Hwf by (apply fs_wfb_ok; vm_compute; reflexivity).
  destruct (deploy_verify_exit_code (H := allow_env) demo_deploy cli_console 0 c' Hwf E)
    as [(Hc & _)|(root & candidate & t & v & w1 & w2 & request & _ & _ & _ & _ & _ & _ & _ & Hr)]; [discriminate Hc|].
  exists c', v. split; [reflexivity|]. apply Hr. discriminate.
Defined.

Definition demo_bridge : McpArgs := default_mcp_args.

Lemma bridge_session_witness : ∃ lines c',
  _cmd_mcp (H := allow_env) demo_bridge ["{"; " "; "{}"] cli_console = (Ok 0, c') ∧ length lines = 2%nat ∧
  con_out c' = encode_replace (join "" lines).
Proof.
  set (w := con_world cli_console).
  destruct (start (H := allow_env) [("type", VStr "agent"); ("id", VStr "opencode"); ("role", VStr "implementer")] None w)
    as [[run|e] w1] eqn:Er; [|discriminate Er].
  assert (w1 = (start (H := allow_env) [("type", VStr "agent"); ("id", VStr "opencode"); ("role", VStr "implementer")] None w).2)
    as Hw1 by (rewrite Er; reflexivity).
  assert (Hx : is_ok (bridge_tools (H := allow_env) ["work"; "specs"; "artifacts"] ["work"] w1).1 = true)
    by (rewrite Hw1; vm_compute; reflexivity).
  destruct (bridge_tools (H := allow_env) ["work"; "specs"; "artifacts"] ["work"] w1) as [[tools|e] w2] eqn:Et; [|discriminate Hx].
  destruct (bridge_session (H := allow_env) demo_bridge ["{"; " "; "{}"] cli_console
    "0123456789abcdef0123456789abcdef" [("type", VStr "agent"); ("id", VStr "opencode"); ("role", VStr "implementer")]
    run w1 tools w2) as (_ & lines & c' & E & _ & Ho & _ & Hl).
  - vm_compute. reflexivity.
  - vm_compute. reflexivity.
  - exact Er.
  - exact Et.
  - exists lines, c'. split; [exact E|]. split; [exact Hl|exact Ho].
Defined.

(** A secret of white space is taken for an empty key. *)
Example blank_secret_is_empty : fromhex "  " = Some "" ∧ fromhex "6b6579" = Some "key" ∧ fromhex "6b6" = None.
Proof. by vm_compute. Qed.
