(* ===== verification/Argparse.v ===== *)
(** [argparse] of Python's library, as far as [sdlc/cli.py] uses it: parsers with [-h], options
    that store a text or set a flag, and at most one positional argument; abbreviations,
    values after [=] and after a short name.  Where releases of Python 3.12 differ,
    the reading is [ParsedVersion]. *)

From S2P Require Export Prelude PyStr Json.
From Stdlib Require Import Ascii.
#[local] Open Scope Z_scope.

(** * Parsers *)

Inductive arg_kind := AHelp | AStore | AStoreTrue.
#[export] Instance arg_kind_eq_dec : EqDecision arg_kind.
Proof. solve_decision. Defined.

(** An option: [add_argument] with its option strings, [dest], [required] and [default]. *)
Record ArgOption := mkArgOption {
  ao_strings : list pystr;
  ao_dest : pystr;
  ao_kind : arg_kind;
  ao_required : bool;
  ao_default : option pystr
}.

(** The positional argument of a command, if it has one: single, or [nargs="+"]. *)
Inductive positional := PNone | POne (dest : pystr) | PMany (dest : pystr).

Record ArgParser := mkArgParser { ap_positional : positional; ap_options : list ArgOption }.

(** Every parser has the option [-h]. *)
Definition help_option : ArgOption := mkArgOption ["-h"; "--help"] "help" AHelp false None.
Definition add_parser (pos : positional) (options : list ArgOption) : ArgParser :=
  mkArgParser pos (help_option :: options).

(** [add_argument("--name", default=...)] *)
Definition opt (name dest : pystr) (dflt : option pystr) : ArgOption := mkArgOption [name] dest AStore false dflt.

(** * Arguments *)

(** What an argument is to a parser: a value; an option, with the value after [=] or
    after a short name; an unknown option; or something that releases of
    Python 3.12 read differently - [--], also as the value after [=] or after a short
    name, which early releases drop; a cluster of short options; an ambiguous
    abbreviation; digits that are not ASCII. *)
Inductive arg_class :=
  | CArg
  | COption (o : ArgOption) (explicit : option pystr)
  | CUnknown
  | CVersion.

Definition has_string (s : pystr) (o : ArgOption) : bool := bool_decide (s ∈ ao_strings o).
Definition find_option (p : ArgParser) (s : pystr) : option ArgOption := List.find (has_string s) (ap_options p).

(** [s.split("=", 1)] of a string with an [=]. *)
Fixpoint split_eq (s : pystr) : option (pystr * pystr) :=
  match s with
  | "" => None
  | String a s => if bool_decide (a = "="%char) then Some ("", s)
                  else '(x, y) ← split_eq s; Some (String a x, y)
  end.

(** [_get_option_tuples] *)
Definition option_tuples (p : ArgParser) (arg : pystr) : list (ArgOption * option pystr) :=
  let strings := ap_options p ≫= (λ o, (λ s, (o, s)) <$> ao_strings o) in
  if startswith arg "--" then
    let '(prefix, explicit) := match split_eq arg with Some (x, y) => (x, Some y) | None => (arg, None) end in
    (λ os, (os.1, explicit)) <$> base.filter (λ os, startswith os.2 prefix = true) strings
  else
    omap (λ os, if os.2 ≟ take_str 2 arg then Some (os.1, Some (drop_str 2 arg))
                else if startswith os.2 arg then Some (os.1, None) else None) strings.

(** [-\d+] or [-\d*\.\d+]; [$] matches before a final line feed too. *)
Definition negative_number (arg : pystr) : bool :=
  match arg with
  | String "-" s =>
      let '(d, s) := span_digits s in
      let final r := (r ≟ "") || (r ≟ LF) in
      match s with
      | String "." s => let '(d, r) := span_digits s in negb (d ≟ "") && final r
      | _ => negb (d ≟ "") && final s
      end
  | _ => false
  end.

(** An option with its value: [_get_values] of early releases removes a value [--]. *)
Definition read_option (o : ArgOption) (explicit : option pystr) : arg_class :=
  if bool_decide (explicit = Some "--") && bool_decide (ao_kind o = AStore) then CVersion else COption o explicit.

(** [_parse_optional] *)
Definition classify (p : ArgParser) (arg : pystr) : arg_class :=
  if arg ≟ "--" then CVersion
  else if negb (startswith arg "-") then CArg
  else match find_option p arg with
  | Some o => COption o None
  | None =>
      if arg ≟ "-" then CArg
      else if startswith arg "-h" then CVersion
      else match ('(s, v) ← split_eq arg; o ← find_option p s; Some (o, v)) with
      | Some (o, v) => read_option o (Some v)
      | None =>
          match option_tuples p arg with
          | [(o, explicit)] => read_option o explicit
          | _ :: _ => CVersion
          | [] =>
              if negb (startswith arg "--") && negb (is_ascii arg) then CVersion
              else if negative_number arg || contains arg " " then CArg
              else CUnknown
          end
      end
  end.

(** * Parsing *)

Inductive argval := ANone | AStr (s : pystr) | ABool (b : bool) | AStrs (l : list pystr).
Abbreviation Namespace := (list (string * argval)).

(** How far the positional argument is: not begun, [nargs="+"] taking values, complete. *)
Inductive progress := Fresh | Filling | Complete.

Record PState := mkPState {
  ps_ns : Namespace;
  ps_positional : progress;
  ps_seen : list pystr;
  ps_extras : list pystr
}.

Inductive parsed :=
  | Parsed (ns : Namespace) (extras : list pystr)
  | ParsedHelp
  | ParsedError
  | ParsedVersion.

Definition default_value (o : ArgOption) : argval :=
  match ao_kind o with
  | AStoreTrue => ABool false
  | _ => match ao_default o with Some s => AStr s | None => ANone end
  end.
Definition pos_dest (pos : positional) : list pystr :=
  match pos with PNone => [] | POne d | PMany d => [d] end.

Definition initial (p : ArgParser) : PState :=
  mkPState (((λ d, (d, ANone)) <$> pos_dest (ap_positional p)) ++
            ((λ o, (ao_dest o, default_value o)) <$> base.filter (λ o, ao_kind o ≠ AHelp) (ap_options p)))%list
    Fresh [] [].

(** A run of values ends at an option. *)
Definition close (st : PState) : PState :=
  mkPState (ps_ns st) (match ps_positional st with Filling => Complete | pr => pr end) (ps_seen st) (ps_extras st).
Definition extra (a : pystr) (st : PState) : PState :=
  mkPState (ps_ns st) (ps_positional st) (ps_seen st) (ps_extras st ++ [a]).
Definition store (o : ArgOption) (v : argval) (st : PState) : PState :=
  mkPState (kset (ps_ns st) (ao_dest o) v) (ps_positional st) (ao_dest o :: ps_seen st) (ps_extras st).

Definition take_value (p : ArgParser) (a : pystr) (st : PState) : PState :=
  match ap_positional p, ps_positional st with
  | POne d, Fresh => mkPState (kset (ps_ns st) d (AStr a)) Complete (ps_seen st) (ps_extras st)
  | PMany d, Fresh => mkPState (kset (ps_ns st) d (AStrs [a])) Filling (ps_seen st) (ps_extras st)
  | PMany d, Filling =>
      let l := match kget (ps_ns st) d with Some (AStrs l) => l | _ => [] end in
      mkPState (kset (ps_ns st) d (AStrs (l ++ [a]))) Filling (ps_seen st) (ps_extras st)
  | _, _ => extra a st
  end.

(** The positional argument and the required options must have been seen. *)
Definition finish (p : ArgParser) (st : PState) : parsed :=
  let missing := match ap_positional p, ps_positional st with PNone, _ => false | _, Fresh => true | _, _ => false end in
  if missing || existsb (λ o, ao_required o && negb (bool_decide (ao_dest o ∈ ps_seen st))) (ap_options p)
  then ParsedError else Parsed (ps_ns st) (ps_extras st).

(** [_parse_known_args]: options and runs of values in turn. *)
Fixpoint parse_loop (p : ArgParser) (args : list pystr) (st : PState) : parsed :=
  match args with
  | [] => finish p st
  | a :: args =>
      match classify p a with
      | CArg => parse_loop p args (take_value p a st)
      | CUnknown => parse_loop p args (extra a (close st))
      | CVersion => ParsedVersion
      | COption o (Some v) =>
          match ao_kind o with
          | AStore => parse_loop p args (store o (AStr v) (close st))
          | AHelp | AStoreTrue => ParsedError
          end
      | COption o None =>
          match ao_kind o with
          | AHelp => ParsedHelp
          | AStoreTrue => parse_loop p args (store o (ABool true) (close st))
          | AStore =>
              match args with
              | b :: args =>
                  match classify p b with
                  | CArg => parse_loop p args (store o (AStr b) (close st))
                  | _ => ParsedError
                  end
              | [] => ParsedError
              end
          end
      end
  end.
Definition parse_known_args (p : ArgParser) (args : list pystr) : parsed :=
  if existsb (λ a, match classify p a with CVersion => true | _ => false end) args then ParsedVersion
  else parse_loop p args (initial p).

(** * Reading spelled-out arguments *)

(** A value that does not look like an option. *)
Definition plain_value (v : pystr) : Prop := startswith v "-" = false.
Lemma classify_plain p v : plain_value v → classify p v = CArg.
Proof.
  unfold plain_value, classify. intros Hv. rewrite bool_decide_false by (intros ->; discriminate Hv). by rewrite Hv.
Qed.

(** A list of arguments none of which is read differently by some release. *)
Definition settled (p : ArgParser) (args : list pystr) : Prop := Forall (λ a, classify p a ≠ CVersion) args.

Lemma parse_settled p args : settled p args → parse_known_args p args = parse_loop p args (initial p).
Proof.
  intros Hs. unfold parse_known_args. destruct (existsb _ args) eqn:E; [|done].
  apply existsb_exists in E as (a & Ha%list_elem_of_In & Hc). unfold settled in Hs. rewrite Forall_forall in Hs.
  specialize (Hs a Ha). by destruct (classify p a).
Qed.

Lemma step_plain p a args st : plain_value a → parse_loop p (a :: args) st = parse_loop p args (take_value p a st).
Proof. intros Ha. cbn [parse_loop]. by rewrite classify_plain. Qed.
Lemma step_option p a o v args st :
  classify p a = COption o (Some v) → ao_kind o = AStore →
  parse_loop p (a :: args) st = parse_loop p args (store o (AStr v) (close st)).
Proof. intros Ha Ho. cbn [parse_loop]. by rewrite Ha, Ho. Qed.

Lemma step_flag p a o args st :
  classify p a = COption o None → ao_kind o = AStoreTrue →
  parse_loop p (a :: args) st = parse_loop p args (store o (ABool true) (close st)).
Proof. intros Ha Ho. cbn [parse_loop]. by rewrite Ha, Ho. Qed.

(** A run of values fills the argument. *)
Lemma run_of_values p d vs ns seen extras l :
  ap_positional p = PMany d → kget ns d = Some (AStrs l) → Forall plain_value vs →
  ∃ ns', parse_loop p vs (mkPState ns Filling seen extras) = finish p (mkPState ns' Filling seen extras) ∧
    kget ns' d = Some (AStrs (l ++ vs)).
Proof.
  intros Hp. revert ns l. induction vs as [|v vs IH]; intros ns l Hl Hvs.
  - exists ns. by rewrite app_nil_r.
  - apply Forall_cons in Hvs as [Hv Hvs]. rewrite step_plain by done. unfold take_value. rewrite Hp. cbn [ps_positional ps_ns].
    rewrite Hl. destruct (IH (kset ns d (AStrs (l ++ [v]))) (l ++ [v])%list) as (ns' & E & Hns'); [apply kget_kset|done|].
    exists ns'. by rewrite <- app_assoc in Hns'.
Qed.

(** ** Options that are spelled out *)

Definition no_eq (s : pystr) : bool := bool_decide (split_eq s = None).

Lemma split_eq_spelled name v : no_eq name = true → split_eq (name +:+ "=" +:+ v) = Some (name, v).
Proof.
  unfold no_eq. rewrite bool_decide_eq_true. assert (Ht : split_eq ("=" +:+ v) = Some ("", v)) by done. revert Ht.
  generalize ("=" +:+ v) as t. intros t Ht. induction name as [|a name IH]; [by rewrite app_str_nil_l|]. rewrite app_str_cons. cbn [split_eq].
  case_bool_decide; [done|]. destruct (split_eq name) as [[x y]|]; [done|]. intros _. by rewrite IH.
Qed.

(** A long option, by its name. *)
Definition spelled_option (p : ArgParser) (name : pystr) : option ArgOption :=
  if startswith name "--" && no_eq name && forallb (λ o, forallb no_eq (ao_strings o)) (ap_options p)
  then find_option p name else None.

Lemma find_option_eq p s :
  forallb (λ o, forallb no_eq (ao_strings o)) (ap_options p) = true → no_eq s = false → find_option p s = None.
Proof.
  intros Hp Hs. unfold find_option. destruct (List.find _ _) as [o|] eqn:E; [|done].
  apply find_some in E as [Ho Hin]. unfold has_string in Hin. apply bool_decide_eq_true in Hin.
  rewrite forallb_forall in Hp. specialize (Hp o Ho). rewrite forallb_forall in Hp.
  specialize (Hp s ltac:(by apply list_elem_of_In)). congruence.
Qed.

Lemma classify_spelled p name o v :
  spelled_option p name = Some o → v ≠ "--" → classify p (name +:+ "=" +:+ v) = COption o (Some v).
Proof.
  unfold spelled_option. destruct (startswith name "--" && _ && _) eqn:E; [|done].
  apply andb_true_iff in E as [[Hn He]%andb_true_iff Hp]. intros Hf Hv.
  pose proof (split_eq_spelled name v He) as Hs. set (arg := name +:+ "=" +:+ v) in *.
  assert (Hd : ∃ rest, arg = "--" +:+ rest).
  { apply startswith_spec in Hn as [rest ->]. exists (rest +:+ "=" +:+ v). subst arg. by rewrite !app_str_assoc. }
  destruct Hd as [rest Hd]. unfold classify.
  rewrite (bool_decide_false (arg = "--")) by (intros Ha; rewrite Ha in Hs; discriminate Hs).
  assert (startswith arg "-" = true) as -> by (rewrite Hd; by apply startswith_spec; exists ("-" +:+ rest)).
  assert (no_eq arg = false) as Hne by (unfold no_eq; apply bool_decide_false; rewrite Hs; discriminate).
  rewrite (find_option_eq p arg Hp Hne). cbn [negb].
  rewrite (bool_decide_false (arg = "-")) by (intros Ha; rewrite Ha in Hs; discriminate Hs).
  assert (startswith arg "-h" = false) as -> by (by rewrite Hd).
  rewrite Hs. cbn [mbind option_bind]. rewrite Hf. cbn. unfold read_option.
  by rewrite bool_decide_false by congruence.
Qed.

(** Reading a line of options that are spelled out, with values other than [--], and of
    plain values. *)
Ltac settle :=
  unfold settled;
  repeat (apply Forall_cons_2;
    [first [by rewrite classify_plain by eassumption
           |by erewrite classify_spelled by (eassumption || (vm_compute; reflexivity))
           |by vm_compute]|]);
  apply Forall_nil_2.
Ltac read_args :=
  repeat first
    [ eapply eq_trans; [apply step_plain; eassumption|]
    | eapply eq_trans; [eapply step_option; [eapply classify_spelled; [vm_compute; reflexivity|eassumption]|reflexivity]|]
    | eapply eq_trans; [eapply step_flag; [vm_compute; reflexivity|reflexivity]|] ].
