(* ===== verification/Main.v ===== *)
(** [build_parser] and [main] of [sdlc/cli.py]: the command line, and the dispatch to the
    commands of [Cli]. *)

From S2P Require Export Argparse Cli Gate.
From Stdlib Require Import Ascii.
#[local] Open Scope Z_scope.

(** * The parsers *)

Definition main_parser : ArgParser := add_parser PNone [].
Definition build_parser : list (pystr * ArgParser) :=
  [("validate", add_parser (PMany "paths") []);
   ("render", add_parser (POne "path") [mkArgOption ["-o"; "--output"] "output" AStore false None]);
   ("waiver", add_parser (POne "path") [opt "--now" "now" None]);
   ("deploy-verify", add_parser (POne "path")
     [opt "--opa-url" "opa_url" (Some "http://localhost:8181");
      opt "--bundle-version" "bundle_version" (Some "unknown");
      opt "--run-id" "run_id" (Some "RUN-deploy-verify");
      opt "--now" "now" None;
      opt "--output-dir" "output_dir" None;
      opt "--bundle-id" "bundle_id" (Some "EB-0001");
      opt "--decision-id" "decision_id" (Some "PD-0001");
      opt "--actor-id" "actor_id" (Some "deploy-verify");
      opt "--actor-role" "actor_role" (Some "release-approver")]);
   ("trace", add_parser PNone
     [mkArgOption ["--feature"] "feature" AStore true None;
      opt "--repo-root" "repo_root" None;
      mkArgOption ["--json"] "as_json" AStoreTrue false None]);
   ("mcp", add_parser PNone
     [opt "--opa-url" "opa_url" (Some "http://localhost:8181");
      opt "--artifacts-dir" "artifacts_dir" (Some "specs/artifacts");
      opt "--evidence-dir" "evidence_dir" (Some "specs/evidence");
      opt "--root" "root" (Some ".")])].

(** The command is the first value; an option before it can only be [-h] or unknown, and
    what no parser knows is an error in the end. *)
Fixpoint parse_command (argv : list pystr) (unknown : bool) : pystr * parsed :=
  match argv with
  | [] => ("", ParsedError)
  | a :: args =>
      match classify main_parser a with
      | CArg =>
          (a, match kget build_parser a with
              | None => ParsedError
              | Some p =>
                  match parse_known_args p args with
                  | Parsed ns extras => if unknown || negb (bool_decide (extras = [])) then ParsedError else Parsed ns []
                  | r => r
                  end
              end)
      | CUnknown => parse_command args true
      | CVersion => ("", ParsedVersion)
      | COption _ None => ("", ParsedHelp)
      | COption _ (Some _) => ("", ParsedError)
      end
  end.

(** * Commands *)

(** What [set_defaults(func=...)] selects, with the arguments it reads of the namespace. *)
Inductive Command :=
  | CValidate (paths : list pystr)
  | CRender (path : pystr) (output : option pystr)
  | CWaiver (path : pystr) (now : option pystr)
  | CDeployVerify (args : DeployArgs)
  | CTrace (feature : pystr) (repo_root : option pystr) (as_json : bool)
  | CMcp (args : McpArgs).

Definition str_arg (ns : Namespace) (k : string) : option pystr := match kget ns k with Some (AStr s) => Some s | _ => None end.
(** An argument with a default. *)
Definition text_arg (ns : Namespace) (k : string) : pystr := default "" (str_arg ns k).
Definition list_arg (ns : Namespace) (k : string) : list pystr := match kget ns k with Some (AStrs l) => l | _ => [] end.
Definition bool_arg (ns : Namespace) (k : string) : bool := match kget ns k with Some (ABool b) => b | _ => false end.

Definition to_command (name : pystr) (ns : Namespace) : option Command :=
  if name ≟ "validate" then Some (CValidate (list_arg ns "paths"))
  else if name ≟ "render" then Some (CRender (text_arg ns "path") (str_arg ns "output"))
  else if name ≟ "waiver" then Some (CWaiver (text_arg ns "path") (str_arg ns "now"))
  else if name ≟ "deploy-verify" then
    Some (CDeployVerify (mkDeployArgs (text_arg ns "path") (text_arg ns "opa_url") (text_arg ns "bundle_version")
      (text_arg ns "run_id") (str_arg ns "now") (str_arg ns "output_dir") (text_arg ns "bundle_id")
      (text_arg ns "decision_id") (text_arg ns "actor_id") (text_arg ns "actor_role")))
  else if name ≟ "trace" then Some (CTrace (text_arg ns "feature") (str_arg ns "repo_root") (bool_arg ns "as_json"))
  else if name ≟ "mcp" then
    Some (CMcp (mkMcpArgs (text_arg ns "opa_url") (text_arg ns "artifacts_dir") (text_arg ns "evidence_dir") (text_arg ns "root")))
  else None.

(** What a command line asks for. *)
Inductive request := Run (c : Command) | ExitHelp | ExitUsage.

Section main.
  (** The readings on which releases of Python 3.12 differ. *)
  Context (other_reading : list pystr → request).

Definition parse_args (argv : list pystr) : request :=
  match parse_command argv false with
  | (name, Parsed ns _) => match to_command name ns with Some c => Run c | None => ExitUsage end
  | (_, ParsedHelp) => ExitHelp
  | (_, ParsedError) => ExitUsage
  | (_, ParsedVersion) => other_reading argv
  end.

(** The texts [argparse] prints, and the order in which a set of paths is iterated over. *)
  Context (help_text usage_text : list pystr → pystr).
  Context (set_order : list path → list path).
  Context `{Env}.

Definition run_command (c : Command) (stdin : list pystr) : ST Console Z :=
  match c with
  | CValidate paths => _cmd_validate paths
  | CRender path output => _cmd_render path output
  | CWaiver path now => _cmd_waiver path now
  | CDeployVerify args => _cmd_deploy_verify args
  | CTrace feature repo_root as_json => _cmd_trace set_order feature repo_root as_json
  | CMcp args => _cmd_mcp args stdin
  end.

(** The exit code; [parse_args] leaves with 0 after printing the help, and with 2 after an error. *)
Definition main (argv stdin : list pystr) : ST Console Z :=
  match parse_args argv with
  | Run c => run_command c stdin
  | ExitHelp => _ ← write_out (help_text argv); mret 0
  | ExitUsage => _ ← print_err (usage_text argv); mret 2
  end.
End main.

(** * Reading a command line *)

(** How a command is written: options as [--name=value], then the positional argument. *)
Definition opt_arg (name : pystr) (v : option pystr) : list pystr :=
  match v with Some v => [name +:+ "=" +:+ v] | None => [] end.
Definition command_line (c : Command) : list pystr :=
  match c with
  | CValidate paths => "validate" :: paths
  | CRender path output => "render" :: opt_arg "--output" output ++ [path]
  | CWaiver path now => "waiver" :: opt_arg "--now" now ++ [path]
  | CDeployVerify a =>
      "deploy-verify" :: opt_arg "--opa-url" (Some (da_opa_url a)) ++ opt_arg "--bundle-version" (Some (da_bundle_version a)) ++
      opt_arg "--run-id" (Some (da_run_id a)) ++ opt_arg "--now" (da_now a) ++ opt_arg "--output-dir" (da_output_dir a) ++
      opt_arg "--bundle-id" (Some (da_bundle_id a)) ++ opt_arg "--decision-id" (Some (da_decision_id a)) ++
      opt_arg "--actor-id" (Some (da_actor_id a)) ++ opt_arg "--actor-role" (Some (da_actor_role a)) ++ [da_path a]
  | CTrace feature repo_root as_json =>
      "trace" :: opt_arg "--feature" (Some feature) ++ opt_arg "--repo-root" repo_root ++ (if as_json then ["--json"] else [])
  | CMcp a =>
      "mcp" :: opt_arg "--opa-url" (Some (ma_opa_url a)) ++ opt_arg "--artifacts-dir" (Some (ma_artifacts_dir a)) ++
      opt_arg "--evidence-dir" (Some (ma_evidence_dir a)) ++ opt_arg "--root" (Some (ma_root a))
  end%list.

(** The values of a command's options. *)
Definition option_values (c : Command) : list pystr :=
  match c with
  | CValidate _ => []
  | CRender _ output => option_list output
  | CWaiver _ now => option_list now
  | CDeployVerify a =>
      da_opa_url a :: da_bundle_version a :: da_run_id a :: da_bundle_id a :: da_decision_id a :: da_actor_id a :: da_actor_role a ::
      option_list (da_now a) ++ option_list (da_output_dir a)
  | CTrace feature repo_root _ => feature :: option_list repo_root
  | CMcp a => [ma_opa_url a; ma_artifacts_dir a; ma_evidence_dir a; ma_root a]
  end%list.

(** Commands whose positional arguments do not look like options, and none of whose
    options has the value [--], which releases of Python read differently. *)
Definition writable (c : Command) : Prop :=
  Forall (λ v, v ≠ "--") (option_values c) ∧
  match c with
  | CValidate paths => paths ≠ [] ∧ Forall plain_value paths
  | CRender path _ | CWaiver path _ => plain_value path
  | CDeployVerify a => plain_value (da_path a)
  | CTrace _ _ _ | CMcp _ => True
  end.

Definition command_of (name : pystr) (r : parsed) : option Command :=
  match r with Parsed ns [] => to_command name ns | _ => None end.

Lemma parse_one other_reading name p args r c :
  kget build_parser name = Some p → plain_value name → settled p args → parse_loop p args (initial p) = r →
  command_of name r = Some c → parse_args other_reading (name :: args) = Run c.
Proof.
  intros Hp Hn Hs Hl Hc. unfold parse_args. cbn [parse_command]. rewrite classify_plain, Hp, parse_settled, Hl by done.
  destruct r as [ns [|]| | |]; try done. cbn [command_of] in Hc. cbn. by rewrite Hc.
Qed.

Ltac split_values H :=
  cbn [option_values option_list app da_opa_url da_bundle_version da_run_id da_now da_output_dir da_bundle_id da_decision_id
    da_actor_id da_actor_role ma_opa_url ma_artifacts_dir ma_evidence_dir ma_root] in H;
  repeat (let Hx := fresh "Hx" in apply Forall_cons in H as [Hx H]); cbv beta in *.
Ltac read_back :=
  eapply parse_one;
    [by vm_compute|done|cbn [opt_arg app]; settle|cbn [opt_arg app]; read_args; reflexivity|vm_compute; reflexivity].

(** C31: a command line that is written out is read back as the command it was written for,
    whatever the values of its options are but [--] - a value may be empty or look like
    an option - and whatever the release of Python: no reading is left open. *)
Theorem command_line_roundtrip other_reading c :
  writable c → parse_args other_reading (command_line c) = Run c.
Proof.
  destruct c as [[|v vs]|path output|path now|a|feature repo_root as_json|a]; cbn [command_line writable]; intros [Hv Hw].
  - by destruct Hw.
  - clear Hv. destruct Hw as [_ [Hv Hvs]%Forall_cons]. set (p := add_parser (PMany "paths") []).
    destruct (run_of_values p "paths" vs [("paths", AStrs [v])] [] [] [v] eq_refl eq_refl Hvs) as (ns & E & Hns).
    apply (parse_one other_reading "validate" p (v :: vs) (Parsed ns [])); [done|done| | |].
    + unfold settled. apply Forall_cons_2; [by rewrite classify_plain|].
      apply (Forall_impl plain_value); [done|]. intros x Hx. by rewrite classify_plain.
    + rewrite step_plain by done. exact E.
    + change (command_of "validate" (Parsed ns [])) with (Some (CValidate (list_arg ns "paths"))). unfold list_arg. by rewrite Hns.
  - destruct output; split_values Hv; read_back.
  - destruct now; split_values Hv; read_back.
  - destruct a as [path url version run [now|] [dir|] bundle decision actor role]; split_values Hv; read_back.
  - destruct repo_root, as_json; split_values Hv; read_back.
  - destruct a. split_values Hv. read_back.
Qed.

(** * Exit codes *)

Section codes.
  Context `{Env}.

(** Codes a computation can return. *)
Definition returns (codes : list Z) (m : ST Console Z) : Prop := ∀ c code c', m c = (Ok code, c') → code ∈ codes.

Lemma returns_ret codes code : code ∈ codes → returns codes (mret code).
Proof. by intros Hin c code' c' [= <- _]. Qed.
Lemma returns_lift codes e : returns codes (lift (Raise e)).
Proof. by intros c code c' Hx. Qed.
Lemma returns_bind {A} codes (m : ST Console A) k : (∀ a, returns codes (k a)) → returns codes (m ≫= k).
Proof. intros Hk c code c' (a & c1 & _ & Hx)%ST_bind_Ok. by eapply Hk. Qed.

Lemma render_returns path output : returns [0; 1] (_cmd_render path output).
Proof.
  unfold _cmd_render. apply returns_bind; intros instance. apply returns_bind; intros markdown. cbv zeta.
  destruct (_ ≟ ""); repeat (apply returns_bind; intros ?); apply returns_ret; set_solver.
Qed.
Lemma trace_returns set_order feature repo_root as_json : returns [0; 1] (_cmd_trace set_order feature repo_root as_json).
Proof.
  unfold _cmd_trace. cbv zeta. apply returns_bind; intros root. apply returns_bind; intros report.
  apply returns_bind; intros _. apply returns_ret. destruct (complete report); set_solver.
Qed.
Lemma mcp_returns args stdin : returns [0; 1] (_cmd_mcp args stdin).
Proof.
  unfold _cmd_mcp. destruct bridge_secret as [secret|]; [|apply returns_bind; intros _; apply returns_ret; set_solver].
  destruct (loads _) as [actor|e].
  - repeat (apply returns_bind; intros ?). apply returns_ret. set_solver.
  - destruct (caught_by _ e); [|apply returns_lift]. apply returns_bind; intros _. apply returns_ret. set_solver.
Qed.
Lemma validate_returns paths : returns [0; 1] (_cmd_validate paths).
Proof.
  unfold _cmd_validate. apply returns_bind; intros root. apply returns_bind; intros failures.
  apply returns_ret. destruct (failures =? 0); set_solver.
Qed.
Lemma waiver_returns path now : returns [0; 1] (_cmd_waiver path now).
Proof. intros c code c' [_ [(-> & _)|(-> & _)]]%cmd_waiver_Ok; set_solver. Qed.
Lemma deploy_verify_returns args : returns [0; 1] (_cmd_deploy_verify args).
Proof.
  intros c code c' [(-> & _)|(root & candidate & _ & _ & (t & v & w1 & w2 & _ & -> & _)%verify_candidate_Ok)]%cmd_deploy_verify_Ok;
    [set_solver|]. destruct (rv_allow v); set_solver.
Qed.

Lemma command_returns set_order c stdin : returns [0; 1] (run_command set_order c stdin).
Proof.
  destruct c; cbn [run_command];
    auto using validate_returns, render_returns, waiver_returns, deploy_verify_returns, trace_returns, mcp_returns.
Qed.
End codes.

Lemma onFs_log {A} (m : ST Fs A) w : w_log (onFs m w).2 = w_log w.
Proof. unfold onFs. rewrite zoom_eq. by destruct (m (w_fs w)). Qed.
Lemma write_text_log p text w : w_log (write_text p text w).2 = w_log w.
Proof.
  unfold write_text. destruct (encode_utf8 text) as [data|e]; [apply onFs_log|]. rewrite ST_bind_eq.
  pose proof (onFs_log (write_bytes p "") w) as Hl. by destruct (onFs (write_bytes p "") w) as [[]].
Qed.
Lemma write_outputs_log `{Env} output_dir v w w' : write_outputs output_dir v w = (Ok tt, w') → w_log w' = w_log w.
Proof.
  unfold write_outputs. cbv zeta. destruct (_ ≟ ""); [by intros [= <-]|].
  intros ([] & w1 & H1 & ([] & w2 & H2 & H3)%ST_bind_Ok)%ST_bind_Ok.
  apply (f_equal snd) in H1, H2, H3. cbn [snd] in *. subst. by rewrite !write_text_log, onFs_log.
Qed.

Section program.
  Context (other_reading : list pystr → request) (help_text usage_text : list pystr → pystr).
  Context (set_order : list path → list path).

(** the exit code of the program: 2 says that the command line was refused, before
    anything was read, written or asked; help is 0; and a command that ends
    answers 0 or 1. *)
Theorem main_exit_code `{Env} argv stdin c code c' :
  main other_reading help_text usage_text set_order argv stdin c = (Ok code, c') →
  match parse_args other_reading argv with
  | Run _ => code = 0 ∨ code = 1
  | ExitHelp => code = 0 ∧ con_world c' = con_world c ∧ con_err c' = con_err c
  | ExitUsage => code = 2 ∧ con_world c' = con_world c ∧ con_out c' = con_out c
  end.
Proof.
  unfold main. destruct (parse_args other_reading argv) as [cmd| |].
  - intros Hx%command_returns. set_solver.
  - unfold write_out. intros ([] & c1 & Hx & [= <- <-])%ST_bind_Ok. split; [done|].
    apply ST_bind_Ok in Hx as (data & c2 & Hd & Hx). rewrite modifyS_eq in Hx. injection Hx as <-.
    rewrite lift_eq in Hd. by injection Hd as _ <-.
  - intros Hx. destruct (report_line_eq (usage_text argv) 2 c) as (c1 & E & Hw & Ho). rewrite E in Hx. by injection Hx as <- <-.
Qed.

(** C13: end to end, with OPA serving the repository's policies: [sdlc deploy-verify], on a
    candidate that its schema accepts, asks OPA once and exits with 0 exactly when OPA
    answers and the release is ready - it names an image; signature, SBOM and provenance
    are verified; the transition and CI policies allowed; a human of the required role
    approved and no agent did. *)
Theorem release_command `{Env} parse argv stdin args root candidate image role signature sbom provenance decisions
    approvals c code c' `{!OpaServes parse (new_client (da_opa_url args) (da_bundle_version args))} :
  parse_args other_reading argv = Run (CDeployVerify args) →
  is_file (w_fs (con_world c)) (cli_path (da_path args)) = true → find_repo_root (w_fs (con_world c)) None = Ok root →
  load_candidate (w_fs (con_world c)) (cli_path (da_path args)) (path_text (da_path args)) (Some root) = Ok candidate →
  json_ok (VDict candidate) → candidate_shape candidate image role signature sbom provenance decisions approvals →
  main other_reading help_text usage_text set_order argv stdin c = (Ok code, c') →
  ∃ tick request, w_log (con_world c') = EvHttp request :: w_log (con_world c) ∧
    (code = 0 ↔ is_ok (env_http tick request) = true ∧
       release_ready image role signature sbom provenance decisions approvals).
Proof.
  intros Hp Hf Hroot Hl Hok Hs. unfold main. rewrite Hp. cbn [run_command].
  intros [(_ & _ & _ & Hno)|(root' & candidate' & Hroot' & Hl' & Hx)]%cmd_deploy_verify_Ok; [by destruct (Hno root candidate)|].
  assert (root' = root) as -> by congruence. assert (candidate' = candidate) as -> by congruence.
  apply verify_candidate_Ok in Hx as (t & v & w1 & w2 & (Hm & Hver & Hwr) & -> & _).
  destruct (verify_release_served parse _ _ _ _ _ _ _ _ _ _ _ _ _ _ _ _ _ _ Hok Hs Hver) as (request & Hlog & Hv).
  destruct (moment_of_world (da_now args) (con_world c)) as [k Hk]. rewrite Hm in Hk. cbn [snd] in Hk. subst w1.
  exists (w_tick (set_tick k (con_world c))), request. split; [by rewrite (write_outputs_log _ _ _ _ Hwr)|].
  rewrite <- Hv. by destruct (rv_allow v).
Qed.
End program.

(** * Witnesses *)

(** The readings left open: all are taken for an error. *)
Definition no_reading (argv : list pystr) : request := ExitUsage.

Lemma command_line_roundtrip_witness :
  parse_args no_reading ["waiver"; "--now=--json=1"; "w.json"] = Run (CWaiver "w.json" (Some "--json=1")).
Proof.
  apply (command_line_roundtrip no_reading (CWaiver "w.json" (Some "--json=1"))).
  split; [apply Forall_singleton; discriminate|reflexivity].
Defined.

(** Abbreviations, values after their option, options after the path, and what is refused. *)
Example parse_tests :
  parse_args no_reading ["deploy-verify"; "rc.json"; "--opa=u"; "--run"; "R"] =
    Run (CDeployVerify (mkDeployArgs "rc.json" "u" "unknown" "R" None None "EB-0001" "PD-0001" "deploy-verify" "release-approver")) ∧
  parse_args no_reading ["deploy-verify"; "rc.json"] = Run (CDeployVerify (default_deploy_args "rc.json")) ∧
  parse_args no_reading ["mcp"] = Run (CMcp default_mcp_args) ∧
  parse_args no_reading ["render"; "a.json"; "-oout.md"] = Run (CRender "a.json" (Some "out.md")) ∧
  parse_args no_reading ["validate"; "a"; "-1"; "-"] = Run (CValidate ["a"; "-1"; "-"]) ∧
  parse_args no_reading ["trace"; "--json"] = ExitUsage ∧ parse_args no_reading ["trace"; "--he"] = ExitHelp ∧
  parse_args no_reading ["waiver"; "w"; "--now"; "--later"] = ExitUsage ∧ parse_args no_reading [] = ExitUsage.
Proof. by vm_compute. Qed.

Definition demo_main (E : Env) : list pystr → list pystr → ST Console Z :=
  main no_reading (λ _, "usage: sdlc") (λ _, "usage: sdlc") id (H := E).

Lemma main_exit_code_witness : ∃ c',
  demo_main idle_env ["validate"] [] cli_console = (Ok 2, c') ∧ con_world c' = con_world cli_console.
Proof.
  assert (Hx : exit_code (demo_main idle_env ["validate"] [] cli_console) = Some 2) by (vm_compute; reflexivity).
  destruct (demo_main idle_env ["validate"] [] cli_console) as [[n|e] c'] eqn:E; [|discriminate Hx].
  injection Hx as ->. exists c'. split; [reflexivity|].
  exact (proj1 (proj2 (main_exit_code (H := idle_env) no_reading (λ _, "usage: sdlc") (λ _, "usage: sdlc") id ["validate"] []
    cli_console 2 c' E))).
Defined.

Definition main_client : PolicyClient := new_client "http://localhost:8181" "unknown".
Definition main_env : Env := opa_env demo_clock main_client allow_env.
(** The candidate of [Gate], in the work directory of [Cli]. *)
Definition main_console : Console :=
  mkConsole (set_fs (<[["work"; "ready.json"] := File (dumps plain (VDict ready_candidate))]> cli_fs) empty_world) "" "".

Lemma release_command_witness : ∃ c',
  demo_main main_env ["deploy-verify"; "ready.json"] [] main_console = (Ok 0, c') ∧
  release_ready (VStr "registry/app:1") (VStr "release-approver") [("verified", VBool true)] [("present", VBool true)]
    [("verified", VBool true)]
    [[("point", VStr "artifact-transition"); ("decision", VStr "allow")];
     [("point", VStr "pr-ci"); ("decision", VStr "allow")]]
    [[("role", VStr "release-approver"); ("actor", VDict human_actor)]].
Proof.
  assert (Hx : exit_code (demo_main main_env ["deploy-verify"; "ready.json"] [] main_console) = Some 0)
    by (vm_compute; reflexivity).
  destruct (demo_main main_env ["deploy-verify"; "ready.json"] [] main_console) as [[n|e] c'] eqn:E; [|discriminate Hx].
  injection Hx as ->. exists c'. split; [reflexivity|].
  assert (Hok : json_ok (VDict ready_candidate)) by (apply json_okb_ok; vm_compute; reflexivity).
  destruct (release_command no_reading (λ _, "usage: sdlc") (λ _, "usage: sdlc") id (H := main_env) demo_clock
    ["deploy-verify"; "ready.json"] [] (default_deploy_args "ready.json") ["repo"] ready_candidate _ _ _ _ _ _ _
    main_console 0 c' ltac:(vm_compute; reflexivity) ltac:(vm_compute; reflexivity) ltac:(vm_compute; reflexivity)
    ltac:(vm_compute; reflexivity) Hok ready_shape E) as (tick & request & _ & Hr).
  apply Hr. reflexivity.
Defined.
