(* ===== verification/Requests.v ===== *)
(** [apps/domain/internal/domain/]: the request service ([service.go]) over a store
    of requests and an outbox of events; the store in memory ([memory.go]) is the
    implementation of the interface that is modelled here. *)

From S2P Require Export Prelude PyStr.
From Stdlib Require Import Ascii.
#[local] Open Scope Z_scope.

(** * Data *)

Definition maxTitleLen : Z := 200.
Definition maxDescriptionLen : Z := 4000.
Definition defaultListLimit : Z := 50.
Definition maxListLimit : Z := 200.

Definition statusCreated : string := "created".
Definition statusTriaged : string := "triaged".
Definition statusInProgress : string := "in_progress".
Definition statusResolved : string := "resolved".
Definition statusClosed : string := "closed".
Definition statusCancelled : string := "cancelled".

Definition eventTypeRequestCreated : string := "request-created".
Definition eventTypeRequestStatusChanged : string := "request-status-changed".
Definition roleOperator : string := "operator".

Definition transitions : list (string * list string) :=
  [(statusCreated, [statusTriaged; statusCancelled]);
   (statusTriaged, [statusInProgress; statusCancelled]);
   (statusInProgress, [statusResolved; statusCancelled]);
   (statusResolved, [statusClosed]);
   (statusClosed, []);
   (statusCancelled, [])].

Definition CanTransition (from to : string) : bool :=
  match kget transitions from with
  | None => false
  | Some targets => existsb (λ target, bool_decide (target = to)) targets
  end.

Record Request := mkRequest {
  rq_ID : string;
  rq_Title : string;
  rq_Description : string;
  rq_Subject : string;
  rq_Status : string;
  rq_CreatedAt : string
}.
Definition with_status (r : Request) (status : string) : Request :=
  mkRequest (rq_ID r) (rq_Title r) (rq_Description r) (rq_Subject r) status (rq_CreatedAt r).

Record Event := mkEvent {
  ev_EventID : string;
  ev_EventType : string;
  ev_OccurredAt : string;
  ev_Request : Request;
  ev_PreviousStatus : string
}.

Record ListFilter := mkListFilter {
  lf_Status : string;
  lf_Subject : string;
  lf_Limit : Z
}.

Definition with_created (r : Request) (created_at : string) : Request :=
  mkRequest (rq_ID r) (rq_Title r) (rq_Description r) (rq_Subject r) (rq_Status r) created_at.

#[export] Instance Request_eq_dec : EqDecision Request.
Proof. solve_decision. Defined.
#[export] Instance Event_eq_dec : EqDecision Event.
Proof. solve_decision. Defined.

(** * The store *)

Inductive store_error := ErrRequestNotFound | ErrStore (message : string).

(** The interface [Store]: each operation is one transaction. *)
Record StoreOps (S : Type) := mkStoreOps {
  CreateRequestWithEvent : Request → Event → S → option store_error * S;
  GetRequest : string → S → store_error + Request;
  UpdateRequestStatusWithEvent : Request → Event → S → option store_error * S;
  ListRequests : ListFilter → S → store_error + list Request
}.
Arguments CreateRequestWithEvent {S}.
Arguments GetRequest {S}.
Arguments UpdateRequestStatusWithEvent {S}.
Arguments ListRequests {S}.

Definition matches (filter : ListFilter) (r : Request) : Prop :=
  (lf_Status filter = "" ∨ rq_Status r = lf_Status filter) ∧ (lf_Subject filter = "" ∨ rq_Subject r = lf_Subject filter).
#[export] Instance matches_dec filter r : Decision (matches filter r).
Proof. unfold matches. apply _. Defined.

(** What an operation does to a store that has the requests by identifier and the
    events in the order they were recorded: it records a new request, in a form of its own
    as to the time of creation; it replaces one; or it leaves both as they were. *)
Section effects.
  Context {S : Type} (requests : S → gmap string Request) (outbox : S → list Event).

Definition recorded (r : Request) (e : Event) (s s' : S) : Prop :=
  requests s !! rq_ID r = None ∧ (∃ t, requests s' = <[rq_ID r := with_created r t]> (requests s)) ∧
  outbox s' = (outbox s ++ [e])%list.
Definition replaced (r : Request) (e : Event) (s s' : S) : Prop :=
  outbox s' = (outbox s ++ [e])%list ∧
  ∃ old new, requests s !! rq_ID r = Some old ∧ requests s' = <[rq_ID r := new]> (requests s) ∧
    (new = r ∨ new = with_status old (rq_Status r)).
Definition untouched (s s' : S) : Prop := requests s' = requests s ∧ outbox s' = outbox s.
End effects.

(** What the service relies on: an operation that reports no error took effect; one that
    does may have taken effect all the same - the answer to a commit can be lost - but
    never half of it.  [key] is the identifier that a text stands for, if any. *)
Class Store {S : Type} (ops : StoreOps S) (key : string → option string) (requests : S → gmap string Request)
    (outbox : S → list Event) : Prop := {
  store_key id k : key id = Some k → key k = Some k;
  store_create r e s :
    key (rq_ID r) = Some (rq_ID r) →
    let '(err, s') := CreateRequestWithEvent ops r e s in
    recorded requests outbox r e s s' ∨ (err ≠ None ∧ untouched requests outbox s s');
  store_get id s :
    match GetRequest ops id s with
    | inr r => ∃ k, key id = Some k ∧ requests s !! k = Some r
    | inl ErrRequestNotFound => ∃ k, key id = Some k ∧ requests s !! k = None
    | inl (ErrStore _) => True
    end;
  store_update r e s :
    key (rq_ID r) = Some (rq_ID r) →
    let '(err, s') := UpdateRequestStatusWithEvent ops r e s in
    replaced requests outbox r e s s' ∨ (err ≠ None ∧ untouched requests outbox s s');
  store_list filter s rs :
    ListRequests ops filter s = inr rs →
    (∀ r, r ∈ rs → (∃ id, requests s !! id = Some r) ∧ matches filter r) ∧
    (0 < lf_Limit filter → Z.of_nat (length rs) ≤ lf_Limit filter)
}.

(** ** In memory *)

Module MemoryStore.
Record t := make { requests : gmap string Request; events : list Event; failWith : option string }.

Definition create (request : Request) (event : Event) (m : t) : option store_error * t :=
  match failWith m with
  | Some e => (Some (ErrStore e), m)
  | None =>
      match requests m !! rq_ID request with
      | Some _ => (Some (ErrStore "duplicate request id"), m)
      | None => (None, make (<[rq_ID request := request]> (requests m)) (events m ++ [event]) (failWith m))
      end
  end.
Definition get (id : string) (m : t) : store_error + Request :=
  match failWith m with
  | Some e => inl (ErrStore e)
  | None => match requests m !! id with Some request => inr request | None => inl ErrRequestNotFound end
  end.
Definition update (request : Request) (event : Event) (m : t) : option store_error * t :=
  match failWith m with
  | Some e => (Some (ErrStore e), m)
  | None =>
      match requests m !! rq_ID request with
      | None => (Some ErrRequestNotFound, m)
      | Some _ => (None, make (<[rq_ID request := request]> (requests m)) (events m ++ [event]) (failWith m))
      end
  end.

(** Latest first, then by descending identifier. *)
Definition before (r q : Request) : Prop :=
  (rq_CreatedAt r ≠ rq_CreatedAt q ∧ String.le (rq_CreatedAt q) (rq_CreatedAt r)) ∨
  (rq_CreatedAt r = rq_CreatedAt q ∧ String.le (rq_ID q) (rq_ID r)).
#[export] Instance before_dec r q : Decision (before r q).
Proof. unfold before. apply _. Defined.
Definition sorted (l : list Request) : list Request := merge_sort before l.

Definition list_requests (filter : ListFilter) (m : t) : store_error + list Request :=
  match failWith m with
  | Some e => inl (ErrStore e)
  | None =>
      let out := sorted (base.filter (matches filter) (map_to_list (requests m)).*2) in
      inr (if (0 <? lf_Limit filter) && (lf_Limit filter <? Z.of_nat (length out))
           then take (Z.to_nat (lf_Limit filter)) out else out)
  end.

Definition ops : StoreOps t := mkStoreOps t create get update list_requests.
End MemoryStore.

#[export] Instance memory_store : Store MemoryStore.ops Some MemoryStore.requests MemoryStore.events.
Proof.
  split.
  - done.
  - intros r e m _. cbn. unfold MemoryStore.create. destruct (MemoryStore.failWith m); [by right|].
    destruct (MemoryStore.requests m !! rq_ID r) eqn:E; [by right|]. left. split_and!; [done| |done].
    exists (rq_CreatedAt r). by destruct r.
  - intros id m. cbn. unfold MemoryStore.get. destruct (MemoryStore.failWith m); [done|].
    by destruct (MemoryStore.requests m !! id) eqn:E; exists id.
  - intros r e m _. cbn. unfold MemoryStore.update. destruct (MemoryStore.failWith m); [by right|].
    destruct (MemoryStore.requests m !! rq_ID r) as [old|] eqn:E; [|by right]. left. split; [done|]. exists old, r. auto.
  - intros filter m rs. cbn. unfold MemoryStore.list_requests. destruct (MemoryStore.failWith m); [done|].
    set (out := MemoryStore.sorted _). intros [= <-]. split.
    + intros r Hr. assert (Hin : r ∈ out) by (destruct (_ && _); [by eapply elem_of_take in Hr as (? & ? & _); eapply list_elem_of_lookup_2|done]).
      subst out. unfold MemoryStore.sorted in Hin. rewrite merge_sort_Permutation in Hin. apply list_elem_of_filter in Hin as [Hm Hin]. split; [|done].
      apply list_elem_of_fmap in Hin as ([id q] & -> & Hin). exists id. by apply elem_of_map_to_list in Hin.
    + intros Hl. destruct (0 <? lf_Limit filter) eqn:E1; [|lia]. cbn [andb].
      destruct (lf_Limit filter <? Z.of_nat (length out)) eqn:E2; [|lia]. rewrite length_take. lia.
Qed.

(** * The service *)

(** The status codes of the service; [Unavailable] stands for those of the transport. *)
Inductive code := InvalidArgument | PermissionDenied | NotFound | FailedPrecondition | Internal | Unavailable.
Abbreviation rpc A := (code * string + A)%type (only parsing).
Definition fail {A} (c : code) (message : string) : rpc A := inl (c, message).

(** [unicode.IsSpace] and [strings.TrimSpace] *)
Definition go_space (cp : Z) : bool :=
  bool_decide (9 ≤ cp ≤ 13) || bool_decide (cp ∈ [32; 133; 160; 5760; 8232; 8233; 8239; 8287; 12288]) ||
  bool_decide (8192 ≤ cp ≤ 8202).
Fixpoint trim_left (l : list Z) : list Z :=
  match l with cp :: l' => if go_space cp then trim_left l' else l | [] => [] end.
Definition TrimSpace (s : string) : string := utf8_encode (rev (trim_left (rev (trim_left (utf8_decode s))))).

Definition validLength (value : string) (minLen maxLen : Z) : bool :=
  let length := Z.of_nat (py_len value) in (minLen <=? length) && (length <=? maxLen).

(** The response's view of a request. *)
Record RequestProto := mkRequestProto { rp_Id : string; rp_Title : string; rp_Status : string; rp_CreatedAt : string }.
Definition requestProto (r : Request) : RequestProto := mkRequestProto (rq_ID r) (rq_Title r) (rq_Status r) (rq_CreatedAt r).

Record CreateIn := mkCreateIn { ci_Title : string; ci_Description : string; ci_Subject : string }.
Record UpdateIn := mkUpdateIn { ui_RequestId : string; ui_NewStatus : string; ui_ActorSubject : string; ui_ActorRole : string }.
Record GetIn := mkGetIn { gi_RequestId : string; gi_ActorSubject : string; gi_ActorRole : string }.
Record ListIn := mkListIn { li_Status : string; li_Subject : string; li_Limit : Z; li_ActorSubject : string; li_ActorRole : string }.

Section service.
  Context {S : Type} (store : StoreOps S).

(** [CreateRequest]; [occurredAt], [id] and [event_id] are the readings of the clock and of the
    generator of identifiers. *)
Definition CreateRequest (occurredAt id event_id : string) (i : CreateIn) (s : S) : rpc RequestProto * S :=
  let title := TrimSpace (ci_Title i) in
  if negb (validLength title 1 maxTitleLen) then (fail InvalidArgument "title must be between 1 and 200 characters", s)
  else if maxDescriptionLen <? Z.of_nat (py_len (ci_Description i)) then
    (fail InvalidArgument "description exceeds maximum length", s)
  else if ci_Subject i ≟ "" then (fail InvalidArgument "subject is required", s)
  else
    let request := mkRequest id title (ci_Description i) (ci_Subject i) statusCreated occurredAt in
    let event := mkEvent event_id eventTypeRequestCreated occurredAt request "" in
    match CreateRequestWithEvent store request event s with
    | (Some _, s) => (fail Internal "failed to persist request", s)
    | (None, s) => (inr (requestProto request), s)
    end.

(** [UpdateRequestStatus], up to and including the reading of the request: the
    request as it was read, and its new status. *)
Definition update_checked (i : UpdateIn) (s : S) : rpc (Request * string) :=
  let requestID := TrimSpace (ui_RequestId i) in
  if requestID ≟ "" then fail InvalidArgument "request_id is required"
  else if TrimSpace (ui_ActorSubject i) ≟ "" then fail InvalidArgument "actor subject is required"
  else if negb (TrimSpace (ui_ActorRole i) ≟ roleOperator) then fail PermissionDenied "operator role required"
  else
    let newStatus := TrimSpace (ui_NewStatus i) in
    match kget transitions newStatus with
    | None => fail InvalidArgument "unknown target status"
    | Some _ =>
        match GetRequest store requestID s with
        | inl ErrRequestNotFound => fail NotFound "request not found"
        | inl (ErrStore _) => fail Internal "failed to load request"
        | inr current =>
            if negb (CanTransition (rq_Status current) newStatus) then
              fail FailedPrecondition ("illegal transition " +:+ rq_Status current +:+ " -> " +:+ newStatus)
            else inr (current, newStatus)
        end
    end.
(** The rest: the write. *)
Definition update_write (occurredAt event_id : string) (current : Request) (newStatus : string) (s : S)
    : rpc RequestProto * S :=
  let updated := with_status current newStatus in
  let event := mkEvent event_id eventTypeRequestStatusChanged occurredAt updated (rq_Status current) in
  match UpdateRequestStatusWithEvent store updated event s with
  | (Some _, s) => (fail Internal "failed to persist status change", s)
  | (None, s) => (inr (requestProto updated), s)
  end.
Definition UpdateRequestStatus (occurredAt event_id : string) (i : UpdateIn) (s : S) : rpc RequestProto * S :=
  match update_checked i s with
  | inl e => (inl e, s)
  | inr (current, newStatus) => update_write occurredAt event_id current newStatus s
  end.

Definition GetRequestRpc (i : GetIn) (s : S) : rpc RequestProto :=
  let requestID := TrimSpace (gi_RequestId i) in
  if requestID ≟ "" then fail InvalidArgument "request_id is required"
  else
    let actor := TrimSpace (gi_ActorSubject i) in
    if actor ≟ "" then fail InvalidArgument "actor subject is required"
    else
      match GetRequest store requestID s with
      | inl ErrRequestNotFound => fail NotFound "request not found"
      | inl (ErrStore _) => fail Internal "failed to load request"
      | inr request =>
          if negb (TrimSpace (gi_ActorRole i) ≟ roleOperator) && negb (rq_Subject request ≟ actor) then
            fail NotFound "request not found"
          else inr (requestProto request)
      end.

(** The bounds on [limit]. *)
Definition clamp_limit (limit : Z) : Z :=
  let limit := if limit <=? 0 then defaultListLimit else limit in
  if maxListLimit <? limit then maxListLimit else limit.

Definition list_filter (i : ListIn) : rpc ListFilter :=
  let statusFilter := TrimSpace (li_Status i) in
  if negb (statusFilter ≟ "") && bool_decide (kget transitions statusFilter = None) then
    fail InvalidArgument "unknown status filter"
  else
    let actor := TrimSpace (li_ActorSubject i) in
    if actor ≟ "" then fail InvalidArgument "actor subject is required"
    else
      let subjectFilter :=
        if negb (TrimSpace (li_ActorRole i) ≟ roleOperator) then actor else TrimSpace (li_Subject i) in
      inr (mkListFilter statusFilter subjectFilter (clamp_limit (li_Limit i))).
Definition ListRequestsRpc (i : ListIn) (s : S) : rpc (list RequestProto) :=
  match list_filter i with
  | inl e => inl e
  | inr filter =>
      match ListRequests store filter s with
      | inl _ => fail Internal "failed to list requests"
      | inr requests => inr (requestProto <$> requests)
      end
  end.
End service.

(** * The life of a request *)

(** The statuses an outbox tells of one request, in order. *)
Definition told (id : string) (e : Event) : option string :=
  if bool_decide (rq_ID (ev_Request e) = id) then Some (rq_Status (ev_Request e)) else None.
Definition story (id : string) (outbox : list Event) : list string := omap (told id) outbox.

(** A walk through the life cycle. *)
Fixpoint walk (from : string) (l : list string) : bool :=
  match l with [] => true | to :: l => CanTransition from to && walk to l end.
Definition legal_story (l : list string) : Prop := ∃ rest, l = statusCreated :: rest ∧ walk statusCreated rest = true.

Lemma lifecycle_snoc from l to :
  walk from (l ++ [to]) = walk from l && CanTransition (default from (last l)) to.
Proof.
  revert from. induction l as [|x l IH]; intros from; cbn [app walk].
  - by rewrite andb_true_r.
  - rewrite IH, last_cons, andb_assoc. by destruct (last l).
Qed.

Lemma story_snoc id outbox e :
  story id (outbox ++ [e]) = (story id outbox ++ match told id e with Some s => [s] | None => [] end)%list.
Proof. unfold story. by rewrite omap_app. Qed.

Lemma legal_story_snoc l from to :
  legal_story l → last l = Some from → CanTransition from to = true → legal_story (l ++ [to]).
Proof.
  intros (rest & -> & Hw) Hl Hc. exists (rest ++ [to])%list. split; [done|]. rewrite lifecycle_snoc, Hw. cbn [andb].
  rewrite last_cons in Hl. destruct (last rest); by simplify_eq/=.
Qed.

Section lifecycle.
  Context {S : Type} {store : StoreOps S} {key : string → option string}.
  Context {requests : S → gmap string Request} {outbox : S → list Event} {Hstore : Store store key requests outbox}.

(** What the outbox tells of every request is a walk through the life cycle from
    its creation to its present status. *)
Definition consistent (s : S) : Prop := ∀ id,
  match requests s !! id with
  | Some r => rq_ID r = id ∧ legal_story (story id (outbox s)) ∧ last (story id (outbox s)) = Some (rq_Status r)
  | None => story id (outbox s) = []
  end.

(** One call at a time; between calls a store may fail or recover, but not lose or change
    data.  A new identifier is one in its own right. *)
Inductive serial_step : S → S → Prop :=
  | serial_create occurredAt id event_id i s : key id = Some id → serial_step s (CreateRequest store occurredAt id event_id i s).2
  | serial_update occurredAt event_id i s : serial_step s (UpdateRequestStatus store occurredAt event_id i s).2
  | serial_fault s s' : requests s' = requests s → outbox s' = outbox s → serial_step s s'.

Lemma consistent_same s s' : requests s' = requests s → outbox s' = outbox s → consistent s → consistent s'.
Proof. intros Hr Ho H id. rewrite Hr, Ho. apply H. Qed.

Lemma create_consistent occurredAt id event_id i s :
  key id = Some id → consistent s → consistent (CreateRequest store occurredAt id event_id i s).2.
Proof.
  intros Hid H. unfold CreateRequest. destruct (negb _); [done|]. destruct (_ <? _); [done|]. destruct (_ ≟ _); [done|].
  set (r := mkRequest _ _ _ _ _ _). set (e := mkEvent _ _ _ _ _).
  pose proof (store_create r e s Hid) as Hc. destruct (CreateRequestWithEvent store r e s) as [err s'].
  assert (consistent s'); [|by destruct err]. destruct Hc as [(Hn & [t Hr] & Ho)|(_ & ? & ?)].
  - intros k. rewrite Hr, Ho, story_snoc. unfold told. cbn [ev_Request e]. specialize (H k).
    destruct (decide (rq_ID r = k)) as [<-|Hk].
    + rewrite lookup_insert_eq, bool_decide_true by done. rewrite Hn in H. rewrite H. split_and!; [done| |done].
      by exists [].
    + rewrite lookup_insert_ne, bool_decide_false by done. by rewrite app_nil_r.
  - by apply (consistent_same s).
Qed.

Lemma update_checked_inr i s current newStatus :
  update_checked store i s = inr (current, newStatus) →
  (∃ k, key (TrimSpace (ui_RequestId i)) = Some k ∧ requests s !! k = Some current) ∧ CanTransition (rq_Status current) newStatus = true ∧
  TrimSpace (ui_ActorRole i) = roleOperator ∧ newStatus = TrimSpace (ui_NewStatus i).
Proof.
  unfold update_checked. pose proof (store_get (TrimSpace (ui_RequestId i)) s) as Hg.
  case_bool_decide; [done|]. case_bool_decide; [done|]. case_bool_decide as Hop; [|done]. cbn [negb].
  destruct (kget transitions _); [|done]. destruct (GetRequest store _ s) as [[]|r]; [done..|].
  destruct (CanTransition (rq_Status r) _) eqn:E; [|done]. by intros [= <- <-].
Qed.

(** A write replaces the request and records one event, or changes nothing and fails. *)
Lemma update_write_effect occurredAt event_id current newStatus s :
  key (rq_ID current) = Some (rq_ID current) → requests s !! rq_ID current = Some current →
  let updated := with_status current newStatus in
  let '(res, s') := update_write store occurredAt event_id current newStatus s in
  (res = inr (requestProto updated) ∨ res = fail Internal "failed to persist status change") ∧
  (requests s' = <[rq_ID current := updated]> (requests s) ∧
    outbox s' = (outbox s ++ [mkEvent event_id eventTypeRequestStatusChanged occurredAt updated (rq_Status current)])%list ∨
   res = fail Internal "failed to persist status change" ∧ untouched requests outbox s s').
Proof.
  intros Hkey Hcur updated. unfold update_write. fold updated. set (e := mkEvent _ _ _ _ _).
  pose proof (store_update updated e s Hkey) as Hu. destruct (UpdateRequestStatusWithEvent store updated e s) as [err s'].
  assert (Hx : (requests s' = <[rq_ID current := updated]> (requests s) ∧ outbox s' = (outbox s ++ [e])%list) ∨
    (err ≠ None ∧ untouched requests outbox s s')).
  { destruct Hu as [(Ho & old & new & Hold & Hr & Hnew)|?]; [left|by right]. change (rq_ID updated) with (rq_ID current) in *.
    assert (old = current) as -> by congruence. assert (new = updated) as -> by (by destruct Hnew). done. }
  destruct err; (split; [by auto|]); naive_solver.
Qed.

Lemma write_consistent occurredAt event_id current newStatus s :
  consistent s → key (rq_ID current) = Some (rq_ID current) → requests s !! rq_ID current = Some current →
  CanTransition (rq_Status current) newStatus = true →
  consistent (update_write store occurredAt event_id current newStatus s).2.
Proof.
  intros H Hkey Hcur Hc. pose proof (update_write_effect occurredAt event_id current newStatus s Hkey Hcur) as Hw. cbv zeta in Hw.
  destruct (update_write _ _ _ _ _ _) as [res s']; cbn [snd]. destruct Hw as [_ [[Hr Ho]|(_ & ? & ?)]].
  2: { by apply (consistent_same s). }
  - intros k. rewrite Hr, Ho, story_snoc. unfold told. cbn [ev_Request rq_ID with_status].
    specialize (H k). destruct (decide (rq_ID current = k)) as [<-|Hk].
    + rewrite lookup_insert_eq, bool_decide_true by done. rewrite Hcur in H. destruct H as (_ & Hl & Hlast).
      split_and!; [done| |by rewrite last_snoc]. by eapply legal_story_snoc.
    + rewrite lookup_insert_ne, bool_decide_false by done. by rewrite app_nil_r.
Qed.

Lemma serial_consistent s s' : serial_step s s' → consistent s → consistent s'.
Proof.
  intros [occurredAt id event_id i s1 Hid|occurredAt event_id i s1|s1 s2 Hr Ho] H.
  - by apply create_consistent.
  - unfold UpdateRequestStatus. destruct (update_checked store i s1) as [?|[current newStatus]] eqn:E; [done|].
    apply update_checked_inr in E as ((k & Hk & Hcur) & Hc & _). apply store_key in Hk.
    assert (Hid : rq_ID current = k) by (specialize (H k); rewrite Hcur in H; apply H). subst k. by apply write_consistent.
  - by eapply consistent_same.
Qed.

Lemma reachable_consistent s0 s : requests s0 = ∅ → outbox s0 = [] → rtc serial_step s0 s → consistent s.
Proof.
  intros Hr Ho Hs. assert (H0 : consistent s0) by (intros id; by rewrite Hr, Ho, lookup_empty).
  clear Hr Ho. induction Hs as [|x y z Hxy _ IH]; [done|]. apply IH. by eapply serial_consistent.
Qed.

(** C23: the life cycle of requests, with the outbox: as long as calls come one at a
    time, and whatever operations of the store fail - before, during or after their commit - the
    events recorded for every request tell a walk through the life cycle from [created]
    to the status stored. *)
Theorem outbox_tells_lifecycle s0 s :
  requests s0 = ∅ → outbox s0 = [] → rtc serial_step s0 s → consistent s.
Proof. apply reachable_consistent. Qed.

(** What the events of an outbox are. *)
Definition well_formed_event (e : Event) : Prop :=
  (ev_EventType e = eventTypeRequestCreated ∧ rq_Status (ev_Request e) = statusCreated) ∨
  (ev_EventType e = eventTypeRequestStatusChanged ∧
   CanTransition (ev_PreviousStatus e) (rq_Status (ev_Request e)) = true).

(** A step records well-formed events only. *)
Lemma serial_events s s' :
  serial_step s s' → consistent s → ∃ es, outbox s' = (outbox s ++ es)%list ∧ Forall well_formed_event es.
Proof.
  assert (Hsame : ∀ x y, outbox y = outbox x → ∃ es, outbox y = (outbox x ++ es)%list ∧ Forall well_formed_event es).
  { intros x y E. exists []. by rewrite app_nil_r. }
  intros [occurredAt id event_id i s1 Hid|occurredAt event_id i s1|s1 s2 _ Ho] H; [| |by apply Hsame].
  - unfold CreateRequest. destruct (negb _); [by apply Hsame|]. destruct (_ <? _); [by apply Hsame|].
    destruct (_ ≟ _); [by apply Hsame|]. set (r := mkRequest _ _ _ _ _ _). set (e := mkEvent _ _ _ _ _).
    pose proof (store_create r e s1 Hid) as Hc. destruct (CreateRequestWithEvent store r e s1) as [err s2].
    assert (∃ es, outbox s2 = (outbox s1 ++ es)%list ∧ Forall well_formed_event es); [|by destruct err].
    destruct Hc as [(_ & _ & Ho)|(_ & _ & Ho)]; [|by apply Hsame]. exists [e]. split; [done|].
    apply Forall_singleton. by left.
  - unfold UpdateRequestStatus. destruct (update_checked store i s1) as [?|[current new]] eqn:E; [by apply Hsame|].
    apply update_checked_inr in E as ((k & Hk & Hcur) & Hct & _). apply store_key in Hk.
    assert (Hid : rq_ID current = k) by (specialize (H k); rewrite Hcur in H; apply H). subst k.
    pose proof (update_write_effect occurredAt event_id current new s1 Hk Hcur) as Hw. cbv zeta in Hw.
    destruct (update_write _ _ _ _ _ _) as [res s2]. cbn [snd]. destruct Hw as [_ [[_ Ho]|(_ & _ & Ho)]]; [|by apply Hsame].
    eexists. split; [exact Ho|]. apply Forall_singleton. by right.
Qed.

Lemma reachable_events s0 s :
  requests s0 = ∅ → outbox s0 = [] → rtc serial_step s0 s → Forall well_formed_event (outbox s).
Proof.
  intros Hr Ho Hs. assert (H0 : consistent s0) by (intros id; by rewrite Hr, Ho, lookup_empty).
  assert (Hf : Forall well_formed_event (outbox s0)) by (rewrite Ho; constructor).
  clear Hr Ho. induction Hs as [|x y z Hxy _ IH]; [done|]. apply IH; [by eapply serial_consistent|].
  destruct (serial_events x y Hxy H0) as (es & -> & Hes). by apply Forall_app.
Qed.
End lifecycle.

(** * Who sees what *)

#[export] Instance before_total : Total MemoryStore.before.
Proof.
  intros r q. unfold MemoryStore.before. destruct (decide (rq_CreatedAt r = rq_CreatedAt q)) as [E|E].
  - destruct (total String.le (rq_ID r) (rq_ID q)); [right|left]; right; auto.
  - destruct (total String.le (rq_CreatedAt r) (rq_CreatedAt q)); [right|left]; left; auto.
Qed.

#[export] Instance before_trans : Transitive MemoryStore.before.
Proof.
  intros r q p. unfold MemoryStore.before. intros [[H1 L1]|[H1 L1]] [[H2 L2]|[H2 L2]].
  - left. split; [|by etrans]. intros E. apply H1. rewrite <- E in L2. by apply (anti_symm String.le).
  - left. by rewrite <- H2.
  - left. by rewrite H1.
  - right. split; [congruence|by etrans].
Qed.

(** The order of a listing is determined by the requests listed, as identifiers differ. *)
Lemma sorted_permutation l1 l2 : NoDup (rq_ID <$> l1) → l1 ≡ₚ l2 → MemoryStore.sorted l1 = MemoryStore.sorted l2.
Proof.
  intros Hnd Hp. unfold MemoryStore.sorted. apply (Sorted_unique_strong MemoryStore.before); [|apply Sorted_merge_sort, _..|].
  - intros r q. rewrite !merge_sort_Permutation, <- Hp. intros Hr Hq B1 B2.
    assert (E : rq_ID r = rq_ID q).
    { unfold MemoryStore.before in *. destruct B1 as [[N L1]|[E1 L1]], B2 as [[N' L2]|[E2 L2]]; try congruence.
      - destruct N. by apply (anti_symm String.le).
      - by apply (anti_symm String.le). }
    apply list_elem_of_lookup in Hr as [x Hx], Hq as [y Hy].
    assert (x = y) as ->; [|congruence]. eapply (NoDup_lookup _ _ _ (rq_ID r) Hnd); rewrite list_lookup_fmap; [by rewrite Hx|].
    by rewrite Hy, E.
  - by rewrite !merge_sort_Permutation.
Qed.

(** The requests a listing is made of. *)
Definition selected (filter : ListFilter) (rows : gmap string Request) : list Request :=
  base.filter (matches filter) (map_to_list rows).*2.

Definition well_keyed (rows : gmap string Request) : Prop := ∀ id r, rows !! id = Some r → rq_ID r = id.

(** Two tables that hold the same requests of [actor], each under its identifier. *)
Record own_rows (actor : string) (rows1 rows2 : gmap string Request) : Prop := {
  own_keyed_l : well_keyed rows1;
  own_keyed_r : well_keyed rows2;
  own_requests id r : rq_Subject r = actor → rows1 !! id = Some r ↔ rows2 !! id = Some r
}.

Lemma elem_of_selected filter rows r : r ∈ selected filter rows ↔ matches filter r ∧ ∃ id, rows !! id = Some r.
Proof.
  unfold selected. rewrite list_elem_of_filter, list_elem_of_fmap. apply and_iff_compat_l. split.
  - intros ([id q] & -> & H). exists id. by apply elem_of_map_to_list in H.
  - intros [id H]. exists (id, r). by rewrite elem_of_map_to_list.
Qed.

Lemma NoDup_selected filter rows : well_keyed rows → NoDup (rq_ID <$> selected filter rows).
Proof.
  intros H. apply NoDup_fmap_2_strong.
  - intros r q [_ [k1 H1]]%elem_of_selected [_ [k2 H2]]%elem_of_selected E.
    pose proof (H _ _ H1). pose proof (H _ _ H2). congruence.
  - apply NoDup_filter, NoDup_fmap_2_strong; [|apply NoDup_map_to_list].
    intros [k1 r1] [k2 r2] H1%elem_of_map_to_list H2%elem_of_map_to_list [= ->].
    apply H in H1 as <-. by apply H in H2 as <-.
Qed.

(** A listing by subject is made of requests of that subject. *)
Lemma selected_own filter rows1 rows2 :
  lf_Subject filter ≠ "" → own_rows (lf_Subject filter) rows1 rows2 →
  selected filter rows1 ≡ₚ selected filter rows2 ∧ NoDup (rq_ID <$> selected filter rows1).
Proof.
  intros Hs [K1 K2 Hown]. split; [|by apply NoDup_selected].
  apply NoDup_Permutation; [by eapply NoDup_fmap_1, NoDup_selected..|]. intros r. rewrite !elem_of_selected.
  split; intros [Hm [id H]]; (split; [done|]); exists id; apply Hown; try done; destruct Hm as [_ [Hx|Hx]]; done.
Qed.

(** What a reading shows to the owner of requests. *)
Definition own_view (actor : string) (res : store_error + Request) : store_error + Request :=
  match res with
  | inr r => if rq_Subject r ≟ actor then inr r else inl ErrRequestNotFound
  | inl e => inl e
  end.

Lemma own_row actor id rows1 rows2 :
  own_rows actor rows1 rows2 →
  let read (rows : gmap string Request) := match rows !! id with Some r => inr r | None => inl ErrRequestNotFound end in
  own_view actor (read rows1) = own_view actor (read rows2).
Proof.
  intros [_ _ Hown] read. subst read. cbv beta. unfold own_view.
  destruct (rows1 !! id) as [r|] eqn:E1, (rows2 !! id) as [q|] eqn:E2; cbv beta iota; try done;
    try destruct (bool_decide_reflect (rq_Subject r = actor)) as [Hr|Hr];
    try destruct (bool_decide_reflect (rq_Subject q = actor)) as [Hq|Hq]; try done;
    try pose proof (proj1 (Hown id r Hr) E1); try pose proof (proj2 (Hown id q Hq) E2); congruence.
Qed.

(** A store whose answers about the requests of one subject depend on those alone:
    [own actor] relates two states that only differ in the requests of others. *)
Class Confined {S : Type} (ops : StoreOps S) (own : string → S → S → Prop) : Prop := {
  confined_get actor id s1 s2 :
    own actor s1 s2 → own_view actor (GetRequest ops id s1) = own_view actor (GetRequest ops id s2);
  confined_list filter s1 s2 :
    lf_Subject filter ≠ "" → own (lf_Subject filter) s1 s2 → ListRequests ops filter s1 = ListRequests ops filter s2
}.

Section visibility.
  Context {S : Type} {ops : StoreOps S} {own : string → S → S → Prop} {Hconf : Confined ops own}.

Lemma get_invisible s1 s2 i :
  own (TrimSpace (gi_ActorSubject i)) s1 s2 → TrimSpace (gi_ActorRole i) ≠ roleOperator →
  GetRequestRpc ops i s1 = GetRequestRpc ops i s2.
Proof.
  intros Hown Hrole. unfold GetRequestRpc. set (actor := TrimSpace (gi_ActorSubject i)) in *.
  destruct (_ ≟ ""); [done|]. destruct (_ ≟ ""); [done|].
  rewrite (bool_decide_false (_ = roleOperator)) by done. cbn [negb andb].
  pose proof (confined_get actor (TrimSpace (gi_RequestId i)) s1 s2 Hown) as Hv. unfold own_view in Hv.
  destruct (GetRequest ops _ s1) as [e1|r1], (GetRequest ops _ s2) as [e2|r2];
    repeat case_bool_decide; cbn [negb]; simplify_eq; try done.
Qed.

Lemma list_invisible s1 s2 i :
  own (TrimSpace (li_ActorSubject i)) s1 s2 → TrimSpace (li_ActorRole i) ≠ roleOperator →
  ListRequestsRpc ops i s1 = ListRequestsRpc ops i s2.
Proof.
  intros Hown Hrole. unfold ListRequestsRpc, list_filter. set (actor := TrimSpace (li_ActorSubject i)) in *.
  destruct (_ && _); [done|]. destruct (bool_decide_reflect (actor = "")) as [|Ha]; [done|].
  rewrite (bool_decide_false (_ = roleOperator)) by done. cbn [negb].
  by rewrite (confined_list (mkListFilter (TrimSpace (li_Status i)) actor (clamp_limit (li_Limit i))) s1 s2).
Qed.
End visibility.

(** Two stores, of the same health, with the same requests of one subject. *)
Definition same_own (actor : string) (m1 m2 : MemoryStore.t) : Prop :=
  own_rows actor (MemoryStore.requests m1) (MemoryStore.requests m2) ∧ MemoryStore.failWith m1 = MemoryStore.failWith m2.

#[export] Instance memory_confined : Confined MemoryStore.ops same_own.
Proof.
  split.
  - intros actor id m1 m2 [Hown Hf]. cbn. unfold MemoryStore.get. rewrite <- Hf. destruct (MemoryStore.failWith m1); [done|].
    by apply own_row.
  - intros filter m1 m2 Hs [Hown Hf]. cbn. unfold MemoryStore.list_requests. rewrite <- Hf.
    destruct (MemoryStore.failWith m1); [done|]. destruct (selected_own filter _ _ Hs Hown) as [Hp Hnd].
    unfold selected in *. by rewrite (sorted_permutation _ _ Hnd Hp).
Qed.

(** a caller who is not an operator learns nothing of the requests of others: over two
    stores that hold the same requests of that caller, every reading and every
    listing has the same answer, and a request of another is reported like one that
    does not exist. *)
Theorem others_invisible m1 m2 actor :
  same_own actor m1 m2 →
  (∀ i, TrimSpace (gi_ActorRole i) ≠ roleOperator → TrimSpace (gi_ActorSubject i) = actor →
    GetRequestRpc MemoryStore.ops i m1 = GetRequestRpc MemoryStore.ops i m2) ∧
  (∀ i, TrimSpace (li_ActorRole i) ≠ roleOperator → TrimSpace (li_ActorSubject i) = actor →
    ListRequestsRpc MemoryStore.ops i m1 = ListRequestsRpc MemoryStore.ops i m2).
Proof. intros H. split; intros i Hrole <-; [by apply get_invisible|by apply list_invisible]. Qed.

(** * Two calls at once *)

(** The write does not ask what was read: two operators who both read [triaged]
    both succeed, and the request goes from [cancelled] to [in_progress]. *)
Theorem concurrent_updates_leave_lifecycle :
  let r := mkRequest "r1" "printer" "" "u1" statusTriaged "2026-01-01T00:00:00Z" in
  let m := MemoryStore.make {["r1" := r]} [mkEvent "e0" eventTypeRequestCreated "" (with_status r statusCreated) "";
    mkEvent "e1" eventTypeRequestStatusChanged "" r statusCreated] None in
  let ask status := update_checked MemoryStore.ops (mkUpdateIn "r1" status "op" roleOperator) m in
  consistent (requests := MemoryStore.requests) (outbox := MemoryStore.events) m ∧
  ask statusCancelled = inr (r, statusCancelled) ∧ ask statusInProgress = inr (r, statusInProgress) ∧
  let '(a1, m1) := update_write MemoryStore.ops "t1" "e2" r statusCancelled m in
  let '(a2, m2) := update_write MemoryStore.ops "t2" "e3" r statusInProgress m1 in
  a1 = inr (requestProto (with_status r statusCancelled)) ∧ a2 = inr (requestProto (with_status r statusInProgress)) ∧
  story "r1" (MemoryStore.events m2) = [statusCreated; statusTriaged; statusCancelled; statusInProgress] ∧
  CanTransition statusCancelled statusInProgress = false.
Proof.
  split; [|by vm_compute]. intros id. cbn [MemoryStore.requests MemoryStore.events].
  destruct (decide (id = "r1")) as [->|Hid].
  - rewrite lookup_singleton_eq. split_and!; [done| |done]. by exists [statusTriaged].
  - rewrite lookup_singleton_ne by done. unfold story, told. cbn. by rewrite !bool_decide_false.
Qed.

(** * Witnesses *)

Definition empty_store : MemoryStore.t := MemoryStore.make ∅ [] None.
Definition wit_ask : CreateIn := mkCreateIn " printer " "does not print" "u1".
Definition wit_triage (role : string) : UpdateIn := mkUpdateIn "r1" "triaged" "op" role.
Definition wit_created : MemoryStore.t := (CreateRequest MemoryStore.ops "t0" "r1" "e0" wit_ask empty_store).2.
Definition wit_triaged : MemoryStore.t :=
  (UpdateRequestStatus MemoryStore.ops "t1" "e1" (wit_triage "operator") wit_created).2.

Example service_tests :
  (CreateRequest MemoryStore.ops "t0" "r1" "e0" wit_ask empty_store).1 =
    inr (mkRequestProto "r1" "printer" "created" "t0") ∧
  story "r1" (MemoryStore.events wit_triaged) = ["created"; "triaged"] ∧
  UpdateRequestStatus MemoryStore.ops "t1" "e1" (wit_triage "user") wit_created =
    (fail PermissionDenied "operator role required", wit_created) ∧
  UpdateRequestStatus MemoryStore.ops "t2" "e2" (wit_triage "operator") wit_triaged =
    (fail FailedPrecondition "illegal transition triaged -> triaged", wit_triaged) ∧
  GetRequestRpc MemoryStore.ops (mkGetIn "r1" "u2" "user") wit_triaged =
    GetRequestRpc MemoryStore.ops (mkGetIn "r1" "u2" "user") empty_store.
Proof. by vm_compute. Qed.

Lemma outbox_tells_lifecycle_witness :
  consistent (requests := MemoryStore.requests) (outbox := MemoryStore.events) wit_triaged.
Proof.
  apply (outbox_tells_lifecycle (store := MemoryStore.ops) empty_store); [done..|].
  eapply rtc_l; [by apply (serial_create "t0" "r1" "e0" wit_ask)|].
  eapply rtc_l; [apply (serial_update "t1" "e1" (wit_triage "operator"))|]. apply rtc_refl.
Defined.

Definition wit_printer : Request := mkRequest "r1" "printer" "" "u1" "created" "t0".
Definition wit_shared : MemoryStore.t := MemoryStore.make {["r1" := wit_printer]} [] None.

Lemma shared_own : same_own "u2" wit_shared empty_store.
Proof.
  split; [|done]. split.
  - intros id r H. cbn [MemoryStore.requests wit_shared] in H. by apply lookup_singleton_Some in H as [<- <-].
  - done.
  - intros id r Hr. cbn [MemoryStore.requests wit_shared empty_store].
    rewrite lookup_singleton_Some, lookup_empty. split; [intros [_ <-]|]; done.
Qed.

Lemma others_invisible_witness :
  GetRequestRpc MemoryStore.ops (mkGetIn "r1" "u2" "user") wit_shared =
    GetRequestRpc MemoryStore.ops (mkGetIn "r1" "u2" "user") empty_store ∧
  ListRequestsRpc MemoryStore.ops (mkListIn "" "u1" 0 "u2" "user") wit_shared = inr [].
Proof.
  destruct (others_invisible wit_shared empty_store "u2" shared_own) as [Hget Hlist].
  split; [by apply Hget|]. by rewrite Hlist.
Defined.
