(* ===== verification/Postgres.v ===== *)
(** [apps/domain/internal/domain/postgres.go]: the store of the request service over
    PostgreSQL, with the tables of [apps/domain/migrations/0001_init.sql]; it implements the
    class [Store], as the store in memory does. *)

From S2P Require Export Requests PyValue.
#[local] Open Scope Z_scope.

(** * Payloads *)

(** [outboxPayload] and [statusChangedPayload], as the JSON objects they are written as. *)
Definition buildPayload (event : Event) : string + dict :=
  let r := ev_Request event in
  if ev_EventType event ≟ eventTypeRequestCreated then
    inr [("event_id", VStr (ev_EventID event)); ("event_type", VStr (ev_EventType event));
         ("occurred_at", VStr (ev_OccurredAt event));
         ("request", VDict [("id", VStr (rq_ID r)); ("title", VStr (rq_Title r)); ("status", VStr (rq_Status r));
                            ("created_at", VStr (rq_CreatedAt r))])]
  else if ev_EventType event ≟ eventTypeRequestStatusChanged then
    inr [("event_id", VStr (ev_EventID event)); ("event_type", VStr (ev_EventType event));
         ("occurred_at", VStr (ev_OccurredAt event));
         ("request", VDict [("id", VStr (rq_ID r)); ("status", VStr (rq_Status r));
                            ("previous_status", VStr (ev_PreviousStatus event)); ("updated_at", VStr (ev_OccurredAt event))])]
  else inl "unsupported event type".

(** * The tables *)

Module PostgresStore.

(** The rows of [requests] by primary key, and those of [outbox] in the order of their
    insertion, each as the event it was built from; and how many round trips to the
    server were made. *)
Record t := make { requests : gmap string Request; outbox : list Event; trips : nat }.

Section store.
  (** [uuid] is the identifier a text is read as, [timestamptz] the text in UTC of the time a
      text is read as, where they can be read.  [fault n] is the error of the [n]th round trip, if any,
      and [committed n] tells if a commit whose answer is an error took effect.
      [order_by] is the order of [created_at DESC, id DESC]. *)
  Context (uuid timestamptz : string → option string).
  Context (fault : nat → option string) (committed : nat → bool) (order_by : list Request → list Request).

(** One round trip. *)
Definition trip (s : t) : option string * t := (fault (trips s), make (requests s) (outbox s) (S (trips s))).

(** [INSERT INTO requests] *)
Definition insert_request (r : Request) (rows : gmap string Request) : string + gmap string Request :=
  match uuid (rq_ID r), timestamptz (rq_CreatedAt r) with
  | Some id, Some created =>
      match rows !! id with
      | Some _ => inl "duplicate key value violates unique constraint"
      | None => inr (<[id := mkRequest id (rq_Title r) (rq_Description r) (rq_Subject r) (rq_Status r) created]> rows)
      end
  | _, _ => inl "invalid input syntax"
  end.
(** [UPDATE requests SET status]: [None] if no row was affected. *)
Definition update_status (id status : string) (rows : gmap string Request) : string + option (gmap string Request) :=
  match uuid id with
  | None => inl "invalid input syntax"
  | Some id => inr ((λ old, <[id := with_status old status]> rows) <$> rows !! id)
  end.
Definition insertOutbox (e : Event) (rows : list Event) : string + list Event :=
  match uuid (ev_EventID e), timestamptz (ev_OccurredAt e) with
  | Some id, Some _ =>
      if existsb (λ e', bool_decide (uuid (ev_EventID e') = Some id)) rows
      then inl "duplicate key value violates unique constraint" else inr (rows ++ [e])%list
  | _, _ => inl "invalid input syntax"
  end.

(** [tx.Commit] of the tables a transaction arrived at. *)
Definition commit (rows : gmap string Request) (events : list Event) (s : t) : option store_error * t :=
  match trip s with
  | (None, s) => (None, make rows events (trips s))
  | (Some e, s1) => (Some (ErrStore e), if committed (trips s) then make rows events (trips s1) else s1)
  end.

(** [insertOutbox] and [Commit], with which both transactions end. *)
Definition finish (e : Event) (rows : gmap string Request) (s : t) : option store_error * t :=
  match trip s with
  | (Some err, s) => (Some (ErrStore err), s)
  | (None, s) =>
      match insertOutbox e (outbox s) with
      | inl err => (Some (ErrStore err), s)
      | inr events => commit rows events s
      end
  end.

Definition create (r : Request) (e : Event) (s : t) : option store_error * t :=
  match buildPayload e with
  | inl err => (Some (ErrStore err), s)
  | inr _ =>
      match trip s with
      | (Some err, s) => (Some (ErrStore err), s)
      | (None, s) =>
          match trip s with
          | (Some err, s) => (Some (ErrStore err), s)
          | (None, s) =>
              match insert_request r (requests s) with
              | inl err => (Some (ErrStore err), s)
              | inr rows => finish e rows s
              end
          end
      end
  end.

Definition update (r : Request) (e : Event) (s : t) : option store_error * t :=
  match buildPayload e with
  | inl err => (Some (ErrStore err), s)
  | inr _ =>
      match trip s with
      | (Some err, s) => (Some (ErrStore err), s)
      | (None, s) =>
          match trip s with
          | (Some err, s) => (Some (ErrStore err), s)
          | (None, s) =>
              match update_status (rq_ID r) (rq_Status r) (requests s) with
              | inl err => (Some (ErrStore err), s)
              | inr None => (Some ErrRequestNotFound, s)
              | inr (Some rows) => finish e rows s
              end
          end
      end
  end.

Definition get (id : string) (s : t) : store_error + Request :=
  match fault (trips s), uuid id with
  | Some err, _ => inl (ErrStore err)
  | None, None => inl (ErrStore "invalid input syntax")
  | None, Some id => match requests s !! id with Some r => inr r | None => inl ErrRequestNotFound end
  end.

Definition list_requests (filter : ListFilter) (s : t) : store_error + list Request :=
  let limit := if lf_Limit filter <=? 0 then defaultListLimit else lf_Limit filter in
  match fault (trips s) with
  | Some err => inl (ErrStore err)
  | None => inr (take (Z.to_nat limit) (order_by (base.filter (matches filter) (map_to_list (requests s)).*2)))
  end.

Definition ops : StoreOps t := mkStoreOps t create get update list_requests.
End store.
End PostgresStore.

(** * The store keeps what the service relies on *)

Section postgres.
  Context {uuid timestamptz : string → option string} {fault : nat → option string} {committed : nat → bool}.
  Context {order_by : list Request → list Request}.
  (** A canonical identifier is read as itself; ordering neither drops nor adds a row. *)
  Context (Huuid : ∀ id k, uuid id = Some k → uuid k = Some k) (Horder : ∀ l, order_by l ≡ₚ l).

#[local] Abbreviation same s s' := (untouched PostgresStore.requests PostgresStore.outbox s s').

Lemma commit_cases rows events s :
  let '(err, s') := PostgresStore.commit fault committed rows events s in
  (PostgresStore.requests s' = rows ∧ PostgresStore.outbox s' = events) ∨ (err ≠ None ∧ same s s').
Proof.
  unfold PostgresStore.commit, PostgresStore.trip. destruct (fault _) as [e|]; [|by left].
  destruct (committed _); [by left|]. by right.
Qed.

Lemma finish_cases e rows s :
  let '(err, s') := PostgresStore.finish uuid timestamptz fault committed e rows s in
  (PostgresStore.requests s' = rows ∧ PostgresStore.outbox s' = (PostgresStore.outbox s ++ [e])%list) ∨
  (err ≠ None ∧ same s s').
Proof.
  unfold PostgresStore.finish, PostgresStore.trip. destruct (fault _) as [err|]; [by right|].
  set (s1 := PostgresStore.make _ _ _). unfold PostgresStore.insertOutbox.
  destruct (uuid (ev_EventID e)) as [id|]; [|by right]. destruct (timestamptz (ev_OccurredAt e)); [|by right].
  destruct (existsb _ _); [by right|].
  pose proof (commit_cases rows (PostgresStore.outbox s1 ++ [e]) s1) as H. destruct (PostgresStore.commit _ _ _ _ _).
  destruct H as [?|[? ?]]; [by left|by right].
Qed.

#[export] Instance postgres_store :
  Store (PostgresStore.ops uuid timestamptz fault committed order_by) uuid PostgresStore.requests PostgresStore.outbox.
Proof using Huuid Horder.
  split.
  - exact Huuid.
  - intros r e s Hid. cbn. unfold PostgresStore.create, PostgresStore.trip.
    destruct (buildPayload e) as [err|]; [by right|]. destruct (fault _) as [err|]; [by right|].
    cbn [PostgresStore.trips]. destruct (fault _) as [err|]; [by right|]. set (s1 := PostgresStore.make _ _ _).
    unfold PostgresStore.insert_request. rewrite Hid. destruct (timestamptz (rq_CreatedAt r)) as [t|]; [|by right].
    destruct (PostgresStore.requests s1 !! rq_ID r) eqn:E; [by right|].
    pose proof (finish_cases e (<[rq_ID r := with_created r t]> (PostgresStore.requests s1)) s1) as H.
    fold (with_created r t). destruct (PostgresStore.finish _ _ _ _ _ _ _) as [err s'].
    destruct H as [[? ?]|[? ?]]; [left|by right]. split_and!; [done|by exists t|done].
  - intros id s. cbn. unfold PostgresStore.get. destruct (fault _); [done|].
    destruct (uuid id) as [k|] eqn:Hk; [|done]. by destruct (PostgresStore.requests s !! k) eqn:E; exists k.
  - intros r e s Hid. cbn. unfold PostgresStore.update, PostgresStore.trip.
    destruct (buildPayload e) as [err|]; [by right|]. destruct (fault _) as [err|]; [by right|].
    cbn [PostgresStore.trips]. destruct (fault _) as [err|]; [by right|]. set (s1 := PostgresStore.make _ _ _).
    unfold PostgresStore.update_status. rewrite Hid. destruct (PostgresStore.requests s1 !! rq_ID r) as [old|] eqn:E; [|by right].
    cbn [fmap option_fmap option_map].
    pose proof (finish_cases e (<[rq_ID r := with_status old (rq_Status r)]> (PostgresStore.requests s1)) s1) as H.
    destruct (PostgresStore.finish _ _ _ _ _ _ _) as [err s'].
    destruct H as [[? ?]|[? ?]]; [left|by right]. split; [done|]. exists old, (with_status old (rq_Status r)). auto.
  - intros filter s rs. cbn. unfold PostgresStore.list_requests. destruct (fault _); [done|]. intros [= <-].
    set (limit := if _ <=? _ then _ else _). split.
    + intros r Hr. assert (Hin : r ∈ order_by (base.filter (matches filter) (map_to_list (PostgresStore.requests s)).*2)).
      { eapply elem_of_take in Hr as (? & ? & _). by eapply list_elem_of_lookup_2. }
      rewrite Horder in Hin. apply list_elem_of_filter in Hin as [Hm Hin]. split; [|done].
      apply list_elem_of_fmap in Hin as ([id q] & -> & Hin). exists id. by apply elem_of_map_to_list in Hin.
    + intros Hl. subst limit. destruct (lf_Limit filter <=? 0) eqn:E; [lia|]. rewrite length_take. lia.
Qed.
End postgres.

(** * Who sees what *)

Section confined.
  Context {uuid timestamptz : string → option string} {fault : nat → option string} {committed : nat → bool}.
  Context {order_by : list Request → list Request}.
  (** [ORDER BY created_at DESC, id DESC] determines the order of rows with different
      identifiers. *)
  Context (Hdetermined : ∀ l1 l2, NoDup (rq_ID <$> l1) → l1 ≡ₚ l2 → order_by l1 = order_by l2).

(** Two databases, at the same round trip, with the same requests of one subject. *)
Definition same_own_rows (actor : string) (s1 s2 : PostgresStore.t) : Prop :=
  own_rows actor (PostgresStore.requests s1) (PostgresStore.requests s2) ∧ PostgresStore.trips s1 = PostgresStore.trips s2.

#[export] Instance postgres_confined :
  Confined (PostgresStore.ops uuid timestamptz fault committed order_by) same_own_rows.
Proof using Hdetermined.
  split.
  - intros actor id s1 s2 [Hown Ht]. cbn. unfold PostgresStore.get. rewrite <- Ht. destruct (fault _); [done|].
    destruct (uuid id) as [k|]; [|done]. by apply own_row.
  - intros filter s1 s2 Hs [Hown Ht]. cbn. unfold PostgresStore.list_requests. rewrite <- Ht. destruct (fault _); [done|].
    destruct (selected_own filter _ _ Hs Hown) as [Hp Hnd]. unfold selected in *. by rewrite (Hdetermined _ _ Hnd Hp).
Qed.
End confined.

(** * Identifiers that are none *)

(** A text that is no identifier is an error of the statement, and so an internal error
    of the service, not a request that is not found. *)
Theorem bad_identifier_is_internal uuid timestamptz fault committed order_by i s :
  TrimSpace (gi_RequestId i) ≠ "" → TrimSpace (gi_ActorSubject i) ≠ "" → uuid (TrimSpace (gi_RequestId i)) = None →
  GetRequestRpc (PostgresStore.ops uuid timestamptz fault committed order_by) i s =
    fail Internal "failed to load request".
Proof.
  intros Hid Ha Hu. unfold GetRequestRpc. rewrite !bool_decide_false by done. cbn. unfold PostgresStore.get.
  rewrite Hu. by destruct (fault _).
Qed.
