(* ===== verification/Gateway.v ===== *)
(** [apps/gateway/server.go]: the HTTP handlers in front of the request service, over any
    [domainService]; and the gateway composed with the service of [Requests], over its
    stores in memory and in PostgreSQL. *)

From S2P Require Export Requests Postgres.
From Stdlib Require Import Ascii.
From S2P Require Import Json.
#[local] Open Scope Z_scope.

(** * Data *)

Definition roleUser : string := "user".

(** [identity]: what the verified token claims. *)
Record identity := mkIdentity { Subject : string; Roles : list string }.

Record createRequestPayload := mkCreatePayload { cp_Title : string; cp_Description : string }.

(** What the handlers read of an HTTP request: the header [Authorization], the path value
    [id], the query parameters and the body. *)
Record HttpRequest := mkHttpRequest {
  hr_authorization : string;
  hr_id : string;
  hr_query : string → string;
  hr_body : string
}.

(** The responses, each with its status code. *)
Inductive HttpResponse :=
  | writeError (status : Z) (code message : string)
  | writeRequest (status : Z) (request : RequestProto)
  | writeRequests (status : Z) (requests : list RequestProto).

Definition http_status (r : HttpResponse) : Z :=
  match r with writeError s _ _ | writeRequest s _ | writeRequests s _ => s end.

(** The client of the domain service. *)
Record domainService (S : Type) := mkDomainService {
  dom_create : CreateIn → S → rpc RequestProto * S;
  dom_update : UpdateIn → S → rpc RequestProto * S;
  dom_get : GetIn → S → rpc RequestProto;
  dom_list : ListIn → S → rpc (list RequestProto)
}.
Arguments dom_create {S}.
Arguments dom_update {S}.
Arguments dom_get {S}.
Arguments dom_list {S}.

(** * Parts of the handlers *)

Definition roleOf (caller : identity) : string :=
  if existsb (λ role, role ≟ roleOperator) (Roles caller) then roleOperator else roleUser.

Definition validatePayload (payload : createRequestPayload) : string :=
  let title := TrimSpace (cp_Title payload) in
  if title ≟ "" then "title is required"
  else if maxTitleLen <? Z.of_nat (py_len (cp_Title payload)) then "title exceeds maximum length"
  else if maxDescriptionLen <? Z.of_nat (py_len (cp_Description payload)) then "description exceeds maximum length"
  else "".

(** [strconv.Atoi]; a number beyond 64 bits, an error there, is no limit either way. *)
Definition Atoi (raw : string) : option Z :=
  let '(neg, ds) := match raw with
    | String "-" ds => (true, ds)
    | String "+" ds => (false, ds)
    | _ => (false, raw)
    end in
  let '(d, rest) := span_digits ds in
  if (d ≟ "") || negb (rest ≟ "") then None else Some (if neg : bool then - digits_value d else digits_value d).

(** The parameter [limit] of a listing: absent, or between 1 and 200. *)
Definition query_limit (raw : string) : option Z :=
  let raw := TrimSpace raw in
  if raw ≟ "" then Some 0
  else match Atoi raw with
       | Some parsed => if (parsed <? 1) || (maxListLimit <? parsed) then None else Some parsed
       | None => None
       end.

(** [error_text] is the text gRPC gives an error, [err.Error()]. *)
Definition writeDomainError (error_text : code * string → string) (e : code * string) : HttpResponse :=
  match e.1 with
  | NotFound => writeError 404 "not_found" "request not found"
  | InvalidArgument => writeError 400 "invalid_input" (error_text e)
  | PermissionDenied => writeError 403 "forbidden" (error_text e)
  | FailedPrecondition => writeError 409 "illegal_transition" (error_text e)
  | Internal | Unavailable => writeError 502 "domain_unavailable" (error_text e)
  end.

(** * The handlers *)

Section server.
  (** [verify] is the OIDC verifier; the decoders read a body of at most 64 KiB into a
      payload and refuse unknown fields. *)
  Context (verify : string → string + identity).
  Context (decode_create : string → option createRequestPayload) (decode_update : string → option string).
  Context (error_text : code * string → string).
  Context {S : Type} (domain : domainService S).

Definition bearerIdentity (r : HttpRequest) : string + identity :=
  if negb (startswith (hr_authorization r) "Bearer ") then inl "missing bearer token"
  else
    let raw := TrimSpace (drop_str 7 (hr_authorization r)) in
    if raw ≟ "" then inl "missing bearer token" else verify raw.

Definition handleCreateRequest (r : HttpRequest) (s : S) : HttpResponse * S :=
  match bearerIdentity r with
  | inl err => (writeError 401 "unauthenticated" err, s)
  | inr caller =>
      match decode_create (hr_body r) with
      | None => (writeError 400 "invalid_input" "malformed or oversized JSON body", s)
      | Some payload =>
          let problem := validatePayload payload in
          if negb (problem ≟ "") then (writeError 400 "invalid_input" problem, s)
          else
            match dom_create domain (mkCreateIn (cp_Title payload) (cp_Description payload) (Subject caller)) s with
            | (inl e, s) => (writeError 502 "domain_unavailable" (error_text e), s)
            | (inr created, s) => (writeRequest 201 created, s)
            end
      end
  end.

Definition handleListRequests (r : HttpRequest) (s : S) : HttpResponse :=
  match bearerIdentity r with
  | inl err => writeError 401 "unauthenticated" err
  | inr caller =>
      match query_limit (hr_query r "limit") with
      | None => writeError 400 "invalid_input" "limit must be between 1 and 200"
      | Some limit =>
          match dom_list domain (mkListIn (TrimSpace (hr_query r "status")) (TrimSpace (hr_query r "subject")) limit
                                   (Subject caller) (roleOf caller)) s with
          | inl e => writeDomainError error_text e
          | inr requests => writeRequests 200 requests
          end
      end
  end.

Definition handleGetRequest (r : HttpRequest) (s : S) : HttpResponse :=
  match bearerIdentity r with
  | inl err => writeError 401 "unauthenticated" err
  | inr caller =>
      match dom_get domain (mkGetIn (hr_id r) (Subject caller) (roleOf caller)) s with
      | inl e => writeDomainError error_text e
      | inr request => writeRequest 200 request
      end
  end.

Definition handleUpdateStatus (r : HttpRequest) (s : S) : HttpResponse * S :=
  match bearerIdentity r with
  | inl err => (writeError 401 "unauthenticated" err, s)
  | inr caller =>
      if negb (roleOf caller ≟ roleOperator) then (writeError 403 "forbidden" "operator role required", s)
      else
        match decode_update (hr_body r) with
        | None => (writeError 400 "invalid_input" "malformed or oversized JSON body", s)
        | Some status =>
            if TrimSpace status ≟ "" then (writeError 400 "invalid_input" "status is required", s)
            else
              match dom_update domain (mkUpdateIn (hr_id r) (TrimSpace status) (Subject caller) (roleOf caller)) s with
              | (inl e, s) => (writeDomainError error_text e, s)
              | (inr request, s) => (writeRequest 200 request, s)
              end
        end
  end.
End server.

(** The service behind the client; the clock and the identifiers are those of the call. *)
Definition service_client {S} (store : StoreOps S) (occurredAt id event_id : string) : domainService S :=
  mkDomainService S (CreateRequest store occurredAt id event_id) (UpdateRequestStatus store occurredAt event_id)
    (GetRequestRpc store) (ListRequestsRpc store).

(** * What an answer means *)

Lemma roleOf_operator caller : roleOf caller = roleOperator ↔ roleOperator ∈ Roles caller.
Proof.
  unfold roleOf. destruct (existsb _ _) eqn:E.
  - apply existsb_exists in E as (role & Hin & Hr). apply bool_decide_eq_true in Hr as ->.
    by rewrite list_elem_of_In.
  - split; [done|]. intros Hin%list_elem_of_In. rewrite <- not_true_iff_false in E. destruct E.
    apply existsb_exists. exists roleOperator. by rewrite bool_decide_true.
Qed.

Lemma trim_left_suffix l : trim_left l `suffix_of` l.
Proof. induction l as [|cp l IH]; cbn; [done|]. destruct (go_space cp); [by apply suffix_cons_r|done]. Qed.

(** [TrimSpace] keeps a part of the code points. *)
Lemma TrimSpace_part s :
  ustr s → ∃ cps, Forall is_cp cps ∧ TrimSpace s = utf8_encode cps ∧ (length cps ≤ py_len s)%nat.
Proof.
  intros (l & Hl & ->). assert (Hcp : Forall is_cp l) by (by apply (Forall_impl _ _ _ Hl), scalar_cp).
  unfold TrimSpace, py_len. rewrite utf8_decode_encode by done.
  destruct (trim_left_suffix l) as [k1 E1]. set (t := trim_left l) in *.
  destruct (trim_left_suffix (rev t)) as [k2 E2]. set (u := trim_left (rev t)) in *.
  exists (rev u). split_and!; [|done|].
  - apply Forall_rev. assert (Ht : Forall is_cp (rev t)) by (apply Forall_rev; by rewrite E1, Forall_app in Hcp; destruct Hcp).
    rewrite E2, Forall_app in Ht. by destruct Ht.
  - apply (f_equal length) in E1, E2. rewrite length_app in E1, E2. rewrite length_rev in *. lia.
Qed.

(** The gateway's check of the title implies the service's. *)
Lemma title_accepted s :
  ustr s → TrimSpace s ≠ "" → Z.of_nat (py_len s) ≤ maxTitleLen → validLength (TrimSpace s) 1 maxTitleLen = true.
Proof.
  intros Hs Hne Hl. destruct (TrimSpace_part s Hs) as (cps & Hcp & E & Hlen). unfold validLength.
  rewrite E in *. unfold py_len at 1 2. rewrite utf8_decode_encode by done.
  destruct cps as [|cp cps]; [done|]. cbv zeta. cbn [length] in *. rewrite andb_true_iff, !Z.leb_le. lia.
Qed.

Section meaning.
  Context (verify : string → string + identity) (error_text : code * string → string).
  Context (decode_create : string → option createRequestPayload) (decode_update : string → option string).
  Context {S : Type} {store : StoreOps S} {key : string → option string}.
  Context {requests : S → gmap string Request} {outbox : S → list Event} {Hstore : Store store key requests outbox} (occurredAt id event_id : string).

#[local] Abbreviation client := (service_client store occurredAt id event_id).

(** A status change that took effect: asked for by a verified operator, on the request that the
    path names, along the life cycle, and recorded as one event. *)
Definition status_changed (r : HttpRequest) (s s' : S) : Prop :=
  ∃ caller status k current e, bearerIdentity verify r = inr caller ∧ roleOperator ∈ Roles caller ∧
    decode_update (hr_body r) = Some status ∧ key (TrimSpace (hr_id r)) = Some k ∧ requests s !! k = Some current ∧
    let newStatus := TrimSpace (TrimSpace status) in
    CanTransition (rq_Status current) newStatus = true ∧
    requests s' = <[k := with_status current newStatus]> (requests s) ∧
    outbox s' = (outbox s ++ [e])%list ∧ ev_EventType e = eventTypeRequestStatusChanged ∧
    ev_Request e = with_status current newStatus ∧ ev_PreviousStatus e = rq_Status current.

Lemma refused r s resp :
  http_status resp ∉ [200; 502] →
  (http_status resp = 200 ∧ status_changed r s s) ∨
  (http_status resp = 502 ∧ (status_changed r s s ∨ untouched requests outbox s s)) ∨
  ((http_status resp ∉ [200; 502]) ∧ untouched requests outbox s s).
Proof. intros Hr. right; right. by split. Qed.

(** C26: a status changes only by a verified operator, along the life cycle and with its event
    in the outbox.  An answer of 200 says that it changed, one of 502 leaves it open - the
    store failed, and may have committed - and after any other answer the requests and the
    outbox are as they were. *)
Theorem update_status_answer r s :
  consistent (requests := requests) (outbox := outbox) s →
  let '(resp, s') := handleUpdateStatus verify decode_update error_text client r s in
  (http_status resp = 200 ∧ status_changed r s s') ∨
  (http_status resp = 502 ∧ (status_changed r s s' ∨ untouched requests outbox s s')) ∨
  ((http_status resp ∉ [200; 502]) ∧ untouched requests outbox s s').
Proof.
  intros Hcons. unfold handleUpdateStatus.
  destruct (bearerIdentity verify r) as [err|caller] eqn:Hb; [apply refused; by apply (bool_decide_unpack _)|].
  destruct (bool_decide_reflect (roleOf caller = roleOperator)) as [Hop|];
    [cbn [negb]|apply refused; by apply (bool_decide_unpack _)].
  destruct (decode_update (hr_body r)) as [status|] eqn:Hd; [|apply refused; by apply (bool_decide_unpack _)].
  destruct (bool_decide_reflect (TrimSpace status = "")); [apply refused; by apply (bool_decide_unpack _)|].
  cbn [dom_update service_client]. unfold UpdateRequestStatus. set (i := mkUpdateIn _ _ _ _).
  destruct (update_checked store i s) as [[c msg]|[current new]] eqn:Hc.
  { destruct c; try (apply refused; by apply (bool_decide_unpack _)); right; left; (split; [done|]); right; by split. }
  pose proof (update_checked_inr i s current new Hc) as ((k & Hk & Hcur) & Hct & _ & ->).
  change (ui_RequestId i) with (hr_id r) in Hk. change (ui_NewStatus i) with (TrimSpace status) in *.
  assert (Hid : rq_ID current = k) by (specialize (Hcons k); rewrite Hcur in Hcons; apply Hcons). subst k.
  pose proof (update_write_effect occurredAt event_id current (TrimSpace (TrimSpace status)) s (store_key _ _ Hk) Hcur) as Hw.
  cbv zeta in Hw. destruct (update_write _ _ _ _ _ _) as [res s']. destruct Hw as [Hres Hw].
  assert (Hch : requests s' = <[rq_ID current := with_status current (TrimSpace (TrimSpace status))]> (requests s) ∧
    outbox s' = (outbox s ++ [mkEvent event_id eventTypeRequestStatusChanged occurredAt
      (with_status current (TrimSpace (TrimSpace status))) (rq_Status current)])%list → status_changed r s s').
  { intros [Hr Ho]. eexists caller, status, _, current, _. split_and!; try done. by apply roleOf_operator. }
  destruct Hres as [-> | ->].
  - left. destruct Hw as [Hw|[? _]]; [|done]. by split; [|apply Hch].
  - right; left. split; [done|]. destruct Hw as [Hw|[_ Hw]]; [left; by apply Hch|by right].
Qed.

(** the gateway and the service agree on what a valid request is: a payload that passes the
    gateway's checks, of a caller with a subject, is stored with the caller's verified
    subject and answered with 201, unless the store fails. *)
Theorem create_answer r caller payload s :
  key id = Some id →
  bearerIdentity verify r = inr caller → Subject caller ≠ "" →
  decode_create (hr_body r) = Some payload → ustr (cp_Title payload) → validatePayload payload = "" →
  let created := mkRequest id (TrimSpace (cp_Title payload)) (cp_Description payload) (Subject caller) statusCreated occurredAt in
  let event := mkEvent event_id eventTypeRequestCreated occurredAt created "" in
  let '(resp, s') := handleCreateRequest verify decode_create error_text client r s in
  (resp = writeRequest 201 (requestProto created) ∧ recorded requests outbox created event s s') ∨
  (http_status resp = 502 ∧ is_Some (CreateRequestWithEvent store created event s).1 ∧
    (recorded requests outbox created event s s' ∨ untouched requests outbox s s')).
Proof.
  intros Hid Hb Hsub Hd Hu Hv created event. unfold handleCreateRequest. rewrite Hb, Hd, Hv. rewrite bool_decide_true by done.
  cbn [negb]. unfold validatePayload in Hv. cbv zeta in Hv.
  destruct (bool_decide_reflect (TrimSpace (cp_Title payload) = "")) as [|Hne]; [done|].
  destruct (maxTitleLen <? _) eqn:Hl1; [done|]. destruct (maxDescriptionLen <? _) eqn:Hl2; [done|].
  cbn [dom_create service_client]. unfold CreateRequest. cbn [ci_Title ci_Description ci_Subject].
  rewrite title_accepted by (done || lia). cbn [negb]. rewrite Hl2. rewrite bool_decide_false by done.
  fold created. fold event.
  pose proof (store_create created event s Hid) as Hc. destruct (CreateRequestWithEvent store created event s) as [[err|] s'].
  - right. split_and!; [done|done|]. destruct Hc as [?|[_ ?]]; [by left|by right].
  - left. split; [done|]. by destruct Hc as [?|[? _]].
Qed.
End meaning.

(** ** What a user learns *)

Lemma TrimSpace_user : TrimSpace roleUser ≠ roleOperator.
Proof. by vm_compute. Qed.

(** Over any store that keeps requests apart. *)
Lemma user_confined {S} (store : StoreOps S) own `{!Confined store own} verify error_text occurredAt id event_id r caller s1 s2 :
  let client := service_client store occurredAt id event_id in
  bearerIdentity verify r = inr caller → roleOperator ∉ Roles caller → own (TrimSpace (Subject caller)) s1 s2 →
  handleGetRequest verify error_text client r s1 = handleGetRequest verify error_text client r s2 ∧
  handleListRequests verify error_text client r s1 = handleListRequests verify error_text client r s2.
Proof.
  intros client Hb Hrole Hown. unfold handleGetRequest, handleListRequests. rewrite Hb.
  assert (Hu : roleOf caller = roleUser).
  { rewrite <- roleOf_operator in Hrole. unfold roleOf in *. by destruct (existsb _ _). }
  rewrite Hu. cbn [dom_get dom_list service_client client]. split.
  - by rewrite (get_invisible s1 s2) by (done || apply TrimSpace_user).
  - destruct (query_limit _); [|done]. by rewrite (list_invisible s1 s2) by (done || apply TrimSpace_user).
Qed.

Section users.
  Context (verify : string → string + identity) (error_text : code * string → string).
  Context (occurredAt id event_id : string).
  (** The database, as in [Postgres]. *)
  Context (uuid timestamptz : string → option string) (fault : nat → option string) (committed : nat → bool).
  Context (order_by : list Request → list Request).
  Context (Hdetermined : ∀ l1 l2, NoDup (rq_ID <$> l1) → l1 ≡ₚ l2 → order_by l1 = order_by l2).

#[local] Abbreviation deployed :=
  (service_client (PostgresStore.ops uuid timestamptz fault committed order_by) occurredAt id event_id).
#[local] Abbreviation in_memory := (service_client MemoryStore.ops occurredAt id event_id).

(** C24: end to end, the answers to a caller whose token has no operator role do not depend on the
    requests of others, whatever path, query or limit is asked for: over two databases
    with the same requests of that caller - the PostgreSQL tables the service is deployed on,
    whatever round trips to them fail, and the store in memory - every reading and every
    listing has the same answer. *)
Theorem user_answers_invisible r caller :
  bearerIdentity verify r = inr caller → roleOperator ∉ Roles caller →
  (∀ s1 s2, same_own_rows (TrimSpace (Subject caller)) s1 s2 →
     handleGetRequest verify error_text deployed r s1 = handleGetRequest verify error_text deployed r s2 ∧
     handleListRequests verify error_text deployed r s1 = handleListRequests verify error_text deployed r s2) ∧
  (∀ m1 m2, same_own (TrimSpace (Subject caller)) m1 m2 →
     handleGetRequest verify error_text in_memory r m1 = handleGetRequest verify error_text in_memory r m2 ∧
     handleListRequests verify error_text in_memory r m1 = handleListRequests verify error_text in_memory r m2).
Proof using Hdetermined.
  intros Hb Hrole. split; intros s1 s2 Hown; [|by eapply user_confined; [apply memory_confined|..]].
  eapply user_confined; [by apply postgres_confined|done..].
Qed.
End users.

(** * Witnesses *)

(** Tokens that name their bearer; ["op"] is an operator. *)
Definition wit_verify (raw : string) : string + identity :=
  if raw ≟ "expired" then inl "token is expired"
  else inr (mkIdentity raw (if raw ≟ "op" then ["offline_access"; "operator"] else ["offline_access"])).
Definition wit_error_text (e : code * string) : string := e.2.
Definition wit_decode_create (body : string) : option createRequestPayload :=
  if body ≟ "" then None else Some (mkCreatePayload body "").
Definition wit_decode_update (body : string) : option string := if body ≟ "" then None else Some body.
Definition wit_http (token path body : string) : HttpRequest :=
  mkHttpRequest ("Bearer " +:+ token) path (λ key, if key ≟ "limit" then "+20" else "") body.
Definition wit_client := service_client MemoryStore.ops "t1" "r9" "e1".

Example gateway_tests :
  handleUpdateStatus wit_verify wit_decode_update wit_error_text wit_client (wit_http "u1" "r1" "triaged") wit_created =
    (writeError 403 "forbidden" "operator role required", wit_created) ∧
  handleUpdateStatus wit_verify wit_decode_update wit_error_text wit_client (wit_http "op" "r1" "closed") wit_created =
    (writeError 409 "illegal_transition" "illegal transition created -> closed", wit_created) ∧
  handleGetRequest wit_verify wit_error_text wit_client (wit_http "u2" "r1" "") wit_created =
    writeError 404 "not_found" "request not found" ∧
  handleListRequests wit_verify wit_error_text wit_client (wit_http "u1" "" "") wit_created =
    writeRequests 200 [mkRequestProto "r1" "printer" "created" "t0"] ∧
  handleListRequests wit_verify wit_error_text wit_client (wit_http "expired" "" "") wit_created =
    writeError 401 "unauthenticated" "token is expired" ∧
  Atoi "+20" = Some 20 ∧ Atoi "-7" = Some (-7) ∧ Atoi "+" = None ∧ Atoi "1_0" = None.
Proof. by vm_compute. Qed.

Lemma update_status_answer_witness :
  ∃ e, MemoryStore.events (handleUpdateStatus wit_verify wit_decode_update wit_error_text wit_client
         (wit_http "op" " r1 " "triaged") wit_created).2 = (MemoryStore.events wit_created ++ [e])%list ∧
    ev_PreviousStatus e = "created".
Proof.
  assert (Hc : consistent (requests := MemoryStore.requests) (outbox := MemoryStore.events) wit_created).
  { apply (create_consistent (store := MemoryStore.ops)); [done|]. by intros k. }
  pose proof (update_status_answer wit_verify wit_error_text wit_decode_update "t1" "r9" "e1"
    (wit_http "op" " r1 " "triaged") wit_created Hc) as H.
  fold wit_client in H. destruct (handleUpdateStatus _ _ _ _ _ _) as [resp s'] eqn:E.
  vm_compute in E. apply (f_equal fst) in E as Er. cbn [fst] in Er. subst resp.
  destruct H as [[_ H]|[[H _]|[H _]]]; [|discriminate H|by destruct H; left].
  destruct H as (caller & status & k & current & e & _ & _ & _ & Hk & Hcur & _ & _ & Ho & _ & _ & Hp).
  exists e. split; [exact Ho|]. rewrite Hp. vm_compute in Hk. injection Hk as <-. vm_compute in Hcur. by injection Hcur as <-.
Defined.

Lemma create_answer_witness :
  (handleCreateRequest wit_verify wit_decode_create wit_error_text wit_client (wit_http "u1" "" " scanner ") wit_created).1 =
    writeRequest 201 (mkRequestProto "r9" "scanner" "created" "t1").
Proof.
  pose proof (create_answer wit_verify wit_error_text wit_decode_create (store := MemoryStore.ops) "t1" "r9" "e1"
    (wit_http "u1" "" " scanner ") (mkIdentity "u1" ["offline_access"]) (mkCreatePayload " scanner " "") wit_created
    eq_refl eq_refl ltac:(done) eq_refl (is_ascii_ustr " scanner " eq_refl) eq_refl) as H.
  cbv zeta in H. fold wit_client in H. destruct (handleCreateRequest _ _ _ _ _ _) as [resp s'].
  destruct H as [[-> _]|(_ & [err Herr] & _)]; [done|]. by vm_compute in Herr.
Defined.

(** The tables of [wit_shared] and [empty_store], and a database that orders as the store in memory. *)
Definition wit_table (m : MemoryStore.t) : PostgresStore.t := PostgresStore.make (MemoryStore.requests m) [] 0.
Definition wit_deployed := service_client
  (PostgresStore.ops Some Some (λ _, None) (λ _, false) MemoryStore.sorted) "t1" "r9" "e1".

Lemma user_answers_invisible_witness :
  handleGetRequest wit_verify wit_error_text wit_deployed (wit_http "u2" "r1" "") (wit_table wit_shared) =
    writeError 404 "not_found" "request not found" ∧
  handleListRequests wit_verify wit_error_text wit_deployed (wit_http "u2" "" "") (wit_table wit_shared) = writeRequests 200 [] ∧
  handleListRequests wit_verify wit_error_text wit_client (wit_http "u2" "" "") wit_shared = writeRequests 200 [].
Proof.
  pose proof (λ path body, user_answers_invisible wit_verify wit_error_text "t1" "r9" "e1" Some Some (λ _, None) (λ _, false)
    MemoryStore.sorted sorted_permutation (wit_http "u2" path body) (mkIdentity "u2" ["offline_access"]) eq_refl
    ltac:(by apply (bool_decide_unpack _))) as H.
  assert (Hs : same_own_rows (TrimSpace "u2") (wit_table wit_shared) (wit_table empty_store)).
  { split; [apply shared_own|reflexivity]. }
  split_and!; fold wit_client wit_deployed in H.
  - by rewrite (proj1 (proj1 (H "r1" "") _ _ Hs)).
  - by rewrite (proj2 (proj1 (H "" "") _ _ Hs)).
  - by rewrite (proj2 (proj2 (H "" "") _ _ shared_own)).
Defined.
