(* ===== verification/Outbox.v ===== *)
(** [apps/publisher/internal/outbox/poller.go] and [apps/worker/internal/consumer/]
    ([handler.go], [memory.go], [postgres.go]): the poller that publishes the outbox in batches, and
    the handler that applies an event once however often it is delivered. *)

From S2P Require Export Prelude PyStr.
#[local] Open Scope Z_scope.

(** * The poller *)

Definition DefaultBatchSize : Z := 100.

(** [Record] *)
Record OutboxRecord := mkOutboxRecord { or_EventID : string; or_EventType : string; or_Payload : string }.

(** The two interfaces the poller uses, over one state: the store with its
    unpublished rows and the broker. *)
Record PollerOps (S : Type) := mkPollerOps {
  FetchUnpublished : Z → S → string + list OutboxRecord;
  MarkPublished : string → S → option string * S;
  Publish : string → string → S → option string * S
}.
Arguments FetchUnpublished {S}.
Arguments MarkPublished {S}.
Arguments Publish {S}.

Record Poller := mkPoller { po_routes : list (string * string); po_limit : Z }.
Definition NewPoller (routes : list (string * string)) (limit : Z) : Poller :=
  mkPoller routes (if limit <=? 0 then DefaultBatchSize else limit).

(** The errors of a batch, with what each message names. *)
Inductive poll_error :=
  | FetchFailed (err : string)
  | RouteMissing (event_id event_type : string)
  | PublishFailed (event_id err : string)
  | MarkFailed (event_id err : string).

Section poller.
  Context {S : Type} (ops : PollerOps S) (p : Poller).

(** The loop of [PublishBatch]: the number published, and the error that stopped it. *)
Fixpoint publish_records (records : list OutboxRecord) (published : Z) (s : S) : (Z * option poll_error) * S :=
  match records with
  | [] => ((published, None), s)
  | record :: records =>
      match kget (po_routes p) (or_EventType record) with
      | None => ((published, Some (RouteMissing (or_EventID record) (or_EventType record))), s)
      | Some subject =>
          match Publish ops subject (or_Payload record) s with
          | (Some err, s) => ((published, Some (PublishFailed (or_EventID record) err)), s)
          | (None, s) =>
              match MarkPublished ops (or_EventID record) s with
              | (Some err, s) => ((published, Some (MarkFailed (or_EventID record) err)), s)
              | (None, s) => publish_records records (published + 1) s
              end
          end
      end
  end.
Definition PublishBatch (s : S) : (Z * option poll_error) * S :=
  match FetchUnpublished ops (po_limit p) s with
  | inl err => ((0, Some (FetchFailed err)), s)
  | inr records => publish_records records 0 s
  end.
End poller.

(** What the poller relies on: rows come in the order of the outbox, a mark removes a
    row from the unpublished ones, and a publication that reports an error may or may not
    have reached the broker. *)
Class Broker {S : Type} (ops : PollerOps S) (pending : S → list OutboxRecord) (sent : S → list (string * string))
    : Prop := {
  broker_fetch limit s rs : FetchUnpublished ops limit s = inr rs → rs = take (Z.to_nat limit) (pending s);
  broker_mark id s :
    match MarkPublished ops id s with
    | (None, s') => pending s' = base.filter (λ r, or_EventID r ≠ id) (pending s) ∧ sent s' = sent s
    | (Some _, s') => pending s' = pending s ∧ sent s' = sent s
    end;
  broker_publish subject data s :
    match Publish ops subject data s with
    | (None, s') => pending s' = pending s ∧ sent s' = (sent s ++ [(subject, data)])%list
    | (Some _, s') => pending s' = pending s ∧ (sent s' = sent s ∨ sent s' = (sent s ++ [(subject, data)])%list)
    end
}.

Section batches.
  Context {S : Type} {ops : PollerOps S} {pending : S → list OutboxRecord} {sent : S → list (string * string)}.
  Context {Hbroker : Broker ops pending sent} (p : Poller).

(** The message of a record that has a route. *)
Definition message (r : OutboxRecord) : option (string * string) :=
  (λ subject, (subject, or_Payload r)) <$> kget (po_routes p) (or_EventType r).

Lemma mark_first (r : OutboxRecord) rest :
  NoDup (or_EventID <$> r :: rest) → base.filter (λ q, or_EventID q ≠ or_EventID r) (r :: rest) = rest.
Proof.
  rewrite fmap_cons, NoDup_cons. intros [Hr _]. rewrite filter_cons_False by naive_solver.
  induction rest as [|q rest IH]; [done|]. rewrite fmap_cons, not_elem_of_cons in Hr.
  rewrite filter_cons_True by naive_solver. f_equal. apply IH. naive_solver.
Qed.

Lemma publish_records_spec rs rest published s n err s' :
  pending s = (rs ++ rest)%list → NoDup (or_EventID <$> pending s) →
  publish_records ops p rs published s = ((n, err), s') →
  ∃ done left messages extra, rs = (done ++ left)%list ∧ n = published + Z.of_nat (length done) ∧
    pending s' = (left ++ rest)%list ∧ mapM message done = Some messages ∧ sent s' = (sent s ++ messages ++ extra)%list ∧
    (extra = [] ∨ ∃ r m, head left = Some r ∧ message r = Some m ∧ extra = [m]) ∧ (err = None → left = [] ∧ extra = []).
Proof.
  revert published s. induction rs as [|r rs IH]; intros published s Hp Hnd.
  - cbn. intros [= <- <- <-]. exists [], [], [], []. rewrite !app_nil_r. split_and!; [done|cbn; lia|naive_solver..].
  - cbn [publish_records]. destruct (kget _ _) as [subject|] eqn:Hk.
    2: { intros [= <- <- <-]. exists [], (r :: rs), [], []. rewrite !app_nil_r. split_and!; [done|cbn; lia|naive_solver..]. }
    assert (Hm : message r = Some (subject, or_Payload r)) by (unfold message; by rewrite Hk).
    pose proof (broker_publish subject (or_Payload r) s) as Hpub.
    destruct (Publish ops _ _ s) as [[e|] s1], Hpub as [Hp1 Hs1].
    { intros [= <- <- <-]. rewrite Hp1. destruct Hs1 as [Hs1|Hs1].
      - exists [], (r :: rs), [], []. rewrite !app_nil_r. split_and!; [done|cbn; lia|naive_solver..].
      - exists [], (r :: rs), [], [(subject, or_Payload r)]. split_and!; [done|cbn; lia|naive_solver..]. }
    pose proof (broker_mark (or_EventID r) s1) as Hmark.
    destruct (MarkPublished ops _ s1) as [[e|] s2], Hmark as [Hp2 Hs2].
    { intros [= <- <- <-]. rewrite Hp2, Hp1, Hs2.
      exists [], (r :: rs), [], [(subject, or_Payload r)]. split_and!; [done|cbn; lia|naive_solver..]. }
    rewrite Hp1, Hp in Hp2. cbn [app] in Hp2. rewrite Hp in Hnd. rewrite mark_first in Hp2 by done.
    intros Hrec. apply IH in Hrec as (done_ & left & ms & extra & -> & -> & Hp' & Hms & Hs' & Hex & Herr); [|done|].
    2: { rewrite Hp2. by apply NoDup_cons in Hnd as [_ ?]. }
    exists (r :: done_), left, ((subject, or_Payload r) :: ms), extra. split_and!; [done|cbn; lia|done| | |done|done].
    + cbn. by rewrite Hm, Hms.
    + by rewrite Hs', Hs2, Hs1, <- app_assoc.
Qed.

(** a batch publishes the oldest unpublished events, in order, each to the subject its
    type is routed to, and takes exactly these off the outbox; it counts them. A batch that stops early
    reports an error, and has sent at most one message more, that of the event it stopped at. *)
Theorem batch_in_order s n err s' :
  NoDup (or_EventID <$> pending s) →
  PublishBatch ops p s = ((n, err), s') →
  ∃ done messages extra, pending s = (done ++ pending s')%list ∧ n = Z.of_nat (length done) ∧
    mapM message done = Some messages ∧ sent s' = (sent s ++ messages ++ extra)%list ∧
    (extra = [] ∨ ∃ r m, head (pending s') = Some r ∧ message r = Some m ∧ extra = [m]) ∧
    (err = None → done = take (Z.to_nat (po_limit p)) (pending s) ∧ extra = []).
Proof.
  intros Hnd. unfold PublishBatch. pose proof (broker_fetch (po_limit p) s) as Hf.
  destruct (FetchUnpublished ops _ s) as [e|rs].
  - intros [= <- <- <-]. exists [], [], []. rewrite !app_nil_r. naive_solver.
  - specialize (Hf rs eq_refl). set (rest := drop (Z.to_nat (po_limit p)) (pending s)). intros H.
    assert (Hp : pending s = (rs ++ rest)%list) by (subst rs rest; by rewrite take_drop).
    destruct (publish_records_spec rs rest 0 s n err s' Hp Hnd H)
      as (done_ & left & ms & extra & Hrs & -> & Hp' & Hms & Hs' & Hex & Herr).
    exists done_, ms, extra. rewrite Hp, Hp', Hrs, <- app_assoc. split_and!; [done|lia|done|done| |].
    + destruct Hex as [?|(r & m & Hl & ?)]; [by left|]. right. exists r, m. destruct left; naive_solver.
    + intros He. destruct (Herr He) as [-> ->]. split; [|done]. rewrite app_nil_r in Hrs.
      by rewrite app_assoc, app_nil_r, <- Hrs, <- Hp, <- Hf.
Qed.
End batches.

(** * The handler *)

Definition EventTypeRequestCreated : string := "request-created".
Definition EventTypeRequestStatusChanged : string := "request-status-changed".
Definition supportedEventTypes : list string := [EventTypeRequestCreated; EventTypeRequestStatusChanged].

Record EventRequest := mkEventRequest { er_ID : string; er_Title : string; er_Status : string; er_CreatedAt : string }.
Record WireEvent := mkWireEvent {
  we_EventID : string; we_EventType : string; we_OccurredAt : string; we_Request : EventRequest
}.

(** [MemoryDedupe] *)
Definition memory_mark (eventID : string) (seen : gset string) : (string + bool) * gset string :=
  if bool_decide (eventID ∈ seen) then (inr false, seen) else (inr true, {[eventID]} ∪ seen).

(** [PostgresDedupe], over the table of [apps/worker/migrations/0002_processed_events.sql]. *)
Module PostgresDedupe.

(** The keys of [processed_events], and how many round trips to the server were made. *)
Record t := make { processed_events : gset string; trips : nat }.

Section dedupe.
  (** [uuid] is the identifier a text is read as, if it can be; [fault n] is the error of the
      [n]th round trip, if any, and [committed n] tells if a statement whose answer is an
      error took effect. *)
  Context (uuid : string → option string) (fault : nat → option string) (committed : nat → bool).

(** [INSERT INTO processed_events ... ON CONFLICT (event_id) DO NOTHING]: the rows affected. *)
Definition insert_event (k : string) (rows : gset string) : Z * gset string :=
  if bool_decide (k ∈ rows) then (0, rows) else (1, {[k]} ∪ rows).

Definition mark (eventID : string) (d : t) : (string + bool) * t :=
  let n := trips d in
  match uuid eventID with
  | None => (inl "invalid input syntax for type uuid", make (processed_events d) (S n))
  | Some k =>
      let '(affected, rows) := insert_event k (processed_events d) in
      match fault n with
      | Some err => (inl err, make (if committed n then rows else processed_events d) (S n))
      | None => (inr (affected =? 1), make rows (S n))
      end
  end.
End dedupe.
End PostgresDedupe.

Inductive handle_error :=
  | Malformed (err : string)
  | EventIDRequired
  | UnsupportedEventType (event_type : string)
  | DedupeFailed (err : string)
  | ApplyFailed (err : string).

Section handler.
  (** [Unmarshal] is the decoding of JSON into an [Event]; [mark] and [apply] are the
      two values a handler is made of, over states of their own. *)
  Context {D A : Type} (Unmarshal : string → string + WireEvent).
  Context (mark : string → D → (string + bool) * D) (apply : WireEvent → A → option string * A).

Definition Handle (data : string) (st : D * A) : option handle_error * (D * A) :=
  let '(d, a) := st in
  match Unmarshal data with
  | inl err => (Some (Malformed err), (d, a))
  | inr event =>
      if we_EventID event ≟ "" then (Some EventIDRequired, (d, a))
      else if negb (bool_decide (we_EventType event ∈ supportedEventTypes)) then
        (Some (UnsupportedEventType (we_EventType event)), (d, a))
      else
        match mark (we_EventID event) d with
        | (inl err, d) => (Some (DedupeFailed err), (d, a))
        | (inr fresh, d) =>
            if negb fresh then (None, (d, a)) else let '(err, a) := apply event a in (ApplyFailed <$> err, (d, a))
        end
  end.

(** The messages of a subscription one after the other, with what each handling returned;
    [main] acknowledges a message whose handling returned no error. *)
Fixpoint deliver (msgs : list string) (st : D * A) : list (option handle_error) * (D * A) :=
  match msgs with
  | [] => ([], st)
  | data :: msgs => let '(err, st) := Handle data st in let '(errs, st) := deliver msgs st in (err :: errs, st)
  end.
End handler.

(** The gate of idempotency: what it has seen.  [key] is what an identifier is recorded as,
    if it can be.  A mark that reports an error may have taken effect all the same - the
    answer can be lost. *)
Class Dedupe {D : Type} (mark : string → D → (string + bool) * D) (key : string → option string) (seen : D → gset string)
    : Prop :=
  dedupe_mark id d :
    match mark id d with
    | (inr fresh, d') => ∃ k, key id = Some k ∧ fresh = negb (bool_decide (k ∈ seen d)) ∧ seen d' = {[k]} ∪ seen d
    | (inl _, d') => seen d' = seen d ∨ ∃ k, key id = Some k ∧ seen d' = {[k]} ∪ seen d
    end.

#[export] Instance memory_dedupe : Dedupe memory_mark Some id.
Proof.
  intros k d. unfold memory_mark, id. destruct (bool_decide_reflect (k ∈ d)) as [Hk|Hk]; exists k; rewrite ?bool_decide_true, ?bool_decide_false by done.
  - split_and!; [done|done|set_solver].
  - done.
Qed.

#[export] Instance postgres_dedupe uuid fault committed :
  Dedupe (PostgresDedupe.mark uuid fault committed) uuid PostgresDedupe.processed_events.
Proof.
  intros i d. unfold PostgresDedupe.mark. destruct (uuid i) as [k|]; [|by left]. unfold PostgresDedupe.insert_event.
  destruct (bool_decide_reflect (k ∈ PostgresDedupe.processed_events d)) as [Hk|Hk]; destruct (fault _); cbn.
  - left. by destruct (committed _).
  - exists k. split_and!; [done| |set_solver]. by rewrite bool_decide_true.
  - destruct (committed _); [right; by exists k|by left].
  - exists k. split_and!; [done| |done]. by rewrite bool_decide_false.
Qed.

Section exactly_once.
  Context {D A : Type} {Unmarshal : string → string + WireEvent}.
  Context {mark : string → D → (string + bool) * D} {apply : WireEvent → A → option string * A}.
  Context {key : string → option string} {seen : D → gset string} {Hdedupe : Dedupe mark key seen}.
  (** [applied] tells the calls to [apply], in order. *)
  Context {applied : A → list WireEvent}.
  Context (Happlied : ∀ e a, applied (apply e a).2 = (applied a ++ [e])%list).

Definition valid_event (e : WireEvent) : Prop := we_EventID e ≠ "" ∧ we_EventType e ∈ supportedEventTypes.

(** What an event is recorded as. *)
Definition event_key (e : WireEvent) : option string := key (we_EventID e).

(** Every event applied was seen, and was applied once. *)
Definition applied_once (st : D * A) : Prop :=
  NoDup (event_key <$> applied st.2) ∧ (∀ e, e ∈ applied st.2 → ∃ k, event_key e = Some k ∧ k ∈ seen st.1) ∧
  Forall valid_event (applied st.2).

(** The mark of [data] failed, recorded or not. *)
Definition mark_failed (data : string) (err : option handle_error) (k : string) : Prop :=
  ∃ e text, Unmarshal data = inr e ∧ event_key e = Some k ∧ err = Some (DedupeFailed text).
Definition passed_on (a : A) (k : string) : Prop := ∃ e, e ∈ applied a ∧ event_key e = Some k.

(** One message: its event is applied, for the first time; or nothing is, and then an
    accepted message was seen before, and one whose mark failed may be seen now. *)
Lemma delivery_cases data st :
  let '(err, st') := Handle Unmarshal mark apply data st in
  (st'.2 = st.2 ∧
    (seen st'.1 = seen st.1 ∨ ∃ k, mark_failed data err k ∧ seen st'.1 = {[k]} ∪ seen st.1) ∧
    (err = None → ∃ e k, Unmarshal data = inr e ∧ event_key e = Some k ∧ k ∈ seen st.1)) ∨
  (∃ e k, Unmarshal data = inr e ∧ valid_event e ∧ event_key e = Some k ∧ (k ∉ seen st.1) ∧
    seen st'.1 = ({[k]} ∪ seen st.1) ∧ (applied st'.2 = applied st.2 ++ [e])%list).
Proof.
  destruct st as [d a]. unfold Handle. destruct (Unmarshal data) as [err|e] eqn:Hu; [by left; split_and!; [|left|]|].
  destruct (bool_decide_reflect (we_EventID e = "")); [by left; split_and!; [|left|]|].
  destruct (bool_decide_reflect (we_EventType e ∈ supportedEventTypes)); [|by left; split_and!; [|left|]]. cbn [negb].
  pose proof (dedupe_mark (we_EventID e) d) as Hm. destruct (mark _ d) as [[err|fresh] d'].
  - left. cbn. split_and!; [done| |done]. destruct Hm as [?|(k & Hk & ?)]; [by left|]. right. exists k. split; [|done]. by exists e, err.
  - destruct Hm as (k & Hk & -> & Hs). destruct (bool_decide_reflect (k ∈ seen d)) as [Hin|Hin]; cbn [negb].
    + left. cbn. split_and!; [done|left; set_solver|]. intros _. by exists e, k.
    + pose proof (Happlied e a) as Ha. destruct (apply e a) as [err a']. right. by exists e, k.
Qed.

(** The events applied since come from the messages. *)
Definition applied_from (msgs : list string) (l l' : list WireEvent) : Prop :=
  ∃ more, l' = (l ++ more)%list ∧ Forall (λ e, ∃ data, data ∈ msgs ∧ Unmarshal data = inr e) more.

Lemma handle_once data st :
  applied_once st →
  let '(err, st') := Handle Unmarshal mark apply data st in
  applied_once st' ∧ applied_from [data] (applied st.2) (applied st'.2) ∧
  (∀ k, k ∈ seen st'.1 → k ∈ seen st.1 ∨ passed_on st'.2 k ∨ mark_failed data err k) ∧
  (err = None → ∃ e k, Unmarshal data = inr e ∧ event_key e = Some k ∧ (k ∈ seen st.1 ∨ passed_on st'.2 k)).
Proof.
  intros (Hnd & Hseen & Hval). pose proof (delivery_cases data st) as H.
  destruct (Handle Unmarshal mark apply data st) as [err [d' a']]. cbn [fst snd] in *.
  destruct H as [(-> & Hs & Herr)|(e & k & Hu & Hv & Hk & Hin & Hs & Ha)].
  - split_and!.
    + split_and!; [done| |done]. intros e He. destruct (Hseen e He) as (k & ? & ?). exists k. split; [done|]. cbn.
      destruct Hs as [-> | (? & _ & ->)]; set_solver.
    + exists []. by rewrite app_nil_r.
    + intros k Hk. destruct Hs as [Hs|(k' & Hf & Hs)]; rewrite Hs in Hk; [by left|].
      apply elem_of_union in Hk as [->%elem_of_singleton|Hk]; [by right; right|by left].
    + intros He. destruct (Herr He) as (e & k & ? & ? & ?). exists e, k. auto.
  - assert (Hp : passed_on a' k) by (exists e; rewrite Ha; set_solver). split_and!.
    + unfold applied_once. cbn [fst snd]. rewrite Ha, fmap_app. split_and!.
      * apply NoDup_app. split_and!; [done| |apply NoDup_singleton]. cbn. rewrite Hk.
        intros x (y & -> & Hy)%list_elem_of_fmap Hx. destruct (Hseen y Hy) as (k' & Hy' & ?). rewrite Hy' in Hx. set_solver.
      * intros x [Hx| ->%list_elem_of_singleton]%elem_of_app; rewrite Hs; [|exists k; set_solver].
        destruct (Hseen x Hx) as (k' & ? & ?). exists k'. set_solver.
      * by apply Forall_app_2; [|constructor].
    + exists [e]. split; [done|]. apply Forall_singleton. exists data. split; [by left|done].
    + intros k' Hk'. rewrite Hs in Hk'. apply elem_of_union in Hk' as [->%elem_of_singleton|?]; auto.
    + intros _. exists e, k. auto.
Qed.

(** A mark among the first [n] messages failed. *)
Definition earlier_failed (msgs : list string) (errs : list (option handle_error)) (n : nat) (k : string) : Prop :=
  ∃ j data err, (j < n)%nat ∧ msgs !! j = Some data ∧ errs !! j = Some err ∧ mark_failed data err k.

Lemma deliver_once msgs st :
  applied_once st →
  let '(errs, st') := deliver Unmarshal mark apply msgs st in
  applied_once st' ∧ applied_from msgs (applied st.2) (applied st'.2) ∧ length errs = length msgs ∧
  (∀ n data, msgs !! n = Some data → errs !! n = Some None →
    ∃ e k, Unmarshal data = inr e ∧ event_key e = Some k ∧
      (k ∈ seen st.1 ∨ passed_on st'.2 k ∨ earlier_failed msgs errs n k)).
Proof.
  revert st. induction msgs as [|data msgs IH]; intros st Hst; cbn [deliver].
  { split_and!; [done|exists []; by rewrite app_nil_r|done|]. intros k data Hk. by rewrite lookup_nil in Hk. }
  pose proof (handle_once data st Hst) as Hone. destruct (Handle _ _ _ data st) as [err st1].
  destruct Hone as (Hst1 & (more1 & Hm1 & Hf1) & Hacc & Herr1). specialize (IH st1 Hst1).
  destruct (deliver _ _ _ msgs st1) as [errs st2]. destruct IH as (Hst2 & (more2 & Hm2 & Hf2) & Hlen & Hall).
  assert (Hlater : ∀ k, passed_on st1.2 k → passed_on st2.2 k).
  { intros k (e & He & ?). exists e. split; [|done]. rewrite Hm2. set_solver. }
  split; [done|split; [|split]].
  - exists (more1 ++ more2)%list. rewrite Hm2, Hm1, app_assoc. split; [done|]. apply Forall_app_2.
    + eapply Forall_impl; [exact Hf1|]. intros e (x & ->%list_elem_of_singleton & ?). exists data. split; [by left|done].
    + eapply Forall_impl; [exact Hf2|]. intros e (x & ? & ?). exists x. split; [by right|done].
  - cbn. by f_equal.
  - intros [|n] data' Hk He; cbn in Hk, He; simplify_eq.
    + destruct (Herr1 eq_refl) as (e & k & Hu & Hke & Hor). exists e, k. split_and!; [done|done|]. destruct Hor as [?|?%Hlater]; auto.
    + destruct (Hall n data' Hk He) as (e & k & Hu & Hke & Hor). exists e, k. split_and!; [done|done|].
      destruct Hor as [Hor|[?|(j & x & y & ? & ? & ? & ?)]]; [|by auto|].
      * apply Hacc in Hor as [?|[?%Hlater|?]]; [by auto..|]. right; right. exists 0%nat, data, err. split_and!; [lia|done..].
      * right; right. exists (Datatypes.S j), x, y. split_and!; [lia|done..].
Qed.

Lemma nothing_applied d a : applied a = [] → applied_once (d, a).
Proof. intros Ha. unfold applied_once. cbn. rewrite Ha. split_and!; [constructor|by intros e ?%elem_of_nil|constructor]. Qed.

(** Events recorded differently have different identifiers. *)
Lemma distinct_ids l : NoDup (event_key <$> l) → NoDup (we_EventID <$> l).
Proof using Type.
  clear. intros H. apply (NoDup_fmap_1 key). rewrite <- list_fmap_compose. exact H.
Qed.

(** A message that carries a valid event is never refused for its form. *)
Definition refused (err : option handle_error) : Prop :=
  match err with Some (Malformed _ | EventIDRequired | UnsupportedEventType _) => True | _ => False end.
Lemma deliver_valid msgs st :
  Forall (λ data, ∃ e, Unmarshal data = inr e ∧ valid_event e) msgs →
  Forall (λ err, ¬ refused err) (deliver Unmarshal mark apply msgs st).1.
Proof using Type.
  revert st. induction msgs as [|data msgs IH]; intros [d a]; cbn [deliver]; [by constructor|].
  intros [(e & Hu & Hid & Ht) Hf]%Forall_cons. unfold Handle. rewrite Hu.
  rewrite (bool_decide_false (_ = "")), (bool_decide_true (_ ∈ supportedEventTypes)) by done. cbn [negb].
  destruct (mark (we_EventID e) d) as [[err|[]] d1]; cbn [negb].
  2: destruct (apply e a) as [err a1].
  all: match goal with |- context [deliver _ _ _ ?ms ?st] => specialize (IH st Hf); destruct (deliver _ _ _ ms st) end;
    (constructor; [try (by intros [])|exact IH]); by destruct err; intros [].
Qed.

(** C25: the handler applies no event twice, however often it is delivered and whatever
    marks fail or lose their answer; only supported events with an identifier are
    applied, and they come from the messages.  A message that is acknowledged has had
    its event passed on to be applied - unless an earlier mark of that event reported
    an error, which may have recorded it all the same (see [lost_mark_never_applied]). *)
Theorem applied_at_most_once msgs d a :
  seen d = ∅ → applied a = [] →
  let '(errs, st) := deliver Unmarshal mark apply msgs (d, a) in
  NoDup (event_key <$> applied st.2) ∧ NoDup (we_EventID <$> applied st.2) ∧
  Forall (λ e, valid_event e ∧ ∃ data, data ∈ msgs ∧ Unmarshal data = inr e) (applied st.2) ∧
  length errs = length msgs ∧
  (∀ n data, msgs !! n = Some data → errs !! n = Some None →
    ∃ e k, Unmarshal data = inr e ∧ event_key e = Some k ∧
      (passed_on st.2 k ∨
       ∃ j data' e' text, (j < n)%nat ∧ msgs !! j = Some data' ∧ Unmarshal data' = inr e' ∧ event_key e' = Some k ∧
         errs !! j = Some (Some (DedupeFailed text)))).
Proof.
  intros Hd Ha. pose proof (deliver_once msgs (d, a) (nothing_applied d a Ha)) as H.
  destruct (deliver _ _ _ msgs (d, a)) as [errs st]. destruct H as ((Hnd & _ & Hval) & (more & Hm & Hf) & Hlen & Hack).
  cbn [fst snd] in *. rewrite Ha in Hm. cbn [app] in Hm. subst more.
  split_and!; [done|by apply distinct_ids| |done|].
  - apply Forall_and. by split.
  - intros n data Hk He. destruct (Hack n data Hk He) as (e & k & ? & ? & Hor). exists e, k. split_and!; [done|done|].
    destruct Hor as [Hin|[?|(j & x & err & ? & ? & ? & (e' & text & ? & ? & ->))]]; [|by left|].
    + rewrite Hd in Hin. set_solver.
    + right. by exists j, x, e', text.
Qed.
End exactly_once.

(** * A failed application *)

(** An event is marked before it is applied: when the application fails, the message is
    not acknowledged, and its redelivery is taken for a duplicate, acknowledged and dropped. *)
Theorem failed_apply_lost (D A : Type) (Unmarshal : string → string + WireEvent)
    (apply : WireEvent → A → option string * A) data e err a a' :
  Unmarshal data = inr e → valid_event e → apply e a = (Some err, a') →
  deliver Unmarshal memory_mark apply [data; data] (∅, a) =
    ([Some (ApplyFailed err); None], ({[we_EventID e]}, a')).
Proof.
  intros Hu [Hid Ht] Ha. unfold deliver, Handle, memory_mark. rewrite !Hu.
  rewrite (bool_decide_false (_ = "")), (bool_decide_true (_ ∈ supportedEventTypes)) by done. cbn [negb].
  rewrite bool_decide_false by set_solver. cbn [negb]. rewrite Ha.
  rewrite bool_decide_true by set_solver. cbn. by rewrite (right_id_L ∅ (∪)).
Qed.

(** The same in the deployed worker when the database records a mark and its answer is lost:
    the redelivery of the event is acknowledged, and the event is never passed on. *)
Theorem lost_mark_never_applied (A : Type) (Unmarshal : string → string + WireEvent)
    (apply : WireEvent → A → option string * A) uuid fault committed data e k text d a :
  Unmarshal data = inr e → valid_event e → uuid (we_EventID e) = Some k → (k ∉ PostgresDedupe.processed_events d) →
  fault (PostgresDedupe.trips d) = Some text → committed (PostgresDedupe.trips d) = true → fault (S (PostgresDedupe.trips d)) = None →
  let '(errs, st) := deliver Unmarshal (PostgresDedupe.mark uuid fault committed) apply [data; data] (d, a) in
  errs = [Some (DedupeFailed text); None] ∧ st.2 = a.
Proof.
  intros Hu [Hid Ht] Hk Hn Hf Hc Hf'. cbn [deliver]. unfold Handle. rewrite !Hu.
  rewrite (bool_decide_false (_ = "")), (bool_decide_true (_ ∈ supportedEventTypes)) by done. cbn [negb].
  unfold PostgresDedupe.mark, PostgresDedupe.insert_event. rewrite Hk, bool_decide_false, Hf, Hc by done.
  cbn [PostgresDedupe.processed_events PostgresDedupe.trips]. rewrite bool_decide_true, Hf' by set_solver. done.
Qed.

(** * Witnesses *)

(** A broker in memory: the rows, those published, and the messages it takes. *)
Record wit_state := mkWitState { ws_pending : list OutboxRecord; ws_sent : list (string * string) }.
Definition wit_ops : PollerOps wit_state := mkPollerOps wit_state
  (λ limit s, inr (take (Z.to_nat limit) (ws_pending s)))
  (λ id s, (None, mkWitState (base.filter (λ r, or_EventID r ≠ id) (ws_pending s)) (ws_sent s)))
  (λ subject data s, if data ≟ "poison" then (Some "timeout", s)
                     else (None, mkWitState (ws_pending s) (ws_sent s ++ [(subject, data)]))).
#[local] Instance wit_broker : Broker wit_ops ws_pending ws_sent.
Proof.
  split.
  - by intros limit s rs [= <-].
  - done.
  - intros subject data s. cbn. case_bool_decide; cbn; auto.
Qed.
Definition wit_routes : list (string * string) :=
  [("request-created", "requests.created"); ("request-status-changed", "requests.status-changed")].
Definition wit_rows : wit_state := mkWitState
  [mkOutboxRecord "e1" "request-created" "a"; mkOutboxRecord "e2" "request-status-changed" "b";
   mkOutboxRecord "e3" "request-created" "poison"; mkOutboxRecord "e4" "request-created" "c"] [].

Lemma batch_in_order_witness :
  PublishBatch wit_ops (NewPoller wit_routes 0) wit_rows =
    ((2, Some (PublishFailed "e3" "timeout")),
     mkWitState (drop 2 (ws_pending wit_rows)) [("requests.created", "a"); ("requests.status-changed", "b")]) ∧
  ∃ done messages extra, ws_pending wit_rows = (done ++ drop 2 (ws_pending wit_rows))%list ∧
    mapM (message (NewPoller wit_routes 0)) done = Some messages ∧
    [("requests.created", "a"); ("requests.status-changed", "b")] = (messages ++ extra)%list.
Proof.
  assert (H : PublishBatch wit_ops (NewPoller wit_routes 0) wit_rows =
    ((2, Some (PublishFailed "e3" "timeout")),
     mkWitState (drop 2 (ws_pending wit_rows)) [("requests.created", "a"); ("requests.status-changed", "b")]))
    by (by vm_compute).
  split; [done|]. eapply (batch_in_order (pending := ws_pending) (sent := ws_sent)) in H
    as (d & ms & ex & ? & _ & ? & ? & _).
  - by exists d, ms, ex.
  - by apply (bool_decide_unpack _).
Defined.

Definition wit_decode (data : string) : string + WireEvent :=
  if data ≟ "bad" then inl "invalid character" else
  inr (mkWireEvent data EventTypeRequestCreated "t0" (mkEventRequest "r1" "printer" "created" "t0")).
Definition wit_apply (e : WireEvent) (a : list WireEvent) : option string * list WireEvent := (None, (a ++ [e])%list).

(** A database whose first round trip loses its answer. *)
Definition wit_mark := PostgresDedupe.mark Some (λ n, if (n =? 0)%nat then Some "connection reset" else None) (λ _, true).

Lemma applied_at_most_once_witness :
  let '(errs, st) := deliver wit_decode wit_mark wit_apply ["e0"; "e1"; "e2"; "bad"; "e1"; "e0"] (PostgresDedupe.make ∅ 0, []) in
  errs = [Some (DedupeFailed "connection reset"); None; None; Some (Malformed "invalid character"); None; None] ∧
  (we_EventID <$> st.2) = ["e1"; "e2"] ∧ NoDup (we_EventID <$> st.2).
Proof.
  pose proof (applied_at_most_once (Unmarshal := wit_decode) (mark := wit_mark) (apply := wit_apply)
    (key := Some) (seen := PostgresDedupe.processed_events) (applied := id) (Hdedupe := postgres_dedupe _ _ _) (λ _ _, eq_refl)
    ["e0"; "e1"; "e2"; "bad"; "e1"; "e0"] (PostgresDedupe.make ∅ 0) [] eq_refl eq_refl) as H.
  destruct (deliver _ _ _ _ _) as [errs st] eqn:E. destruct H as (_ & Hnd & _). vm_compute in E. injection E as <- <-.
  split_and!; [done|done|apply Hnd].
Defined.

Lemma lost_mark_never_applied_witness :
  let '(errs, st) := deliver wit_decode wit_mark wit_apply ["e0"; "e0"] (PostgresDedupe.make ∅ 0, []) in
  errs = [Some (DedupeFailed "connection reset"); None] ∧ st.2 = [].
Proof.
  apply (lost_mark_never_applied (list WireEvent) wit_decode wit_apply Some
    (λ n, if (n =? 0)%nat then Some "connection reset" else None) (λ _, true) "e0"
    (mkWireEvent "e0" EventTypeRequestCreated "t0" (mkEventRequest "r1" "printer" "created" "t0")) "e0" "connection reset"
    (PostgresDedupe.make ∅ 0) []); try reflexivity; [|set_solver].
  split; [discriminate|by apply (bool_decide_unpack _)].
Defined.
