(* ===== verification/Delivery.v ===== *)
(** From the request service to the worker: the outbox that the service writes, the routes of
    [apps/publisher/main.go], and the subscription of [apps/worker/main.go].  The parts
    are those of [Requests], [Postgres] and [Outbox]. *)

From S2P Require Export Postgres Outbox.
From S2P Require Import Json.
#[local] Open Scope Z_scope.

(** * The chain *)

(** [eventSubjects] of the publisher, and the worker's [subject]. *)
Definition eventSubjects : list (string * string) :=
  [("request-created", "requests.created"); ("request-status-changed", "requests.status-changed")].
Definition subject : string := "requests.created".

(** The fields of a decoded object; a missing one is the empty string. *)
Definition text_of (d : dict) (k : string) : string := match dget d k with Some (VStr s) => s | _ => "" end.
Definition object_of (d : dict) (k : string) : dict := match dget d k with Some (VDict o) => o | _ => [] end.
Definition decoded (d : dict) : WireEvent :=
  let r := object_of d "request" in
  mkWireEvent (text_of d "event_id") (text_of d "event_type") (text_of d "occurred_at")
    (mkEventRequest (text_of r "id") (text_of r "title") (text_of r "status") (text_of r "created_at")).

Section chain.
  (** [stored_text] is the text of a payload as the outbox gives it back, and [Unmarshal] the
      worker's decoder. *)
  Context (stored_text : dict → string) (Unmarshal : string → string + WireEvent).

(** The decoder reads the fields of the object that was stored. *)
Definition readable (e : Event) : Prop :=
  ∀ payload, buildPayload e = inr payload → Unmarshal (stored_text payload) = inr (decoded payload).

(** The row of an event, as the publisher fetches it. *)
Definition row_of (e : Event) : option OutboxRecord :=
  match buildPayload e with
  | inr payload => Some (mkOutboxRecord (ev_EventID e) (ev_EventType e) (stored_text payload))
  | inl _ => None
  end.

(** What the worker sees of an event, as a specification of the chain. *)
Definition wire_of (e : Event) : WireEvent :=
  let r := ev_Request e in
  let created := bool_decide (ev_EventType e = eventTypeRequestCreated) in
  mkWireEvent (ev_EventID e) (ev_EventType e) (ev_OccurredAt e)
    (mkEventRequest (rq_ID r) (if created then rq_Title r else "") (rq_Status r) (if created then rq_CreatedAt r else "")).

(** Every event the service records has a payload, a route, and a type the worker supports;
    the worker reads its identifier, type, request and status. *)
Lemma well_formed_row e :
  readable e → well_formed_event e →
  ∃ row, row_of e = Some row ∧ or_EventID row = ev_EventID e ∧ or_EventType row = ev_EventType e ∧
    is_Some (kget eventSubjects (or_EventType row)) ∧ Unmarshal (or_Payload row) = inr (wire_of e) ∧
    we_EventType (wire_of e) ∈ supportedEventTypes.
Proof.
  intros Hre Hwf. unfold row_of. unfold readable in Hre. unfold buildPayload in *.
  destruct Hwf as [[Ht _]|[Ht _]]; rewrite Ht in *; cbn in Hre |- *; specialize (Hre _ eq_refl); unfold wire_of; rewrite Ht;
    (eexists; split_and!; [reflexivity|done|done|by eexists|exact Hre|by apply (bool_decide_unpack _)]).
Qed.

Lemma in_story e outbox : e ∈ outbox → story (rq_ID (ev_Request e)) outbox ≠ [].
Proof.
  intros He E. apply (not_elem_of_nil (rq_Status (ev_Request e))). rewrite <- E. unfold story.
  apply list_elem_of_omap. exists e. split; [done|]. unfold told. by rewrite bool_decide_true.
Qed.

(** C36: end to end, from the calls of the service to the applications of the worker.  Take any
    messages the worker's subject can carry - payloads of events in the outbox that are
    routed there, in any order, any number of times.  The worker refuses none of them as
    malformed or unsupported, whatever it has seen before; what it applies are creations of the outbox, none twice; and the
    request of each was stored with a legal life cycle since. *)
Theorem worker_sees_created {S D A : Type} (store : StoreOps S) key requests outbox `{!Store store key requests outbox}
    (mark : string → D → (string + bool) * D) (recorded_as : string → option string) (seen : D → gset string)
    `{!Dedupe mark recorded_as seen}
    (apply : WireEvent → A → option string * A) (applied : A → list WireEvent)
    (Happlied : ∀ e a, applied (apply e a).2 = (applied a ++ [e])%list) s0 s msgs d a :
  requests s0 = ∅ → outbox s0 = [] → rtc (serial_step (store := store) (key := key) (requests := requests) (outbox := outbox)) s0 s →
  Forall (λ e, ev_EventID e ≠ "" ∧ readable e) (outbox s) →
  Forall (λ data, ∃ e row, e ∈ outbox s ∧ row_of e = Some row ∧ or_Payload row = data ∧
    kget eventSubjects (or_EventType row) = Some subject) msgs →
  applied a = [] →
  let '(errs, st) := deliver Unmarshal mark apply msgs (d, a) in
  Forall (λ err, ¬ refused err) errs ∧
  NoDup (we_EventID <$> applied st.2) ∧
  Forall (λ w, ∃ e r, e ∈ outbox s ∧ w = wire_of e ∧ ev_EventType e = eventTypeRequestCreated ∧
    requests s !! rq_ID (ev_Request e) = Some r ∧ legal_story (story (rq_ID r) (outbox s))) (applied st.2).
Proof.
  intros Hr Ho Hs Hids Hmsgs Ha.
  pose proof (reachable_consistent s0 s Hr Ho Hs) as Hcons. pose proof (reachable_events s0 s Hr Ho Hs) as Hwf.
  assert (Hm : Forall (λ data, ∃ e, e ∈ outbox s ∧ Unmarshal data = inr (wire_of e) ∧ valid_event (wire_of e) ∧
    ev_EventType e = eventTypeRequestCreated) msgs).
  { eapply Forall_impl; [exact Hmsgs|]. intros data (e & row & He & Hrow & <- & Hsub). exists e. split; [done|].
    rewrite Forall_forall in Hwf, Hids. pose proof (Hwf e He) as Hwe. pose proof (Hids e He) as [Hid Hre].
    destruct (well_formed_row e Hre Hwe) as (row' & Hrow' & _ & Ht & _ & Hu & Hsup). assert (row' = row) as -> by congruence.
    split; [done|split; [done|]]. destruct Hwe as [[Hc _]|[Hc _]]; [done|]. by rewrite Ht, Hc in Hsub. }
  pose proof (deliver_valid (mark := mark) (apply := apply) (Unmarshal := Unmarshal) msgs (d, a)) as Hval.
  pose proof (deliver_once (Unmarshal := Unmarshal) Happlied msgs (d, a) (nothing_applied d a Ha)) as Hone.
  destruct (deliver Unmarshal mark apply msgs (d, a)) as [errs st]. destruct Hone as ((Hnd & _) & (more & Hmore & Hf) & _).
  split_and!; [|by eapply distinct_ids|].
  - apply Hval. eapply Forall_impl; [exact Hm|]. intros data (e & _ & Hu & Hv & _). by exists (wire_of e).
  - cbn [snd] in Hmore. rewrite Ha in Hmore. cbn [app] in Hmore. rewrite Hmore.
    eapply Forall_impl; [exact Hf|]. intros w (data & Hin & Hu). rewrite Forall_forall in Hm.
    destruct (Hm data Hin) as (e & He & Hu' & _ & Hc). assert (w = wire_of e) as -> by congruence.
    specialize (Hcons (rq_ID (ev_Request e))). exists e.
    destruct (requests s !! rq_ID (ev_Request e)) as [r|] eqn:E.
    + exists r. destruct Hcons as (-> & ? & _). done.
    + exfalso. apply (in_story _ _ He). exact Hcons.
Qed.
End chain.

(** * Witnesses *)

(** A database whose identifiers and times are read as they are, and that never fails. *)
Definition wit_db : StoreOps PostgresStore.t := PostgresStore.ops Some Some (λ _, None) (λ _, false) id.
#[local] Instance wit_db_store : Store wit_db Some PostgresStore.requests PostgresStore.outbox :=
  postgres_store (uuid := Some) (order_by := id) (λ _ _ _, eq_refl) (λ l, Permutation_refl l).
Definition wit_empty : PostgresStore.t := PostgresStore.make ∅ [] 0.
Definition wit_db_created : PostgresStore.t := (CreateRequest wit_db "t0" "r1" "e0" wit_ask wit_empty).2.
Definition wit_db_triaged : PostgresStore.t :=
  (UpdateRequestStatus wit_db "t1" "e1" (wit_triage "operator") wit_db_created).2.

(** Payloads written as the Python side writes JSON, and read back field by field. *)
Definition wit_text (d : dict) : string := dumps plain (VDict d).
Definition wit_unmarshal (data : string) : string + WireEvent :=
  match loads data with Ok (VDict d) => inr (decoded d) | _ => inl "invalid character" end.
Definition wit_message : string :=
  match buildPayload (mkEvent "e0" eventTypeRequestCreated "t0" (mkRequest "r1" "printer" "does not print" "u1" statusCreated "t0") "")
  with inr d => wit_text d | inl _ => "" end.

Lemma worker_sees_created_witness :
  let '(errs, st) := deliver wit_unmarshal memory_mark wit_apply [wit_message; wit_message] (∅, []) in
  errs = [None; None] ∧ Forall (λ err, ¬ refused err) errs ∧ (er_Title ∘ we_Request <$> st.2) = ["printer"].
Proof.
  assert (Hids : Forall (λ e, ev_EventID e ≠ "" ∧ readable wit_text wit_unmarshal e) (PostgresStore.outbox wit_db_triaged)).
  { let l := eval vm_compute in (PostgresStore.outbox wit_db_triaged) in change (PostgresStore.outbox wit_db_triaged) with l.
    repeat (apply Forall_cons_2; [split; [done|intros payload [= <-]; by vm_compute]|]). apply Forall_nil_2. }
  pose proof (worker_sees_created wit_text wit_unmarshal wit_db Some PostgresStore.requests PostgresStore.outbox
    memory_mark Some id wit_apply id (λ _ _, eq_refl) wit_empty wit_db_triaged [wit_message; wit_message] ∅ [] eq_refl eq_refl) as H.
  specialize (H ltac:(eapply rtc_l; [by apply (serial_create "t0" "r1" "e0" wit_ask)|];
    eapply rtc_l; [apply (serial_update "t1" "e1" (wit_triage "operator"))|]; apply rtc_refl) Hids).
  destruct (deliver _ _ _ _ _) as [errs st] eqn:E. vm_compute in E. injection E as <- <-.
  split_and!; [done| |done]. apply H; [|done].
  apply Forall_replicate with (n := 2%nat). eexists _, _. split_and!; [apply list_elem_of_here|reflexivity|by vm_compute|done].
Defined.
